(* ===== verification/_CoqProject ===== *)
-Q . S2P
Prelude.v
State.v
Protocol.v
Double.v
Text.v
Server.v
Room.v
ServerCore.v
ServerRefine.v
Scenario.v
ServerRun.v
Events.v
ServerProps.v
Commands.v
Poll.v
Client.v
Overlay.v
Presentation.v
Replication.v
ClientRom.v
ClientQueue.v
Delivery.v
Admission.v
Interface.v
Discovery.v
DiscoveryProps.v
DiscoverySockets.v
Address.v
Session.v
SessionQueue.v
SessionHost.v
SessionOwner.v
SessionRun.v
SessionLive.v
Main.v
MainProps.v
