(* ===== verification/Prelude.v ===== *)
(** * F-Zero VS: a verification development

    F-Zero VS adds online races to a single-player console game. A host runs a
    race server that owns the room, the timing and the results; each player's
    emulator runs a client that patches the cartridge in memory, reads the
    local machine from it, and exchanges small UDP datagrams with the server; a
    session in the emulator hosts a server or finds one on the local network;
    and a program runs the server on its own. This development is a model of
    that code, one definition per function, and the theorems that make it
    correct. All code named below is under [src/].

    ** The parts and the files

    - [Prelude] (this file): machine integers as [Z] with their wrap-around
      written out, bytes, [memcpy], list lemmas, tactics and hint databases.
      [State]: the state monad of the model, its Hoare rules, and [keeps] and
      [pres] (what an operation leaves alone, the invariants it keeps).
      [Double]: the type [double], as the Standard Library's [SpecFloat].
      [Text]: the [printf] conversions in use.
    - [Protocol] models [shared/fzvs_protocol.h]: constants, packets, the
      little-endian accessors, [fz_encode], [fz_decode], [fz_newer].
    - [Server] models [server/src/server.c]: the [Server] and [Player] records
      have the fields of the C structs, each function is a definition of the
      same name, and the operating system is the class [Env] (the [n]-th
      reading of the clock, of the random device, the [n]-th datagram, ...).
      What the server sends is recorded in order in its [World].
    - [Room] is the abstract specification of a race room: seats, stages and
      the rules [step]. [ServerCore], [ServerRefine] and [ServerRun] show that
      every call on the server, from every reachable state, is a sequence of
      these rules. [Events] does the same for the event ring and a queue.
      [ServerProps] and [Poll] hold the behaviour of single operations.
      [Commands] has the table of the commands as a pure function, that the
      server applies it, and how far that takes the phases. [Scenario] is a scripted operating system for concrete runs.
    - [Client] models [client/fzvs_client.cpp] and [.hpp]: every method of
      [Client]; the emulated memory is a map, the emulator's reset, the socket
      and the clock are the class [ClientEnv]. [Overlay] is [Client::overlay].
      [ClientRom]: the cartridge is restored. [ClientQueue]: what the client
      keeps is bounded, and when a selection is lost. [Replication]: a snapshot
      of the server makes the client show that server's room. [Admission]: a
      HELLO, its answer and what the client makes of it, and the datagrams of
      strangers. [Delivery]: a command from the client's queue to its effect on
      the server and its acknowledgement back.
    - [Presentation] models [client/fzvs_presentation.hpp]; [Interface] relates
      what the dialog offers to what the server accepts.
    - [Discovery], [DiscoveryProps] and [DiscoverySockets] model and verify the
      class [Discovery] of [client/fzvs_session.cpp]: queries and replies on
      the local network, the list of rooms, the ownership of descriptors.
      [Address] is the address parser of [resolve].
    - [Session] models the class [Session] of [client/fzvs_session.cpp]: the
      worker's loop cut at its critical sections, so that an interleaving of
      the user interface, the resolver threads and the worker is a list of
      actions. [SessionQueue], [SessionHost], [SessionOwner], [SessionRun] and
      [SessionLive] hold its invariants and its progress. The worker hosts a [Server] and
      calls a [Discovery], and their theorems are used here.
    - [Main] and [MainProps] model and verify [server/src/main.c].

    ** What the theorems show

    Each theorem that states a property of the code carries an id [C<n>] in its
    comment. Refinement: the server implements the room rules, its event ring a
    bounded queue, the client mirrors the server's snapshot, and a command goes
    from the client's queue to the server, has the effect the table of commands
    says, and is acknowledged. Invariants:
    the consistency of every reachable server, of the client's queues, of the
    rooms a browser lists, of the session's queue and of what its worker owns;
    a room is announced only while its owner sits in it. Safety: commands are applied once and in order, phases follow one another in
    every tick, datagram and poll, queries are answered to where they came from,
    packets that are not authenticated change nothing, nothing but documented
    cartridge bytes is touched and all are restored, no descriptor is lost, the
    decoder reads only what was received. Behaviour on every branch, errors
    included: admission, movement, the countdown barrier, the command line and
    the address parser. Progress: a shutdown and a stop of the session and a
    signal to the dedicated server take effect within a stated number of steps,
    the loops over the event ring end with the ring empty, and the dedicated
    server has then written exactly the events its polls and its end left in
    the log. Two theorems state flaws of the code: a selection that is lost when
    the command queue is full, and a participant the roster hides. Round trips: the
    wire format both ways, a room advertised and listed, the JSON log.

    ** Environments, bounds and fuel

    Code outside [src/] is a parameter: the classes [Env], [ClientEnv], [DEnv],
    [SEnv] and [MEnv] for the operating system, the network, the emulator and
    the scheduling of signals, with the laws relied on in [EnvLaws] and
    [DEnvLaws] (datagrams are made of bytes, a new descriptor is not one that
    is already open). Each theorem with hypotheses has a
    witness that applies it to a concrete run in a concrete environment. Loops
    with a bound in the code keep it: 128 datagrams per poll of the server and
    per tick of the client, 32 queries and 64 replies per round of discovery.
    Loops over the event ring run at most 257 times, one more than it holds;
    the theorems on [drain] show that this is enough. The loop of [main] has
    fuel, and [main_ends] says how much is enough. Generations of the session
    are 64-bit: its theorems are about fewer than [2^64] actions.

    ** What is not modelled

    Text printed on the standard streams by the client and the session, and the
    contents of the session's log and of the readiness files. The Python tools
    in [mcp/], the patches to the emulator, the build and the tests: they are
    not part of the game's own code. Memory exhaustion, but for the allocation
    in [fz_server_create]. *)

From stdpp Require Export base tactics list option numbers sets strings.
From Stdlib Require Export ZArith Lia.

#[global] Open Scope Z_scope.

(** ** Machine integers

    An unsigned [w]-bit integer of the sources is a [Z]; every conversion to a
    narrower type and every arithmetic operation that may leave the range is
    followed by the matching reduction. *)

Definition u8 (z : Z) : Z := z mod 2 ^ 8.

Definition u16 (z : Z) : Z := z mod 2 ^ 16.

Definition u32 (z : Z) : Z := z mod 2 ^ 32.

Definition u64 (z : Z) : Z := z mod 2 ^ 64.

(** [fits w z]: [z] is a value of the unsigned [w]-bit type. *)
Definition fits (w z : Z) : Prop := 0 <= z < 2 ^ w.

#[export] Instance fits_dec w z : Decision (fits w z).
Proof. unfold fits. apply _. Defined.

(** ** Byte buffers

    A C buffer is the list of its bytes. [rd] reads one byte; the value read
    outside the buffer is never used by the code modelled here, which the
    locality theorems of the codec state. *)

Abbreviation bytes := (list Z).

Definition rd (b : bytes) (i : nat) : Z := default 0 (b !! i).

Definition zeros (n : nat) : bytes := replicate n 0.

Definition all_bytes (b : bytes) : Prop := Forall (fits 8) b.

(** [memcpy dst off src n]: copy [n] bytes of [src] over [dst] at [off]. *)
Fixpoint memcpy (dst : bytes) (off : nat) (src : bytes) (n : nat) : bytes :=
  match n with
  | O => dst
  | S n => memcpy (<[off := rd src 0]> dst) (S off) (tail src) n
  end.

(** [memeq a b n]: [memcmp(a,b,n)==0]. *)
Definition memeq (a b : bytes) (n : nat) : bool :=
  bool_decide (take n a = take n b).

(** ** Tactics *)

Create HintDb fz.
Create HintDb lia.

#[export] Hint Extern 5 (_ <= _)%nat => lia : lia.
#[export] Hint Extern 5 (_ < _)%nat => lia : lia.
#[export] Hint Extern 5 (_ <= _)%Z => lia : lia.
#[export] Hint Extern 5 (_ < _)%Z => lia : lia.

(** Turn the boolean tests of the sources into propositions. *)
Ltac breflect :=
  repeat match goal with
  | H : _ && _ = true |- _ => apply andb_true_iff in H; destruct H
  | H : _ || _ = false |- _ => apply orb_false_iff in H; destruct H
  | H : negb _ = true |- _ => apply negb_true_iff in H
  | H : negb _ = false |- _ => apply negb_false_iff in H
  | H : (_ =? _)%Z = true |- _ => apply Z.eqb_eq in H
  | H : (_ =? _)%Z = false |- _ => apply Z.eqb_neq in H
  | H : (_ <? _)%Z = true |- _ => apply Z.ltb_lt in H
  | H : (_ <? _)%Z = false |- _ => apply Z.ltb_ge in H
  | H : (_ <=? _)%Z = true |- _ => apply Z.leb_le in H
  | H : (_ <=? _)%Z = false |- _ => apply Z.leb_gt in H
  | H : (_ >? _)%Z = true |- _ => rewrite Z.gtb_ltb in H
  | H : (_ >? _)%Z = false |- _ => rewrite Z.gtb_ltb in H
  | H : (_ >=? _)%Z = true |- _ => rewrite Z.geb_leb in H
  | H : (_ >=? _)%Z = false |- _ => rewrite Z.geb_leb in H
  | H : bool_decide _ = true |- _ => apply bool_decide_eq_true in H
  | H : bool_decide _ = false |- _ => apply bool_decide_eq_false in H
  end.

(** The same, splitting disjunctions, to close a goal by arithmetic. *)
Ltac bsolve :=
  breflect;
  repeat match goal with
  | H : _ || _ = true |- _ => apply orb_true_iff in H; destruct H; breflect
  | H : _ && _ = false |- _ => apply andb_false_iff in H; destruct H; breflect
  end; try done; try lia.

(** Case analysis on the condition of an [if] in the goal, reflected. *)
Ltac case_if :=
  match goal with
  | |- context [if ?b then _ else _] => destruct b eqn:?; breflect
  end.

(** The same, naming the test and leaving it boolean. *)
Ltac case_cond H :=
  match goal with
  | |- context [if ?b then _ else _] => destruct b eqn:H
  end.

(** ** Lemmas on machine integers *)

Lemma fits_u8 z : fits 8 (u8 z).
Proof. apply Z.mod_pos_bound. lia. Qed.

Lemma fits_u16 z : fits 16 (u16 z).
Proof. apply Z.mod_pos_bound. lia. Qed.

Lemma fits_u32 z : fits 32 (u32 z).
Proof. apply Z.mod_pos_bound. lia. Qed.

Lemma fits_u64 z : fits 64 (u64 z).
Proof. apply Z.mod_pos_bound. lia. Qed.

Lemma fits_weaken w w' z : fits w z -> w <= w' -> fits w' z.
Proof.
  intros [H0 H1] Hw. split; [lia|].
  destruct (Z.le_gt_cases 0 w).
  - pose proof (Z.pow_le_mono_r 2 w w' ltac:(lia) Hw). lia.
  - rewrite Z.pow_neg_r in H1 by lia. lia.
Qed.

Lemma fits_bits w z : 0 <= w -> fits w z -> z = Z.land z (Z.ones w).
Proof. intros Hw H. rewrite Z.land_ones by lia. symmetry. by apply Z.mod_small. Qed.

Lemma u8_small z : fits 8 z -> u8 z = z.
Proof. apply Z.mod_small. Qed.

Lemma u16_small z : fits 16 z -> u16 z = z.
Proof. apply Z.mod_small. Qed.

Lemma u32_small z : fits 32 z -> u32 z = z.
Proof. apply Z.mod_small. Qed.

Lemma u64_small z : fits 64 z -> u64 z = z.
Proof. apply Z.mod_small. Qed.

#[export] Hint Resolve fits_u8 fits_u16 fits_u32 fits_u64 : fz.

(** The two halves of a little-endian word: joining the [w] low bits and the
    rest gives the word back. *)
Lemma join_split w z :
  0 <= w -> Z.lor (z mod 2 ^ w) (Z.shiftl (Z.shiftr z w) w) = z.
Proof.
  intros Hw. rewrite <- Z.land_ones by lia. apply Z.bits_inj'. intros n Hn.
  rewrite Z.lor_spec, Z.land_spec, Z.testbit_ones, Z.shiftl_spec by lia.
  destruct (Z.ltb_spec n w).
  - rewrite (Z.testbit_neg_r _ (n - w)) by lia.
    replace (0 <=? n) with true by lia. simpl. by rewrite andb_true_r, orb_false_r.
  - rewrite Z.shiftr_spec by lia. replace (n - w + w) with n by lia.
    by rewrite andb_false_r, andb_false_l || rewrite !andb_false_r.
Qed.

Lemma lor_shiftl_add w a b :
  0 <= w -> fits w a -> Z.lor a (Z.shiftl b w) = a + b * 2 ^ w.
Proof.
  intros Hw Ha. rewrite <- Z.shiftl_mul_pow2 by lia.
  assert (Z.land a (Z.shiftl b w) = 0) as Hd.
  { apply Z.bits_inj'. intros n Hn. rewrite Z.land_spec, Z.bits_0.
    destruct (Z.ltb_spec n w).
    - by rewrite Z.shiftl_spec_low, andb_false_r by lia.
    - rewrite (fits_bits w a Hw Ha), Z.land_spec, Z.testbit_ones by lia.
      replace (n <? w) with false by lia. by rewrite !andb_false_r. }
  rewrite <- Z.lxor_lor by done. symmetry. by apply Z.add_nocarry_lxor.
Qed.

(** ** Lemmas on buffers *)

Lemma rd_drop b n i : rd (drop n b) i = rd b (n + i).
Proof. unfold rd. by rewrite lookup_drop. Qed.

Lemma rd_take b n i : (i < n)%nat -> rd (take n b) i = rd b i.
Proof. intros H. unfold rd. by rewrite lookup_take_lt. Qed.

Lemma rd_app_r a b i : (length a <= i)%nat -> rd (a ++ b) i = rd b (i - length a).
Proof. intros H. unfold rd. by rewrite lookup_app_r. Qed.

Lemma rd_fits b i : all_bytes b -> fits 8 (rd b i).
Proof.
  intros Hb. unfold rd. destruct (b !! i) eqn:E; simpl; [|done].
  by eapply Forall_lookup_1.
Qed.

Lemma all_bytes_app a b : all_bytes (a ++ b) <-> all_bytes a /\ all_bytes b.
Proof. apply Forall_app. Qed.

Lemma all_bytes_take n b : all_bytes b -> all_bytes (take n b).
Proof. apply Forall_take. Qed.

Lemma all_bytes_drop n b : all_bytes b -> all_bytes (drop n b).
Proof. apply Forall_drop. Qed.

Lemma all_bytes_zeros n : all_bytes (zeros n).
Proof. apply Forall_replicate. done. Qed.

Lemma all_bytes_insert b i v : fits 8 v -> all_bytes b -> all_bytes (<[i := v]> b).
Proof. intros. by apply Forall_insert. Qed.

Lemma length_memcpy dst off src n : length (memcpy dst off src n) = length dst.
Proof.
  revert dst off src. induction n as [|n IH]; intros; simpl; [done|].
  by rewrite IH, length_insert.
Qed.

Lemma memcpy_cons x dst off src n :
  memcpy (x :: dst) (S off) src n = x :: memcpy dst off src n.
Proof.
  revert dst off src. induction n as [|n IH]; intros; simpl; [done|]. by rewrite IH.
Qed.

Lemma memcpy_app_r a dst off src n :
  memcpy (a ++ dst) (length a + off) src n = a ++ memcpy dst off src n.
Proof. induction a as [|x a IH]; simpl; [done|]. by rewrite memcpy_cons, IH. Qed.

(** A copy that stays inside both buffers. *)
Lemma memcpy_0 dst src n :
  (n <= length src)%nat -> (n <= length dst)%nat ->
  memcpy dst 0 src n = take n src ++ drop n dst.
Proof.
  revert dst src. induction n as [|n IH]; intros dst src Hs Hd; [by destruct dst|].
  destruct dst as [|x dst], src as [|y src]; simpl in *; try lia.
  rewrite memcpy_cons, IH by lia. done.
Qed.

Lemma all_bytes_memcpy dst off src n :
  all_bytes dst -> all_bytes src -> all_bytes (memcpy dst off src n).
Proof.
  revert dst off src. induction n as [|n IH]; intros dst off src Hd Hs; simpl; [done|].
  apply IH.
  - apply all_bytes_insert; [by apply rd_fits|done].
  - destruct src; simpl; [done|]. by inversion Hs.
Qed.

#[export] Hint Resolve rd_fits all_bytes_take all_bytes_drop all_bytes_zeros
  all_bytes_insert all_bytes_memcpy : fz.

Lemma memcpy_take dst off src n : memcpy dst off (take n src) n = memcpy dst off src n.
Proof.
  revert dst off src. induction n as [|n IH]; intros; simpl; [done|].
  destruct src as [|x src]; [done|]. simpl. by rewrite IH.
Qed.

Lemma memeq_true a b n : memeq a b n = true <-> take n a = take n b.
Proof. apply bool_decide_eq_true. Qed.

(** Name the first [n] elements of a list known to be long enough. *)
Tactic Notation "explode" integer(n) hyp(l) :=
  do n (let x := fresh "x" in destruct l as [|x l]; [simpl in *; lia|]).

(** Name the four elements of a list of length 4. *)
Ltac explode_exactly_4 l := destruct l as [|? [|? [|? [|? [|? ?]]]]]; try done.
