(* ===== verification/State.v ===== *)
(** * The state monad of the model and its Hoare rules

    The sources mutate one object per component ([Server], [Client], ...) and
    call the operating system. An operation is a function from the state of the
    component, together with the state of the world it runs in, to its result
    and the new state. [hoare P m Q] is the usual triple; the rules below and
    [hoare_step] drive the proofs about handlers. *)

From S2P Require Import Prelude.

Declare Scope fz_scope.
Delimit Scope fz_scope with fz.

Definition M (S A : Type) : Type := S -> A * S.

Section Monad.
Context {S : Type}.

Definition ret {A} (a : A) : M S A := fun s => (a, s).

Definition bind {A B} (m : M S A) (k : A -> M S B) : M S B :=
  fun s => let r := m s in k (fst r) (snd r).

Definition gets {A} (f : S -> A) : M S A := fun s => (f s, s).

Definition modify (f : S -> S) : M S unit := fun s => (tt, f s).

Definition skip : M S unit := ret tt.

Definition when (b : bool) (m : M S unit) : M S unit := if b then m else skip.

(** [for(auto x : l) f(x);] *)
Fixpoint for_each {A} (l : list A) (f : A -> M S unit) : M S unit :=
  match l with
  | [] => skip
  | x :: l => bind (f x) (fun _ => for_each l f)
  end.

Definition exec {A} (m : M S A) (s : S) : S := snd (m s).

Definition eval {A} (m : M S A) (s : S) : A := fst (m s).

(** [hoare P m Q]: from a state in [P] the operation returns [a] in a state
    with [Q a]. *)
Definition hoare {A} (P : S -> Prop) (m : M S A) (Q : A -> S -> Prop) : Prop :=
  forall s, P s -> Q (eval m s) (exec m s).

(** [keeps f m]: the operation leaves the observation [f] of the state alone. *)
Definition keeps {A B} (f : S -> B) (m : M S A) : Prop :=
  forall s, f (exec m s) = f s.

(** [pres P m]: the operation keeps the invariant [P]. *)
Definition pres {A} (P : S -> Prop) (m : M S A) : Prop := forall s, P s -> P (exec m s).

End Monad.

Notation "'let*' x := m 'in' k" := (bind m (fun x => k))
  (at level 10, x name, m at level 100, k at level 200) : fz_scope.
Notation "x ;; z" := (bind x (fun _ => z))
  (at level 100, z at level 200, only parsing, right associativity) : fz_scope.

#[global] Open Scope fz_scope.

Section Rules.
Context {S : Type}.
Implicit Types P : S -> Prop.

Lemma exec_bind {A B} (m : M S A) (k : A -> M S B) s :
  exec (bind m k) s = exec (k (eval m s)) (exec m s).
Proof. done. Qed.

Lemma eval_bind {A B} (m : M S A) (k : A -> M S B) s :
  eval (bind m k) s = eval (k (eval m s)) (exec m s).
Proof. done. Qed.

Lemma exec_ret {A} (a : A) (s : S) : exec (ret a) s = s.
Proof. done. Qed.

Lemma eval_ret {A} (a : A) (s : S) : eval (ret a) s = a.
Proof. done. Qed.

Lemma exec_skip (s : S) : exec skip s = s.
Proof. done. Qed.

Lemma exec_when b (m : M S unit) s : exec (when b m) s = if b then exec m s else s.
Proof. by destruct b. Qed.

Lemma hoare_ret {A} (a : A) P (Q : A -> S -> Prop) :
  (forall s, P s -> Q a s) -> hoare P (ret a) Q.
Proof. intros H s Hs. by apply H. Qed.

Lemma hoare_bind {A B} P (R : A -> S -> Prop) (Q : B -> S -> Prop) (m : M S A) (k : A -> M S B) :
  hoare P m R -> (forall a, hoare (R a) (k a) Q) -> hoare P (bind m k) Q.
Proof. intros Hm Hk s Hs. by apply Hk, Hm. Qed.

Lemma hoare_pre {A} P P' (Q : A -> S -> Prop) (m : M S A) :
  hoare P' m Q -> (forall s, P s -> P' s) -> hoare P m Q.
Proof. intros H HP s Hs. by apply H, HP. Qed.

Lemma hoare_post {A} P (Q Q' : A -> S -> Prop) (m : M S A) :
  hoare P m Q' -> (forall a s, Q' a s -> Q a s) -> hoare P m Q.
Proof. intros H HQ s Hs. by apply HQ, H. Qed.

Lemma hoare_modify P (Q : unit -> S -> Prop) f :
  (forall s, P s -> Q tt (f s)) -> hoare P (modify f) Q.
Proof. intros H s Hs. by apply H. Qed.

Lemma hoare_gets {A} (f : S -> A) P (Q : A -> S -> Prop) :
  (forall s, P s -> Q (f s) s) -> hoare P (gets f) Q.
Proof. intros H s Hs. by apply H. Qed.

Lemma hoare_when b P (m : M S unit) (Q : unit -> S -> Prop) :
  (b = true -> hoare P m Q) -> (b = false -> forall s, P s -> Q tt s) -> hoare P (when b m) Q.
Proof. destruct b; intros H1 H2; [by apply H1|]. intros s Hs. by apply H2. Qed.

(** A loop whose body keeps [P] keeps [P]. *)
Lemma hoare_for_each {A} (l : list A) (f : A -> M S unit) P :
  (forall x, x ∈ l -> hoare P (f x) (fun _ => P)) -> hoare P (for_each l f) (fun _ => P).
Proof.
  induction l as [|x l IH]; intros H; [by intros s Hs|].
  apply (hoare_bind _ (fun _ => P)); [apply H; set_solver|].
  intros _. apply IH. intros y Hy. apply H. set_solver.
Qed.

Lemma kept {A B} (f : S -> B) (m : M S A) s : keeps f m -> f (exec m s) = f s.
Proof. intros H. apply H. Qed.

Lemma keeps_ret {A B} (f : S -> B) (a : A) : keeps f (ret a).
Proof. done. Qed.

Lemma keeps_skip {B} (f : S -> B) : keeps f skip.
Proof. done. Qed.

Lemma keeps_gets {A B} (f : S -> B) (g : S -> A) : keeps f (gets g).
Proof. done. Qed.

Lemma keeps_bind {A B C} (f : S -> C) (m : M S A) (k : A -> M S B) :
  keeps f m -> (forall a, keeps f (k a)) -> keeps f (bind m k).
Proof. intros Hm Hk s. by rewrite exec_bind, Hk, Hm. Qed.

Lemma keeps_when {B} (f : S -> B) b (m : M S unit) : keeps f m -> keeps f (when b m).
Proof. by destruct b. Qed.

Lemma keeps_if {A B} (f : S -> B) (b : bool) (m1 m2 : M S A) :
  keeps f m1 -> keeps f m2 -> keeps f (if b then m1 else m2).
Proof. by destruct b. Qed.

Lemma keeps_for_each {A B} (f : S -> B) (l : list A) (g : A -> M S unit) :
  (forall x, keeps f (g x)) -> keeps f (for_each l g).
Proof.
  intros H. induction l as [|x l IH]; [done|]. apply keeps_bind; [apply H|done].
Qed.

Lemma keeps_modify {B} (f : S -> B) g : (forall s, f (g s) = f s) -> keeps f (modify g).
Proof. intros H s. apply H. Qed.

Lemma pres_ret {A} P (a : A) : pres P (ret a).
Proof. by intros s. Qed.

Lemma pres_skip P : pres P skip.
Proof. by intros s. Qed.

Lemma pres_gets {A} P (g : S -> A) : pres P (gets g).
Proof. by intros s. Qed.

Lemma pres_bind {A B} P (m : M S A) (k : A -> M S B) :
  pres P m -> (forall a, pres P (k a)) -> pres P (bind m k).
Proof. intros Hm Hk s Hs. rewrite exec_bind. by apply Hk, Hm. Qed.

Lemma pres_when P b (m : M S unit) : pres P m -> pres P (when b m).
Proof. destruct b; [done|]. intros _. apply pres_ret. Qed.

Lemma pres_if {A} P (b : bool) (m1 m2 : M S A) : pres P m1 -> pres P m2 -> pres P (if b then m1 else m2).
Proof. by destruct b. Qed.

Lemma pres_for_each {A} P (l : list A) (g : A -> M S unit) :
  (forall x, pres P (g x)) -> pres P (for_each l g).
Proof. intros H. induction l as [|x l IH]; [apply pres_ret|]. apply pres_bind; [apply H|done]. Qed.

Lemma pres_modify P g : (forall s, P s -> P (g s)) -> pres P (modify g).
Proof. intros H s. apply H. Qed.

End Rules.

Create HintDb keeps.
#[export] Hint Resolve keeps_ret keeps_skip keeps_gets keeps_when keeps_if keeps_for_each : keeps.
#[export] Hint Extern 2 (keeps _ (bind _ _)) => apply keeps_bind; [|intros ?] : keeps.
#[export] Hint Extern 2 (keeps _ (modify _)) => apply keeps_modify; intros ?; reflexivity : keeps.
#[export] Hint Extern 1 (keeps _ (for_each _ _)) => apply keeps_for_each; intros ? : keeps.

Create HintDb pres.
#[export] Hint Resolve pres_ret pres_skip pres_gets pres_when pres_if pres_for_each : pres.
#[export] Hint Extern 2 (pres _ (bind _ _)) => apply pres_bind; [|intros ?] : pres.
#[export] Hint Extern 1 (pres _ (for_each _ _)) => apply pres_for_each; intros ? : pres.
#[export] Hint Extern 1 (pres _ (match ?x with _ => _ end)) => destruct x : pres.

(** Opaque to [cbn]: proofs unfold the monad through the lemmas above. *)
Arguments bind : simpl never.
Arguments exec : simpl never.
Arguments eval : simpl never.
