(* ===== verification/Protocol.v ===== *)
(** * The wire codec ([src/shared/fzvs_protocol.h])

    Constants, the packet record, the little-endian accessors, the serial
    number comparison [fz_newer], [fz_encode], [fz_decode] and the name tables,
    followed by the layout of a datagram, the two round trips, the locality of
    the decoder and the order theory of [fz_newer]. *)

From S2P Require Import Prelude.

(** ** Constants *)

Definition FZ_VERSION : Z := 1.
Definition FZ_HEADER : Z := 36.
Definition FZ_MAX_PACKET : Z := 256.
Definition FZ_PLAYERS : Z := 4.
Definition FZ_SNAPSHOT_SIZE : Z := 88.
Definition FZ_KEY_MAX : Z := 64.

Definition FZ_HELLO : Z := 1.
Definition FZ_WELCOME : Z := 2.
Definition FZ_COMMAND : Z := 3.
Definition FZ_STATE : Z := 4.
Definition FZ_SNAPSHOT : Z := 5.
Definition FZ_PING : Z := 6.
Definition FZ_PONG : Z := 7.
Definition FZ_ERROR : Z := 8.
Definition FZ_JOIN_REJECT : Z := 9.
Definition FZ_ROOM_CLOSED : Z := 10.

Definition FZ_REJECT_PASSWORD : Z := 1.
Definition FZ_REJECT_FULL : Z := 2.
Definition FZ_REJECT_RACING : Z := 3.
Definition FZ_REJECT_STARTING : Z := 4.
Definition FZ_REJECT_VERSION : Z := 5.

Definition FZ_SELECT : Z := 1.
Definition FZ_LOADED : Z := 2.
Definition FZ_ARM : Z := 3.
Definition FZ_FINISH : Z := 4.
Definition FZ_NEXT : Z := 5.
Definition FZ_CONFIG : Z := 6.
Definition FZ_LEAVE : Z := 7.

Definition FZ_LOBBY : Z := 0.
Definition FZ_LOADING : Z := 1.
Definition FZ_COUNTDOWN : Z := 2.
Definition FZ_RACING : Z := 3.
Definition FZ_RESULTS : Z := 4.

Definition FZ_EMPTY : Z := 0.
Definition FZ_JOINED : Z := 1.
Definition FZ_SELECTED : Z := 2.
Definition FZ_PLAYER_LOADED : Z := 3.
Definition FZ_PLAYER_RACING : Z := 4.
Definition FZ_FINISHED : Z := 5.
Definition FZ_DISCONNECTED : Z := 6.

(** [sizeof(((fz_packet* )0)->payload)] *)
Definition PAYLOAD_SIZE : nat := 220.

(** The four bytes [FZVS]. *)
Definition FZVS_MAGIC : bytes := [70; 90; 86; 83].

(** ** The packet *)

Record fz_packet := mk_packet {
  pk_type : Z;
  pk_length : Z;
  pk_session : Z;
  pk_token : Z;
  pk_race : Z;
  pk_seq : Z;
  pk_ack : Z;
  pk_payload : bytes
}.

(** [fz_packet p={0}] *)
Definition packet0 : fz_packet := mk_packet 0 0 0 0 0 0 0 (zeros PAYLOAD_SIZE).

(** ** Little-endian accessors *)

Definition fz_u16 (p : bytes) (off : nat) : Z :=
  u16 (Z.lor (rd p off) (Z.shiftl (rd p (off + 1)) 8)).

Definition fz_u32 (p : bytes) (off : nat) : Z :=
  Z.lor (fz_u16 p off) (u32 (Z.shiftl (fz_u16 p (off + 2)) 16)).

Definition fz_u64 (p : bytes) (off : nat) : Z :=
  Z.lor (fz_u32 p off) (u64 (Z.shiftl (fz_u32 p (off + 4)) 32)).

Definition fz_put16 (p : bytes) (off : nat) (v : Z) : bytes :=
  <[(off + 1)%nat := u8 (Z.shiftr v 8)]> (<[off := u8 v]> p).

Definition fz_put32 (p : bytes) (off : nat) (v : Z) : bytes :=
  fz_put16 (fz_put16 p off (u16 v)) (off + 2) (u16 (Z.shiftr v 16)).

Definition fz_put64 (p : bytes) (off : nat) (v : Z) : bytes :=
  fz_put32 (fz_put32 p off (u32 v)) (off + 4) (u32 (Z.shiftr v 32)).

(** Serial-number comparison: [a] is newer than [b]. *)
Definition fz_newer (a b : Z) : bool :=
  negb (a =? b) && (u32 (a - b) <? 2147483648).

(** ** Encoder and decoder *)

(** The returned size and the buffer afterwards. *)
Definition fz_encode (out : bytes) (capacity : Z) (p : fz_packet) : Z * bytes :=
  let size := FZ_HEADER + pk_length p in
  if (pk_length p >? Z.of_nat PAYLOAD_SIZE) || (capacity <? size)
     || (pk_type p <? FZ_HELLO) || (pk_type p >? FZ_ROOM_CLOSED)
  then (0, out)
  else
    let out := memcpy out 0 FZVS_MAGIC 4 in
    let out := <[4%nat := FZ_VERSION]> out in
    let out := <[5%nat := pk_type p]> out in
    let out := fz_put16 out 6 (pk_length p) in
    let out := fz_put64 out 8 (pk_session p) in
    let out := fz_put32 out 16 (pk_race p) in
    let out := fz_put32 out 20 (pk_seq p) in
    let out := fz_put32 out 24 (pk_ack p) in
    let out := fz_put64 out 28 (pk_token p) in
    let out := memcpy out 36 (pk_payload p) (Z.to_nat (pk_length p)) in
    (size, out).

(** [inp] is the receive buffer and [size] the number of bytes received;
    [None] is the result 0. *)
Definition fz_decode (inp : bytes) (size : Z) : option fz_packet :=
  if (size <? FZ_HEADER) || (size >? FZ_MAX_PACKET) || negb (memeq inp FZVS_MAGIC 4)
     || negb (rd inp 4 =? FZ_VERSION) || (rd inp 5 <? FZ_HELLO)
     || (rd inp 5 >? FZ_ROOM_CLOSED) || negb (fz_u16 inp 6 =? size - FZ_HEADER)
  then None
  else
    let len := fz_u16 inp 6 in
    Some {| pk_type := rd inp 5;
            pk_length := len;
            pk_session := fz_u64 inp 8;
            pk_race := fz_u32 inp 16;
            pk_seq := fz_u32 inp 20;
            pk_ack := fz_u32 inp 24;
            pk_token := fz_u64 inp 28;
            pk_payload := memcpy (zeros PAYLOAD_SIZE) 0 (drop 36 inp) (Z.to_nat len) |}.

(** ** Name tables *)

Definition name_at (names : list string) (n : Z) (other : string) : string :=
  if n <? Z.of_nat (length names) then default other (names !! Z.to_nat n) else other.

Definition fz_phase_name (n : Z) : string :=
  name_at ["lobby"; "loading"; "countdown"; "racing"; "results"]%string n "invalid".

Definition fz_status_name (n : Z) : string :=
  name_at ["empty"; "joined"; "selected"; "loaded"; "racing"; "finished"; "disconnected"]%string
    n "invalid".

Definition fz_car_name (n : Z) : string :=
  name_at ["Blue Falcon"; "Wild Goose"; "Golden Fox"; "Fire Stingray"]%string n "unknown".

Definition fz_selected_car_name (status car : Z) : string :=
  if (status >=? FZ_SELECTED) && (status <=? FZ_FINISHED)
  then fz_car_name car else "Machine not selected".

Definition fz_player_color (player : Z) : string :=
  name_at ["Pink"; "Blue"; "Green"; "Yellow"]%string player "Unknown".

(** ** Well-formed packets *)

(** The values the C type can hold, with a length the payload array covers. *)
Definition wf_packet (p : fz_packet) : Prop :=
  FZ_HELLO <= pk_type p <= FZ_ROOM_CLOSED /\
  0 <= pk_length p <= Z.of_nat PAYLOAD_SIZE /\
  fits 64 (pk_session p) /\ fits 64 (pk_token p) /\
  fits 32 (pk_race p) /\ fits 32 (pk_seq p) /\ fits 32 (pk_ack p) /\
  length (pk_payload p) = PAYLOAD_SIZE /\ all_bytes (pk_payload p).

(** The packet with the payload bytes past its length cleared. *)
Definition trimmed (p : fz_packet) : fz_packet :=
  let n := Z.to_nat (pk_length p) in
  {| p with pk_payload := take n (pk_payload p) ++ zeros (PAYLOAD_SIZE - n) |}.

(** ** Layout: the documented header, byte by byte *)

Definition le16 (v : Z) : bytes := [u8 v; u8 (Z.shiftr v 8)].
Definition le32 (v : Z) : bytes := le16 (u16 v) ++ le16 (u16 (Z.shiftr v 16)).
Definition le64 (v : Z) : bytes := le32 (u32 v) ++ le32 (u32 (Z.shiftr v 32)).

(** The header table of [docs/protocol.md]. *)
Definition header_of (p : fz_packet) : bytes :=
  FZVS_MAGIC ++ [FZ_VERSION; pk_type p] ++ le16 (pk_length p) ++ le64 (pk_session p)
  ++ le32 (pk_race p) ++ le32 (pk_seq p) ++ le32 (pk_ack p) ++ le64 (pk_token p).

(** The datagram of a packet: header, then [pk_length] payload bytes. *)
Definition datagram (p : fz_packet) : bytes :=
  header_of p ++ take (Z.to_nat (pk_length p)) (pk_payload p).

(** ** Lemmas on the accessors *)

Lemma le16_length v : length (le16 v) = 2%nat.
Proof. done. Qed.

Lemma fz_u16_drop b off : fz_u16 b off = fz_u16 (drop off b) 0.
Proof. unfold fz_u16. rewrite !rd_drop. by rewrite Nat.add_0_r. Qed.

Lemma fz_u32_drop b off : fz_u32 b off = fz_u32 (drop off b) 0.
Proof.
  unfold fz_u32. rewrite (fz_u16_drop b), (fz_u16_drop b (off + 2)).
  by rewrite (fz_u16_drop _ (0 + 2)), drop_drop.
Qed.

Lemma fz_u64_drop b off : fz_u64 b off = fz_u64 (drop off b) 0.
Proof.
  unfold fz_u64. rewrite (fz_u32_drop b), (fz_u32_drop b (off + 4)).
  by rewrite (fz_u32_drop _ (0 + 4)), drop_drop.
Qed.

Lemma fits_fz_u16 b off : fits 16 (fz_u16 b off).
Proof. apply fits_u16. Qed.

Lemma join_fits w v a b :
  0 <= w -> v = w + w -> fits w a -> fits w b -> fits v (Z.lor a (Z.shiftl b w mod 2 ^ v)).
Proof.
  intros Hw -> Ha Hb. unfold fits in *. rewrite Z.pow_add_r in * by lia.
  assert (0 < 2 ^ w) by lia.
  rewrite Z.mod_small; rewrite ?lor_shiftl_add, ?Z.shiftl_mul_pow2 by (done || lia); nia.
Qed.

Lemma fits_fz_u32 b off : fits 32 (fz_u32 b off).
Proof. apply (join_fits 16 32); try lia; apply fits_fz_u16. Qed.

Lemma fits_fz_u64 b off : fits 64 (fz_u64 b off).
Proof. apply (join_fits 32 64); try lia; apply fits_fz_u32. Qed.

#[export] Hint Resolve fits_fz_u16 fits_fz_u32 fits_fz_u64 : fz.

Lemma shiftr_fits w v z : 0 <= w <= v -> fits v z -> fits (v - w) (Z.shiftr z w).
Proof.
  intros Hw [H0 H1]. unfold fits. rewrite Z.shiftr_div_pow2 by lia.
  split; [apply Z.div_pos; lia|].
  apply Z.div_lt_upper_bound; [lia|]. rewrite <- Z.pow_add_r by lia.
  by replace (w + (v - w)) with v by lia.
Qed.

(** Joining the two halves of a value gives the value. *)
Lemma join_halves w v z :
  0 < w -> v = w + w -> fits v z ->
  Z.lor (z mod 2 ^ w) (Z.shiftl (Z.shiftr z w) w mod 2 ^ v) = z.
Proof.
  intros Hw -> Hz. rewrite (Z.mod_small (Z.shiftl _ _)); [by apply join_split; lia|].
  pose proof (shiftr_fits w (w + w) z ltac:(lia) Hz) as H.
  replace (w + w - w) with w in H by lia. unfold fits in H.
  rewrite Z.shiftl_mul_pow2, Z.pow_add_r by lia. nia.
Qed.

Lemma fz_u16_le16 v r : fits 16 v -> fz_u16 (le16 v ++ r) 0 = v.
Proof.
  intros Hv. unfold fz_u16, le16, rd. simpl.
  pose proof (shiftr_fits 8 16 v ltac:(lia) Hv) as H.
  rewrite (u8_small (Z.shiftr v 8)) by done.
  unfold u8. rewrite join_split by lia. by apply u16_small.
Qed.

Lemma fz_u32_le32 v r : fits 32 v -> fz_u32 (le32 v ++ r) 0 = v.
Proof.
  intros Hv. unfold fz_u32. rewrite (fz_u16_drop _ (0 + 2)).
  unfold le32. rewrite <- app_assoc, !fz_u16_le16 by auto with fz.
  change (drop (0 + 2) (le16 (u16 v) ++ le16 (u16 (Z.shiftr v 16)) ++ r))
    with (le16 (u16 (Z.shiftr v 16)) ++ r).
  rewrite fz_u16_le16 by auto with fz.
  rewrite (u16_small (Z.shiftr v 16)) by (apply (shiftr_fits 16 32); [lia|done]).
  by apply (join_halves 16 32).
Qed.

Lemma fz_u64_le64 v r : fits 64 v -> fz_u64 (le64 v ++ r) 0 = v.
Proof.
  intros Hv. unfold fz_u64. rewrite (fz_u32_drop _ (0 + 4)).
  unfold le64. rewrite <- app_assoc, !fz_u32_le32 by auto with fz.
  change (drop (0 + 4) (le32 (u32 v) ++ le32 (u32 (Z.shiftr v 32)) ++ r))
    with (le32 (u32 (Z.shiftr v 32)) ++ r).
  rewrite fz_u32_le32 by auto with fz.
  rewrite (u32_small (Z.shiftr v 32)) by (apply (shiftr_fits 32 64); [lia|done]).
  by apply (join_halves 32 64).
Qed.

Lemma le16_fz_u16 b : all_bytes b -> (2 <= length b)%nat -> le16 (fz_u16 b 0) = take 2 b.
Proof.
  intros Hb Hl. explode 2 b.
  apply Forall_cons in Hb as [Hx Hb]. apply Forall_cons in Hb as [Hy _].
  unfold le16, fz_u16, rd. simpl. rewrite take_0, lor_shiftl_add by (done || lia).
  unfold fits in *. rewrite u16_small by (unfold fits; lia).
  rewrite Z.shiftr_div_pow2 by lia. unfold u8.
  repeat f_equal; [rewrite Z.mod_add; [by apply Z.mod_small|lia]|].
  rewrite Z.div_add, Z.div_small, Z.add_0_l by lia. by apply Z.mod_small.
Qed.

Lemma split_halves w v a b :
  0 < w -> v = w + w -> fits w a -> fits w b ->
  let z := Z.lor a (Z.shiftl b w mod 2 ^ v) in
  z mod 2 ^ w = a /\ Z.shiftr z w mod 2 ^ w = b.
Proof.
  intros Hw -> Ha Hb z. subst z. unfold fits in *. assert (0 < 2 ^ w) by lia.
  rewrite (Z.mod_small (Z.shiftl _ _)) by (rewrite Z.shiftl_mul_pow2, Z.pow_add_r by lia; nia).
  rewrite lor_shiftl_add, Z.shiftr_div_pow2 by (done || lia).
  rewrite Z.mod_add, Z.div_add, (Z.div_small a), Z.add_0_l by lia.
  split; by apply Z.mod_small.
Qed.

Lemma le32_fz_u32 b : all_bytes b -> (4 <= length b)%nat -> le32 (fz_u32 b 0) = take 4 b.
Proof.
  intros Hb Hl. unfold le32, fz_u32.
  destruct (split_halves 16 32 (fz_u16 b 0) (fz_u16 b (0 + 2))) as [E1 E2]; [lia|done|auto with fz|auto with fz|].
  unfold u16, u32. rewrite E1, E2, (fz_u16_drop b (0 + 2)).
  rewrite !le16_fz_u16 by (rewrite ?length_drop; auto with fz lia).
  by explode 4 b.
Qed.

Lemma le64_fz_u64 b : all_bytes b -> (8 <= length b)%nat -> le64 (fz_u64 b 0) = take 8 b.
Proof.
  intros Hb Hl. unfold le64, fz_u64.
  destruct (split_halves 32 64 (fz_u32 b 0) (fz_u32 b (0 + 4))) as [E1 E2]; [lia|done|auto with fz|auto with fz|].
  unfold u32, u64. rewrite E1, E2, (fz_u32_drop b (0 + 4)).
  rewrite !le32_fz_u32 by (rewrite ?length_drop; auto with fz lia).
  by explode 8 b.
Qed.

(** ** The datagram layout *)

Lemma header_of_length p : length (header_of p) = 36%nat.
Proof. done. Qed.

Lemma datagram_length p :
  wf_packet p -> length (datagram p) = Z.to_nat (FZ_HEADER + pk_length p).
Proof.
  intros (_ & Hl & _ & _ & _ & _ & _ & Hp & _). unfold datagram, FZ_HEADER.
  rewrite length_app, header_of_length, length_take, Hp. lia.
Qed.

(** The bytes of an encoded packet are the documented layout and the rest of
    the buffer is untouched. *)
Lemma fz_encode_layout out capacity p :
  wf_packet p -> FZ_HEADER + pk_length p <= capacity -> capacity <= Z.of_nat (length out) ->
  fz_encode out capacity p =
    (FZ_HEADER + pk_length p, datagram p ++ drop (Z.to_nat (FZ_HEADER + pk_length p)) out).
Proof.
  intros (Ht & Hl & _ & _ & _ & _ & _ & Hp & _) Hc Ho.
  unfold fz_encode, FZ_HEADER, FZ_HELLO, FZ_ROOM_CLOSED, PAYLOAD_SIZE in *.
  case_if; [bsolve|]. f_equal. explode 36 out.
  unfold fz_put64, fz_put32, fz_put16. cbn [memcpy insert list_insert Nat.add rd].
  rewrite !memcpy_cons.
  simpl in Ho. rewrite memcpy_0 by lia.
  replace (Z.to_nat (36 + pk_length p)) with (36 + Z.to_nat (pk_length p))%nat by lia.
  done.
Qed.

(** ** The decoder *)

(** What the decoder reads from a buffer that starts with a header. *)
Lemma fz_decode_header p pay rest :
  wf_packet p -> Z.of_nat (length pay) = pk_length p ->
  fz_decode (header_of p ++ pay ++ rest) (FZ_HEADER + pk_length p) =
    Some {| p with pk_payload := pay ++ zeros (PAYLOAD_SIZE - length pay) |}.
Proof.
  intros (Ht & Hl & Hs & Hk & Hr & Hq & Ha & Hp & Hb) Hpay. unfold PAYLOAD_SIZE in *.
  set (b := header_of p ++ pay ++ rest).
  assert (fz_u16 b 6 = pk_length p) as E6.
  { rewrite fz_u16_drop. change (drop 6 b) with (le16 (pk_length p) ++ drop 8 b).
    apply fz_u16_le16. unfold fits. lia. }
  assert (fz_u64 b 8 = pk_session p) as E8.
  { rewrite fz_u64_drop. change (drop 8 b) with (le64 (pk_session p) ++ drop 16 b).
    by apply fz_u64_le64. }
  assert (fz_u32 b 16 = pk_race p) as E16.
  { rewrite fz_u32_drop. change (drop 16 b) with (le32 (pk_race p) ++ drop 20 b).
    by apply fz_u32_le32. }
  assert (fz_u32 b 20 = pk_seq p) as E20.
  { rewrite fz_u32_drop. change (drop 20 b) with (le32 (pk_seq p) ++ drop 24 b).
    by apply fz_u32_le32. }
  assert (fz_u32 b 24 = pk_ack p) as E24.
  { rewrite fz_u32_drop. change (drop 24 b) with (le32 (pk_ack p) ++ drop 28 b).
    by apply fz_u32_le32. }
  assert (fz_u64 b 28 = pk_token p) as E28.
  { rewrite fz_u64_drop. change (drop 28 b) with (le64 (pk_token p) ++ drop 36 b).
    by apply fz_u64_le64. }
  unfold fz_decode. rewrite E6, E8, E16, E20, E24, E28.
  change (rd b 5) with (pk_type p). change (rd b 4) with FZ_VERSION.
  change (memeq b FZVS_MAGIC 4) with true.
  change (drop 36 b) with (pay ++ rest).
  unfold FZ_VERSION, FZ_HEADER, FZ_MAX_PACKET, FZ_HELLO, FZ_ROOM_CLOSED, PAYLOAD_SIZE in *.
  case_if; [bsolve|]. do 2 f_equal.
  rewrite memcpy_0 by (unfold zeros; rewrite ?length_app, ?length_replicate; lia).
  rewrite <- Hpay, Nat2Z.id, take_app_length. unfold zeros. by rewrite drop_replicate.
Qed.

Lemma fz_decode_datagram p rest :
  wf_packet p -> fz_decode (datagram p ++ rest) (FZ_HEADER + pk_length p) = Some (trimmed p).
Proof.
  intros Hw. unfold datagram. rewrite <- app_assoc.
  pose proof Hw as (_ & Hl & _ & _ & _ & _ & _ & Hp & _). unfold PAYLOAD_SIZE in *.
  assert (length (take (Z.to_nat (pk_length p)) (pk_payload p)) = Z.to_nat (pk_length p)) as E
    by (rewrite length_take; lia).
  rewrite fz_decode_header by (rewrite ?E; try done; lia).
  unfold trimmed, PAYLOAD_SIZE. by rewrite E.
Qed.

(** The conditions under which the decoder accepts, and what it returns. *)
Lemma fz_decode_inv b n p :
  fz_decode b n = Some p ->
  FZ_HEADER <= n <= FZ_MAX_PACKET /\ take 4 b = FZVS_MAGIC /\ rd b 4 = FZ_VERSION /\
  FZ_HELLO <= rd b 5 <= FZ_ROOM_CLOSED /\ fz_u16 b 6 = n - FZ_HEADER /\
  p = mk_packet (rd b 5) (n - FZ_HEADER) (fz_u64 b 8) (fz_u64 b 28) (fz_u32 b 16)
        (fz_u32 b 20) (fz_u32 b 24)
        (memcpy (zeros PAYLOAD_SIZE) 0 (drop 36 b) (Z.to_nat (n - FZ_HEADER))).
Proof.
  unfold fz_decode. case_if; [done|]. intros [= <-]. breflect.
  match goal with H : memeq _ _ _ = true |- _ => apply memeq_true in H end.
  repeat split; try done; try lia. congruence.
Qed.

Lemma fz_decode_wf b n p : all_bytes b -> fz_decode b n = Some p -> wf_packet p.
Proof.
  intros Hb (Hn & _ & _ & Ht & Hl & ->)%fz_decode_inv.
  unfold wf_packet, FZ_HEADER, FZ_MAX_PACKET, PAYLOAD_SIZE in *; simpl.
  repeat split; try lia; try (apply fits_fz_u64 || apply fits_fz_u32).
  - apply length_memcpy.
  - auto with fz.
Qed.

Lemma fz_decode_reencode b n p :
  all_bytes b -> n <= Z.of_nat (length b) -> fz_decode b n = Some p ->
  datagram p = take (Z.to_nat n) b.
Proof.
  intros Hb Hlen (Hn & Hm & Hv & Ht & Hl & ->)%fz_decode_inv.
  unfold datagram, header_of, FZ_HEADER, FZ_MAX_PACKET, PAYLOAD_SIZE in *. simpl pk_length.
  simpl pk_type. simpl pk_session. simpl pk_race. simpl pk_seq. simpl pk_ack.
  simpl pk_token. simpl pk_payload.
  rewrite <- Hl at 1. rewrite fz_u16_drop, (fz_u64_drop b 8), (fz_u64_drop b 28),
    (fz_u32_drop b 16), (fz_u32_drop b 20), (fz_u32_drop b 24).
  rewrite le16_fz_u16, !le64_fz_u64, !le32_fz_u32 by (rewrite ?length_drop; auto with fz lia).
  rewrite memcpy_0 by (unfold zeros; rewrite ?length_drop, ?length_replicate; lia).
  rewrite take_app_le, take_idemp by (rewrite length_take, length_drop; lia).
  rewrite <- Hm, <- Hv. replace (Z.to_nat n) with (36 + Z.to_nat (n - 36))%nat by lia.
  explode 36 b. done.
Qed.

Lemma fz_decode_agree a b n :
  take (Z.to_nat n) a = take (Z.to_nat n) b -> fz_decode a n = fz_decode b n.
Proof.
  intros E. unfold fz_decode. destruct (Z.ltb_spec n FZ_HEADER) as [|Hn]; [done|].
  unfold FZ_HEADER in Hn.
  assert (forall i, (i < 36)%nat -> rd a i = rd b i) as Hrd.
  { intros i Hi. rewrite <- (rd_take a (Z.to_nat n)), E, rd_take by lia. done. }
  assert (memeq a FZVS_MAGIC 4 = memeq b FZVS_MAGIC 4) as ->.
  { unfold memeq. assert (take 4 a = take 4 b) as ->; [|done].
    apply (f_equal (take 4)) in E. by rewrite !take_take, Nat.min_l in E by lia. }
  unfold fz_u64, fz_u32, fz_u16. simpl Nat.add. rewrite !Hrd by lia.
  case_if; [done|]. breflect. do 2 f_equal.
  match goal with H : _ = n - _ |- _ => rewrite H end. unfold FZ_HEADER.
  rewrite <- (memcpy_take _ _ (drop 36 a)), <- (memcpy_take _ _ (drop 36 b)).
  rewrite !take_drop_commute. replace (36 + Z.to_nat (n - 36))%nat with (Z.to_nat n) by lia.
  by rewrite E.
Qed.

(** ** Serial numbers *)

Lemma u32_add_sub b k : u32 (u32 (b + k) - b) = u32 k.
Proof. unfold u32. rewrite Zminus_mod_idemp_l. f_equal. lia. Qed.

(** ** Properties *)

(** C35. Encoding a well-formed packet into a buffer with room for it and
    decoding the bytes written gives the packet back, with the payload bytes
    past its length cleared; the size returned is header plus payload. *)
Theorem encode_decode_roundtrip out capacity p :
  wf_packet p -> FZ_HEADER + pk_length p <= capacity -> capacity <= Z.of_nat (length out) ->
  fst (fz_encode out capacity p) = FZ_HEADER + pk_length p /\
  fz_decode (snd (fz_encode out capacity p)) (fst (fz_encode out capacity p)) = Some (trimmed p).
Proof.
  intros Hw Hc Ho. rewrite fz_encode_layout by done. split; [done|].
  by apply fz_decode_datagram.
Qed.

(** C36. Whatever bytes the decoder accepts, encoding the packet it returns
    writes exactly those bytes again and keeps the rest of the buffer: the wire
    form is canonical. *)
Theorem decode_encode_roundtrip b n p out :
  all_bytes b -> n <= Z.of_nat (length b) -> fz_decode b n = Some p ->
  length out = Z.to_nat FZ_MAX_PACKET ->
  fz_encode out FZ_MAX_PACKET p = (n, take (Z.to_nat n) b ++ drop (Z.to_nat n) out).
Proof.
  intros Hb Hn Hd Ho. pose proof (fz_decode_inv _ _ _ Hd) as (Hs & _ & _ & _ & _ & Ep).
  assert (FZ_HEADER + pk_length p = n) as En by (subst p; simpl; lia).
  pose proof (fz_decode_wf _ _ _ Hb Hd).
  rewrite fz_encode_layout by (done || lia). rewrite En.
  by rewrite (fz_decode_reencode b n p).
Qed.

(** A datagram cut short or padded is rejected. *)
Lemma fz_decode_wrong_size p rest n :
  wf_packet p -> n <> FZ_HEADER + pk_length p -> fz_decode (datagram p ++ rest) n = None.
Proof.
  intros Hw Hn. destruct (fz_decode (datagram p ++ rest) n) eqn:E; [|done].
  apply fz_decode_inv in E as (_ & _ & _ & _ & E & _).
  pose proof (fz_decode_datagram p rest Hw) as D.
  apply fz_decode_inv in D as (_ & _ & _ & _ & D & _). lia.
Qed.

(** C37. The decoder's result depends on the bytes received only: it reads
    nothing at or past [size], for any size and any buffer; and the bytes of a
    well-formed packet decode at no size but their own, so that a datagram cut
    short or padded is rejected. *)
Theorem fz_decode_reads_only_received b tail1 tail2 p n :
  fz_decode (b ++ tail1) (Z.of_nat (length b)) = fz_decode (b ++ tail2) (Z.of_nat (length b)) /\
  (wf_packet p -> n <> FZ_HEADER + pk_length p -> fz_decode (datagram p ++ tail1) n = None).
Proof. split; [apply fz_decode_agree; by rewrite Nat2Z.id, !take_app_length|apply fz_decode_wrong_size]. Qed.

(** C38. [fz_newer] is the serial-number order of 32-bit sequences: the value
    [k] steps after [b], wrapping around, is newer exactly when [0 < k < 2^31]. *)
Theorem fz_newer_window b k :
  fits 32 b -> fits 32 k ->
  fz_newer (u32 (b + k)) b = true <-> 0 < k < 2 ^ 31.
Proof.
  intros Hb Hk. unfold fz_newer. rewrite u32_add_sub, (u32_small k) by done.
  rewrite andb_true_iff, negb_true_iff, Z.eqb_neq, Z.ltb_lt.
  assert (u32 (b + k) = b <-> k = 0); [|unfold fits in *; lia].
  unfold u32, fits in *. split; [|intros ->; rewrite Z.add_0_r; by apply Z.mod_small].
  pose proof (Z.div_mod (b + k) (2 ^ 32)). intros E. rewrite E in *.
  assert ((b + k) / 2 ^ 32 = 0 \/ (b + k) / 2 ^ 32 >= 1 \/ (b + k) / 2 ^ 32 <= -1) by lia. lia.
Qed.

(** Witness of C1 and of the layout: the packet of [tests/protocol_test.c]. *)
Definition sample_packet : fz_packet :=
  {| pk_type := FZ_STATE; pk_length := 5; pk_session := 1311768467463790320;
     pk_token := 18446744073709551615; pk_race := 7; pk_seq := 4294967295; pk_ack := 0;
     pk_payload := [52; 18; 120; 86; 9] ++ zeros 215 |}.

Lemma sample_packet_wf : wf_packet sample_packet.
Proof.
  unfold wf_packet, fits, all_bytes. simpl. repeat split; try lia; try done.
  repeat (apply Forall_cons; split; [done|]). apply Forall_nil. done.
Qed.

Lemma encode_decode_roundtrip_witness :
  fst (fz_encode (zeros 256) 256 sample_packet) = 41 /\
  fz_decode (snd (fz_encode (zeros 256) 256 sample_packet))
            (fst (fz_encode (zeros 256) 256 sample_packet)) = Some (trimmed sample_packet).
Proof.
  apply (encode_decode_roundtrip (zeros 256) 256 sample_packet);
    [apply sample_packet_wf|by vm_compute|by vm_compute].
Defined.

Lemma decode_encode_roundtrip_witness :
  fz_encode (zeros 256) FZ_MAX_PACKET (trimmed sample_packet) =
    (41, take 41 (datagram sample_packet) ++ drop 41 (zeros 256)).
Proof.
  apply (decode_encode_roundtrip (datagram sample_packet) 41 (trimmed sample_packet) (zeros 256));
    [|by vm_compute|by vm_compute|by vm_compute].
  apply (bool_decide_eq_true_1 _). by vm_compute.
Defined.

Lemma fz_decode_reads_only_received_witness : fz_decode (datagram sample_packet ++ [0; 0]) 40 = None.
Proof. apply (fz_decode_reads_only_received [] [0; 0] [] sample_packet 40); [apply sample_packet_wf|done]. Defined.

Lemma fz_newer_window_witness :
  fz_newer (u32 (4294967295 + 1)) 4294967295 = true <-> 0 < 1 < 2 ^ 31.
Proof. apply (fz_newer_window 4294967295 1); by vm_compute. Defined.
