(* ===== verification/Double.v ===== *)
(** * IEEE-754 doubles

    The type [double] of the sources and the operations on it they use, as the
    executable specification of binary64 (round to nearest, ties to even) of
    the Standard Library's [SpecFloat], with the conversions from and to
    integers and [lround]. *)

From Stdlib Require Export SpecFloat.
From S2P Require Import Prelude.

Definition double : Type := spec_float.

Definition prec64 : Z := 53.
Definition emax64 : Z := 1024.

(** Conversion of an integer, correctly rounded. *)
Definition d_of_Z (z : Z) : double := binary_normalize prec64 emax64 z 0 false.

Definition dadd (x y : double) : double := SFadd prec64 emax64 x y.
Definition dsub (x y : double) : double := SFsub prec64 emax64 x y.
Definition dmul (x y : double) : double := SFmul prec64 emax64 x y.
Definition ddiv (x y : double) : double := SFdiv prec64 emax64 x y.
Definition dopp (x : double) : double := SFopp x.
Definition dabs (x : double) : double := SFabs x.
Definition dlt (x y : double) : bool := SFltb x y.
Definition dle (x y : double) : bool := SFleb x y.
Definition deq (x y : double) : bool := SFeqb x y.

Definition d0 : double := S754_zero false.

(** A decimal literal [a/b] of the sources with [a] and [b] exact: the division
    of two exact doubles is correctly rounded, as the literal is. *)
Definition d_lit (a b : Z) : double := ddiv (d_of_Z a) (d_of_Z b).

(** The truth value of a double used as a condition. *)
Definition d_true (x : double) : bool := negb (deq x d0).

(** Truncation of a finite double toward zero; [None] for infinities and NaN,
    whose conversion to an integer type is undefined. *)
Definition d_trunc (x : double) : option Z :=
  match x with
  | S754_zero _ => Some 0
  | S754_finite s m e =>
      let a := if 0 <=? e then Zpos m * 2 ^ e else Zpos m / 2 ^ (- e) in
      Some (if s then - a else a)
  | _ => None
  end.

(** [std::lround]: nearest integer, halfway cases away from zero. *)
Definition lround (x : double) : option Z :=
  match x with
  | S754_zero _ => Some 0
  | S754_finite s m e =>
      let a := if 0 <=? e then Zpos m * 2 ^ e
               else (Zpos m + 2 ^ (- e - 1)) / 2 ^ (- e) in
      Some (if s then - a else a)
  | _ => None
  end.

Example lround_half : lround (d_lit 5 2) = Some 3 /\ lround (d_lit (-5) 2) = Some (-3).
Proof. by vm_compute. Qed.
