(* ===== verification/Text.v ===== *)
(** * The text the sources format

    The conversions of [printf] and [std::to_string] that occur in log and
    status messages: decimal integers, [%.1f], dotted IPv4 addresses. *)

From stdpp Require Export pretty.
From S2P Require Import Prelude Double.

(** [%u], [%d], [%llu]. *)
Definition dec (z : Z) : string := pretty z.

Definition nat_dec (n : nat) : string := pretty n.

(** The integer nearest to [n/d], ties to even. *)
Definition div_half_even (n d : Z) : Z :=
  let q := n / d in
  let r := 2 * (n mod d) in
  if (r <? d) || ((r =? d) && Z.even q) then q else q + 1.

(** [%.0f] and [%.1f]: the sign, then the value in tenths or in units. *)
Definition show_float (units : Z -> Z -> string) (zero : string) (scale : Z) (x : double) : string :=
  match x with
  | S754_zero s => ((if s then "-" else "") +:+ zero)%string
  | S754_infinity s => (if s then "-inf" else "inf")%string
  | S754_nan => "nan"
  | S754_finite s m e =>
      let n := if 0 <=? e then Zpos m * 2 ^ e * scale else div_half_even (Zpos m * scale) (2 ^ (- e)) in
      ((if s then "-" else "") +:+ units (n / scale) (n mod scale))%string
  end.

Definition show_f0 : double -> string := show_float (fun q _ => dec q) "0" 1.

Definition show_f1 : double -> string := show_float (fun q r => dec q +:+ "." +:+ dec r)%string "0.0" 10.

(** [inet_ntoa] of an address as stored, on a little-endian machine. *)
Definition inet_ntoa (a : Z) : string :=
  (dec (u8 a) +:+ "." +:+ dec (u8 (Z.shiftr a 8)) +:+ "." +:+
   dec (u8 (Z.shiftr a 16)) +:+ "." +:+ dec (u8 (Z.shiftr a 24)))%string.

(** [ntohs] on a little-endian machine. *)
Definition ntohs (p : Z) : Z := u16 (Z.lor (Z.shiftl (u8 p) 8) (Z.shiftr (u16 p) 8)).

(** [snprintf(buf,n,...)]: at most [n-1] characters are kept. *)
Definition snprintf (n : nat) (s : string) : string := String.substring 0 (n - 1) s.

Example show_f1_sample :
  show_f1 (d_lit 1234 100) = "12.3"%string /\ show_f0 (d_lit 5 2) = "2"%string /\ inet_ntoa 16777343 = "127.0.0.1"%string.
Proof. by vm_compute. Qed.
