(* ===== verification/Server.v ===== *)
(** * The race server ([src/server/src/server.c])

    The server object, the operating-system calls it makes and every function
    of [server.c], statement by statement, in the state monad over the server
    and the world it runs in. The operating system is the class [Env]: the
    [n]-th reading of the monotonic clock, the [n]-th read of the random device,
    the [n]-th result of [sendto], [recvfrom] and [poll]. What the server sends
    is recorded in the world in order. *)

From S2P Require Import Prelude State Double Text Protocol.

Local Open Scope string_scope.
Local Open Scope Z_scope.
Local Open Scope fz_scope.

(** ** The operating system *)

(** [struct sockaddr_in], the fields as stored (network order). *)
Record sockaddr_in := mk_sockaddr { sin_port : Z; sin_addr : Z }.

#[export] Instance sockaddr_in_eq_dec : EqDecision sockaddr_in.
Proof. solve_decision. Defined.

(** The values of [errno] the sources distinguish. *)
Inductive errno := EINTR | EAGAIN | EWOULDBLOCK | EOTHER (code : Z).

(** One call of [recvfrom]: a datagram (its bytes, at most the buffer size) and
    its source, or an error. *)
Inductive recv_result :=
| Received (data : bytes) (from : sockaddr_in)
| RecvError (e : errno).

Class Env := {
  clock_gettime : nat -> Z * Z;
  urandom : nat -> option Z;
  sendto_result : nat -> Z;
  recvfrom_result : nat -> recv_result;
  poll_result : nat -> Z * errno;
  strerror : errno -> string;
  calloc_result : bool;
  inet_pton_result : string -> option Z;
  socket_result : Z;
  bind_result : sockaddr_in -> Z;
  fcntl_result : Z;
  open_errno : errno
}.

(** How far each input has been consumed, the timeouts passed to [poll] and the
    datagrams passed to [sendto], in order. *)
Record World := mk_world {
  w_clock : nat;
  w_random : nat;
  w_send : nat;
  w_recv : nat;
  w_poll : nat;
  w_waits : list Z;
  w_sent : list (sockaddr_in * bytes)
}.

(** ** Data *)

Record fz_server_event := mk_event {
  e_time_us : Z;
  e_session : Z;
  e_race : Z;
  e_level : Z;
  e_player : Z;
  e_message : string
}.

Definition event0 : fz_server_event := mk_event 0 0 0 0 0 "".

Record Player := mk_player {
  p_address : sockaddr_in;
  p_token : Z;
  p_nonce : Z;
  p_seen : Z;
  p_updated : Z;
  p_armed : Z;
  p_command_seq : Z;
  p_state_seq : Z;
  p_x : Z;
  p_y : Z;
  p_status : Z;
  p_car : Z;
  p_orientation : Z;
  p_packets : Z;
  p_bytes : Z;
  p_ping : Z;
  p_rtt : double;
  p_jitter : double
}.

(** [memset(p,0,sizeof( *p))] *)
Definition player0 : Player :=
  mk_player (mk_sockaddr 0 0) 0 0 0 0 0 0 0 0 0 0 0 0 0 0 0 d0 d0.

Record Server := mk_server {
  s_socket : Z;
  s_log_level : Z;
  s_trace_player : Z;
  s_closed : bool;
  s_port : Z;
  s_owner_nonce : Z;
  s_tick : Z;
  s_summary : Z;
  s_dropped_events : Z;
  s_events : list fz_server_event;
  s_event_head : Z;
  s_event_count : Z;
  s_session : Z;
  s_start : Z;
  s_phase_since : Z;
  s_rx : Z;
  s_tx : Z;
  s_rejected : Z;
  s_stale : Z;
  s_race : Z;
  s_snapshot_seq : Z;
  s_phase : Z;
  s_expected : Z;
  s_host : Z;
  s_track : Z;
  s_league : Z;
  s_key : bytes;
  s_players : list Player
}.

Record fz_server_config := mk_config {
  c_bind_address : option string;
  c_room_key : option bytes;
  c_port : Z;
  c_players : Z;
  c_track : Z;
  c_league : Z;
  c_log_level : Z;
  c_trace_player : Z;
  c_owner_nonce : Z
}.

Record fz_server_peer := mk_peer_status {
  q_status : Z;
  q_car : Z;
  q_rtt_ms : double;
  q_jitter_ms : double;
  q_movement_packets : Z;
  q_movement_bytes : Z;
  q_age_ms : Z
}.

Record fz_server_status := mk_status {
  o_session : Z;
  o_rx : Z;
  o_tx : Z;
  o_rejected : Z;
  o_stale : Z;
  o_dropped_events : Z;
  o_race : Z;
  o_port : Z;
  o_phase : Z;
  o_players : Z;
  o_occupied : Z;
  o_host : Z;
  o_track : Z;
  o_league : Z;
  o_owner_joined : bool;
  o_closed : bool;
  o_peers : list fz_server_peer
}.

(** The server and its world. *)
Record Sys := mk_sys { srv : Server; wld : World }.

(** [for(int i=0;i<4;i++)] *)
Definition all4 : list nat := [0; 1; 2; 3]%nat.

Definition player_at (s : Server) (i : nat) : Player := default player0 (s_players s !! i).

Section Model.
Context {E : Env}.

Definition get : M Sys Server := gets srv.

Definition upd (f : Server -> Server) : M Sys unit :=
  modify (fun σ => mk_sys (f (srv σ)) (wld σ)).

Definition updw (f : World -> World) : M Sys unit :=
  modify (fun σ => mk_sys (srv σ) (f (wld σ))).

(** Assignment through [Player *p=&s->players[i]]. *)
Definition upd_player (i : nat) (f : Player -> Player) : M Sys unit :=
  upd (fun s => {| s with s_players := alter f i (s_players s) |}).

(** The [n]-th value [now_us] returns. *)
Definition now_at (n : nat) : Z :=
  let '(sec, nsec) := clock_gettime n in
  u64 (u64 (u64 sec * 1000000) + u64 nsec / 1000).

Definition now_us : M Sys Z :=
  let* n := gets (fun σ => w_clock (wld σ)) in
  updw (fun w => {| w with w_clock := S (w_clock w) |}) ;;
  ret (now_at n).

Definition random_id : M Sys Z :=
  let* n := gets (fun σ => w_random (wld σ)) in
  updw (fun w => {| w with w_random := S (w_random w) |}) ;;
  ret match urandom n with
      | None => 0
      | Some id => if u64 id =? 0 then 1 else u64 id
      end.

Definition log_event (level player : Z) (message : string) : M Sys unit :=
  let* s := get in
  if (level >? s_log_level s)
     || ((level =? 3) && (s_trace_player s >=? 0) && negb (s_trace_player s =? player))
  then skip
  else
    when (s_event_count s =? 256)
      (upd (fun s => {| s with s_event_head := u32 (s_event_head s + 1) mod 256;
                               s_event_count := u32 (s_event_count s - 1);
                               s_dropped_events := u64 (s_dropped_events s + 1) |})) ;;
    let* s := get in
    let e := Z.to_nat (u32 (s_event_head s + s_event_count s) mod 256) in
    upd (fun s => {| s with s_event_count := u32 (s_event_count s + 1) |}) ;;
    let* t := now_us in
    upd (fun s => {| s with s_events :=
           <[e := mk_event t (s_session s) (s_race s) level player (snprintf 512 message)]>
             (s_events s) |}).

Definition occupied (p : Player) : bool :=
  negb (p_status p =? FZ_EMPTY) && negb (p_status p =? FZ_DISCONNECTED).

Definition count (s : Server) : Z :=
  foldr (fun i n => n + Z.b2z (occupied (player_at s i))) 0 all4.

Definition same_address (a b : sockaddr_in) : bool :=
  (sin_port a =? sin_port b) && (sin_addr a =? sin_addr b).

Definition transmit (address : sockaddr_in) (packet : fz_packet) : M Sys unit :=
  let '(size, data) := fz_encode (zeros 256) FZ_MAX_PACKET packet in
  let* n := gets (fun σ => w_send (wld σ)) in
  updw (fun w => {| w with w_send := S (w_send w);
                           w_sent := w_sent w ++ [(address, take (Z.to_nat size) data)] |}) ;;
  when (sendto_result n =? size) (upd (fun s => {| s with s_tx := u64 (s_tx s + 1) |})).

Definition send_player (i : nat) (packet : fz_packet) : M Sys unit :=
  let* s := get in
  let p := player_at s i in
  transmit (p_address p)
    {| packet with pk_session := s_session s; pk_race := s_race s;
                   pk_token := p_token p; pk_ack := p_command_seq p |}.

Definition phase (value : Z) : M Sys unit :=
  let* s := get in
  if s_phase s =? value then skip
  else
    log_event 1 (-1) ("state=" +:+ fz_phase_name (s_phase s) +:+ "->" +:+ fz_phase_name value) ;;
    upd (fun s => {| s with s_phase := value |}) ;;
    let* t := now_us in
    upd (fun s => {| s with s_phase_since := t |}).

(** [(now-p->updated)/1000], 0 before the first update. *)
Definition age_ms (now : Z) (p : Player) : Z :=
  if p_updated p =? 0 then 0 else u64 (now - p_updated p) / 1000.

(** One iteration of the loop over the players in [snapshot]: [b] is the payload. *)
Definition snapshot_player (s : Server) (now : Z) (b : bytes) (i : nat) : bytes :=
  let p := player_at s i in
  let q := (24 + i * 16)%nat in
  let b := if occupied p && (p_armed p =? s_start s) && negb (s_start s =? 0)
           then <[5%nat := u8 (Z.lor (rd b 5) (u8 (Z.shiftl 1 (Z.of_nat i))))]> b else b in
  let b := <[q := p_status p]> b in
  let b := <[(q + 1)%nat := p_car p]> b in
  let b := fz_put16 b (q + 2) (p_x p) in
  let b := fz_put16 b (q + 4) (p_y p) in
  let b := <[(q + 6)%nat := p_orientation p]> b in
  let b := fz_put32 b (q + 8) (p_state_seq p) in
  let age := age_ms now p in
  fz_put32 b (q + 12) (u32 (if age >? 4294967295 then 4294967295 else age)).

Definition snapshot : M Sys unit :=
  upd (fun s => {| s with s_snapshot_seq := u32 (s_snapshot_seq s + 1) |}) ;;
  let* s := get in
  let b := zeros PAYLOAD_SIZE in
  let b := <[0%nat := s_phase s]> b in
  let b := <[1%nat := s_expected s]> b in
  let b := <[2%nat := s_host s]> b in
  let b := <[3%nat := s_track s]> b in
  let b := <[4%nat := s_league s]> b in
  let* now := now_us in
  let b := fz_put64 b 8 now in
  let b := fz_put64 b 16 (s_start s) in
  let b := fold_left (snapshot_player s now) all4 b in
  let packet := {| packet0 with pk_type := FZ_SNAPSHOT; pk_length := FZ_SNAPSHOT_SIZE;
                                pk_seq := s_snapshot_seq s; pk_payload := b |} in
  for_each all4 (fun i =>
    let* s := get in when (occupied (player_at s i)) (send_player i packet)).

Definition begin_lobby : M Sys unit :=
  upd (fun s => {| s with s_race := u32 (s_race s + 1); s_start := 0 |}) ;;
  phase FZ_LOBBY ;;
  for_each all4 (fun i =>
    let* s := get in
    if negb (occupied (player_at s i)) then upd_player i (fun _ => player0)
    else upd_player i (fun p => {| p with p_status := FZ_JOINED; p_x := 0; p_y := 0;
                                          p_armed := 0; p_updated := 0; p_state_seq := 0 |})) ;;
  let* s := get in
  log_event 1 (-1) ("new_lobby participants=" +:+ dec (count s)).

(** The first slot of [l] that satisfies the test, as a loop with [break]. *)
Definition first_slot (f : nat -> bool) : option nat := List.find f all4.

Definition drop_player (i : nat) (reason : string) : M Sys unit :=
  upd_player i (fun p => {| p with p_status := FZ_DISCONNECTED; p_x := 0; p_y := 0 |}) ;;
  log_event 0 (Z.of_nat i) ("disconnected reason=" +:+ reason) ;;
  let* s := get in
  if negb (s_owner_nonce s =? 0) && (i =? 0)%nat
  then upd (fun s => {| s with s_closed := true |})
  else
    when (s_host s =? Z.of_nat i)
      (upd (fun s => {| s with s_host :=
              match first_slot (fun j => occupied (player_at s j)) with
              | Some j => Z.of_nat j
              | None => 255
              end |})) ;;
    let* s := get in
    when (s_phase s =? FZ_LOBBY) (upd_player i (fun _ => player0)) ;;
    let* s := get in
    when (count s =? 0) (begin_lobby ;; upd (fun s => {| s with s_host := 255 |})).

Definition all_at_least (s : Server) (status : Z) : bool :=
  negb (count s =? 0)
  && forallb (fun i => negb (occupied (player_at s i) && (p_status (player_at s i) <? status))) all4.

Definition advance (now : Z) : M Sys unit :=
  for_each all4 (fun i =>
    let* s := get in
    when (occupied (player_at s i) && (u64 (now - p_seen (player_at s i)) >=? 5000000))
      (drop_player i "heartbeat_timeout")) ;;
  let* s := get in
  if s_closed s then skip
  else
    when ((s_phase s =? FZ_LOBBY) && (count s =? s_expected s) && all_at_least s FZ_SELECTED)
      (phase FZ_LOADING) ;;
    let* s := get in
    when ((s_phase s =? FZ_LOADING) && all_at_least s FZ_PLAYER_LOADED)
      (upd (fun s => {| s with s_start := u64 (now + 2000000) |}) ;;
       phase FZ_COUNTDOWN ;;
       for_each all4 (fun i => upd_player i (fun p => {| p with p_armed := 0 |}))) ;;
    let* s := get in
    when (s_phase s =? FZ_COUNTDOWN)
      (let all := forallb (fun i => negb (occupied (player_at s i)
                                          && negb (p_armed (player_at s i) =? s_start s))) all4 in
       if negb all && (u64 (now + 500000) >=? s_start s)
       then upd (fun s => {| s with s_start := u64 (now + 2000000) |}) ;;
            log_event 2 (-1) "start_rescheduled waiting_for_ack=1"
       else when (all && (now >=? s_start s))
              (phase FZ_RACING ;;
               for_each all4 (fun i =>
                 let* s := get in
                 when (occupied (player_at s i))
                   (upd_player i (fun p => {| p with p_status := FZ_PLAYER_RACING |}))))) ;;
    let* s := get in
    when ((s_phase s =? FZ_RACING) && all_at_least s FZ_FINISHED) (phase FZ_RESULTS).

Definition reject : M Sys unit :=
  upd (fun s => {| s with s_rejected := u64 (s_rejected s + 1) |}).

(** [s->stale++] *)
Definition mark_stale : M Sys unit :=
  upd (fun s => {| s with s_stale := u64 (s_stale s + 1) |}).

Definition welcome (i : nat) : M Sys unit :=
  let* s := get in
  let b := <[0%nat := u8 (Z.of_nat i)]> (zeros PAYLOAD_SIZE) in
  let b := fz_put64 b 1 (p_nonce (player_at s i)) in
  send_player i {| packet0 with pk_type := FZ_WELCOME; pk_length := 9; pk_payload := b |}.

Definition join_error (address : sockaddr_in) (nonce reason : Z) : M Sys unit :=
  reject ;;
  let b := fz_put64 (zeros PAYLOAD_SIZE) 0 nonce in
  let b := <[8%nat := reason]> b in
  transmit address {| packet0 with pk_type := FZ_JOIN_REJECT; pk_length := 9; pk_payload := b |}.

(** The [FZ_HELLO] branch of [receive_packet]. *)
Definition receive_hello (packet : fz_packet) (address : sockaddr_in) : M Sys unit :=
  let pay := pk_payload packet in
  if (pk_length packet <? 9) || (rd pay 8 >? FZ_KEY_MAX) || negb (pk_length packet =? 9 + rd pay 8)
  then reject
  else
    let nonce := fz_u64 pay 0 in
    let* s := get in
    if negb (rd pay 8 =? Z.of_nat (length (s_key s)))
       || negb (memeq (skipn 9 pay) (s_key s) (Z.to_nat (rd pay 8)))
    then join_error address nonce FZ_REJECT_PASSWORD
    else if negb (s_owner_nonce s =? 0) && negb (occupied (player_at s 0))
            && negb (nonce =? s_owner_nonce s)
    then join_error address nonce FZ_REJECT_STARTING
    else
      match first_slot (fun i => occupied (player_at s i)
                                 && same_address address (p_address (player_at s i))) with
      | Some i => when (nonce =? p_nonce (player_at s i)) (welcome i)
      | None =>
          if negb (s_phase s =? FZ_LOBBY) then join_error address nonce FZ_REJECT_RACING
          else if count s >=? s_expected s then join_error address nonce FZ_REJECT_FULL
          else
            match first_slot (fun i => negb (occupied (player_at s i))) with
            | None => skip
            | Some i =>
                upd_player i (fun _ => {| player0 with p_address := address |}) ;;
                let* token := random_id in
                upd_player i (fun p => {| p with p_token := token |}) ;;
                if token =? 0
                then log_event 0 (Z.of_nat i) "Cannot create session token"
                else
                  upd_player i (fun p => {| p with p_nonce := nonce |}) ;;
                  let* t := now_us in
                  upd_player i (fun p => {| p with p_seen := t; p_status := FZ_JOINED |}) ;;
                  upd (fun s => if s_host s =? 255
                                then {| s with s_host := u8 (Z.of_nat i) |} else s) ;;
                  log_event 1 (Z.of_nat i)
                    ("joined endpoint=" +:+ inet_ntoa (sin_addr address) +:+ ":" +:+
                     dec (ntohs (sin_port address))) ;;
                  welcome i ;;
                  snapshot
            end
      end.

(** The [FZ_STATE] branch. *)
Definition receive_state (packet : fz_packet) (size : Z) (index : nat) : M Sys unit :=
  let pay := pk_payload packet in
  let* s := get in
  let p := player_at s index in
  if negb (pk_length packet =? 5) || negb (s_phase s =? FZ_RACING)
     || negb (p_status p =? FZ_PLAYER_RACING)
  then reject
  else if negb (fz_newer (pk_seq packet) (p_state_seq p)) then mark_stale
  else
    upd_player index (fun p => {| p with p_state_seq := pk_seq packet; p_x := fz_u16 pay 0;
                                         p_y := fz_u16 pay 2; p_orientation := rd pay 4 |}) ;;
    let* t := now_us in
    upd_player index (fun p => {| p with p_updated := t; p_seen := t;
                                         p_packets := u64 (p_packets p + 1);
                                         p_bytes := u64 (p_bytes p + size) |}) ;;
    log_event 3 (Z.of_nat index)
      ("state seq=" +:+ dec (pk_seq packet) +:+ " x=" +:+ dec (fz_u16 pay 0) +:+ " y=" +:+
       dec (fz_u16 pay 2) +:+ " orientation=" +:+ dec (rd pay 4)).

(** The [switch(cmd)] of [receive_packet]: the effect of a valid command before
    it is acknowledged; the result is [valid]. *)
Definition apply_command (packet : fz_packet) (index : nat) : M Sys bool :=
  let pay := pk_payload packet in
  let len := pk_length packet in
  let cmd := rd pay 0 in
  let* s := get in
  let p := player_at s index in
  if cmd =? FZ_SELECT then
    let valid := (len =? 2) && (rd pay 1 <? 4) && (s_phase s =? FZ_LOBBY) in
    when valid (upd_player index (fun p => {| p with p_car := rd pay 1;
                                                     p_status := FZ_SELECTED |})) ;;
    ret valid
  else if cmd =? FZ_LOADED then
    let valid := (len =? 6) && (s_phase s =? FZ_LOADING) in
    when valid
      (upd_player index (fun p => {| p with p_x := fz_u16 pay 1; p_y := fz_u16 pay 3;
                                            p_orientation := rd pay 5;
                                            p_status := FZ_PLAYER_LOADED |}) ;;
       let* t := now_us in
       upd_player index (fun p => {| p with p_updated := t |})) ;;
    ret valid
  else if cmd =? FZ_ARM then
    let valid := (len =? 9) && (s_phase s =? FZ_COUNTDOWN) && (fz_u64 pay 1 =? s_start s) in
    when valid (upd_player index (fun p => {| p with p_armed := s_start s |})) ;;
    ret valid
  else if cmd =? FZ_FINISH then
    let valid := (len =? 1) && (s_phase s =? FZ_RACING) && (p_status p =? FZ_PLAYER_RACING) in
    when valid (upd_player index (fun p => {| p with p_status := FZ_FINISHED;
                                                     p_x := 0; p_y := 0 |})) ;;
    ret valid
  else if cmd =? FZ_NEXT then
    ret ((len =? 1) && (Z.of_nat index =? s_host s)
         && ((s_phase s =? FZ_RESULTS) || (s_phase s =? FZ_LOBBY)))
  else if cmd =? FZ_CONFIG then
    let valid := (len =? 4) && (Z.of_nat index =? s_host s) && (s_phase s =? FZ_LOBBY)
                 && (rd pay 1 >=? 2) && (rd pay 1 <=? 4) && (rd pay 1 >=? count s)
                 && (rd pay 2 <? 5) && (rd pay 3 <? 3) in
    when valid (upd (fun s => {| s with s_expected := rd pay 1; s_track := rd pay 2;
                                        s_league := rd pay 3 |})) ;;
    ret valid
  else if cmd =? FZ_LEAVE then ret (len =? 1)
  else ret false.

(** The reliable command stream: sequence check, [switch], acknowledgement,
    consequences, then [advance] and [snapshot]. *)
Definition receive_command (packet : fz_packet) (index : nat) : M Sys unit :=
  let* s := get in
  let p := player_at s index in
  let cmd := rd (pk_payload packet) 0 in
  if negb (pk_type packet =? FZ_COMMAND) || (pk_length packet <? 1) then reject
  else if negb (fz_newer (pk_seq packet) (p_command_seq p)) then mark_stale
  else if negb (pk_seq packet =? u32 (p_command_seq p + 1)) then reject
  else
    let* valid := apply_command packet index in
    let* t := now_us in
    upd_player index (fun p => {| p with p_command_seq := pk_seq packet; p_seen := t |}) ;;
    let* s := get in
    (if negb valid then
       reject ;;
       log_event 2 (Z.of_nat index)
         ("command_rejected type=" +:+ dec cmd +:+ " phase=" +:+ fz_phase_name (s_phase s) +:+
          " seq=" +:+ dec (pk_seq packet)) ;;
       send_player index
         {| packet0 with pk_type := FZ_ERROR; pk_length := 2;
                         pk_payload := <[1%nat := 1]> (<[0%nat := cmd]> (zeros PAYLOAD_SIZE)) |}
     else
       log_event 1 (Z.of_nat index)
         ("command=" +:+ dec cmd +:+ " status=" +:+
          fz_status_name (p_status (player_at s index)) +:+ " seq=" +:+ dec (pk_seq packet)) ;;
       when (cmd =? FZ_SELECT)
         (log_event 1 (Z.of_nat index)
            ("selected car=" +:+ fz_car_name (p_car (player_at s index)))) ;;
       when (cmd =? FZ_CONFIG)
         (log_event 1 (Z.of_nat index)
            ("configured players=" +:+ dec (s_expected s) +:+ " league=" +:+ dec (s_league s) +:+
             " track=" +:+ dec (s_track s))) ;;
       when (cmd =? FZ_NEXT) begin_lobby ;;
       when (cmd =? FZ_LEAVE) (drop_player index "left_room")) ;;
    let* now := now_us in
    advance now ;;
    snapshot.

(** The packets of an authenticated player: [receive_packet] after its lookup. *)
Definition receive_player (packet : fz_packet) (size : Z) (index : nat) : M Sys unit :=
  let pay := pk_payload packet in
  let* s := get in
  let p := player_at s index in
  if (pk_type packet =? FZ_PONG) && (pk_length packet =? 8) && negb (p_ping p =? 0)
     && (fz_u64 pay 0 =? p_ping p)
  then
    let* t := now_us in
    let sample := ddiv (d_of_Z (u64 (t - p_ping p))) (d_of_Z 1000) in
    let delta := dsub sample (p_rtt p) in
    let delta := if dlt delta d0 then dopp delta else delta in
    upd_player index (fun p =>
      {| p with p_jitter := dadd (dmul (p_jitter p) (d_lit 9 10)) (dmul delta (d_lit 1 10));
                p_rtt := if d_true (p_rtt p)
                         then dadd (dmul (p_rtt p) (d_lit 8 10)) (dmul sample (d_lit 2 10))
                         else sample;
                p_ping := 0; p_seen := t |})
  else if (pk_type packet =? FZ_PING) && (pk_length packet =? 8)
  then
    let* t := now_us in
    upd_player index (fun p => {| p with p_seen := t |}) ;;
    let b := memcpy (zeros PAYLOAD_SIZE) 0 pay 8 in
    let b := fz_put64 b 8 t in
    send_player index {| packet0 with pk_type := FZ_PONG; pk_length := 16; pk_payload := b |}
  else if negb (pk_race packet =? s_race s) then mark_stale
  else if pk_type packet =? FZ_STATE then receive_state packet size index
  else receive_command packet index.

(** The slot a non-HELLO packet belongs to: session, token and endpoint match. *)
Definition authenticate (s : Server) (packet : fz_packet) (address : sockaddr_in) : option nat :=
  first_slot (fun i => occupied (player_at s i) && (pk_session packet =? s_session s)
                       && (pk_token packet =? p_token (player_at s i))
                       && same_address address (p_address (player_at s i))).

Definition receive_packet (data : bytes) (size : Z) (address : sockaddr_in) : M Sys unit :=
  match fz_decode data size with
  | None =>
      if (size >=? FZ_HEADER + 9) && (size <=? FZ_MAX_PACKET) && memeq data FZVS_MAGIC 4
         && (rd data 5 =? FZ_HELLO) && negb (rd data 4 =? FZ_VERSION)
         && (fz_u16 data 6 =? size - FZ_HEADER)
      then join_error address (fz_u64 data 36) FZ_REJECT_VERSION
      else reject
  | Some packet =>
      let* s := get in
      if s_closed s then skip
      else
        upd (fun s => {| s with s_rx := u64 (s_rx s + 1) |}) ;;
        if pk_type packet =? FZ_HELLO then receive_hello packet address
        else
          match authenticate s packet address with
          | None => reject
          | Some index => receive_player packet size index
          end
  end.

(** ** Creation, polling and the rest of the public interface *)

(** [calloc(1,sizeof( *s))] *)
Definition server0 : Server :=
  {| s_socket := 0; s_log_level := 0; s_trace_player := 0; s_closed := false; s_port := 0;
     s_owner_nonce := 0; s_tick := 0; s_summary := 0; s_dropped_events := 0;
     s_events := replicate 256 event0; s_event_head := 0; s_event_count := 0; s_session := 0;
     s_start := 0; s_phase_since := 0; s_rx := 0; s_tx := 0; s_rejected := 0; s_stale := 0;
     s_race := 0; s_snapshot_seq := 0; s_phase := 0; s_expected := 0; s_host := 0; s_track := 0;
     s_league := 0; s_key := []; s_players := replicate 4 player0 |}.

(** [fz_server_create] after the configuration check and the allocation: the
    result is the error message, if any. *)
Definition server_open (c : fz_server_config) (bind_address : string) (room_key : bytes) :
    M Sys (option string) :=
  upd (fun s => {| s with s_socket := -1; s_expected := u8 (c_players c); s_host := 255; s_race := 1;
                          s_track := u8 (c_track c); s_league := u8 (c_league c);
                          s_port := c_port c; s_log_level := c_log_level c;
                          s_trace_player := c_trace_player c; s_owner_nonce := c_owner_nonce c;
                          s_key := room_key |}) ;;
  let* id := random_id in
  upd (fun s => {| s with s_session := id |}) ;;
  if id =? 0 then ret (Some "Cannot read secure random source")
  else
    match inet_pton_result bind_address with
    | None => ret (Some "Bind address must be IPv4")
    | Some a =>
        let address := mk_sockaddr (ntohs (u16 (c_port c))) a in
        upd (fun s => {| s with s_socket := socket_result |}) ;;
        if (socket_result <? 0) || negb (bind_result address =? 0) || negb (fcntl_result =? 0)
        then ret (Some ("Cannot listen on " +:+ bind_address +:+ ":" +:+ dec (c_port c) +:+ ": "
                        +:+ strerror open_errno))
        else
          let* t := now_us in
          upd (fun s => {| s with s_tick := t; s_summary := t; s_phase_since := t |}) ;;
          let* s := get in
          log_event 1 (-1) ("listening address=" +:+ bind_address +:+ " port=" +:+ dec (c_port c)
                            +:+ " players=" +:+ dec (s_expected s)) ;;
          ret None
    end.

(** [inl] is a [NULL] result with the error message. *)
Definition fz_server_create (config : option fz_server_config) (w : World) :
    (string + Server) * World :=
  match config with
  | Some ({| c_bind_address := Some bind_address; c_room_key := Some room_key |} as c) =>
      if (c_port c <? 1) || (c_port c >? 65535) || (c_port c =? 12001) || (c_players c <? 2)
         || (c_players c >? 4) || (c_track c >? 4) || (c_league c >? 2)
         || (Z.of_nat (length room_key) >? FZ_KEY_MAX)
      then (inl "Invalid server configuration (port 12001 is reserved for discovery)", w)
      else if negb calloc_result then (inl "Cannot allocate server", w)
      else
        let r := server_open c bind_address room_key (mk_sys server0 w) in
        match fst r with
        | Some error => (inl error, wld (snd r))
        | None => (inr (srv (snd r)), wld (snd r))
        end
  | _ => (inl "Invalid server configuration (port 12001 is reserved for discovery)", w)
  end.

(** [poll(&fd,1,timeout)] *)
Definition poll_socket (timeout : Z) : M Sys (Z * errno) :=
  let* n := gets (fun σ => w_poll (wld σ)) in
  updw (fun w => {| w with w_poll := S (w_poll w); w_waits := w_waits w ++ [timeout] |}) ;;
  ret (poll_result n).

(** [recvfrom] into [uint8_t bytes[FZ_MAX_PACKET+1]]: a longer datagram is cut. *)
Definition recvfrom : M Sys recv_result :=
  let* n := gets (fun σ => w_recv (wld σ)) in
  updw (fun w => {| w with w_recv := S (w_recv w) |}) ;;
  ret match recvfrom_result n with
      | Received data from => Received (take 257 data) from
      | RecvError e => RecvError e
      end.

(** The receive loop of [fz_server_poll]; [true] when it returns -1. *)
Fixpoint receive_loop (budget : nat) : M Sys bool :=
  match budget with
  | O => ret false
  | S budget =>
      let* s := get in
      if s_closed s then ret false
      else
        let* r := recvfrom in
        match r with
        | RecvError (EOTHER c) => log_event 0 (-1) ("recvfrom: " +:+ strerror (EOTHER c)) ;; ret true
        | RecvError _ => ret false
        | Received data from =>
            receive_packet data (Z.of_nat (length data)) from ;;
            receive_loop budget
        end
  end.

(** The five-second summary of [fz_server_poll], for one player. *)
Definition summarize_player (now : Z) (i : nat) : M Sys unit :=
  let* s := get in
  let p := player_at s i in
  when (occupied p)
    (let span := d_of_Z (u64 (now - s_summary s)) in
     log_event 2 (Z.of_nat i)
       ("network rtt_ms=" +:+ show_f1 (p_rtt p) +:+ " jitter_ms=" +:+ show_f1 (p_jitter p) +:+
        " rx_pps=" +:+ show_f1 (ddiv (dmul (d_of_Z (p_packets p)) (d_of_Z 1000000)) span) +:+
        " bytes_per_sec=" +:+ show_f1 (ddiv (dmul (d_of_Z (p_bytes p)) (d_of_Z 1000000)) span) +:+
        " state_age_ms=" +:+ dec (age_ms now p)) ;;
     upd_player i (fun p => {| p with p_packets := 0; p_bytes := 0; p_ping := now |}) ;;
     send_player i {| packet0 with pk_type := FZ_PING; pk_length := 8;
                                   pk_payload := fz_put64 (zeros PAYLOAD_SIZE) 0 now |}).

(** How long [poll] may wait. *)
Definition poll_timeout (s : Server) (before wait_ms : Z) : Z :=
  let until := u32 ((if s_tick s >? before then s_tick s - before else 0) / 1000) in
  let timeout := if wait_ms <? until then wait_ms else until in
  if timeout >? 16 then 16 else timeout.

(** [fz_server_poll] once the datagrams were read. *)
Definition poll_end : M Sys Z :=
  let* now := now_us in
  let* s := get in
  when (now >=? s_tick s)
    (advance now ;;
     let* s := get in
     when (negb (s_closed s)) snapshot ;;
     upd (fun s => {| s with s_tick := u64 (now + 16667) |})) ;;
  let* s := get in
  when (u64 (now - s_summary s) >=? 5000000)
    (log_event 2 (-1) ("network rx=" +:+ dec (s_rx s) +:+ " tx=" +:+ dec (s_tx s) +:+
       " rejected=" +:+ dec (s_rejected s) +:+ " stale=" +:+ dec (s_stale s)) ;;
     for_each all4 (summarize_player now) ;;
     upd (fun s => {| s with s_summary := now |})) ;;
  let* s := get in
  ret (if s_closed s then 0 else 1).

(** 1 running, 0 closed, -1 socket failure. *)
Definition fz_server_poll (wait_ms : Z) : M Sys Z :=
  let* s := get in
  if s_closed s then ret 0
  else
    let* before := now_us in
    let* r := poll_socket (poll_timeout s before wait_ms) in
    if (fst r <? 0) && match snd r with EINTR => false | _ => true end
    then log_event 0 (-1) ("poll: " +:+ strerror (snd r)) ;; ret (-1)
    else
      let* failed := receive_loop 128 in
      if failed : bool then ret (-1) else poll_end.

Definition fz_server_get_status : M Sys fz_server_status :=
  let* s := get in
  let* now := now_us in
  ret {| o_session := s_session s; o_race := s_race s; o_rx := s_rx s; o_tx := s_tx s;
         o_rejected := s_rejected s; o_stale := s_stale s; o_phase := s_phase s;
         o_players := s_expected s; o_occupied := count s; o_host := s_host s;
         o_track := s_track s; o_league := s_league s; o_port := s_port s;
         o_closed := s_closed s; o_dropped_events := s_dropped_events s;
         o_owner_joined := negb (s_owner_nonce s =? 0) && occupied (player_at s 0);
         o_peers := map (fun i =>
           let p := player_at s i in
           mk_peer_status (p_status p) (p_car p) (p_rtt p) (p_jitter p) (p_packets p) (p_bytes p)
             (age_ms now p)) all4 |}.

Definition fz_server_next_event : M Sys (option fz_server_event) :=
  let* s := get in
  if s_event_count s =? 0 then ret None
  else
    upd (fun s => {| s with s_event_head := u32 (s_event_head s + 1) mod 256;
                            s_event_count := u32 (s_event_count s - 1) |}) ;;
    ret (Some (default event0 (s_events s !! Z.to_nat (s_event_head s)))).

Definition fz_server_close : M Sys unit :=
  let* s := get in
  if s_socket s <? 0 then skip
  else
    for_each all4 (fun i =>
      let* s := get in
      when (occupied (player_at s i))
        (send_player i {| packet0 with pk_type := FZ_ROOM_CLOSED; pk_length := 1;
                                       pk_payload := <[0%nat := 1]> (zeros PAYLOAD_SIZE) |})) ;;
    log_event 1 (-1) "shutdown" ;;
    upd (fun s => {| s with s_socket := -1; s_closed := true |}).

(** The state of the object just before it is freed. *)
Definition fz_server_destroy : M Sys unit := fz_server_close.

End Model.
