(* ===== verification/Room.v ===== *)
(** * The room: what the server promises

    An abstract specification of a race room, without packets, clocks, logs or
    counters: four seats, the stage of the race and the rules by which they
    change. [step] is the rule set; [room_inv] is the invariant every rule
    preserves. [ServerRefine] shows that the server only ever moves its room
    along these rules. *)

From stdpp Require Export relations.
From S2P Require Import Prelude Server.

(** ** State *)

Inductive stage := Lobby | Loading | Countdown | Racing | Results.

Inductive rank := Joined | Selected | Loaded | Racer | Done.

#[export] Instance stage_eq_dec : EqDecision stage.
Proof. solve_decision. Defined.

#[export] Instance rank_eq_dec : EqDecision rank.
Proof. solve_decision. Defined.

Record seat := mk_seat {
  seat_endpoint : sockaddr_in;
  seat_token : Z;
  seat_nonce : Z;
  seat_rank : rank;
  seat_car : Z;
  seat_armed : Z
}.

Record room := mk_room {
  r_seats : list (option seat);
  r_stage : stage;
  r_capacity : Z;
  r_host : option nat;
  r_track : Z;
  r_league : Z;
  r_race : Z;
  r_deadline : Z;
  r_owner : Z;
  r_closed : bool
}.

(** Who sits where. *)
Definition seated (r : room) (i : nat) (st : seat) : Prop := r_seats r !! i = Some (Some st).

Fixpoint seated_count (l : list (option seat)) : nat :=
  match l with
  | [] => 0
  | Some _ :: l => S (seated_count l)
  | None :: l => seated_count l
  end.

Definition everyone (r : room) (P : seat -> Prop) : Prop := forall i st, seated r i st -> P st.

Definition someone (r : room) : Prop := exists i st, seated r i st.

(** The first seat of a kind, as the server scans them. *)
Fixpoint first_at (f : option seat -> bool) (l : list (option seat)) : option nat :=
  match l with
  | [] => None
  | o :: l => if f o then Some 0%nat else S <$> first_at f l
  end.

Definition free (o : option seat) : bool := match o with None => true | Some _ => false end.

Definition taken (o : option seat) : bool := negb (free o).

(** ** Operations *)

Definition set_seat (i : nat) (o : option seat) (r : room) : room :=
  {| r with r_seats := <[i := o]> (r_seats r) |}.

Definition set_rank (k : rank) (st : seat) : seat := {| st with seat_rank := k |}.

Definition set_armed (d : Z) (st : seat) : seat := {| st with seat_armed := d |}.

Definition map_seats (f : seat -> seat) (r : room) : room :=
  {| r with r_seats := fmap (M:=option) f <$> r_seats r |}.

(** A new generation of the room: everybody back to the lobby. *)
Definition fresh_lobby (r : room) : room :=
  let r := map_seats (fun st => set_armed 0 (set_rank Joined st)) r in
  {| r with r_race := u32 (r_race r + 1); r_deadline := 0; r_stage := Lobby |}.

(** A participant that does not own the room leaves: the host role moves to the
    first participant left, and an empty room starts a new generation. *)
Definition leave (i : nat) (r : room) : room :=
  let l := <[i := None]> (r_seats r) in
  let h := if bool_decide (r_host r = Some i) then first_at taken l else r_host r in
  let r := {| r with r_seats := l; r_host := h |} in
  if (seated_count l =? 0)%nat then {| (fresh_lobby r) with r_host := None |} else r.

(** ** Rules *)

Inductive step : room -> room -> Prop :=
| step_join r i a t n :
    r_closed r = false -> r_stage r = Lobby -> t <> 0 ->
    first_at free (r_seats r) = Some i ->
    Z.of_nat (seated_count (r_seats r)) < r_capacity r ->
    everyone r (fun st => seat_endpoint st <> a) ->
    (r_owner r <> 0 -> r_seats r !! 0%nat = Some None -> n = r_owner r) ->
    step r {| (set_seat i (Some (mk_seat a t n Joined 0 0)) r) with
              r_host := Some (default i (r_host r)) |}
| step_leave r i st :
    seated r i st -> (r_owner r = 0 \/ i <> 0%nat) -> step r (leave i r)
| step_owner_leave r st :
    r_owner r <> 0 -> seated r 0 st ->
    step r {| (set_seat 0 None r) with r_closed := true |}
| step_select r i st c :
    r_closed r = false -> r_stage r = Lobby -> seated r i st -> 0 <= c < 4 ->
    step r (set_seat i (Some {| st with seat_car := c; seat_rank := Selected |}) r)
| step_loaded r i st :
    r_closed r = false -> r_stage r = Loading -> seated r i st ->
    step r (set_seat i (Some (set_rank Loaded st)) r)
| step_arm r i st :
    r_closed r = false -> r_stage r = Countdown -> seated r i st ->
    step r (set_seat i (Some (set_armed (r_deadline r) st)) r)
| step_finish r i st :
    r_closed r = false -> r_stage r = Racing -> seated r i st -> seat_rank st = Racer ->
    step r (set_seat i (Some (set_rank Done st)) r)
| step_config r i st c t l :
    r_closed r = false -> r_stage r = Lobby -> r_host r = Some i -> seated r i st ->
    2 <= c <= 4 -> Z.of_nat (seated_count (r_seats r)) <= c -> 0 <= t < 5 -> 0 <= l < 3 ->
    step r {| r with r_capacity := c; r_track := t; r_league := l |}
| step_next r i st :
    r_closed r = false -> r_host r = Some i -> seated r i st -> (r_stage r = Results \/ r_stage r = Lobby) ->
    step r (fresh_lobby r)
| step_load r :
    r_closed r = false -> r_stage r = Lobby ->
    Z.of_nat (seated_count (r_seats r)) = r_capacity r ->
    everyone r (fun st => seat_rank st <> Joined) ->
    step r {| r with r_stage := Loading |}
| step_countdown r d :
    r_closed r = false -> r_stage r = Loading -> someone r ->
    everyone r (fun st => seat_rank st <> Joined /\ seat_rank st <> Selected) ->
    step r {| (map_seats (set_armed 0) r) with r_stage := Countdown; r_deadline := d |}
| step_postpone r i st d :
    r_closed r = false -> r_stage r = Countdown -> seated r i st ->
    seat_armed st <> r_deadline r ->
    step r {| r with r_deadline := d |}
| step_go r now :
    r_closed r = false -> r_stage r = Countdown ->
    everyone r (fun st => seat_armed st = r_deadline r) -> r_deadline r <= now ->
    step r {| (map_seats (set_rank Racer) r) with r_stage := Racing |}
| step_results r :
    r_closed r = false -> r_stage r = Racing -> someone r ->
    everyone r (fun st => seat_rank st = Done) ->
    step r {| r with r_stage := Results |}
| step_close r : step r {| r with r_closed := true |}.

(** Any number of rules. *)
Definition steps : room -> room -> Prop := rtc step.

(** ** The invariant *)

(** The ranks a participant may have in each stage. *)
Definition rank_in (s : stage) (k : rank) : Prop :=
  match s with
  | Lobby => k = Joined \/ k = Selected
  | Loading => k = Selected \/ k = Loaded
  | Countdown => k = Loaded
  | Racing => k = Racer \/ k = Done
  | Results => k = Done
  end.

Definition endpoints_distinct (r : room) : Prop :=
  forall i j si sj, seated r i si -> seated r j sj ->
  seat_endpoint si = seat_endpoint sj -> i = j.

(** An open room has a host exactly when it has participants, and the host is one. *)
Definition host_ok (r : room) : Prop :=
  match r_host r with
  | None => ~ someone r
  | Some h => exists st, seated r h st
  end.

(** In a room with an owner nobody sits down before the owner, who has seat 0. *)
Definition owner_ok (r : room) : Prop :=
  r_owner r <> 0 ->
  (forall st, seated r 0 st -> seat_nonce st = r_owner r) /\
  (someone r -> exists st, seated r 0 st).

Record room_inv (r : room) : Prop := {
  inv_seats : length (r_seats r) = 4%nat;
  inv_capacity : 2 <= r_capacity r <= 4;
  inv_course : 0 <= r_track r < 5 /\ 0 <= r_league r < 3;
  inv_rank : everyone r (fun st => rank_in (r_stage r) (seat_rank st));
  inv_car : everyone r (fun st => 0 <= seat_car st < 4);
  inv_token : everyone r (fun st => seat_token st <> 0);
  inv_endpoints : endpoints_distinct r;
  inv_fits : Z.of_nat (seated_count (r_seats r)) <= r_capacity r;
  inv_busy : r_closed r = false -> r_stage r <> Lobby -> someone r;
  inv_host : r_closed r = false -> host_ok r;
  inv_owner : r_closed r = false -> owner_ok r
}.

(** ** Lemmas on seats *)

Lemma seated_count_pos l : (0 < seated_count l)%nat <-> exists i st, l !! i = Some (Some st).
Proof.
  induction l as [|[st|] l IH]; simpl.
  - split; [lia|]. by intros (i & st & ?).
  - split; [|lia]. intros _. by exists 0%nat, st.
  - rewrite IH. split; intros (i & st & H); [by exists (S i), st|].
    destruct i; [done|by eauto].
Qed.

Lemma seated_count_insert_None l i :
  (seated_count (<[i := None]> l) <= seated_count l)%nat.
Proof.
  revert i. induction l as [|[st|] l IH]; intros [|i]; simpl; try lia; specialize (IH i); lia.
Qed.

(** Replacing the occupant of a taken seat keeps the number of participants. *)
Lemma seated_count_replace l i st st' :
  l !! i = Some (Some st) -> seated_count (<[i := Some st']> l) = seated_count l.
Proof.
  revert i. induction l as [|[o|] l IH]; intros [|i] H; simplify_eq/=; auto.
Qed.

Lemma seated_count_add l i st' :
  l !! i = Some None -> seated_count (<[i := Some st']> l) = S (seated_count l).
Proof.
  revert i. induction l as [|[o|] l IH]; intros [|i] H; simplify_eq/=; auto.
Qed.

Lemma seated_count_fmap f l : seated_count (fmap (M:=option) f <$> l) = seated_count l.
Proof. induction l as [|[st|] l IH]; simpl; auto. Qed.

Lemma first_at_Some f l i : first_at f l = Some i -> exists o, l !! i = Some o /\ f o = true.
Proof.
  revert i. induction l as [|o l IH]; intros i H; simpl in H; [done|].
  destruct (f o) eqn:F; simplify_eq; [by exists o|].
  destruct (first_at f l); simplify_eq/=. by apply IH.
Qed.

Lemma first_at_None f l : first_at f l = None -> Forall (fun o => f o = false) l.
Proof.
  induction l as [|o l IH]; intros H; simpl in H; [constructor|].
  destruct (f o) eqn:F; [done|]. destruct (first_at f l); simplify_eq/=. auto.
Qed.

(** The first seat found is 0 when seat 0 qualifies. *)
Lemma first_at_0 f o l i : first_at f (o :: l) = Some i -> f o = true -> i = 0%nat.
Proof. simpl. intros H F. rewrite F in H. by simplify_eq. Qed.

Lemma seated_set_seat r i o j st :
  seated (set_seat i o r) j st <->
  (i = j /\ o = Some st /\ (j < length (r_seats r))%nat) \/ (i <> j /\ seated r j st).
Proof.
  unfold seated, set_seat. simpl. destruct (decide (i = j)) as [->|Hne].
  - destruct (decide (j < length (r_seats r))%nat).
    + rewrite list_lookup_insert_eq by done. split; [intros [= ->]; auto|].
      intros [(_ & -> & _)|[? _]]; [done|done].
    + rewrite list_insert_ge by lia. rewrite lookup_ge_None_2 by lia.
      split; [done|]. intros [(_ & _ & ?)|[? _]]; lia || done.
  - rewrite list_lookup_insert_ne by done. split; [auto|]. intros [[? _]|[_ ?]]; done.
Qed.

Lemma seated_lt r i st : seated r i st -> (i < length (r_seats r))%nat.
Proof. apply lookup_lt_Some. Qed.

Lemma seated_map_seats f r i st :
  seated (map_seats f r) i st <-> exists st', st = f st' /\ seated r i st'.
Proof.
  unfold seated, map_seats. simpl. rewrite list_lookup_fmap.
  destruct (r_seats r !! i) as [[st'|]|]; simpl; split; try done.
  - intros [= <-]. eauto.
  - by intros (? & -> & [= ->]).
  - by intros (? & -> & ?).
  - by intros (? & -> & ?).
Qed.

(** ** Every rule preserves the invariant *)

(** Replacing what is known of a participant, not who it is. *)
Lemma update_seat_inv r i st st' :
  room_inv r -> seated r i st ->
  seat_endpoint st' = seat_endpoint st -> seat_token st' = seat_token st ->
  seat_nonce st' = seat_nonce st -> rank_in (r_stage r) (seat_rank st') ->
  0 <= seat_car st' < 4 ->
  room_inv (set_seat i (Some st') r).
Proof.
  intros I Hi He Ht Hn Hk Hc. destruct I.
  assert (forall j s, seated (set_seat i (Some st') r) j s ->
    (j = i /\ s = st') \/ (j <> i /\ seated r j s)) as Hs.
  { intros j s H. apply seated_set_seat in H as [(-> & [= ->] & _)|[? ?]]; auto. }
  assert (forall j, (exists s, seated r j s) -> exists s, seated (set_seat i (Some st') r) j s) as Hk'.
  { intros j [s Hj]. destruct (decide (i = j)) as [->|]; [exists st'|exists s]; apply seated_set_seat;
      [left|right]; eauto using seated_lt. }
  split; simpl; try done.
  - by rewrite length_insert.
  - intros j s [[-> ->]|[? ?]]%Hs; [done|eauto].
  - intros j s [[-> ->]|[? ?]]%Hs; [done|eauto].
  - intros j s [[-> ->]|[? ?]]%Hs; [rewrite Ht; eauto|eauto].
  - intros j k s s' [[-> ->]|[? ?]]%Hs [[-> ->]|[? ?]]%Hs; rewrite ?He; eauto.
  - by rewrite (seated_count_replace _ _ st).
  - intros Hcl Hst. destruct (inv_busy0 Hcl Hst) as (j & s & Hj). exists j. eauto.
  - intros Hcl. specialize (inv_host0 Hcl). unfold host_ok in *. simpl. destruct (r_host r); [eauto|].
    exfalso. apply inv_host0. by exists i, st.
  - intros Hcl Ho. destruct (inv_owner0 Hcl Ho) as [H1 H2]. split.
    + intros s [[<- ->]|[? ?]]%Hs; [rewrite Hn|]; eauto.
    + intros _. apply Hk', H2. by exists i, st.
Qed.

(** Moving everybody to another stage. *)
Lemma map_seats_inv f s' race deadline r :
  room_inv r ->
  (forall st, seat_endpoint (f st) = seat_endpoint st) ->
  (forall st, seat_token (f st) = seat_token st) ->
  (forall st, seat_nonce (f st) = seat_nonce st) ->
  (forall st, seat_car (f st) = seat_car st) ->
  everyone r (fun st => rank_in s' (seat_rank (f st))) ->
  (r_closed r = false -> s' <> Lobby -> someone r) ->
  room_inv {| (map_seats f r) with r_stage := s'; r_race := race; r_deadline := deadline |}.
Proof.
  intros I He Ht Hn Hc Hk Hb. destruct I.
  set (r' := {| (map_seats f r) with r_stage := s'; r_race := race; r_deadline := deadline |}).
  assert (forall j s, seated r' j s -> exists s0, s = f s0 /\ seated r j s0) as Hs
    by apply seated_map_seats.
  assert (forall j, (exists s, seated r j s) -> exists s, seated r' j s) as Hk'.
  { intros j [s Hj]. exists (f s). apply seated_map_seats. eauto. }
  split; simpl; try done.
  - by rewrite length_fmap.
  - intros j s (s0 & -> & ?)%Hs. eauto.
  - intros j s (s0 & -> & ?)%Hs. rewrite Hc. eauto.
  - intros j s (s0 & -> & ?)%Hs. rewrite Ht. eauto.
  - intros j k s t (s0 & -> & ?)%Hs (t0 & -> & ?)%Hs. rewrite !He. eauto.
  - by rewrite seated_count_fmap.
  - intros Hcl Hst. destruct (Hb Hcl Hst) as (j & s & Hj). exists j. eauto.
  - intros Hcl. specialize (inv_host0 Hcl). unfold host_ok in *. simpl. destruct (r_host r); [eauto|].
    intros (j & s & (s0 & -> & ?)%Hs). apply inv_host0. by exists j, s0.
  - intros Hcl Ho. destruct (inv_owner0 Hcl Ho) as [H1 H2]. split.
    + intros s (s0 & -> & ?)%Hs. rewrite Hn. eauto.
    + intros (j & s & (s0 & -> & ?)%Hs). apply Hk', H2. by exists j, s0.
Qed.

Lemma fresh_lobby_inv r : room_inv r -> room_inv (fresh_lobby r).
Proof. intros I. apply map_seats_inv; try done. intros j st _. by left. Qed.

Lemma join_inv r i a t n :
  room_inv r -> r_stage r = Lobby -> t <> 0 -> first_at free (r_seats r) = Some i ->
  Z.of_nat (seated_count (r_seats r)) < r_capacity r ->
  everyone r (fun st => seat_endpoint st <> a) ->
  (r_owner r <> 0 -> r_seats r !! 0%nat = Some None -> n = r_owner r) ->
  room_inv {| (set_seat i (Some (mk_seat a t n Joined 0 0)) r) with
              r_host := Some (default i (r_host r)) |}.
Proof.
  intros I Hst Ht Hf Hc Ha Hn. destruct I.
  destruct (first_at_Some _ _ _ Hf) as (o & Ho & Hfo). destruct o; [done|]. clear Hfo.
  set (st' := mk_seat a t n Joined 0 0).
  assert (forall j s, seated (set_seat i (Some st') r) j s ->
    (j = i /\ s = st') \/ (j <> i /\ seated r j s)) as Hs.
  { intros j s H. apply seated_set_seat in H as [(-> & [= ->] & _)|[? ?]]; auto. }
  assert (seated (set_seat i (Some st') r) i st') as Hnew.
  { apply seated_set_seat. left. eauto using lookup_lt_Some. }
  assert (forall j s, seated r j s -> seated (set_seat i (Some st') r) j s) as Hold.
  { intros j s H. apply seated_set_seat. right. split; [|done]. intros ->.
    unfold seated in H. congruence. }
  split; simpl; try done.
  - by rewrite length_insert.
  - intros j s [[-> ->]|[? ?]]%Hs; [rewrite Hst; by left|eauto].
  - intros j s [[-> ->]|[? ?]]%Hs; [done|eauto].
  - intros j s [[-> ->]|[? ?]]%Hs; [done|eauto].
  - intros j k s s' [[-> ->]|[? ?]]%Hs [[-> ->]|[? ?]]%Hs; simpl; eauto.
    + intros E. exfalso. by eapply Ha.
    + intros E. exfalso. by eapply Ha.
  - rewrite seated_count_add by done. lia.
  - intros Hcl. specialize (inv_host0 Hcl). unfold host_ok in *. simpl.
    destruct (r_host r) as [h|]; simpl; [destruct inv_host0|]; eauto.
  - intros Hcl Hown. specialize (inv_owner0 Hcl Hown) as [H1 H2].
    destruct (decide (i = 0%nat)) as [->|Hi].
    + split; [|by eauto]. intros s [[_ ->]|[? ?]]%Hs; [by apply Hn|done].
    + split; [intros s [[<- _]|[_ ?]]%Hs; [done|eauto]|]. intros _.
      assert (exists s, seated r 0 s) as [s Hs0]; [|by eauto].
      unfold seated. destruct (r_seats r) as [|[s|] l]; simplify_eq/=. eauto.
Qed.

(** Emptying a seat, the host role going to [h]. *)
Lemma vacate_inv r i st h b :
  room_inv r -> seated r i st ->
  (b = false -> r_closed r = false /\ (r_owner r = 0 \/ i <> 0%nat)) ->
  (b = false -> host_ok {| (set_seat i None r) with r_host := h |}) ->
  (b = false -> r_stage r <> Lobby -> someone (set_seat i None r)) ->
  room_inv {| (set_seat i None r) with r_host := h; r_closed := b |}.
Proof.
  intros I Hi Hb Hh Hsome. destruct I.
  assert (forall j s, seated (set_seat i None r) j s -> j <> i /\ seated r j s) as Hs.
  { intros j s H. apply seated_set_seat in H as [(_ & ? & _)|[? ?]]; [done|auto]. }
  assert (forall j s, j <> i -> seated r j s -> seated (set_seat i None r) j s) as Hold.
  { intros j s ? H. apply seated_set_seat. right. auto. }
  split; simpl; try done.
  - by rewrite length_insert.
  - intros j s [_ ?]%Hs. eauto.
  - intros j s [_ ?]%Hs. eauto.
  - intros j s [_ ?]%Hs. eauto.
  - intros j k s t [_ ?]%Hs [_ ?]%Hs. eauto.
  - pose proof (seated_count_insert_None (r_seats r) i). lia.
  - intros Hcl Ho. destruct (Hb Hcl) as [Hrc Hi0]. destruct (inv_owner0 Hrc Ho) as [H1 H2].
    destruct Hi0 as [?|Hi0]; [done|]. split.
    + intros s [_ ?]%Hs. eauto.
    + intros (j & s & [_ Hj]%Hs). destruct H2 as [s0 ?]; [by exists j, s|].
      exists s0. by apply Hold.
Qed.

Lemma seated_count_zero r : seated_count (r_seats r) = 0%nat <-> ~ someone r.
Proof.
  pose proof (seated_count_pos (r_seats r)) as H. unfold someone, seated.
  split; [intros E [i [st ?]]|intros N].
  - assert (0 < seated_count (r_seats r))%nat by (apply H; eauto). lia.
  - destruct (seated_count (r_seats r)); [done|]. exfalso. apply N, H. lia.
Qed.

(** The host role after a departure. *)
Lemma first_taken_host_ok r : host_ok {| r with r_host := first_at taken (r_seats r) |}.
Proof.
  unfold host_ok. simpl. destruct (first_at taken (r_seats r)) as [h|] eqn:F.
  - apply first_at_Some in F as ([st|] & Hh & ?); [|done]. by exists st.
  - apply first_at_None in F. intros (i & st & Hi). unfold seated in Hi. simpl in Hi.
    by eapply Forall_lookup_1 in F; [|exact Hi].
Qed.

Lemma leave_inv r i st :
  room_inv r -> seated r i st -> (r_owner r = 0 \/ i <> 0%nat) -> room_inv (leave i r).
Proof.
  intros I Hi Hown. unfold leave.
  set (h := if bool_decide (r_host r = Some i) then first_at taken (<[i := None]> (r_seats r))
            else r_host r).
  assert (r_closed r = false -> host_ok {| (set_seat i None r) with r_host := h |}) as Hh.
  { intros Hcl. unfold h. case_bool_decide as Hd; [apply (first_taken_host_ok (set_seat i None r))|].
    pose proof (inv_host _ I Hcl) as Hho. unfold host_ok in *. simpl.
    destruct (r_host r) as [k|]; [|exfalso; apply Hho; by exists i, st].
    destruct Hho as [s Hk]. exists s. apply seated_set_seat. right. split; [congruence|done]. }
  assert (room_inv {| (set_seat i None r) with r_host := h |} \/
    seated_count (<[i := None]> (r_seats r)) = 0%nat) as HI.
  { destruct (Nat.eq_dec (seated_count (<[i := None]> (r_seats r))) 0) as [|Hc]; [by right|left].
    apply (vacate_inv r i st h (r_closed r)); auto.
    intros _ _. apply seated_count_pos. simpl. lia. }
  destruct (Nat.eqb_spec (seated_count (<[i := None]> (r_seats r))) 0) as [Hz|Hnz].
  - assert (room_inv {| (set_seat i None r) with r_host := None; r_closed := true |}) as J.
    { apply (vacate_inv r i st); done. }
    apply (seated_count_zero (set_seat i None r)) in Hz.
    apply fresh_lobby_inv in J. destruct J.
    assert (~ someone {| (fresh_lobby {| (set_seat i None r) with r_host := h |}) with r_host := None |})
      as Hno.
    { intros (j & s & Hj). apply Hz. apply (seated_map_seats _ (set_seat i None r)) in Hj
        as (s0 & -> & ?). by exists j, s0. }
    split; try done. intros _ Ho. split.
    + intros s Hs. exfalso. apply Hno. by exists 0%nat, s.
    + by intros ?%Hno.
  - destruct HI; done.
Qed.

Lemma rank_in_advance s s' k : rank_in s k ->
  match s, s' with
  | Lobby, Loading => k <> Joined
  | Loading, Countdown => k <> Joined /\ k <> Selected
  | Racing, Results => k = Done
  | _, _ => s = s'
  end -> rank_in s' k.
Proof. destruct s, s', k; simpl; intuition congruence. Qed.

Lemma step_inv r r' : room_inv r -> step r r' -> room_inv r'.
Proof.
  intros I H. pose proof (inv_rank _ I) as Hrk. pose proof (inv_car _ I) as Hcar.
  destruct H as
    [r i a t n Hcl Hst Ht Hf Hc Ha Hn | r i st Hi Ho | r st Ho Hi | r i st c Hcl Hst Hi Hc
    | r i st Hcl Hst Hi | r i st Hcl Hst Hi | r i st Hcl Hst Hi Hk
    | r i st c t l Hcl Hst Hh Hi Hc Hn Ht Hl | r i st Hcl Hh Hi Hst
    | r Hcl Hst Hc Ha | r d Hcl Hst Hs Ha | r i st d Hcl Hst Hi Ha | r now Hcl Hst Ha Hd
    | r Hcl Hst Hs Ha | r].
  - by apply join_inv.
  - by eapply leave_inv.
  - by apply (vacate_inv r 0 st (r_host r) true).
  - eapply update_seat_inv; eauto. rewrite Hst. by right.
  - eapply update_seat_inv; eauto; [rewrite Hst; by right|by apply (Hcar i st Hi)].
  - eapply update_seat_inv; eauto; [by apply (Hrk i st Hi)|by apply (Hcar i st Hi)].
  - eapply update_seat_inv; eauto; [rewrite Hst; by right|by apply (Hcar i st Hi)].
  - destruct I. by split.
  - by apply fresh_lobby_inv.
  - destruct I. split; try done; simpl.
    + intros j s Hj. apply (rank_in_advance (r_stage r) Loading); [by apply (Hrk j s Hj)|].
      rewrite Hst. by apply (Ha j s Hj).
    + intros _ _. apply seated_count_pos. simpl. lia.
  - apply (map_seats_inv _ Countdown (r_race r) d); try done.
    intros j s Hj. apply (rank_in_advance (r_stage r) Countdown); [by apply (Hrk j s Hj)|].
    rewrite Hst. by apply (Ha j s Hj).
  - by destruct I.
  - apply (map_seats_inv _ Racing (r_race r) (r_deadline r)); try done.
    + intros j s Hj. by left.
    + intros Hc _. apply (inv_busy _ I Hc). by rewrite Hst.
  - destruct I. by split.
  - by destruct I.
Qed.

Lemma steps_inv r r' : room_inv r -> steps r r' -> room_inv r'.
Proof. intros I H. induction H; eauto using step_inv. Qed.

Lemma steps_refl r : steps r r.
Proof. apply rtc_refl. Qed.

Lemma steps_one r r' : step r r' -> steps r r'.
Proof. apply rtc_once. Qed.

Lemma steps_trans r1 r2 r3 : steps r1 r2 -> steps r2 r3 -> steps r1 r3.
Proof. intros. by etrans. Qed.

#[export] Hint Resolve steps_refl steps_one : fz.

(** ** How the stage moves *)

Definition next_stage (s : stage) : stage :=
  match s with
  | Lobby => Loading
  | Loading => Countdown
  | Countdown => Racing
  | Racing => Results
  | Results => Lobby
  end.

(** A rule keeps the stage and the generation, or advances the stage by one
    within the generation, or starts a new generation in the lobby. *)
Lemma step_stage r r' :
  step r r' ->
  (r_stage r' = r_stage r /\ r_race r' = r_race r) \/
  (r_stage r' = next_stage (r_stage r) /\ r_stage r <> Results /\ r_race r' = r_race r) \/
  (r_stage r' = Lobby /\ r_race r' = u32 (r_race r + 1) /\ everyone r' (fun st => seat_rank st = Joined)).
Proof.
  assert (forall r0, everyone (fresh_lobby r0) (fun st => seat_rank st = Joined)) as Hf.
  { intros r0 i st Hi. unfold fresh_lobby in Hi. apply (seated_map_seats _ r0) in Hi as (? & -> & _).
    done. }
  intros H. destruct H; simpl; try (by left);
    try (right; left; match goal with H : r_stage _ = _ |- _ => rewrite H end; done).
  - unfold leave. case_if; simpl; [|by left]. right; right. split_and!; [done|done|].
    apply (Hf {| r with r_seats := _; r_host := _ |}).
  - right; right. split_and!; [done|done|apply Hf].
Qed.
