(* ===== verification/ServerCore.v ===== *)
(** * The part of the server state that decides the race

    [core] projects the server on the fields the room depends on, leaving out
    sockets, logs, counters and the polling schedule. The lemmas give, for each
    function of [server.c] the handlers are built from, its exact effect on the
    core: most have none, and [begin_lobby] and [drop] are pure functions of it. *)

From S2P Require Import Prelude State Double Text Protocol Server.

Local Open Scope Z_scope.
Local Open Scope fz_scope.

Record Core := mk_core {
  k_closed : bool;
  k_owner : Z;
  k_session : Z;
  k_start : Z;
  k_race : Z;
  k_phase : Z;
  k_expected : Z;
  k_host : Z;
  k_track : Z;
  k_league : Z;
  k_key : bytes;
  k_players : list Player
}.

Definition core (s : Server) : Core :=
  {| k_closed := s_closed s; k_owner := s_owner_nonce s; k_session := s_session s;
     k_start := s_start s; k_race := s_race s; k_phase := s_phase s;
     k_expected := s_expected s; k_host := s_host s; k_track := s_track s;
     k_league := s_league s; k_key := s_key s; k_players := s_players s |}.

Definition coreσ (σ : Sys) : Core := core (srv σ).

Arguments core : simpl never.
Arguments coreσ : simpl never.

(** [player_at], [count] and [all_at_least] on the core. *)
Definition pl_at (l : list Player) (i : nat) : Player := default player0 (l !! i).

Definition pl_count (l : list Player) : Z :=
  foldr (fun i n => n + Z.b2z (occupied (pl_at l i))) 0 all4.

Definition pl_first (f : Player -> bool) (l : list Player) : option nat :=
  first_slot (fun i => f (pl_at l i)).

Definition lobby_player (p : Player) : Player :=
  if negb (occupied p) then player0
  else {| p with p_status := FZ_JOINED; p_x := 0; p_y := 0; p_armed := 0; p_updated := 0;
                 p_state_seq := 0 |}.

Definition k_begin_lobby (c : Core) : Core :=
  {| c with k_race := u32 (k_race c + 1); k_start := 0; k_phase := FZ_LOBBY;
            k_players := lobby_player <$> k_players c |}.

Definition gone_player (p : Player) : Player :=
  {| p with p_status := FZ_DISCONNECTED; p_x := 0; p_y := 0 |}.

(** The host after slot [i] left. *)
Definition k_next_host (i : nat) (c : Core) : Z :=
  if k_host c =? Z.of_nat i
  then match pl_first occupied (k_players c) with Some j => Z.of_nat j | None => 255 end
  else k_host c.

(** In the lobby the slot is freed at once. *)
Definition k_free (i : nat) (c : Core) : Core :=
  if k_phase c =? FZ_LOBBY
  then {| c with k_players := alter (fun _ => player0) i (k_players c) |} else c.

(** An empty room starts over. *)
Definition k_renew (c : Core) : Core :=
  if pl_count (k_players c) =? 0 then {| (k_begin_lobby c) with k_host := 255 |} else c.

Definition k_drop (i : nat) (c : Core) : Core :=
  let c := {| c with k_players := alter gone_player i (k_players c) |} in
  if negb (k_owner c =? 0) && (i =? 0)%nat then {| c with k_closed := true |}
  else k_renew (k_free i {| c with k_host := k_next_host i c |}).

Lemma exec_get (σ : Sys) : exec get σ = σ.
Proof. done. Qed.

Lemma eval_get (σ : Sys) : eval get σ = srv σ.
Proof. done. Qed.

(** Run the monadic plumbing. *)
Ltac msimpl := rewrite ?exec_bind, ?eval_bind, ?exec_get, ?eval_get, ?exec_skip, ?exec_ret.

Section Effects.
Context {E : Env}.

(** ** Functions without effect on the core *)

Lemma now_us_keeps : keeps coreσ now_us.
Proof. unfold now_us, updw. auto 10 with keeps. Qed.

Lemma random_id_keeps : keeps coreσ random_id.
Proof. unfold random_id, updw. auto 10 with keeps. Qed.

#[local] Hint Resolve now_us_keeps random_id_keeps : keeps.

Lemma upd_keeps f : (forall s, core (f s) = core s) -> keeps coreσ (upd f).
Proof. intros H. apply keeps_modify. intros σ. apply H. Qed.

#[local] Hint Extern 2 (keeps coreσ (upd _)) => apply upd_keeps; intros ?; reflexivity : keeps.

Lemma log_event_keeps level player msg : keeps coreσ (log_event level player msg).
Proof. unfold log_event, get. auto 20 with keeps. Qed.

Lemma transmit_keeps a p : keeps coreσ (transmit a p).
Proof. unfold transmit. destruct (fz_encode _ _ _). unfold updw. auto 20 with keeps. Qed.

#[local] Hint Resolve log_event_keeps transmit_keeps : keeps.

Lemma send_player_keeps i p : keeps coreσ (send_player i p).
Proof. unfold send_player, get. auto 20 with keeps. Qed.

#[local] Hint Resolve send_player_keeps : keeps.

Lemma snapshot_keeps : keeps coreσ snapshot.
Proof. unfold snapshot, get. auto 30 with keeps. Qed.

Lemma welcome_keeps i : keeps coreσ (welcome i).
Proof. unfold welcome, get. auto 20 with keeps. Qed.

Lemma reject_keeps : keeps coreσ reject.
Proof. unfold reject. auto with keeps. Qed.

Lemma mark_stale_keeps : keeps coreσ mark_stale.
Proof. unfold mark_stale. auto with keeps. Qed.

#[local] Hint Resolve reject_keeps : keeps.

Lemma join_error_keeps a n r : keeps coreσ (join_error a n r).
Proof. unfold join_error. auto 20 with keeps. Qed.

(** ** Functions with a known effect *)

Lemma exec_upd f σ : exec (upd f) σ = mk_sys (f (srv σ)) (wld σ).
Proof. done. Qed.

Lemma coreσ_set_host v σ :
  coreσ (exec (upd (fun s => {| s with s_host := v |})) σ) = {| (coreσ σ) with k_host := v |}.
Proof. done. Qed.

Lemma coreσ_set_start v σ :
  coreσ (exec (upd (fun s => {| s with s_start := v |})) σ) = {| (coreσ σ) with k_start := v |}.
Proof. done. Qed.

Lemma coreσ_set_closed b σ :
  coreσ (exec (upd (fun s => {| s with s_closed := b |})) σ) = {| (coreσ σ) with k_closed := b |}.
Proof. done. Qed.

Lemma coreσ_upd_player i f σ :
  coreσ (exec (upd_player i f) σ) =
    {| (coreσ σ) with k_players := alter f i (k_players (coreσ σ)) |}.
Proof. done. Qed.

Lemma coreσ_phase v σ : coreσ (exec (phase v) σ) = {| (coreσ σ) with k_phase := v |}.
Proof.
  unfold phase. msimpl. case_if; [by subst v; destruct σ as [[] ?]|]. msimpl.
  set (τ := exec (log_event _ _ _) σ).
  assert (coreσ τ = coreσ σ) as <- by apply log_event_keeps.
  set (τ' := exec (upd _) τ).
  rewrite (upd_keeps (fun s => {| s with s_phase_since := _ |})) by done.
  by rewrite now_us_keeps.
Qed.

(** A loop whose body changes the player of its index only. *)
Lemma coreσ_for_players (body : nat -> M Sys unit) (g : Player -> Player) σ :
  length (k_players (coreσ σ)) = 4%nat ->
  (forall i τ, coreσ (exec (body i) τ) =
     {| (coreσ τ) with k_players := alter g i (k_players (coreσ τ)) |}) ->
  coreσ (exec (for_each all4 body) σ) =
    {| (coreσ σ) with k_players := g <$> k_players (coreσ σ) |}.
Proof.
  intros Hl H. unfold all4, for_each. rewrite !exec_bind.
  change (exec skip ?τ) with τ. rewrite !H. generalize dependent (coreσ σ).
  intros [] Hl. simpl in *. by explode_exactly_4 k_players0.
Qed.

(** A conditional assignment to one player. *)
Lemma coreσ_player_if (b : Player -> bool) f g i σ :
  coreσ (exec (let* s := get in
               if b (player_at s i) then upd_player i f else upd_player i g) σ) =
    {| (coreσ σ) with k_players := alter (fun p => if b p then f p else g p) i (k_players (coreσ σ)) |}.
Proof.
  msimpl. unfold player_at. destruct (s_players (srv σ) !! i) as [p|] eqn:Ep; simpl.
  - transitivity {| (coreσ σ) with k_players := alter (if b p then f else g) i (k_players (coreσ σ)) |};
      [by destruct (b p)|]. f_equal.
    apply list_alter_ext; [|done]. intros q Hq. simpl in Hq.
    unfold coreσ, core in Hq. simpl in Hq. assert (q = p) as -> by congruence. by destruct (b p).
  - assert (forall h, alter h i (k_players (coreσ σ)) = k_players (coreσ σ)) as Ha.
    { intros h. apply list_eq. intros j. rewrite list_lookup_alter.
      case_decide; [|done]. subst j. unfold coreσ, core. simpl. by rewrite Ep. }
    destruct (b player0); rewrite coreσ_upd_player, !Ha; done.
Qed.

Lemma coreσ_begin_lobby σ :
  length (k_players (coreσ σ)) = 4%nat ->
  coreσ (exec begin_lobby σ) = k_begin_lobby (coreσ σ).
Proof.
  intros Hl. unfold begin_lobby. msimpl. rewrite log_event_keeps.
  rewrite (coreσ_for_players _ lobby_player).
  - rewrite coreσ_phase. done.
  - rewrite coreσ_phase. done.
  - intros i τ. apply (coreσ_player_if (fun p => negb (occupied p))).
Qed.

Lemma coreσ_when b (m : M Sys unit) σ :
  coreσ (exec (when b m) σ) = if b then coreσ (exec m σ) else coreσ σ.
Proof. by destruct b. Qed.

Lemma coreσ_drop_player i reason σ :
  length (k_players (coreσ σ)) = 4%nat ->
  coreσ (exec (drop_player i reason) σ) = k_drop i (coreσ σ).
Proof.
  intros Hl. unfold drop_player. msimpl.
  set (τ := exec (log_event _ _ _) _).
  assert (coreσ τ = {| (coreσ σ) with k_players := alter gone_player i (k_players (coreσ σ)) |}) as Hτ.
  { unfold τ. by rewrite log_event_keeps. }
  unfold k_drop. rewrite <- Hτ.
  change (s_owner_nonce (srv τ)) with (k_owner (coreσ τ)).
  assert (length (k_players (coreσ τ)) = 4%nat) as Hl'
    by (rewrite Hτ; simpl; by rewrite length_alter).
  clear Hτ. clearbody τ. clear σ Hl. case_if; [apply coreσ_set_closed|].
  msimpl. set (τ1 := exec (when (s_host _ =? _) _) τ).
  assert (coreσ τ1 = {| (coreσ τ) with k_host := k_next_host i (coreσ τ) |}) as H1.
  { unfold τ1. rewrite coreσ_when. unfold k_next_host.
    change (s_host (srv τ)) with (k_host (coreσ τ)). case_if; done. }
  rewrite <- H1. clearbody τ1.
  assert (length (k_players (coreσ τ1)) = 4%nat) as Hl1 by (by rewrite H1).
  clear H1 Hl'. set (τ2 := exec (when (s_phase _ =? _) _) τ1).
  assert (coreσ τ2 = k_free i (coreσ τ1)) as H2.
  { unfold τ2. by rewrite coreσ_when. }
  rewrite <- H2. clearbody τ2.
  assert (length (k_players (coreσ τ2)) = 4%nat) as Hl2.
  { rewrite H2. unfold k_free. case_if; simpl; by rewrite ?length_alter. }
  clear H2. rewrite coreσ_when. unfold k_renew. change (count (srv τ2)) with (pl_count (k_players (coreσ τ2))).
  case_if; [|done]. rewrite exec_bind, coreσ_set_host, coreσ_begin_lobby by done. done.
Qed.

End Effects.

#[export] Hint Resolve now_us_keeps random_id_keeps log_event_keeps transmit_keeps
  send_player_keeps snapshot_keeps welcome_keeps reject_keeps mark_stale_keeps
  join_error_keeps : keeps.
#[export] Hint Extern 2 (keeps coreσ (upd _)) => apply upd_keeps; intros ?; reflexivity : keeps.
