(* ===== verification/ServerRefine.v ===== *)
(** * The server implements the room

    [abs] reads a room off the core of a server. Every handler of [server.c]
    moves the room along the rules of [Room] and keeps the server's fields
    within their types: [movesσ]. The closing theorems lift this to every state
    the public interface can reach. *)

From S2P Require Import Prelude State Double Text Protocol Server Room ServerCore.

Local Open Scope Z_scope.
Local Open Scope fz_scope.

(** ** The abstraction *)

Definition stage_of (z : Z) : stage :=
  if z =? FZ_LOBBY then Lobby else if z =? FZ_LOADING then Loading
  else if z =? FZ_COUNTDOWN then Countdown else if z =? FZ_RACING then Racing else Results.

Definition rank_of (z : Z) : rank :=
  if z =? FZ_JOINED then Joined else if z =? FZ_SELECTED then Selected
  else if z =? FZ_PLAYER_LOADED then Loaded else if z =? FZ_PLAYER_RACING then Racer else Done.

Definition sit (p : Player) : seat :=
  mk_seat (p_address p) (p_token p) (p_nonce p) (rank_of (p_status p)) (p_car p) (p_armed p).

Definition seat_of (p : Player) : option seat := if occupied p then Some (sit p) else None.

Definition host_of (z : Z) : option nat := if z =? 255 then None else Some (Z.to_nat z).

Definition abs (c : Core) : room :=
  {| r_seats := seat_of <$> k_players c; r_stage := stage_of (k_phase c);
     r_capacity := k_expected c; r_host := host_of (k_host c); r_track := k_track c;
     r_league := k_league c; r_race := k_race c; r_deadline := k_start c; r_owner := k_owner c;
     r_closed := k_closed c |}.

Lemma stage_abs c : r_stage (abs c) = stage_of (k_phase c).
Proof. done. Qed.

(** ** Field ranges *)

Record wf_player (p : Player) : Prop := {
  wf_status : FZ_EMPTY <= p_status p <= FZ_DISCONNECTED;
  wf_car : 0 <= p_car p < 4;
  wf_token : fits 64 (p_token p);
  wf_nonce : fits 64 (p_nonce p);
  wf_command_seq : fits 32 (p_command_seq p);
  wf_state_seq : fits 32 (p_state_seq p);
  wf_pos : fits 16 (p_x p) /\ fits 16 (p_y p) /\ fits 8 (p_orientation p)
}.

Record wf_core (c : Core) : Prop := {
  wf_len : length (k_players c) = 4%nat;
  wf_players : Forall wf_player (k_players c);
  wf_phase : FZ_LOBBY <= k_phase c <= FZ_RESULTS;
  wf_host : k_host c = 255 \/ 0 <= k_host c < 4;
  wf_race : fits 32 (k_race c);
  wf_session : fits 64 (k_session c) /\ k_session c <> 0;
  wf_start : fits 64 (k_start c);
  wf_key : all_bytes (k_key c) /\ Z.of_nat (length (k_key c)) <= FZ_KEY_MAX
}.

Definition good (c : Core) : Prop := wf_core c /\ room_inv (abs c).

(** [moves c c']: the room goes from [c] to [c'] by the rules. *)
Definition moves (c c' : Core) : Prop := good c -> wf_core c' /\ steps (abs c) (abs c').

Definition movesσ {A} (m : M Sys A) (σ : Sys) : Prop := moves (coreσ σ) (coreσ (exec m σ)).

(** Slot [i] holds a participant. *)
Definition sits (c : Core) (i : nat) : Prop :=
  (i < 4)%nat /\ occupied (pl_at (k_players c) i) = true.

(** ** The order structure of [moves] *)

Lemma moves_good c c' : moves c c' -> good c -> good c'.
Proof.
  intros H G. destruct (H G) as [W S]. split; [done|]. destruct G as [_ I]. by eapply steps_inv.
Qed.

#[export] Instance moves_refl : Reflexive moves.
Proof. intros c [W I]. auto with fz. Qed.

#[export] Instance moves_trans : Transitive moves.
Proof.
  intros c1 c2 c3 H12 H23 G. destruct (H12 G) as [_ S1].
  destruct (H23 (moves_good _ _ H12 G)) as [W S2]. split; [done|]. by eapply steps_trans.
Qed.

Lemma movesσ_bind {A B} (m : M Sys A) (k : A -> M Sys B) σ :
  movesσ m σ -> movesσ (k (eval m σ)) (exec m σ) -> movesσ (bind m k) σ.
Proof. intros H1 H2. unfold movesσ in *. rewrite exec_bind. by etrans. Qed.

Lemma movesσ_keeps {A} (m : M Sys A) σ : keeps coreσ m -> movesσ m σ.
Proof. intros H. unfold movesσ. by rewrite H. Qed.

Lemma movesσ_get {A} (k : Server -> M Sys A) σ : movesσ (k (srv σ)) σ -> movesσ (bind get k) σ.
Proof. done. Qed.

Lemma movesσ_when b (m : M Sys unit) σ : (b = true -> movesσ m σ) -> movesσ (when b m) σ.
Proof. destruct b; [auto|]. intros _. by apply movesσ_keeps. Qed.

Lemma movesσ_good {A} (m : M Sys A) σ : (good (coreσ σ) -> movesσ m σ) -> movesσ m σ.
Proof. intros H G. by apply H. Qed.

Lemma movesσ_for_each {A} (l : list A) (f : A -> M Sys unit) σ :
  (forall x τ, x ∈ l -> movesσ (f x) τ) -> movesσ (for_each l f) σ.
Proof.
  revert σ. induction l as [|x l IH]; intros σ H; simpl; [by apply movesσ_keeps|].
  apply movesσ_bind; [apply H; set_solver|]. apply IH. intros y τ Hy. apply H. set_solver.
Qed.

(** ** The abstraction of players *)

Lemma seats_lookup c i p :
  k_players c !! i = Some p -> r_seats (abs c) !! i = Some (seat_of p).
Proof. intros H. simpl. by rewrite list_lookup_fmap, H. Qed.

Lemma sits_lookup c i :
  length (k_players c) = 4%nat -> sits c i ->
  exists p, k_players c !! i = Some p /\ occupied p = true /\ pl_at (k_players c) i = p.
Proof.
  intros Hl [Hi Ho]. unfold pl_at in *. destruct (k_players c !! i) as [p|] eqn:Ep; [by eauto|].
  apply lookup_ge_None in Ep. lia.
Qed.

Lemma seated_sit c i p :
  k_players c !! i = Some p -> occupied p = true -> seated (abs c) i (sit p).
Proof.
  intros H Ho. unfold seated. rewrite (seats_lookup _ _ _ H). unfold seat_of. by rewrite Ho.
Qed.

Lemma seated_inv c i st :
  seated (abs c) i st -> exists p, k_players c !! i = Some p /\ occupied p = true /\ st = sit p.
Proof.
  unfold seated. simpl. rewrite list_lookup_fmap.
  destruct (k_players c !! i) as [p|]; simpl; [|done]. unfold seat_of.
  destruct (occupied p) eqn:Ho; intros [= <-]. eauto.
Qed.

Lemma seats_alter f i (l : list Player) p :
  l !! i = Some p -> seat_of <$> alter f i l = <[i := seat_of (f p)]> (seat_of <$> l).
Proof.
  intros H. rewrite <- list_fmap_insert. f_equal. apply list_eq. intros j.
  rewrite list_lookup_alter. case_decide as Hij; [subst j|].
  - by rewrite H, list_lookup_insert_eq by (by eapply lookup_lt_Some).
  - by rewrite list_lookup_insert_ne.
Qed.

(** Changing what the room does not see of a player. *)
Lemma seats_alter_same f i (l : list Player) :
  (forall p, l !! i = Some p -> seat_of (f p) = seat_of p) ->
  seat_of <$> alter f i l = seat_of <$> l.
Proof.
  intros H. apply list_eq. intros j. rewrite !list_lookup_fmap, list_lookup_alter.
  case_decide as Hd; [subst j|done]. destruct (l !! i) as [p|] eqn:Ep; simpl; [|done].
  by rewrite H.
Qed.

Lemma wf_players_alter f i (l : list Player) :
  Forall wf_player l -> (forall p, l !! i = Some p -> wf_player p -> wf_player (f p)) ->
  Forall wf_player (alter f i l).
Proof.
  intros Hl Hf. apply Forall_lookup_2. intros j p Hj. rewrite list_lookup_alter in Hj.
  case_decide as Hd; [subst j|by eapply Forall_lookup_1].
  destruct (l !! i) as [q|] eqn:Eq; simpl in Hj; [|done]. simplify_eq.
  apply Hf; [done|]. by eapply Forall_lookup_1.
Qed.

Lemma wf_core_players c l :
  wf_core c -> length l = 4%nat -> Forall wf_player l -> wf_core {| c with k_players := l |}.
Proof. intros [] ? ?. by split. Qed.

Lemma wf_core_alter c f i :
  wf_core c -> (forall p, k_players c !! i = Some p -> wf_player p -> wf_player (f p)) ->
  wf_core {| c with k_players := alter f i (k_players c) |}.
Proof.
  intros W H. apply wf_core_players; [done| |].
  - rewrite length_alter. apply W.
  - apply wf_players_alter; [apply W|done].
Qed.

Lemma count_seated l :
  length l = 4%nat -> pl_count l = Z.of_nat (seated_count (seat_of <$> l)).
Proof.
  intros Hl. explode_exactly_4 l. unfold pl_count, pl_at, all4. simpl. unfold seat_of.
  repeat match goal with |- context [occupied ?p] => destruct (occupied p) end; done.
Qed.

Lemma count_abs c :
  length (k_players c) = 4%nat -> Z.of_nat (seated_count (r_seats (abs c))) = pl_count (k_players c).
Proof. intros H. by rewrite count_seated. Qed.

Lemma first_occupied l :
  length l = 4%nat -> pl_first occupied l = first_at taken (seat_of <$> l).
Proof.
  intros Hl. explode_exactly_4 l. unfold pl_first, first_slot, pl_at, all4. simpl. unfold seat_of.
  repeat match goal with |- context [occupied ?p] => destruct (occupied p) end; done.
Qed.

Lemma first_vacant l :
  length l = 4%nat ->
  pl_first (fun p => negb (occupied p)) l = first_at free (seat_of <$> l).
Proof.
  intros Hl. explode_exactly_4 l. unfold pl_first, first_slot, pl_at, all4. simpl. unfold seat_of.
  repeat match goal with |- context [occupied ?p] => destruct (occupied p) end; done.
Qed.

Lemma pl_first_Some f l i : pl_first f l = Some i -> (i < 4)%nat /\ f (pl_at l i) = true.
Proof.
  unfold pl_first, first_slot. intros H. apply find_some in H as [Hi Hf].
  split; [|done]. simpl in Hi. lia.
Qed.

Lemma pl_first_None f l i : pl_first f l = None -> (i < 4)%nat -> f (pl_at l i) = false.
Proof.
  unfold pl_first, first_slot. intros H Hi. eapply find_none in H; [exact H|].
  simpl. lia.
Qed.

(** ** Moves of the building blocks *)

Lemma moves_alter_same c f i :
  (forall p, k_players c !! i = Some p -> seat_of (f p) = seat_of p) ->
  (forall p, k_players c !! i = Some p -> wf_player p -> wf_player (f p)) ->
  moves c {| c with k_players := alter f i (k_players c) |}.
Proof.
  intros Hs Hw [W _]. split; [by apply wf_core_alter|].
  unfold abs. simpl. rewrite seats_alter_same by done. apply steps_refl.
Qed.

Lemma moves_alter_step c f i p :
  k_players c !! i = Some p -> (wf_player p -> wf_player (f p)) ->
  (good c -> step (abs c) (set_seat i (seat_of (f p)) (abs c))) ->
  moves c {| c with k_players := alter f i (k_players c) |}.
Proof.
  intros Hp Hw Hs G. split.
  - apply wf_core_alter; [apply G|]. intros q Hq. by simplify_eq.
  - apply steps_one. specialize (Hs G). unfold set_seat in Hs. simpl in Hs.
    unfold abs at 2. simpl. by rewrite (seats_alter f i _ p).
Qed.

Lemma occupied_status p : occupied p = true <-> p_status p <> FZ_EMPTY /\ p_status p <> FZ_DISCONNECTED.
Proof. unfold occupied. rewrite andb_true_iff, !negb_true_iff, !Z.eqb_neq. done. Qed.

(** Check the ranges of an updated player, field by field. *)
Ltac wf_player_tac :=
  intros []; split; simpl; destruct_and?; split_and?; auto with fz; try done.

Lemma wf_player0 : wf_player player0.
Proof. by split. Qed.

#[export] Hint Resolve wf_player0 : fz.

Lemma seat_of_lobby p :
  seat_of (lobby_player p) = (fun st => set_armed 0 (set_rank Joined st)) <$> seat_of p.
Proof.
  unfold lobby_player, seat_of. destruct (occupied p) eqn:Ho; simpl; [|done]. by rewrite Ho || done.
Qed.

Lemma abs_begin_lobby c : abs (k_begin_lobby c) = fresh_lobby (abs c).
Proof.
  unfold abs, k_begin_lobby, fresh_lobby, map_seats. simpl. f_equal.
  rewrite <- !list_fmap_compose. apply list_fmap_ext. intros i p _. apply seat_of_lobby.
Qed.

Lemma wf_lobby_player p : wf_player p -> wf_player (lobby_player p).
Proof. unfold lobby_player. case_if; [auto with fz|]. wf_player_tac. Qed.

Lemma wf_begin_lobby c : wf_core c -> wf_core (k_begin_lobby c).
Proof.
  intros []. split; simpl; auto with fz; try done.
  - by rewrite length_fmap.
  - apply Forall_fmap. eapply Forall_impl; [done|]. intros p. apply wf_lobby_player.
Qed.

Lemma host_of_Some z i : (z = 255 \/ 0 <= z < 4) -> (i < 4)%nat ->
  host_of z = Some i <-> z = Z.of_nat i.
Proof.
  intros Hz Hi. unfold host_of. destruct (Z.eqb_spec z 255).
  - split; [done|lia].
  - split; [intros [= <-]; lia|]. intros ->. f_equal. lia.
Qed.

(** The host after a departure, read abstractly. *)
Lemma host_of_next c i :
  wf_core c -> (i < 4)%nat ->
  host_of (k_next_host i c) =
    if bool_decide (host_of (k_host c) = Some i)
    then first_at taken (r_seats (abs c)) else host_of (k_host c).
Proof.
  intros W Hi. unfold k_next_host. pose proof (host_of_Some _ _ (wf_host _ W) Hi) as Hh.
  destruct (Z.eqb_spec (k_host c) (Z.of_nat i)) as [E|E].
  - rewrite bool_decide_true by (by apply Hh). simpl.
    rewrite <- first_occupied by apply W.
    destruct (pl_first occupied (k_players c)) as [j|] eqn:F; [|done].
    apply pl_first_Some in F as [Hj _]. apply host_of_Some; [lia|done|done].
  - rewrite bool_decide_false by (by intros ?%Hh). done.
Qed.

Lemma next_host_range c i :
  wf_core c -> k_next_host i c = 255 \/ 0 <= k_next_host i c < 4.
Proof.
  intros W. unfold k_next_host. case_if; [|apply W].
  destruct (pl_first occupied (k_players c)) as [j|] eqn:F; [|by left].
  apply pl_first_Some in F as [Hj _]. lia.
Qed.

Lemma seats_gone (l : list Player) i p :
  l !! i = Some p -> seat_of <$> alter gone_player i l = <[i := None]> (seat_of <$> l).
Proof. intros H. by rewrite (seats_alter _ _ _ p). Qed.

Lemma seats_cleared (l : list Player) i p :
  l !! i = Some p ->
  seat_of <$> alter (fun _ => player0) i (alter gone_player i l) = <[i := None]> (seat_of <$> l).
Proof.
  intros H. rewrite (seats_alter _ _ _ (gone_player p)).
  - by rewrite (seats_gone l i p), list_insert_insert_eq.
  - rewrite list_lookup_alter, H. by case_decide.
Qed.

Lemma wf_gone_player p : wf_player p -> wf_player (gone_player p).
Proof. wf_player_tac. Qed.

Lemma abs_free c i :
  length (k_players c) = 4%nat -> (i < 4)%nat -> occupied (pl_at (k_players c) i) = false ->
  abs (k_free i c) = abs c.
Proof.
  intros Hl Hi Ho. unfold k_free. case_if; [|done]. unfold abs. simpl.
  rewrite seats_alter_same; [done|]. intros p Hp. unfold pl_at in Ho. rewrite Hp in Ho.
  simpl in Ho. unfold seat_of. by rewrite Ho.
Qed.

Lemma wf_free c i : wf_core c -> wf_core (k_free i c).
Proof. intros W. unfold k_free. case_if; [apply wf_core_alter; [done|auto with fz]|done]. Qed.

Lemma abs_renew c :
  length (k_players c) = 4%nat ->
  abs (k_renew c) = if (seated_count (r_seats (abs c)) =? 0)%nat
                    then {| (fresh_lobby (abs c)) with r_host := None |} else abs c.
Proof.
  intros Hl. unfold k_renew. rewrite count_seated by done.
  change (r_seats (abs c)) with (seat_of <$> k_players c).
  destruct (Nat.eqb_spec (seated_count (seat_of <$> k_players c)) 0) as [->|Hnz].
  - rewrite <- abs_begin_lobby. done.
  - case_if; [lia|done].
Qed.

Lemma wf_renew c : wf_core c -> wf_core (k_renew c).
Proof.
  intros W. unfold k_renew. case_if; [|done]. apply wf_begin_lobby in W as [].
  split; try done. by left.
Qed.

Lemma abs_set_host c h : abs {| c with k_host := h |} = {| (abs c) with r_host := host_of h |}.
Proof. done. Qed.

(** The room after [drop]. *)
Lemma abs_drop c i :
  wf_core c -> sits c i ->
  abs (k_drop i c) =
    if negb (k_owner c =? 0) && (i =? 0)%nat
    then {| (set_seat 0 None (abs c)) with r_closed := true |} else leave i (abs c).
Proof.
  intros W Hs. destruct (sits_lookup c i (wf_len _ W) Hs) as (p & Hp & Ho & _).
  destruct Hs as [Hi _]. unfold k_drop.
  set (c1 := {| c with k_players := alter gone_player i (k_players c) |}).
  assert (wf_core c1) as W1 by (apply wf_core_alter; [done|auto using wf_gone_player]).
  assert (abs c1 = set_seat i None (abs c)) as A1.
  { unfold abs, set_seat. simpl. by rewrite (seats_gone _ _ p). }
  assert (occupied (pl_at (k_players c1) i) = false) as O1.
  { unfold pl_at. simpl. rewrite list_lookup_alter, Hp. by case_decide. }
  change (k_owner c) with (k_owner c1). unfold leave.
  change (<[i := None]> (r_seats (abs c))) with (r_seats (set_seat i None (abs c))).
  change (r_host (abs c)) with (r_host (set_seat i None (abs c))).
  case_if; [breflect; apply Nat.eqb_eq in H0 as ->; by rewrite <- A1|].
  rewrite abs_renew by (apply wf_len, wf_free; pose proof (next_host_range c1 i W1); by destruct W1).
  rewrite abs_free by (done || apply W1). rewrite abs_set_host, host_of_next by done.
  rewrite A1. done.
Qed.

Lemma wf_drop c i : wf_core c -> wf_core (k_drop i c).
Proof.
  intros W. unfold k_drop.
  assert (wf_core {| c with k_players := alter gone_player i (k_players c) |}) as W1
    by (apply wf_core_alter; [done|auto using wf_gone_player]).
  case_if; [by destruct W1|]. apply wf_renew, wf_free.
  pose proof (next_host_range _ i W1). by destruct W1.
Qed.

(** ** Barriers *)

Definition at_least (l : list Player) (status : Z) : bool :=
  negb (pl_count l =? 0)
  && forallb (fun i => negb (occupied (pl_at l i) && (p_status (pl_at l i) <? status))) all4.

Definition all_armed (l : list Player) (start : Z) : bool :=
  forallb (fun i => negb (occupied (pl_at l i) && negb (p_armed (pl_at l i) =? start))) all4.

Lemma all4_lt i : i ∈ all4 -> (i < 4)%nat.
Proof. intros H. apply list_elem_of_In in H. simpl in H. lia. Qed.

Lemma forallb_all4 f i : forallb f all4 = true -> (i < 4)%nat -> f i = true.
Proof.
  intros H Hi. rewrite forallb_forall in H. apply H. simpl. lia.
Qed.

Lemma forallb_all4_false f : forallb f all4 = false -> exists i, (i < 4)%nat /\ f i = false.
Proof.
  unfold all4. simpl. intros H.
  destruct (f 0%nat) eqn:E0; [|by exists 0%nat; split; [lia|]].
  destruct (f 1%nat) eqn:E1; [|by exists 1%nat; split; [lia|]].
  destruct (f 2%nat) eqn:E2; [|by exists 2%nat; split; [lia|]].
  destruct (f 3%nat) eqn:E3; [done|by exists 3%nat; split; [lia|]].
Qed.

Lemma seated_pl c i st :
  length (k_players c) = 4%nat -> seated (abs c) i st ->
  (i < 4)%nat /\ occupied (pl_at (k_players c) i) = true /\ st = sit (pl_at (k_players c) i).
Proof.
  intros Hl (p & Hp & Ho & ->)%seated_inv. unfold pl_at. rewrite Hp. split; [|done].
  apply lookup_lt_Some in Hp. lia.
Qed.

Lemma at_least_everyone c v :
  length (k_players c) = 4%nat -> at_least (k_players c) v = true ->
  someone (abs c) /\ everyone (abs c) (fun st => exists p, st = sit p /\ occupied p = true /\ v <= p_status p).
Proof.
  intros Hl H. unfold at_least in H. breflect. split.
  - apply seated_count_pos. rewrite count_seated in H by done. simpl. lia.
  - intros i st (Hi & Ho & ->)%seated_pl; [|done].
    pose proof (forallb_all4 _ i H0 Hi) as Hf. simpl in Hf. rewrite Ho in Hf. breflect.
    simpl in Hf. breflect. eauto.
Qed.

Lemma all_armed_everyone c :
  length (k_players c) = 4%nat -> all_armed (k_players c) (k_start c) = true ->
  everyone (abs c) (fun st => seat_armed st = r_deadline (abs c)).
Proof.
  intros Hl H i st (Hi & Ho & ->)%seated_pl; [|done].
  pose proof (forallb_all4 _ i H Hi) as Hf. simpl in Hf. rewrite Ho in Hf. simpl in Hf.
  by breflect.
Qed.

Lemma not_all_armed c :
  length (k_players c) = 4%nat -> all_armed (k_players c) (k_start c) = false ->
  exists i st, seated (abs c) i st /\ seat_armed st <> r_deadline (abs c).
Proof.
  intros Hl H. unfold all_armed in H.
  apply forallb_all4_false in H as (i & Hi & Hf). apply negb_false_iff, andb_true_iff in Hf as [Hf Ha].
  apply negb_true_iff, Z.eqb_neq in Ha.
  destruct (sits_lookup c i Hl (conj Hi Hf)) as (p & Hp & Hop & Hpl).
  exists i, (sit p). split; [by apply seated_sit|]. simpl. by rewrite <- Hpl.
Qed.

(** Ranks of statuses. *)
Lemma rank_of_spec z :
  (rank_of z = Joined <-> z = FZ_JOINED) /\ (rank_of z = Selected <-> z = FZ_SELECTED) /\
  (rank_of z = Loaded <-> z = FZ_PLAYER_LOADED) /\ (rank_of z = Racer <-> z = FZ_PLAYER_RACING) /\
  (FZ_FINISHED <= z -> rank_of z = Done).
Proof.
  unfold rank_of, FZ_JOINED, FZ_SELECTED, FZ_PLAYER_LOADED, FZ_PLAYER_RACING, FZ_FINISHED.
  destruct (Z.eqb_spec z 1), (Z.eqb_spec z 2), (Z.eqb_spec z 3), (Z.eqb_spec z 4);
    repeat split; intros; (congruence || lia).
Qed.

Section Moves.
Context {E : Env}.

Lemma drop_player_moves i reason σ : sits (coreσ σ) i -> movesσ (drop_player i reason) σ.
Proof.
  intros Hs [W I]. unfold movesσ. rewrite coreσ_drop_player by apply W.
  split; [by apply wf_drop|]. rewrite abs_drop by done. apply steps_one.
  destruct (sits_lookup _ i (wf_len _ W) Hs) as (p & Hp & Ho & _).
  pose proof (seated_sit _ _ _ Hp Ho) as Hst.
  destruct (negb (k_owner (coreσ σ) =? 0) && (i =? 0)%nat) eqn:Ed.
  - breflect. apply Nat.eqb_eq in H0 as ->. by eapply step_owner_leave.
  - eapply step_leave; [done|]. apply andb_false_iff in Ed as [Ed|Ed].
    + left. breflect. done.
    + right. by apply Nat.eqb_neq.
Qed.

Lemma begin_lobby_moves i σ :
  sits (coreσ σ) i -> k_host (coreσ σ) = Z.of_nat i -> k_closed (coreσ σ) = false ->
  k_phase (coreσ σ) = FZ_RESULTS \/ k_phase (coreσ σ) = FZ_LOBBY ->
  movesσ begin_lobby σ.
Proof.
  intros Hs Hh Hc Hp [W I]. rewrite coreσ_begin_lobby by apply W.
  split; [by apply wf_begin_lobby|]. rewrite abs_begin_lobby. apply steps_one.
  destruct (sits_lookup _ i (wf_len _ W) Hs) as (p & Hpl & Ho & _).
  eapply (step_next _ i); [done| |by eapply seated_sit|].
  - destruct Hs. by apply (host_of_Some _ i (wf_host _ W)).
  - rewrite !stage_abs. destruct Hp as [->| ->]; auto.
Qed.

(** ** The barrier transitions of [advance] *)

Lemma load_moves σ :
  k_closed (coreσ σ) = false -> k_phase (coreσ σ) = FZ_LOBBY ->
  pl_count (k_players (coreσ σ)) = k_expected (coreσ σ) ->
  at_least (k_players (coreσ σ)) FZ_SELECTED = true ->
  movesσ (phase FZ_LOADING) σ.
Proof.
  intros Hc Hp Hn Ha [W I]. rewrite coreσ_phase. split; [by destruct W|].
  destruct (at_least_everyone _ _ (wf_len _ W) Ha) as [_ He].
  apply steps_one. apply (step_load (abs (coreσ σ))); [done|by rewrite stage_abs, Hp| |].
  - by rewrite (count_abs _ (wf_len _ W)).
  - intros i st Hi. destruct (He i st Hi) as (p & -> & Ho & Hv).
    pose proof (rank_of_spec (p_status p)) as (HJ & _). simpl. rewrite HJ.
    unfold FZ_JOINED, FZ_SELECTED in *. lia.
Qed.

(** The countdown block: a deadline, the phase and nobody armed. *)
Definition start_countdown (d : Z) : M Sys unit :=
  upd (fun s => {| s with s_start := d |}) ;;
  phase FZ_COUNTDOWN ;;
  for_each all4 (fun i => upd_player i (fun p => {| p with p_armed := 0 |})).

Lemma coreσ_start_countdown d σ :
  length (k_players (coreσ σ)) = 4%nat ->
  coreσ (exec (start_countdown d) σ) =
    {| (coreσ σ) with k_start := d; k_phase := FZ_COUNTDOWN;
                      k_players := (fun p => {| p with p_armed := 0 |}) <$> k_players (coreσ σ) |}.
Proof.
  intros Hl. unfold start_countdown. msimpl.
  rewrite (coreσ_for_players _ (fun p => {| p with p_armed := 0 |})).
  - rewrite coreσ_phase, coreσ_set_start. done.
  - rewrite coreσ_phase, coreσ_set_start. done.
  - intros i τ. apply coreσ_upd_player.
Qed.

Lemma seats_map (f : Player -> Player) (g : seat -> seat) (l : list Player) :
  (forall p, seat_of (f p) = g <$> seat_of p) ->
  seat_of <$> (f <$> l) = fmap (M:=option) g <$> (seat_of <$> l).
Proof.
  intros H. rewrite <- !list_fmap_compose. apply list_fmap_ext. intros i p _. apply H.
Qed.

Lemma wf_players_map (f : Player -> Player) (l : list Player) :
  (forall p, wf_player p -> wf_player (f p)) -> Forall wf_player l -> Forall wf_player (f <$> l).
Proof. intros H Hl. apply Forall_fmap. eapply Forall_impl; [done|]. auto. Qed.

Lemma countdown_moves d σ :
  fits 64 d -> k_closed (coreσ σ) = false -> k_phase (coreσ σ) = FZ_LOADING ->
  at_least (k_players (coreσ σ)) FZ_PLAYER_LOADED = true ->
  movesσ (start_countdown d) σ.
Proof.
  intros Hd Hc Hp Ha [W I]. unfold movesσ. rewrite coreσ_start_countdown by apply W.
  destruct (at_least_everyone _ _ (wf_len _ W) Ha) as [Hsome He]. split.
  - destruct W. split; simpl; try done; [by rewrite length_fmap|].
    apply wf_players_map; [|done]. intros p. wf_player_tac.
  - apply steps_one. pose proof (step_countdown (abs (coreσ σ)) d) as St.
    unfold map_seats in St. simpl r_seats in St.
    unfold abs at 2. simpl k_players. rewrite (seats_map _ (set_armed 0)).
    + apply St; [done|by rewrite stage_abs, Hp|done|].
      intros i st Hi. destruct (He i st Hi) as (p & -> & Ho & Hv).
      pose proof (rank_of_spec (p_status p)) as (HJ & HS & _). simpl. rewrite HJ, HS.
      unfold FZ_JOINED, FZ_SELECTED, FZ_PLAYER_LOADED in *. lia.
    + intros p. unfold seat_of. change (occupied _) with (occupied p). by destruct (occupied p).
Qed.

Lemma postpone_moves d msg σ :
  fits 64 d -> k_closed (coreσ σ) = false -> k_phase (coreσ σ) = FZ_COUNTDOWN ->
  all_armed (k_players (coreσ σ)) (k_start (coreσ σ)) = false ->
  movesσ (upd (fun s => {| s with s_start := d |}) ;; log_event 2 (-1) msg) σ.
Proof.
  intros Hd Hc Hp Ha [W I]. msimpl. rewrite log_event_keeps, coreσ_set_start.
  split; [by destruct W|]. destruct (not_all_armed _ (wf_len _ W) Ha) as (i & st & Hi & Hne).
  apply steps_one. apply (step_postpone (abs (coreσ σ)) i st d); [done|by rewrite stage_abs, Hp|done|done].
Qed.

(** The start of the race. *)
Definition start_race : M Sys unit :=
  phase FZ_RACING ;;
  for_each all4 (fun i =>
    let* s := get in
    when (occupied (player_at s i))
      (upd_player i (fun p => {| p with p_status := FZ_PLAYER_RACING |}))).

Definition racing_player (p : Player) : Player :=
  if occupied p then {| p with p_status := FZ_PLAYER_RACING |} else p.

Lemma coreσ_start_race σ :
  length (k_players (coreσ σ)) = 4%nat ->
  coreσ (exec start_race σ) =
    {| (coreσ σ) with k_phase := FZ_RACING; k_players := racing_player <$> k_players (coreσ σ) |}.
Proof.
  intros Hl. unfold start_race. msimpl. rewrite (coreσ_for_players _ racing_player).
  - rewrite coreσ_phase. done.
  - rewrite coreσ_phase. done.
  - intros i τ. pose proof (coreσ_player_if occupied
      (fun p => {| p with p_status := FZ_PLAYER_RACING |}) (fun p => p) i τ) as Hif.
    rewrite exec_bind, exec_get, eval_get in Hif |- *. unfold racing_player. rewrite <- Hif.
    destruct (occupied (player_at (srv τ) i)); [done|].
    rewrite coreσ_upd_player, list_alter_id by done. done.
Qed.

Lemma go_moves now σ :
  k_closed (coreσ σ) = false -> k_phase (coreσ σ) = FZ_COUNTDOWN ->
  all_armed (k_players (coreσ σ)) (k_start (coreσ σ)) = true -> k_start (coreσ σ) <= now ->
  movesσ start_race σ.
Proof.
  intros Hc Hp Ha Hn [W I]. unfold movesσ. rewrite coreσ_start_race by apply W. split.
  - destruct W. split; simpl; try done; [by rewrite length_fmap|].
    apply wf_players_map; [|done]. intros p. unfold racing_player. case_if; [wf_player_tac|done].
  - apply steps_one. pose proof (step_go (abs (coreσ σ)) now) as St.
    unfold map_seats in St. simpl r_seats in St.
    unfold abs at 2. simpl k_players. rewrite (seats_map _ (set_rank Racer)).
    + apply St; [done|by rewrite stage_abs, Hp| |done].
      by apply all_armed_everyone; [apply W|].
    + intros p. unfold racing_player, seat_of. destruct (occupied p) eqn:Ho; simpl; [done|].
      by rewrite Ho.
Qed.

Lemma results_moves σ :
  k_closed (coreσ σ) = false -> k_phase (coreσ σ) = FZ_RACING ->
  at_least (k_players (coreσ σ)) FZ_FINISHED = true ->
  movesσ (phase FZ_RESULTS) σ.
Proof.
  intros Hc Hp Ha [W I]. rewrite coreσ_phase. split; [by destruct W|].
  destruct (at_least_everyone _ _ (wf_len _ W) Ha) as [Hs He].
  apply steps_one. apply (step_results (abs (coreσ σ))); [done|by rewrite stage_abs, Hp|done|].
  intros i st Hi. destruct (He i st Hi) as (p & -> & Ho & Hv).
  pose proof (rank_of_spec (p_status p)) as (_ & _ & _ & _ & HD). by apply HD.
Qed.

(** The barrier transitions do not close the room. *)
Definition closedσ (σ : Sys) : bool := k_closed (coreσ σ).

Lemma keeps_closedσ {A} (m : M Sys A) : keeps coreσ m -> keeps closedσ m.
Proof. intros H σ. unfold closedσ. by rewrite H. Qed.

Lemma phase_closedσ v : keeps closedσ (phase v).
Proof. intros σ. unfold closedσ. by rewrite coreσ_phase. Qed.

Lemma upd_player_closedσ i f : keeps closedσ (upd_player i f).
Proof. by intros σ. Qed.

#[local] Hint Resolve phase_closedσ upd_player_closedσ : keeps.
#[local] Hint Extern 3 (keeps closedσ (log_event _ _ _)) =>
  apply keeps_closedσ, log_event_keeps : keeps.
#[local] Hint Extern 3 (keeps closedσ (upd _)) => intros ?; reflexivity : keeps.
#[local] Hint Extern 3 (keeps closedσ get) => intros ?; reflexivity : keeps.

Lemma timeouts_moves now σ :
  movesσ (for_each all4 (fun i =>
    let* s := get in
    when (occupied (player_at s i) && (u64 (now - p_seen (player_at s i)) >=? 5000000))
      (drop_player i "heartbeat_timeout"))) σ.
Proof.
  apply movesσ_for_each. intros i τ Hi. apply movesσ_get, movesσ_when. intros H. breflect.
  apply drop_player_moves. split; [|done]. by apply all4_lt.
Qed.

Lemma countdown_block_moves now σ :
  closedσ σ = false -> k_phase (coreσ σ) = FZ_COUNTDOWN ->
  movesσ (let all := all_armed (k_players (coreσ σ)) (k_start (coreσ σ)) in
          if negb all && (u64 (now + 500000) >=? k_start (coreσ σ))
          then upd (fun s => {| s with s_start := u64 (now + 2000000) |}) ;;
               log_event 2 (-1) "start_rescheduled waiting_for_ack=1"
          else when (all && (now >=? k_start (coreσ σ))) start_race) σ.
Proof.
  intros Hc Hp. simpl. case_if.
  - apply postpone_moves; auto with fz.
  - apply movesσ_when. intros H. breflect. by apply (go_moves now).
Qed.

Lemma advance_moves now σ : movesσ (advance now) σ.
Proof.
  unfold advance. apply movesσ_bind; [apply timeouts_moves|]. apply movesσ_get.
  set (τ := exec _ σ). clearbody τ. destruct (s_closed (srv τ)) eqn:Hc; [by apply movesσ_keeps|].
  change (closedσ τ = false) in Hc.
  apply movesσ_bind; [apply movesσ_when; intros H; breflect; by apply load_moves|].
  set (τ1 := exec _ τ).
  assert (closedσ τ1 = false) as Hc1 by (transitivity (closedσ τ); [apply kept; auto with keeps|done]).
  clearbody τ1. apply movesσ_get.
  apply movesσ_bind.
  { apply movesσ_when. intros H. breflect. apply countdown_moves; auto with fz. }
  set (τ2 := exec _ τ1).
  assert (closedσ τ2 = false) as Hc2 by (transitivity (closedσ τ1); [apply kept; auto 20 with keeps|done]).
  clearbody τ2. apply movesσ_get. apply movesσ_bind.
  { apply movesσ_when. intros H. breflect. by apply countdown_block_moves. }
  set (τ3 := exec _ τ2).
  assert (closedσ τ3 = false) as Hc3 by (transitivity (closedσ τ2); [apply kept; auto 20 with keeps|done]).
  clearbody τ3. apply movesσ_get. apply movesσ_when. intros H. breflect. by apply results_moves.
Qed.

(** ** Joining *)

Lemma eval_random_id_fits σ : fits 64 (eval random_id σ).
Proof.
  change (eval random_id σ) with
    (match urandom (w_random (wld σ)) with
     | None => 0 | Some id => if u64 id =? 0 then 1 else u64 id end).
  destruct (urandom _); [|done]. case_if; [done|auto with fz].
Qed.

(** Taking a seat: nonce, heartbeat, status and the host role. *)
Definition take_seat (i : nat) (nonce : Z) : M Sys unit :=
  upd_player i (fun p => {| p with p_nonce := nonce |}) ;;
  let* t := now_us in
  upd_player i (fun p => {| p with p_seen := t; p_status := FZ_JOINED |}) ;;
  upd (fun s => if s_host s =? 255 then {| s with s_host := u8 (Z.of_nat i) |} else s).

Lemma coreσ_claim_host v σ :
  coreσ (exec (upd (fun s => if s_host s =? 255 then {| s with s_host := v |} else s)) σ) =
    {| (coreσ σ) with k_host := if k_host (coreσ σ) =? 255 then v else k_host (coreσ σ) |}.
Proof.
  rewrite exec_upd. unfold coreσ, core. simpl. destruct (s_host (srv σ) =? 255); done.
Qed.

Lemma coreσ_take_seat i nonce σ : exists t,
  coreσ (exec (take_seat i nonce) σ) =
    {| (coreσ σ) with
       k_host := if k_host (coreσ σ) =? 255 then u8 (Z.of_nat i) else k_host (coreσ σ);
       k_players := alter (fun p => {| p with p_nonce := nonce; p_seen := t; p_status := FZ_JOINED |})
                      i (k_players (coreσ σ)) |}.
Proof.
  unfold take_seat. msimpl. eexists. rewrite coreσ_claim_host, coreσ_upd_player, now_us_keeps.
  rewrite coreσ_upd_player. cbn [k_players]. rewrite list_alter_alter_eq. reflexivity.
Qed.

Lemma take_seat_moves i a tok nonce σ :
  k_players (coreσ σ) !! i = Some {| player0 with p_address := a; p_token := tok |} ->
  fits 64 tok -> tok <> 0 -> fits 64 nonce ->
  k_closed (coreσ σ) = false -> k_phase (coreσ σ) = FZ_LOBBY ->
  pl_first (fun p => negb (occupied p)) (k_players (coreσ σ)) = Some i ->
  pl_count (k_players (coreσ σ)) < k_expected (coreσ σ) ->
  (forall j, (j < 4)%nat -> occupied (pl_at (k_players (coreσ σ)) j) = true ->
     p_address (pl_at (k_players (coreσ σ)) j) <> a) ->
  (k_owner (coreσ σ) <> 0 -> occupied (pl_at (k_players (coreσ σ)) 0) = false ->
     nonce = k_owner (coreσ σ)) ->
  movesσ (take_seat i nonce) σ.
Proof.
  intros Hi Htf Ht Hnf Hc Hp Hf Hn Ha Ho [W I].
  destruct (coreσ_take_seat i nonce σ) as [t Hcore]. rewrite Hcore. clear Hcore.
  generalize dependent (coreσ σ). intros c Hi Hc Hp Hf Hn Ha Ho W I.
  destruct (pl_first_Some _ _ _ Hf) as [Hi4 _]. unfold u8. rewrite Z.mod_small by lia. split.
  - destruct W. split; simpl; try done.
    + by rewrite length_alter.
    + apply wf_players_alter; [done|]. intros p _. wf_player_tac.
    + case_if; lia.
  - apply steps_one. rewrite (first_vacant _ (wf_len _ W)) in Hf.
    pose proof (step_join (abs c) i a tok nonce) as St.
    unfold abs at 2. cbn [k_players k_host]. rewrite (seats_alter _ _ _ _ Hi).
    change (seat_of _) with (Some (mk_seat a tok nonce Joined 0 0)).
    replace (host_of (if k_host c =? 255 then Z.of_nat i else k_host c))
      with (Some (default i (r_host (abs c)))).
    2:{ simpl. unfold host_of. destruct (Z.eqb_spec (k_host c) 255) as [E1|E1]; simpl.
        - destruct (Z.eqb_spec (Z.of_nat i) 255); [lia|]. f_equal. lia.
        - destruct (Z.eqb_spec (k_host c) 255); [done|done]. }
    apply St; clear St; [done|by rewrite stage_abs, Hp|done|done| | |].
    + by rewrite (count_abs _ (wf_len _ W)).
    + intros j st (Hj & Hoj & ->)%seated_pl; [|apply W]. by apply Ha.
    + intros Hown Hs0. apply Ho; [done|]. unfold pl_at. simpl in Hs0.
      rewrite list_lookup_fmap in Hs0. simpl. unfold seat_of in Hs0.
      destruct (k_players c !! 0%nat) as [p|]; [|done]. simpl in *.
      destruct (occupied p); [done|done].
Qed.

Lemma upd_player_moves i f σ :
  (forall p, k_players (coreσ σ) !! i = Some p -> seat_of (f p) = seat_of p) ->
  (forall p, k_players (coreσ σ) !! i = Some p -> wf_player p -> wf_player (f p)) ->
  movesσ (upd_player i f) σ.
Proof. intros Hs Hw. unfold movesσ. rewrite coreσ_upd_player. by apply moves_alter_same. Qed.

Lemma movesσ_seq {A B} (m : M Sys A) (k : M Sys B) σ :
  movesσ m σ -> keeps coreσ k -> movesσ (bind m (fun _ => k)) σ.
Proof. intros H K. apply movesσ_bind; [done|by apply movesσ_keeps]. Qed.

Lemma pl_at_lookup l i : length l = 4%nat -> (i < 4)%nat -> l !! i = Some (pl_at l i).
Proof.
  intros Hl Hi. unfold pl_at. destruct (l !! i) eqn:E1; [done|].
  apply lookup_ge_None in E1. lia.
Qed.

Lemma lookup_alter_alter (f g : Player -> Player) i p (l : list Player) :
  l !! i = Some p -> alter f i (alter g i l) !! i = Some (f (g p)).
Proof.
  intros H. rewrite list_alter_alter_eq, list_lookup_alter, H. by case_decide.
Qed.

Lemma take_seat_then i nonce (after : M Sys unit) σ :
  movesσ (take_seat i nonce) σ -> keeps coreσ after ->
  movesσ (upd_player i (fun p => {| p with p_nonce := nonce |}) ;;
          let* t := now_us in
          upd_player i (fun p => {| p with p_seen := t; p_status := FZ_JOINED |}) ;;
          upd (fun s => if s_host s =? 255 then {| s with s_host := u8 (Z.of_nat i) |} else s) ;;
          after) σ.
Proof.
  intros H K. unfold movesσ, take_seat in *. rewrite !exec_bind in H. rewrite !exec_bind. by rewrite K.
Qed.

(** What a state looks like to a candidate for slot [i]: nobody at that slot, the
    endpoint unknown, room left. *)
Definition seat_open (c : Core) (i : nat) (a : sockaddr_in) (nonce : Z) : Prop :=
  k_closed c = false /\ k_phase c = FZ_LOBBY /\
  pl_first (fun p => negb (occupied p)) (k_players c) = Some i /\
  pl_count (k_players c) < k_expected c /\
  (forall j, (j < 4)%nat -> occupied (pl_at (k_players c) j) = true ->
     p_address (pl_at (k_players c) j) <> a) /\
  (k_owner c <> 0 -> occupied (pl_at (k_players c) 0) = false -> nonce = k_owner c).

Lemma pl_at_alter f i j (l : list Player) :
  pl_at (alter f i l) j = if bool_decide (i = j /\ (i < length l)%nat) then f (pl_at l j) else pl_at l j.
Proof.
  unfold pl_at. rewrite list_lookup_alter. case_decide as Hij.
  - subst j. destruct (l !! i) eqn:El; simpl.
    + rewrite bool_decide_true; [done|]. split; [done|by eapply lookup_lt_Some].
    + rewrite bool_decide_false; [done|]. apply lookup_ge_None in El. lia.
  - rewrite bool_decide_false; [done|]. by intros [? ?].
Qed.

(** Occupancy, and through it every test of [seat_open], ignores changes to a
    slot nobody occupies before or after. *)
Lemma seat_open_alter c i f a nonce :
  length (k_players c) = 4%nat ->
  occupied (f (pl_at (k_players c) i)) = false -> occupied (pl_at (k_players c) i) = false ->
  seat_open c i a nonce ->
  seat_open {| c with k_players := alter f i (k_players c) |} i a nonce.
Proof.
  intros Hl Hf Ho (Hc & Hp & Hfirst & Hn & Ha & Hown).
  assert (forall j, occupied (pl_at (alter f i (k_players c)) j) = occupied (pl_at (k_players c) j))
    as Hocc.
  { intros j. rewrite pl_at_alter. case_bool_decide as Hd; [|done]. destruct Hd as [<- _].
    by rewrite Hf, Ho. }
  repeat split; simpl; try done.
  - rewrite <- Hfirst. unfold pl_first, first_slot. unfold all4. simpl. by rewrite !Hocc.
  - unfold pl_count, all4 in *. simpl in *. by rewrite !Hocc.
  - intros j Hj Hoj. rewrite Hocc in Hoj. rewrite pl_at_alter.
    case_bool_decide as Hd; [|by apply Ha]. destruct Hd as [<- _]. congruence.
  - intros H0 H1. rewrite Hocc in H1. auto.
Qed.

Lemma join_moves i a nonce σ (after : M Sys unit) :
  fits 64 nonce -> keeps coreσ after -> seat_open (coreσ σ) i a nonce ->
  movesσ (upd_player i (fun _ => {| player0 with p_address := a |}) ;;
          let* token := random_id in
          upd_player i (fun p => {| p with p_token := token |}) ;;
          if token =? 0 then log_event 0 (Z.of_nat i) "Cannot create session token"
          else
            upd_player i (fun p => {| p with p_nonce := nonce |}) ;;
            let* t := now_us in
            upd_player i (fun p => {| p with p_seen := t; p_status := FZ_JOINED |}) ;;
            upd (fun s => if s_host s =? 255 then {| s with s_host := u8 (Z.of_nat i) |} else s) ;;
            after) σ.
Proof.
  intros Hn Hk Ho. apply movesσ_good. intros [W _]. pose proof (wf_len _ W) as Hl.
  assert (i < 4)%nat as Hi by apply (pl_first_Some _ _ _ (proj1 (proj2 (proj2 Ho)))).
  assert (occupied (pl_at (k_players (coreσ σ)) i) = false) as Hfree.
  { destruct (pl_first_Some _ _ _ (proj1 (proj2 (proj2 Ho)))). by breflect. }
  pose proof (pl_at_lookup _ _ Hl Hi) as Hlk.
  assert (forall f, occupied (f (pl_at (k_players (coreσ σ)) i)) = false ->
    forall p, k_players (coreσ σ) !! i = Some p -> seat_of (f p) = seat_of p) as Hsame.
  { intros f Hf p Hp. assert (p = pl_at (k_players (coreσ σ)) i) as -> by congruence.
    unfold seat_of. by rewrite Hf, Hfree. }
  apply movesσ_bind; [apply upd_player_moves; [by apply Hsame|intros p _; wf_player_tac]|].
  set (σ1 := exec _ σ). apply movesσ_bind; [apply movesσ_keeps; auto with keeps|].
  pose proof (eval_random_id_fits σ1) as Htok. set (tok := eval random_id σ1) in *.
  set (σ2 := exec random_id σ1).
  assert (coreσ σ2 = {| (coreσ σ) with k_players :=
    alter (fun _ => {| player0 with p_address := a |}) i (k_players (coreσ σ)) |}) as E2.
  { unfold σ2, σ1. by rewrite random_id_keeps, coreσ_upd_player. }
  clearbody tok σ2. clear σ1.
  apply movesσ_bind.
  { apply upd_player_moves; [|intros p _; wf_player_tac]. rewrite E2. intros p Hp. cbn [k_players] in Hp.
    rewrite list_lookup_alter, Hlk in Hp. by case_decide; simplify_eq/=. }
  set (σ3 := exec _ σ2).
  assert (coreσ σ3 = {| (coreσ σ) with k_players :=
    alter (fun _ => {| player0 with p_address := a; p_token := tok |}) i (k_players (coreσ σ)) |}) as E3.
  { unfold σ3. rewrite coreσ_upd_player, E2. cbn [k_players]. by rewrite list_alter_alter_eq. }
  clearbody σ3. case_if; [apply movesσ_keeps; auto with keeps|]. apply take_seat_then; [|done].
  assert (seat_open (coreσ σ3) i a nonce) as (H1 & H2 & H3 & H4 & H5 & H6).
  { rewrite E3. by apply seat_open_alter. }
  apply (take_seat_moves i a tok nonce); auto.
  rewrite E3. cbn [k_players]. rewrite list_lookup_alter, Hlk. by case_decide.
Qed.

Lemma first_slot_pl f (s : Server) :
  first_slot (fun i => f (player_at s i)) = pl_first f (k_players (core s)).
Proof. done. Qed.

Lemma receive_hello_moves packet address σ :
  closedσ σ = false -> movesσ (receive_hello packet address) σ.
Proof.
  intros Hc. unfold receive_hello. case_if; [apply movesσ_keeps; auto with keeps|].
  apply movesσ_get. case_if; [apply movesσ_keeps; auto with keeps|].
  case_cond Howner; [apply movesσ_keeps; auto with keeps|]. set (nonce := fz_u64 (pk_payload packet) 0) in *.
  assert (fits 64 nonce) as Hnf by apply fits_fz_u64. clearbody nonce.
  destruct (first_slot _) as [i|] eqn:Hdup.
  { apply movesσ_keeps. auto with keeps. }
  case_cond Hlobby; [apply movesσ_keeps; auto with keeps|].
  case_cond Hroom; [apply movesσ_keeps; auto with keeps|]. breflect.
  destruct (first_slot (fun i => negb _)) as [i|] eqn:Hfree; [|by apply movesσ_keeps].
  apply join_moves; [done|auto 10 with keeps|].
  change (first_slot _) with
    (pl_first (fun p => negb (occupied p)) (k_players (coreσ σ))) in Hfree.
  change (first_slot _) with (pl_first (fun p => occupied p
    && same_address address (p_address p)) (k_players (coreσ σ))) in Hdup.
  repeat split; try done.
  - intros j Hj Hoj Ha. pose proof (pl_first_None _ _ j Hdup Hj) as Hd. cbv beta in Hd.
    rewrite Hoj, Ha in Hd. unfold same_address in Hd. by rewrite !Z.eqb_refl in Hd.
  - intros Hown Ho0. change (player_at (srv σ) 0) with (pl_at (k_players (coreσ σ)) 0) in Howner.
    rewrite Ho0 in Howner. change (s_owner_nonce (srv σ)) with (k_owner (coreσ σ)) in Howner.
    apply Z.eqb_neq in Hown. rewrite Hown in Howner. simpl in Howner. by breflect.
Qed.

(** ** Packets of a participant *)

Lemma player_at_pl s i : player_at s i = pl_at (k_players (core s)) i.
Proof. done. Qed.

(** Commands that change one seat by a rule. *)
Lemma seat_command_moves i f σ :
  sits (coreσ σ) i ->
  (forall p, occupied p = true -> wf_player p -> wf_player (f p)) ->
  (forall p, good (coreσ σ) -> k_players (coreσ σ) !! i = Some p -> occupied p = true ->
     step (abs (coreσ σ)) (set_seat i (seat_of (f p)) (abs (coreσ σ)))) ->
  movesσ (upd_player i f) σ.
Proof.
  intros Hs Hw Hst. apply movesσ_good. intros G.
  destruct (sits_lookup _ _ (wf_len _ (proj1 G)) Hs) as (p & Hp & Ho & _).
  unfold movesσ. rewrite coreσ_upd_player.
  apply (moves_alter_step _ _ _ p); [done|auto|auto].
Qed.

Lemma sits_upd_player i j f σ :
  sits (coreσ σ) i -> (forall p, occupied p = true -> occupied (f p) = true) ->
  sits (coreσ (exec (upd_player j f) σ)) i.
Proof.
  intros [Hi Ho] Hf. rewrite coreσ_upd_player. split; [done|]. cbn [k_players].
  rewrite pl_at_alter. case_bool_decide; auto.
Qed.

Lemma sits_keeps {A} (m : M Sys A) σ i : keeps coreσ m -> sits (coreσ σ) i -> sits (coreσ (exec m σ)) i.
Proof. intros K. by rewrite K. Qed.

Lemma select_moves i c σ :
  sits (coreσ σ) i -> closedσ σ = false -> k_phase (coreσ σ) = FZ_LOBBY -> 0 <= c < 4 ->
  movesσ (upd_player i (fun p => {| p with p_car := c; p_status := FZ_SELECTED |})) σ.
Proof.
  intros Hs Hc Hp Hcar. apply seat_command_moves; [done|intros p _; wf_player_tac|].
  intros p _ Hl Ho. apply (step_select _ i (sit p)); [done|by rewrite stage_abs, Hp| |done].
  by apply seated_sit.
Qed.

Lemma loaded_moves i x y o σ :
  sits (coreσ σ) i -> closedσ σ = false -> k_phase (coreσ σ) = FZ_LOADING ->
  fits 16 x -> fits 16 y -> fits 8 o ->
  movesσ (upd_player i (fun p => {| p with p_x := x; p_y := y; p_orientation := o;
                                           p_status := FZ_PLAYER_LOADED |})) σ.
Proof.
  intros Hs Hc Hp Hx Hy Ho. apply seat_command_moves; [done|intros p _; wf_player_tac|].
  intros p _ Hl Hop. apply (step_loaded _ i (sit p)); [done|by rewrite stage_abs, Hp|].
  by apply seated_sit.
Qed.

Lemma arm_moves i σ :
  sits (coreσ σ) i -> closedσ σ = false -> k_phase (coreσ σ) = FZ_COUNTDOWN ->
  movesσ (upd_player i (fun p => {| p with p_armed := k_start (coreσ σ) |})) σ.
Proof.
  intros Hs Hc Hp. apply seat_command_moves; [done|intros p _; wf_player_tac|].
  intros p _ Hl Hop. replace (seat_of _) with (Some (set_armed (k_start (coreσ σ)) (sit p)))
    by (unfold seat_of; change (occupied _) with (occupied p); by rewrite Hop).
  apply (step_arm (abs (coreσ σ)) i (sit p)); [done|by rewrite stage_abs, Hp|].
  by apply seated_sit.
Qed.

Lemma finish_moves i σ :
  sits (coreσ σ) i -> closedσ σ = false -> k_phase (coreσ σ) = FZ_RACING ->
  p_status (pl_at (k_players (coreσ σ)) i) = FZ_PLAYER_RACING ->
  movesσ (upd_player i (fun p => {| p with p_status := FZ_FINISHED; p_x := 0; p_y := 0 |})) σ.
Proof.
  intros Hs Hc Hp Hst. apply seat_command_moves; [done|intros p _; wf_player_tac|].
  intros p _ Hl Hop. apply (step_finish _ i (sit p)); [done|by rewrite stage_abs, Hp| |].
  - by apply seated_sit.
  - unfold pl_at in Hst. rewrite Hl in Hst. cbn [sit seat_rank]. simpl in Hst. by rewrite Hst.
Qed.

Lemma config_moves i c t l σ :
  sits (coreσ σ) i -> closedσ σ = false -> k_phase (coreσ σ) = FZ_LOBBY ->
  k_host (coreσ σ) = Z.of_nat i -> 2 <= c <= 4 -> pl_count (k_players (coreσ σ)) <= c ->
  0 <= t < 5 -> 0 <= l < 3 ->
  movesσ (upd (fun s => {| s with s_expected := c; s_track := t; s_league := l |})) σ.
Proof.
  intros Hs Hc Hp Hh Hcap Hn Ht Hl [W I]. split.
  - destruct W. by split.
  - apply steps_one. destruct (sits_lookup _ _ (wf_len _ W) Hs) as (p & Hpl & Hop & _).
    apply (step_config (abs (coreσ σ)) i (sit p)); try done.
    + by rewrite stage_abs, Hp.
    + destruct Hs. by apply (host_of_Some _ i (wf_host _ W)).
    + by apply seated_sit.
    + by rewrite (count_abs _ (wf_len _ W)).
Qed.

End Moves.
