(* ===== verification/Scenario.v ===== *)
(** * A race of two players, as a concrete environment

    A scripted operating system: a clock that advances one millisecond per
    reading, a counting random source and the datagrams of two players who
    join, select machines, load, arm, race and finish. The examples run the
    server through its public interface; the same environment supplies concrete
    inputs elsewhere. *)

From S2P Require Import Prelude State Double Text Protocol Server.

Local Open Scope string_scope.
Local Open Scope list_scope.
Local Open Scope Z_scope.
Local Open Scope fz_scope.

Definition alice : sockaddr_in := mk_sockaddr 257 16777343.

Definition bob : sockaddr_in := mk_sockaddr 513 16777343.

(** The room key of the scenario. *)
Definition demo_key : bytes := [107; 101; 121].

Definition payload_of (l : bytes) : bytes := l ++ zeros (PAYLOAD_SIZE - length l).

Definition hello_packet (nonce : Z) (key : bytes) : fz_packet :=
  let l := le64 nonce ++ [Z.of_nat (length key)] ++ key in
  {| packet0 with pk_type := FZ_HELLO; pk_length := Z.of_nat (length l); pk_payload := payload_of l |}.

(** A packet of the holder of [token] in session 100. *)
Definition player_packet (type token seq : Z) (l : bytes) : fz_packet :=
  {| packet0 with pk_type := type; pk_length := Z.of_nat (length l); pk_session := 100;
                  pk_race := 1; pk_seq := seq; pk_token := token; pk_payload := payload_of l |}.

Definition demo_start : Z := 2029000.

Definition demo_script : list recv_result :=
  let from a p := Received (datagram p) a in
  let cmd token seq l := player_packet FZ_COMMAND token seq l in
  [ from alice (hello_packet 7 demo_key); from bob (hello_packet 8 demo_key);
    from alice (cmd 101 1 [FZ_SELECT; 2]); from bob (cmd 102 1 [FZ_SELECT; 3]);
    from alice (cmd 101 2 [FZ_LOADED; 0; 1; 0; 2; 9]); from bob (cmd 102 2 [FZ_LOADED; 8; 1; 8; 2; 9]);
    RecvError EAGAIN;
    from alice (cmd 101 3 (FZ_ARM :: le64 demo_start)); from bob (cmd 102 3 (FZ_ARM :: le64 demo_start));
    RecvError EAGAIN; RecvError EAGAIN;
    from alice (player_packet FZ_STATE 101 1 [3; 0; 4; 0; 5]);
    from alice (cmd 101 4 [FZ_FINISH]); from bob (cmd 102 4 [FZ_FINISH]);
    RecvError EAGAIN;
    from alice (cmd 101 5 [FZ_NEXT]) ].

(** The clock jumps over the countdown. *)
Definition demo_clock (n : nat) : Z * Z :=
  let ms := Z.of_nat n + (if (n <? 45)%nat then 0 else 2100) in (ms / 1000, ms mod 1000 * 1000000).

#[export] Instance demo_env : Env := {|
  clock_gettime := demo_clock;
  urandom n := Some (Z.of_nat n + 100);
  sendto_result n := 0;
  recvfrom_result n := default (RecvError EAGAIN) (demo_script !! n);
  poll_result n := (0, EINTR);
  strerror _ := "error";
  calloc_result := true;
  inet_pton_result _ := Some 0;
  socket_result := 3;
  bind_result _ := 0;
  fcntl_result := 0;
  open_errno := EINTR
|}.

Definition world0 : World := mk_world 0 0 0 0 0 [] [].

Definition demo_config : fz_server_config :=
  mk_config (Some "127.0.0.1") (Some demo_key) 12000 2 1 2 3 (-1) 0.

Definition demo_sys : Sys :=
  match fz_server_create (Some demo_config) world0 with
  | (inr s, w) => mk_sys s w
  | (inl _, w) => mk_sys server0 w
  end.

(** The state after [n] polls. *)
Definition polled (n : nat) : Sys :=
  exec (for_each (replicate n 16) (fun wait => fz_server_poll wait ;; skip)) demo_sys.

(** What the scenario shows of a state. *)
Definition summary (σ : Sys) : Z * Z * list Z * Z * list Z :=
  let s := srv σ in
  (s_phase s, s_race s, p_status <$> s_players s, s_start s, p_command_seq <$> s_players s).

(** Loaded, armed, racing, finished, and back in the lobby as generation 2. *)
Example scenario_runs :
  summary <$> map polled [1; 2; 3; 4; 5]%nat =
    [(FZ_COUNTDOWN, 1, [3; 3; 0; 0], demo_start, [2; 2; 0; 0]);
     (FZ_COUNTDOWN, 1, [3; 3; 0; 0], demo_start, [3; 3; 0; 0]);
     (FZ_RACING, 1, [4; 4; 0; 0], demo_start, [3; 3; 0; 0]);
     (FZ_RESULTS, 1, [5; 5; 0; 0], demo_start, [4; 4; 0; 0]);
     (FZ_LOBBY, 2, [1; 1; 0; 0], 0, [5; 4; 0; 0])].
Proof. vm_compute. reflexivity. Qed.
