(* ===== verification/ServerRun.v ===== *)
(** * The server over its whole life

    The packets of a participant, the poll loop and the public interface move
    the room along the rules of [Room]. [reachable] collects the states the
    public interface can produce from a created server. *)

From S2P Require Import Prelude State Double Text Protocol Server Room ServerCore ServerRefine Scenario.

Local Open Scope Z_scope.
Local Open Scope fz_scope.

(** What the sockets interface documents of a datagram: it consists of bytes. *)
Class EnvLaws (E : Env) := {
  recvfrom_bytes : forall n data from, recvfrom_result n = Received data from -> all_bytes data
}.

(** ** The public interface as calls *)

(** A configuration whose fields are in the range of their C types. *)
Definition wf_config (c : fz_server_config) : Prop :=
  fits 32 (c_port c) /\ fits 32 (c_players c) /\ fits 32 (c_track c) /\ fits 32 (c_league c) /\
  fits 64 (c_owner_nonce c) /\ all_bytes (default [] (c_room_key c)).

Inductive call := Poll (wait_ms : Z) | GetStatus | NextEvent | Close.

Definition run_call {E : Env} (c : call) : M Sys unit :=
  match c with
  | Poll wait_ms => fz_server_poll wait_ms ;; skip
  | GetStatus => fz_server_get_status ;; skip
  | NextEvent => fz_server_next_event ;; skip
  | Close => fz_server_close
  end.

(** The state of a server created as [s] in [w] after [calls]. *)
Definition after {E : Env} (s : Server) (w : World) (calls : list call) : Sys :=
  exec (for_each calls run_call) (mk_sys s w).

(** The room a configuration opens. *)
Definition opening (c : fz_server_config) : room :=
  {| r_seats := replicate 4 None; r_stage := Lobby; r_capacity := c_players c; r_host := None;
     r_track := c_track c; r_league := c_league c; r_race := 1; r_deadline := 0;
     r_owner := c_owner_nonce c; r_closed := false |}.

(** The statuses a participant may have in each phase. *)
Definition status_in (phase status : Z) : bool :=
  if phase =? FZ_LOBBY then (status =? FZ_JOINED) || (status =? FZ_SELECTED)
  else if phase =? FZ_LOADING then (status =? FZ_SELECTED) || (status =? FZ_PLAYER_LOADED)
  else if phase =? FZ_COUNTDOWN then status =? FZ_PLAYER_LOADED
  else if phase =? FZ_RACING then (status =? FZ_PLAYER_RACING) || (status =? FZ_FINISHED)
  else status =? FZ_FINISHED.

(** The consistency of a server's own fields. *)
Record server_ok (s : Server) : Prop := {
  ok_slots : length (s_players s) = 4%nat;
  ok_phase : FZ_LOBBY <= s_phase s <= FZ_RESULTS;
  ok_status : forall i, (i < 4)%nat -> occupied (player_at s i) = true ->
    status_in (s_phase s) (p_status (player_at s i)) = true;
  ok_token : forall i, (i < 4)%nat -> occupied (player_at s i) = true ->
    p_token (player_at s i) <> 0 /\ fits 64 (p_token (player_at s i));
  ok_endpoints : forall i j, (i < 4)%nat -> (j < 4)%nat ->
    occupied (player_at s i) = true -> occupied (player_at s j) = true ->
    same_address (p_address (player_at s i)) (p_address (player_at s j)) = true -> i = j;
  ok_count : count s <= s_expected s /\ 2 <= s_expected s <= 4;
  ok_course : 0 <= s_track s < 5 /\ 0 <= s_league s < 3;
  ok_host : s_closed s = false ->
    if count s =? 0 then s_host s = 255
    else 0 <= s_host s < 4 /\ occupied (player_at s (Z.to_nat (s_host s))) = true;
  ok_owner : s_closed s = false -> s_owner_nonce s <> 0 -> count s <> 0 ->
    occupied (player_at s 0) = true /\ p_nonce (player_at s 0) = s_owner_nonce s
}.

Section Packets.
Context {E : Env}.

(** A participant of an open room is being served. *)
Definition ready (σ : Sys) (i : nat) : Prop := sits (coreσ σ) i /\ closedσ σ = false.

Lemma ready_keeps {A} (m : M Sys A) σ i : keeps coreσ m -> ready σ i -> ready (exec m σ) i.
Proof. intros K [Hs Hc]. unfold ready, closedσ. by rewrite !K. Qed.

Lemma ready_upd_player i j f σ :
  ready σ i -> (forall p, occupied p = true -> occupied (f p) = true) ->
  ready (exec (upd_player j f) σ) i.
Proof. intros [Hs Hc] Hf. split; [by apply sits_upd_player|done]. Qed.

(** Bookkeeping of a participant the room does not see. *)
Lemma book_moves i f σ :
  (forall p, seat_of (f p) = seat_of p) -> (forall p, wf_player p -> wf_player (f p)) ->
  movesσ (upd_player i f) σ.
Proof. intros Hs Hw. apply upd_player_moves; auto. Qed.

Lemma apply_command_moves packet i σ :
  all_bytes (pk_payload packet) -> ready σ i -> movesσ (apply_command packet i) σ.
Proof.
  intros Hb [Hs Hc]. unfold apply_command. apply movesσ_get.
  pose proof (fun k => rd_fits _ k Hb) as Hrd.
  case_if; [|case_if; [|case_if; [|case_if; [|case_if; [|case_if; [|case_if]]]]]];
    try (by apply movesσ_keeps); apply movesσ_seq; try done; apply movesσ_when; intros Hv; breflect.
  - apply select_moves; try done. pose proof (Hrd 1%nat) as Hr. unfold fits in Hr. lia.
  - apply movesσ_bind; [by apply loaded_moves; auto with fz|].
    apply movesσ_bind; [apply movesσ_keeps; auto with keeps|].
    apply book_moves; [done|intros p; wf_player_tac].
  - by apply arm_moves.
  - by apply finish_moves.
  - pose proof (Hrd 2%nat) as R2. pose proof (Hrd 3%nat) as R3. unfold fits in R2, R3.
    apply (config_moves i); try done; lia.
Qed.

Lemma apply_command_ready packet i σ : ready σ i -> ready (exec (apply_command packet i) σ) i.
Proof.
  intros R. unfold apply_command. rewrite exec_bind, exec_get.
  repeat (case_if; [try (by apply R)|]); try (by apply R);
    rewrite exec_bind, exec_ret, exec_when; case_if; try (by apply R).
  - apply ready_upd_player; [done|]. done.
  - rewrite exec_bind. apply ready_upd_player; [|done]. apply ready_keeps; [auto with keeps|].
    by apply ready_upd_player.
  - by apply ready_upd_player.
  - by apply ready_upd_player.
Qed.

(** NEXT and LEAVE only decide whether they are valid. *)
Lemma apply_command_pure packet i σ :
  rd (pk_payload packet) 0 = FZ_NEXT \/ rd (pk_payload packet) 0 = FZ_LEAVE ->
  exec (apply_command packet i) σ = σ.
Proof.
  intros H. unfold apply_command. rewrite exec_bind, exec_get.
  destruct H as [-> | ->]; reflexivity.
Qed.

Lemma apply_command_next packet i σ :
  rd (pk_payload packet) 0 = FZ_NEXT -> eval (apply_command packet i) σ = true ->
  k_host (coreσ σ) = Z.of_nat i /\
  (k_phase (coreσ σ) = FZ_RESULTS \/ k_phase (coreσ σ) = FZ_LOBBY).
Proof.
  intros H. unfold apply_command. rewrite eval_bind, H, exec_get, eval_get. simpl.
  change (eval (ret ?b) σ) with b. intros Hv. breflect. split; [done|].
  apply orb_true_iff in H1 as [?|?]; breflect; auto.
Qed.

Lemma receive_state_moves packet size i σ :
  wf_packet packet -> movesσ (receive_state packet size i) σ.
Proof.
  intros (_ & _ & _ & _ & _ & Hq & _ & _ & Hb). unfold receive_state. apply movesσ_get.
  case_if; [apply movesσ_keeps; auto with keeps|].
  case_if; [apply movesσ_keeps; auto with keeps|].
  pose proof (rd_fits _ 4 Hb) as Hr. apply movesσ_bind.
  { apply book_moves; [done|]. intros p. wf_player_tac. }
  apply movesσ_bind; [apply movesσ_keeps; auto with keeps|].
  apply movesσ_seq; [|auto with keeps]. apply book_moves; [done|]. intros p. wf_player_tac.
Qed.

(** The acknowledgement: sequence number and heartbeat. *)
Lemma acknowledge_moves i seq t σ :
  fits 32 seq -> movesσ (upd_player i (fun p => {| p with p_command_seq := seq; p_seen := t |})) σ.
Proof. intros Hq. apply book_moves; [done|intros p; wf_player_tac]. Qed.

(** The consequences of a command, once it is acknowledged. *)
Lemma consequences_moves packet i σ :
  let cmd := rd (pk_payload packet) 0 in
  ready σ i ->
  (cmd = FZ_NEXT -> k_host (coreσ σ) = Z.of_nat i /\
     (k_phase (coreσ σ) = FZ_RESULTS \/ k_phase (coreσ σ) = FZ_LOBBY)) ->
  movesσ (when (cmd =? FZ_NEXT) begin_lobby ;;
          when (cmd =? FZ_LEAVE) (drop_player i "left_room")) σ.
Proof.
  intros cmd [Hs Hc] Hn. apply movesσ_bind.
  - apply movesσ_when. intros H. breflect. destruct (Hn H). by apply (begin_lobby_moves i).
  - apply movesσ_when. intros H. breflect. rewrite H. simpl. by apply drop_player_moves.
Qed.

Lemma movesσ_pre {A B} (m : M Sys A) (k : A -> M Sys B) σ :
  keeps coreσ m -> movesσ (k (eval m σ)) (exec m σ) -> movesσ (bind m k) σ.
Proof. intros K H. apply movesσ_bind; [by apply movesσ_keeps|done]. Qed.

Lemma receive_command_moves packet i σ :
  wf_packet packet -> ready σ i -> movesσ (receive_command packet i) σ.
Proof.
  intros (_ & _ & _ & _ & _ & Hq & _ & _ & Hb) R. unfold receive_command. apply movesσ_get.
  repeat (case_if; [apply movesσ_keeps; auto with keeps|]).
  apply movesσ_bind; [by apply apply_command_moves|].
  pose proof (apply_command_next packet i σ) as Hnext.
  pose proof (apply_command_pure packet i σ) as Hpure.
  pose proof (apply_command_ready packet i σ R) as R1.
  set (valid := eval _ σ) in *. set (σ1 := exec _ σ) in *. clearbody valid σ1.
  apply movesσ_pre; [auto with keeps|]. set (t := eval _ σ1). set (σ2 := exec now_us σ1).
  assert (coreσ σ2 = coreσ σ1) as E2 by apply now_us_keeps.
  apply (ready_keeps now_us) in R1; [|auto with keeps]. fold σ2 in R1. clearbody t σ2.
  apply movesσ_bind; [by apply acknowledge_moves|]. set (σ3 := exec _ σ2).
  assert (ready σ3 i) as R3 by (by apply ready_upd_player).
  assert (k_host (coreσ σ3) = k_host (coreσ σ1) /\ k_phase (coreσ σ3) = k_phase (coreσ σ1)) as [Eh Ep]
    by (rewrite <- E2; done).
  clearbody σ3. clear R1 E2. apply movesσ_get. apply movesσ_bind.
  - destruct valid; simpl; [|apply movesσ_keeps; auto with keeps].
    do 3 (apply movesσ_pre; [auto with keeps|]).
    apply consequences_moves.
    + do 3 (apply ready_keeps; [auto with keeps|]). done.
    + intros Hcmd. rewrite !kept by auto with keeps. rewrite Eh, Ep, Hpure by auto. by apply Hnext.
  - apply movesσ_pre; [auto with keeps|].
    apply movesσ_seq; [apply advance_moves|auto with keeps].
Qed.

Lemma receive_player_moves packet size i σ :
  wf_packet packet -> ready σ i -> movesσ (receive_player packet size i) σ.
Proof.
  intros W R. unfold receive_player. apply movesσ_get. case_if.
  { apply movesσ_pre; [auto with keeps|]. apply book_moves; [done|intros p; wf_player_tac]. }
  case_if.
  { apply movesσ_pre; [auto with keeps|]. apply movesσ_seq; [|auto with keeps].
    apply book_moves; [done|intros p; wf_player_tac]. }
  case_if; [apply movesσ_keeps; auto with keeps|].
  case_if; [by apply receive_state_moves|by apply receive_command_moves].
Qed.

Lemma authenticate_sits s packet address i :
  authenticate s packet address = Some i -> sits (core s) i.
Proof.
  intros H. unfold authenticate, first_slot in H. apply find_some in H as [Hi Hf]. breflect.
  split; [|done]. simpl in Hi. lia.
Qed.

Lemma receive_packet_moves data size address σ :
  all_bytes data -> movesσ (receive_packet data size address) σ.
Proof.
  intros Hb. unfold receive_packet. destruct (fz_decode data size) as [packet|] eqn:Hd.
  2:{ apply movesσ_keeps. case_if; auto with keeps. }
  apply fz_decode_wf in Hd; [|done]. apply movesσ_get.
  destruct (s_closed (srv σ)) eqn:Hc; [by apply movesσ_keeps|].
  apply movesσ_pre; [auto with keeps|].
  case_if; [by apply receive_hello_moves|].
  destruct (authenticate _ _ _) as [i|] eqn:Ha; [|apply movesσ_keeps; auto with keeps].
  apply receive_player_moves; [done|]. apply ready_keeps; [auto with keeps|].
  split; [by eapply authenticate_sits|done].
Qed.

End Packets.

Section Life.
Context {E : Env} {L : EnvLaws E}.

(** ** The poll loop *)

Lemma recvfrom_keeps : keeps coreσ recvfrom.
Proof. unfold recvfrom, updw. auto 10 with keeps. Qed.

Lemma poll_socket_keeps t : keeps coreσ (poll_socket t).
Proof. unfold poll_socket, updw. auto 10 with keeps. Qed.

#[local] Hint Resolve recvfrom_keeps poll_socket_keeps : keeps.

Lemma recvfrom_data σ data from : eval recvfrom σ = Received data from -> all_bytes data.
Proof.
  change (eval recvfrom σ) with (match recvfrom_result (w_recv (wld σ)) with
    | Received data from => Received (take 257 data) from | RecvError e => RecvError e end).
  destruct (recvfrom_result _) eqn:Hr; [|done]. intros [= <- <-].
  apply all_bytes_take. by eapply recvfrom_bytes.
Qed.

Lemma receive_loop_moves n σ : movesσ (receive_loop n) σ.
Proof.
  revert σ. induction n as [|n IH]; intros σ; simpl; [by apply movesσ_keeps|].
  apply movesσ_get. case_if; [by apply movesσ_keeps|]. apply movesσ_pre; [auto with keeps|].
  destruct (eval recvfrom σ) as [data from|e] eqn:Hr.
  - apply movesσ_bind; [|apply IH]. apply receive_packet_moves. by eapply recvfrom_data.
  - destruct e; apply movesσ_keeps; auto with keeps.
Qed.

Lemma summarize_player_moves now i σ : movesσ (summarize_player now i) σ.
Proof.
  unfold summarize_player. apply movesσ_get, movesσ_when. intros _.
  apply movesσ_pre; [auto with keeps|]. apply movesσ_seq; [|auto with keeps].
  apply book_moves; [done|intros p; wf_player_tac].
Qed.

Lemma poll_end_moves σ : movesσ poll_end σ.
Proof.
  unfold poll_end. apply movesσ_pre; [auto with keeps|]. apply movesσ_get. apply movesσ_bind.
  { apply movesσ_when. intros _. apply movesσ_seq; [apply advance_moves|].
    unfold get. auto 10 with keeps. }
  apply movesσ_get. apply movesσ_seq; [|unfold get; auto with keeps].
  apply movesσ_when. intros _. apply movesσ_pre; [auto with keeps|].
  apply movesσ_seq; [|auto with keeps]. apply movesσ_for_each. intros. apply summarize_player_moves.
Qed.

Lemma fz_server_poll_moves wait σ : movesσ (fz_server_poll wait) σ.
Proof.
  unfold fz_server_poll. apply movesσ_get. case_if; [by apply movesσ_keeps|].
  apply movesσ_pre; [auto with keeps|]. apply movesσ_pre; [auto with keeps|].
  case_if; [apply movesσ_keeps; auto with keeps|].
  apply movesσ_bind; [apply receive_loop_moves|]. case_if; [by apply movesσ_keeps|apply poll_end_moves].
Qed.

(** ** The rest of the public interface *)

Lemma fz_server_get_status_keeps : keeps coreσ fz_server_get_status.
Proof. unfold fz_server_get_status, get. auto 10 with keeps. Qed.

Lemma fz_server_next_event_keeps : keeps coreσ fz_server_next_event.
Proof. unfold fz_server_next_event, get. auto 10 with keeps. Qed.

Lemma coreσ_shut v b σ :
  coreσ (exec (upd (fun s => {| s with s_socket := v; s_closed := b |})) σ) =
    {| (coreσ σ) with k_closed := b |}.
Proof. done. Qed.

Lemma fz_server_close_moves σ : movesσ fz_server_close σ.
Proof.
  unfold fz_server_close. apply movesσ_get. case_if; [by apply movesσ_keeps|].
  apply movesσ_pre; [unfold get; auto 10 with keeps|]. apply movesσ_pre; [auto with keeps|].
  set (τ := exec _ _). clearbody τ. unfold movesσ. rewrite coreσ_shut. generalize (coreσ τ).
  intros c [W I]. split; [by destruct W|]. apply steps_one, (step_close (abs c)).
Qed.

Lemma run_call_moves c σ : movesσ (run_call c) σ.
Proof.
  destruct c; simpl.
  - by apply movesσ_seq; [apply fz_server_poll_moves|].
  - apply movesσ_keeps, keeps_bind; [apply fz_server_get_status_keeps|done].
  - apply movesσ_keeps, keeps_bind; [apply fz_server_next_event_keeps|done].
  - apply fz_server_close_moves.
Qed.

Lemma exec_for_each_app {S A} (l1 l2 : list A) (f : A -> M S unit) s :
  exec (for_each (l1 ++ l2) f) s = exec (for_each l2 f) (exec (for_each l1 f) s).
Proof. revert s. induction l1 as [|x l1 IH]; intros s; [done|]. simpl. rewrite !exec_bind. apply IH. Qed.

Lemma after_app s w l1 l2 : after s w (l1 ++ l2) = exec (for_each l2 run_call) (after s w l1).
Proof. apply exec_for_each_app. Qed.

Lemma calls_moves l σ : movesσ (for_each l run_call) σ.
Proof. apply movesσ_for_each. intros. apply run_call_moves. Qed.

(** ** Creation *)

Lemma server_open_core c a key w :
  eval (server_open c a key) (mk_sys server0 w) = None ->
  let s := srv (exec (server_open c a key) (mk_sys server0 w)) in
  exists id, fits 64 id /\ id <> 0 /\
  core s = {| k_closed := false; k_owner := c_owner_nonce c; k_session := id; k_start := 0;
              k_race := 1; k_phase := FZ_LOBBY; k_expected := u8 (c_players c); k_host := 255;
              k_track := u8 (c_track c); k_league := u8 (c_league c); k_key := key;
              k_players := replicate 4 player0 |}.
Proof.
  cbv zeta. unfold server_open. rewrite !exec_bind, !eval_bind.
  set (σ1 := exec (upd _) (mk_sys server0 w)).
  pose proof (eval_random_id_fits σ1) as Hf. set (id := eval random_id σ1) in *.
  set (σ2 := exec random_id σ1). set (σ3 := exec (upd _) σ2). intros H. exists id. split; [done|].
  assert (coreσ σ3 = {| (coreσ σ1) with k_session := id |}) as E3.
  { unfold σ3, σ2. rewrite exec_upd. change (coreσ (mk_sys _ _)) with
      {| (coreσ (exec random_id σ1)) with k_session := id |}. by rewrite random_id_keeps. }
  clearbody σ3. destruct (Z.eqb_spec id 0) as [|Hnz]; [by discriminate H|].
  split; [done|]. destruct (inet_pton_result a) as [ip|]; [|by discriminate H].
  rewrite exec_bind, eval_bind in *. case_if; [by discriminate H|].
  change (core (srv ?τ)) with (coreσ τ). rewrite exec_bind. rewrite kept by (unfold get; auto with keeps).
  rewrite now_us_keeps, kept by auto with keeps. rewrite E3. done.
Qed.

Lemma opening_empty c i st : ~ seated (opening c) i st.
Proof. unfold seated. simpl. intros H. by do 4 (destruct i as [|i]; [done|]). Qed.

Lemma fz_server_create_inv c w s w' :
  fz_server_create (Some c) w = (inr s, w') -> wf_config c ->
  good (core s) /\ abs (core s) = opening c.
Proof.
  destruct c as [[a|] [key|] port n t l ll tp o]; try (by intros [=]).
  intros H (Hp & Hn & Ht & Hl & Ho & Hk). unfold fz_server_create in H.
  cbn [c_bind_address c_room_key c_port c_players c_track c_league c_owner_nonce default] in *.
  repeat match type of H with
    (if ?b then _ else _) = _ => destruct b eqn:?; [by discriminate H|]; breflect end.
  cbv zeta in H. destruct (fst (server_open _ _ _ _)) eqn:Hr; [by discriminate H|].
  injection H as <- _. apply server_open_core in Hr as (id & Hid & Hnz & Hc). unfold exec in Hc. rewrite Hc. clear Hc.
  cbn [c_players c_track c_league c_owner_nonce].
  assert (fits 8 n /\ fits 8 t /\ fits 8 l) as (Hn8 & Ht8 & Hl8) by (unfold fits in *; lia).
  rewrite !u8_small by done. unfold fits in Hn, Ht, Hl.
  assert (abs {| k_closed := false; k_owner := o; k_session := id; k_start := 0; k_race := 1;
    k_phase := FZ_LOBBY; k_expected := n; k_host := 255; k_track := t; k_league := l; k_key := key;
    k_players := replicate 4 player0 |} = opening (mk_config (Some a) (Some key) port n t l ll tp o)) as Ha
    by done.
  split; [split|done].
  - split; simpl; try done; [|by left].
    by repeat constructor.
  - rewrite Ha. pose proof (opening_empty (mk_config (Some a) (Some key) port n t l ll tp o)) as He.
    split; simpl; try done; try lia; try (by intros i st ?%He); try (by intros i j si sj ?%He).
    + intros _ (i & st & ?%He). done.
    + intros _ _. split; [by intros st ?%He|]. by intros (i & st & ?%He).
Qed.

Lemma after_good c w s w' l :
  wf_config c -> fz_server_create (Some c) w = (inr s, w') -> good (coreσ (after s w' l)).
Proof.
  intros Hc H. destruct (fz_server_create_inv _ _ _ _ H Hc) as [G _].
  by apply (moves_good _ _ (calls_moves l (mk_sys s w'))).
Qed.

(** ** From the room back to the fields of the server *)

Lemma status_in_rank ph st :
  FZ_LOBBY <= ph <= FZ_RESULTS -> FZ_EMPTY < st < FZ_DISCONNECTED ->
  rank_in (stage_of ph) (rank_of st) -> status_in ph st = true.
Proof.
  unfold FZ_LOBBY, FZ_RESULTS, FZ_EMPTY, FZ_DISCONNECTED. intros Hp Hs.
  assert (ph = 0 \/ ph = 1 \/ ph = 2 \/ ph = 3 \/ ph = 4) as [->|[->|[->|[->| ->]]]] by lia;
  assert (st = 1 \/ st = 2 \/ st = 3 \/ st = 4 \/ st = 5) as [->|[->|[->|[->| ->]]]] by lia;
    by vm_compute; intuition congruence.
Qed.

Lemma same_address_eq a b : same_address a b = true <-> a = b.
Proof.
  unfold same_address. destruct a, b. simpl. rewrite andb_true_iff, !Z.eqb_eq.
  split; [by intros [-> ->]|by intros [= -> ->]].
Qed.

Lemma occupied_range p : wf_player p -> occupied p = true -> FZ_EMPTY < p_status p < FZ_DISCONNECTED.
Proof. intros W [H1 H2]%occupied_status. destruct (wf_status _ W). lia. Qed.

Lemma someone_count c : length (k_players c) = 4%nat -> someone (abs c) <-> pl_count (k_players c) <> 0.
Proof.
  intros Hl. unfold someone, seated. rewrite <- seated_count_pos, <- count_abs by done. lia.
Qed.

Lemma good_server_ok s : good (core s) -> server_ok s.
Proof.
  intros [W I]. pose proof (wf_len _ W) as Hl. destruct I.
  assert (forall i, (i < 4)%nat -> occupied (player_at s i) = true ->
    seated (abs (core s)) i (sit (player_at s i)) /\ wf_player (player_at s i)) as Hsit.
  { intros i Hi Ho. rewrite player_at_pl in *. pose proof (pl_at_lookup _ _ Hl Hi) as Hlk. split.
    - by apply seated_sit.
    - eapply Forall_lookup_1; [apply W|done]. }
  split; try (by apply W); try done.
  - intros i Hi Ho. destruct (Hsit i Hi Ho) as [Hs Wp]. apply status_in_rank; [by apply W| |].
    + by apply occupied_range.
    + by apply (inv_rank i _ Hs).
  - intros i Hi Ho. destruct (Hsit i Hi Ho) as [Hs Wp]. split; [by apply (inv_token i _ Hs)|by apply Wp].
  - intros i j Hi Hj Hoi Hoj Ha%same_address_eq. destruct (Hsit i Hi Hoi), (Hsit j Hj Hoj).
    by eapply inv_endpoints.
  - split; [|done]. change (count s) with (pl_count (k_players (core s))). rewrite <- count_abs by done. done.
  - intros Hc. specialize (inv_host Hc). change (count s) with (pl_count (k_players (core s))).
    unfold host_ok in inv_host.
    pose proof (wf_host _ W) as Hh. change (r_host (abs (core s))) with (host_of (s_host s)) in inv_host.
    change (k_host (core s)) with (s_host s) in Hh. unfold host_of in inv_host.
    destruct (Z.eqb_spec (s_host s) 255) as [E1|E1].
    + rewrite (someone_count _ Hl) in inv_host.
      destruct (Z.eqb_spec (pl_count (k_players (core s))) 0); [done|by destruct inv_host].
    + destruct inv_host as [st Hst]. destruct (seated_pl _ _ _ Hl Hst) as (_ & Ho & _).
      case_if; [|by split; [lia|]]. exfalso. apply (someone_count _ Hl); [by eexists _, _|done].
  - intros Hc Ho Hn. destruct (inv_owner Hc Ho) as [H1 H2].
    destruct H2 as [st Hst]; [by apply someone_count|]. pose proof (H1 st Hst) as Hnn.
    destruct (seated_pl _ _ _ Hl Hst) as (_ & Hocc & ->). done.
Qed.

(** C1. Whatever the network delivers and however the public calls are
    interleaved, a created server only moves its room along the rules of the
    room specification: from the opening room to the state after [l1], and from
    there to the state after [l2] more calls; the room's invariant holds. *)
Theorem server_refines_room c w s w' l1 l2 :
  wf_config c -> fz_server_create (Some c) w = (inr s, w') ->
  steps (opening c) (abs (coreσ (after s w' l1))) /\
  steps (abs (coreσ (after s w' l1))) (abs (coreσ (after s w' (l1 ++ l2)))) /\
  room_inv (abs (coreσ (after s w' l1))).
Proof.
  intros Hc H. pose proof (after_good _ _ _ _ l1 Hc H) as G1.
  destruct (fz_server_create_inv _ _ _ _ H Hc) as [G0 <-]. split_and!.
  - by apply (calls_moves l1 (mk_sys s w')).
  - rewrite after_app. by apply calls_moves.
  - apply G1.
Qed.

(** C2. In every state the public interface can reach, the server's own fields
    are consistent: statuses agree with the phase, tokens are nonzero, no two
    participants share an endpoint, and the room is not over capacity; while the
    room is open, the host is a participant if there is one, and the first slot
    of an owned room with participants is its owner's. *)
Theorem server_always_ok c w s w' l :
  wf_config c -> fz_server_create (Some c) w = (inr s, w') -> server_ok (srv (after s w' l)).
Proof. intros Hc H. by eapply good_server_ok, after_good. Qed.

End Life.

(** ** Concrete runs *)

#[export] Instance demo_laws : EnvLaws demo_env.
Proof.
  assert (Forall (fun r => match r with Received d _ => all_bytes d | RecvError _ => True end)
    demo_script) as H.
  { repeat constructor; apply (bool_decide_unpack _); vm_compute; exact I. }
  split. intros n data from Hr. simpl in Hr.
  destruct (demo_script !! n) as [r|] eqn:Hn; simpl in Hr; [|done]. subst r.
  by apply (Forall_lookup_1 _ _ _ _ H Hn).
Defined.

Lemma demo_created :
  fz_server_create (Some demo_config) world0 = (inr (srv demo_sys), wld demo_sys).
Proof. vm_compute. reflexivity. Qed.

Lemma demo_config_wf : wf_config demo_config.
Proof. by repeat split; try (by apply (bool_decide_unpack _)); repeat constructor. Qed.

Lemma server_refines_room_witness :
  let σ := after (srv demo_sys) (wld demo_sys) in
  steps (opening demo_config) (abs (coreσ (σ [Poll 16; Poll 16; Poll 16]))) /\
  r_stage (abs (coreσ (σ [Poll 16; Poll 16; Poll 16]))) = Racing.
Proof.
  split; [|vm_compute; reflexivity].
  apply (server_refines_room demo_config world0 _ _ [Poll 16; Poll 16; Poll 16] []).
  - apply demo_config_wf.
  - apply demo_created.
Defined.

Lemma server_always_ok_witness :
  server_ok (srv (after (srv demo_sys) (wld demo_sys) [Poll 16; GetStatus; Poll 16; Close])).
Proof.
  apply (server_always_ok demo_config world0); [apply demo_config_wf|apply demo_created].
Defined.
