(* ===== verification/Events.v ===== *)
(** * The event log of the server as a bounded queue

    [log_event] and [fz_server_next_event] keep their events in a ring of 256
    entries with a head and a count. The ring implements a queue that forgets
    its oldest element when it is full. *)

From S2P Require Import Prelude State Double Text Protocol Server Scenario ServerRun.

Local Open Scope Z_scope.
Local Open Scope fz_scope.

(** ** The queue *)

Definition queue_push (q : list fz_server_event) (e : fz_server_event) : list fz_server_event :=
  (if (length q =? 256)%nat then tail q else q) ++ [e].

(** The entry [k] places behind the head. *)
Definition ring_slot (s : Server) (k : nat) : nat := Z.to_nat ((s_event_head s + Z.of_nat k) mod 256).

Definition event_queue (s : Server) : list fz_server_event :=
  map (fun k => default event0 (s_events s !! ring_slot s k)) (seq 0 (Z.to_nat (s_event_count s))).

Definition ring_ok (s : Server) : Prop :=
  length (s_events s) = 256%nat /\ 0 <= s_event_head s < 256 /\ 0 <= s_event_count s <= 256.

(** [log_event] records the event. *)
Definition logs (s : Server) (level player : Z) : bool :=
  negb ((level >? s_log_level s)
        || ((level =? 3) && (s_trace_player s >=? 0) && negb (s_trace_player s =? player))).

(** ** Ring arithmetic *)

Lemma ring_slot_lt s k : (ring_slot s k < 256)%nat.
Proof. unfold ring_slot. pose proof (Z.mod_pos_bound (s_event_head s + Z.of_nat k) 256). lia. Qed.

Lemma ring_slot_inj s j k : (j < 256)%nat -> (k < 256)%nat -> ring_slot s j = ring_slot s k -> j = k.
Proof.
  unfold ring_slot. intros Hj Hk H. apply Z2Nat.inj in H; try (apply Z.mod_pos_bound; lia).
  Z.to_euclidean_division_equations; lia.
Qed.

(** Dropping the oldest entry shifts the slots by one. *)
Lemma ring_slot_pop s n k :
  ring_slot {| s with s_event_head := u32 (s_event_head s + 1) mod 256; s_event_count := n |} k =
    ring_slot s (S k).
Proof.
  unfold ring_slot, u32. simpl. f_equal.
  Z.to_euclidean_division_equations; lia.
Qed.

Lemma event_queue_length s : length (event_queue s) = Z.to_nat (s_event_count s).
Proof. unfold event_queue. by rewrite length_map, length_seq. Qed.

Lemma event_queue_ext s s' :
  s_events s' = s_events s -> s_event_head s' = s_event_head s ->
  s_event_count s' = s_event_count s -> event_queue s' = event_queue s.
Proof. intros H1 H2 H3. unfold event_queue, ring_slot. by rewrite H1, H2, H3. Qed.

(** The head moves past the oldest entry. *)
Definition ring_pop (s : Server) : Server :=
  {| s with s_event_head := u32 (s_event_head s + 1) mod 256;
            s_event_count := u32 (s_event_count s - 1) |}.

Lemma u32_pred n : 0 < n <= 256 -> u32 (n - 1) = n - 1.
Proof. intros H. apply u32_small. unfold fits. lia. Qed.

Lemma ring_pop_ok s : ring_ok s -> 0 < s_event_count s -> ring_ok (ring_pop s).
Proof.
  intros (Hl & Hh & Hc) Hp. unfold ring_ok, ring_pop. simpl. rewrite u32_pred by lia.
  pose proof (Z.mod_pos_bound (u32 (s_event_head s + 1)) 256). split_and!; [done|lia..].
Qed.

Lemma event_queue_pop s :
  ring_ok s -> 0 < s_event_count s ->
  event_queue s = default event0 (s_events s !! Z.to_nat (s_event_head s)) :: event_queue (ring_pop s).
Proof.
  intros (Hl & Hh & Hc) Hp. unfold event_queue at 1.
  replace (Z.to_nat (s_event_count s)) with (S (Z.to_nat (s_event_count s - 1))) by lia.
  cbn [seq map]. f_equal.
  - unfold ring_slot. rewrite Z.add_0_r, Z.mod_small by done. done.
  - unfold event_queue. change (s_event_count (ring_pop s)) with (u32 (s_event_count s - 1)).
    rewrite u32_pred by lia. rewrite <- seq_shift, map_map. apply map_ext. intros k.
    unfold ring_pop. by rewrite ring_slot_pop.
Qed.

(** Storing behind the last entry appends it. *)
Definition ring_put (s : Server) (e : fz_server_event) : Server :=
  {| s with s_event_count := u32 (s_event_count s + 1);
            s_events := <[Z.to_nat (u32 (s_event_head s + s_event_count s) mod 256) := e]> (s_events s) |}.

Lemma ring_put_slot s :
  ring_ok s -> Z.to_nat (u32 (s_event_head s + s_event_count s) mod 256) =
               ring_slot s (Z.to_nat (s_event_count s)).
Proof.
  intros (Hl & Hh & Hc). unfold ring_slot. rewrite u32_small by (unfold fits; lia).
  by rewrite Z2Nat.id by lia.
Qed.

Lemma ring_put_ok s e : ring_ok s -> s_event_count s < 256 -> ring_ok (ring_put s e).
Proof.
  intros (Hl & Hh & Hc) Hp. unfold ring_ok, ring_put. simpl. rewrite length_insert.
  rewrite u32_small by (unfold fits; lia). split_and!; [done|lia..].
Qed.

Lemma event_queue_put s e :
  ring_ok s -> s_event_count s < 256 -> event_queue (ring_put s e) = event_queue s ++ [e].
Proof.
  intros R Hp. pose proof (ring_put_slot s R) as Hslot. destruct R as (Hl & Hh & Hc).
  set (n := Z.to_nat (s_event_count s)) in *.
  assert (Z.to_nat (s_event_count (ring_put s e)) = (n + 1)%nat) as Hn.
  { unfold ring_put. simpl. rewrite u32_small by (unfold fits; lia). lia. }
  unfold event_queue. rewrite Hn, seq_app, map_app. f_equal.
  - apply map_ext_in. intros k [_ Hk]%in_seq. unfold ring_put. simpl. rewrite Hslot.
    change (ring_slot _ k) with (ring_slot s k).
    rewrite list_lookup_insert_ne; [done|]. intros H. apply ring_slot_inj in H; lia.
  - simpl. f_equal. rewrite Hslot. change (ring_slot (ring_put s e) n) with (ring_slot s n).
    rewrite list_lookup_insert_eq; [done|]. rewrite Hl. apply ring_slot_lt.
Qed.

Section Log.
Context {E : Env}.

(** The event [log_event] stores. *)
Definition event_of (σ : Sys) (level player : Z) (message : string) : fz_server_event :=
  mk_event (now_at (w_clock (wld σ))) (s_session (srv σ)) (s_race (srv σ)) level player
    (snprintf 512 message).

(** The server after [log_event], as ring operations. *)
Lemma log_event_srv level player message σ :
  logs (srv σ) level player = true ->
  srv (exec (log_event level player message) σ) =
    ring_put (if s_event_count (srv σ) =? 256
              then {| (ring_pop (srv σ)) with s_dropped_events := u64 (s_dropped_events (srv σ) + 1) |}
              else srv σ) (event_of σ level player message).
Proof.
  unfold logs. intros H. apply negb_true_iff in H. unfold log_event.
  rewrite exec_bind. change (eval get σ) with (srv σ). rewrite H.
  destruct σ as [s w]. simpl srv. destruct (s_event_count s =? 256); reflexivity.
Qed.

Lemma log_event_filtered level player message σ :
  logs (srv σ) level player = false -> exec (log_event level player message) σ = σ.
Proof.
  unfold logs. intros H. apply negb_false_iff in H. unfold log_event.
  rewrite exec_bind. change (eval get σ) with (srv σ). by rewrite H.
Qed.

Lemma log_event_ring_ok level player message :
  pres (fun σ => ring_ok (srv σ)) (log_event level player message).
Proof.
  intros σ R. destruct (logs (srv σ) level player) eqn:H.
  - rewrite log_event_srv by done. destruct (Z.eqb_spec (s_event_count (srv σ)) 256) as [Hf|Hf].
    + apply ring_put_ok; [by apply (ring_pop_ok (srv σ)); [|lia]|].
      change (u32 (s_event_count (srv σ) - 1) < 256). rewrite u32_pred; lia.
    + apply ring_put_ok; [done|]. destruct R as (_ & _ & ?). lia.
  - by rewrite log_event_filtered.
Qed.

Lemma log_event_queue level player message σ :
  ring_ok (srv σ) -> logs (srv σ) level player = true ->
  event_queue (srv (exec (log_event level player message) σ)) =
    queue_push (event_queue (srv σ)) (event_of σ level player message).
Proof.
  intros R H. rewrite log_event_srv by done. unfold queue_push. rewrite event_queue_length.
  destruct R as (Hl & Hh & Hc).
  destruct (Z.eqb_spec (s_event_count (srv σ)) 256) as [Hf|Hf].
  - rewrite Hf. simpl (_ =? _)%nat. set (s1 := {| (ring_pop (srv σ)) with s_dropped_events := _ |}).
    assert (ring_ok s1) as R1 by (apply (ring_pop_ok (srv σ)); [done|lia]).
    assert (s_event_count s1 < 256) as Hlt.
    { change (u32 (s_event_count (srv σ) - 1) < 256). rewrite u32_pred; lia. }
    rewrite event_queue_put by done. f_equal. rewrite (event_queue_pop (srv σ)) by (done || lia). done.
  - rewrite event_queue_put by (done || lia).
    destruct (Nat.eqb_spec (Z.to_nat (s_event_count (srv σ))) 256); [lia|done].
Qed.

(** ** No operation breaks the ring *)

Definition ringσ (σ : Sys) : Prop := ring_ok (srv σ).

Lemma upd_ringσ f : (forall s, ring_ok s -> ring_ok (f s)) -> pres ringσ (upd f).
Proof. intros H σ R. by apply H. Qed.

Lemma upd_player_ringσ i f : pres ringσ (upd_player i f).
Proof. by intros σ R. Qed.

Lemma updw_ringσ f : pres ringσ (updw f).
Proof. by intros σ R. Qed.

Lemma get_ringσ : pres ringσ get.
Proof. by intros σ R. Qed.

#[local] Hint Resolve upd_player_ringσ updw_ringσ get_ringσ : pres.
#[local] Hint Extern 2 (pres ringσ (upd _)) =>
  apply upd_ringσ; let s := fresh in intros s ?; cbv beta; try case_if; assumption : pres.

Lemma log_event_ringσ level player message : pres ringσ (log_event level player message).
Proof. apply log_event_ring_ok. Qed.

Lemma now_us_ringσ : pres ringσ now_us.
Proof. unfold now_us. auto 10 with pres. Qed.

Lemma random_id_ringσ : pres ringσ random_id.
Proof. unfold random_id. auto 10 with pres. Qed.

#[local] Hint Resolve log_event_ringσ now_us_ringσ random_id_ringσ : pres.

Lemma transmit_ringσ a p : pres ringσ (transmit a p).
Proof. unfold transmit. destruct (fz_encode _ _ _). auto 10 with pres. Qed.

#[local] Hint Resolve transmit_ringσ : pres.

Lemma send_player_ringσ i p : pres ringσ (send_player i p).
Proof. unfold send_player. auto 10 with pres. Qed.

Lemma phase_ringσ v : pres ringσ (phase v).
Proof. unfold phase. auto 10 with pres. Qed.

#[local] Hint Resolve send_player_ringσ phase_ringσ : pres.

Lemma snapshot_ringσ : pres ringσ snapshot.
Proof. unfold snapshot. auto 20 with pres. Qed.

Lemma begin_lobby_ringσ : pres ringσ begin_lobby.
Proof. unfold begin_lobby. auto 20 with pres. Qed.

#[local] Hint Resolve snapshot_ringσ begin_lobby_ringσ : pres.

Lemma drop_player_ringσ i r : pres ringσ (drop_player i r).
Proof. unfold drop_player. auto 30 with pres. Qed.

#[local] Hint Resolve drop_player_ringσ : pres.

Lemma advance_ringσ now : pres ringσ (advance now).
Proof. unfold advance. auto 40 with pres. Qed.

Lemma join_error_ringσ a n r : pres ringσ (join_error a n r).
Proof. unfold join_error, reject. auto 20 with pres. Qed.

Lemma welcome_ringσ i : pres ringσ (welcome i).
Proof. unfold welcome. auto 20 with pres. Qed.

#[local] Hint Resolve advance_ringσ join_error_ringσ welcome_ringσ : pres.

Lemma receive_hello_ringσ p a : pres ringσ (receive_hello p a).
Proof. unfold receive_hello, reject. auto 60 with pres. Qed.

Lemma receive_state_ringσ p n i : pres ringσ (receive_state p n i).
Proof. unfold receive_state, reject, mark_stale. auto 30 with pres. Qed.

Lemma apply_command_ringσ p i : pres ringσ (apply_command p i).
Proof. unfold apply_command. auto 60 with pres. Qed.

#[local] Hint Resolve receive_hello_ringσ receive_state_ringσ apply_command_ringσ : pres.

Lemma receive_command_ringσ p i : pres ringσ (receive_command p i).
Proof. unfold receive_command, reject, mark_stale. auto 60 with pres. Qed.

#[local] Hint Resolve receive_command_ringσ : pres.

Lemma receive_packet_ringσ d n a : pres ringσ (receive_packet d n a).
Proof. unfold receive_packet, receive_player, reject, mark_stale. auto 60 with pres. Qed.

#[local] Hint Resolve receive_packet_ringσ : pres.

Lemma receive_loop_ringσ n : pres ringσ (receive_loop n).
Proof. induction n; simpl; unfold recvfrom; auto 30 with pres. Qed.

#[local] Hint Resolve receive_loop_ringσ : pres.

Lemma fz_server_poll_ringσ wait : pres ringσ (fz_server_poll wait).
Proof. unfold fz_server_poll, poll_end, poll_socket, summarize_player. auto 60 with pres. Qed.

Lemma fz_server_close_ringσ : pres ringσ fz_server_close.
Proof. unfold fz_server_close. auto 30 with pres. Qed.

Lemma fz_server_next_event_queue σ :
  ringσ σ ->
  ringσ (exec fz_server_next_event σ) /\
  eval fz_server_next_event σ = hd_error (event_queue (srv σ)) /\
  event_queue (srv (exec fz_server_next_event σ)) = tail (event_queue (srv σ)).
Proof.
  intros R. unfold fz_server_next_event. rewrite exec_bind, eval_bind.
  change (eval get σ) with (srv σ). change (exec get σ) with σ.
  destruct (Z.eqb_spec (s_event_count (srv σ)) 0) as [Hz|Hz].
  - assert (event_queue (srv σ) = []) as Hq.
    { apply length_zero_iff_nil. rewrite event_queue_length. lia. }
    change (exec (ret None) σ) with σ. change (eval (ret None) σ) with (@None fz_server_event).
    by rewrite Hq.
  - destruct R as (Hl & Hh & Hc). rewrite (event_queue_pop (srv σ)) by (done || lia).
    split_and!; [|done|done]. apply (ring_pop_ok (srv σ)); [done|lia].
Qed.

Lemma run_call_ringσ c : pres ringσ (run_call c).
Proof.
  destruct c; simpl.
  - apply pres_bind; [apply fz_server_poll_ringσ|auto with pres].
  - unfold fz_server_get_status. auto 10 with pres.
  - apply pres_bind; [|auto with pres]. intros σ R. by apply fz_server_next_event_queue.
  - apply fz_server_close_ringσ.
Qed.

Lemma fz_server_create_ring c w s w' : fz_server_create (Some c) w = (inr s, w') -> ring_ok s.
Proof.
  destruct c as [[a|] [key|] port n t l ll tp o]; try (by intros [=]).
  unfold fz_server_create. repeat (case_if; [by intros [=]|]). intros Hcr.
  match type of Hcr with context [server_open ?c ?a ?k ?σ] =>
    assert (ring_ok (srv (exec (server_open c a k) σ))) as R end.
  { assert (forall c a k, pres ringσ (server_open c a k)) as P
      by (intros; unfold server_open; auto 40 with pres).
    apply P. by repeat split. }
  cbv zeta in Hcr. destruct (fst (server_open _ _ _ _)); [by discriminate Hcr|].
  injection Hcr as <- _. exact R.
Qed.

Lemma after_ring c w s w' l : fz_server_create (Some c) w = (inr s, w') -> ringσ (after s w' l).
Proof.
  intros H. unfold after. assert (pres ringσ (for_each l run_call)) as P.
  { apply pres_for_each. intros. apply run_call_ringσ. }
  apply P. by eapply fz_server_create_ring.
Qed.

(** C9. In every state of a created server the event ring implements a queue of
    at most 256 events: an event that passes the level and trace filters is
    appended, with the oldest forgotten when the queue is full and only then
    counted as dropped; one that does not leaves the state alone; and
    [fz_server_next_event] returns and removes the oldest. *)
Theorem event_log_refines_queue c w s w' calls level player message :
  fz_server_create (Some c) w = (inr s, w') ->
  let σ := after s w' calls in
  let q := event_queue (srv σ) in
  let τ := exec (log_event level player message) σ in
  (length q <= 256)%nat /\
  (if logs (srv σ) level player
   then event_queue (srv τ) = queue_push q (event_of σ level player message) /\
        s_dropped_events (srv τ) =
          (if (length q =? 256)%nat then u64 (s_dropped_events (srv σ) + 1)
           else s_dropped_events (srv σ))
   else τ = σ) /\
  eval fz_server_next_event σ = hd_error q /\
  event_queue (srv (exec fz_server_next_event σ)) = tail q.
Proof.
  intros H σ q τ. pose proof (after_ring _ _ _ _ calls H) as R. fold σ in R.
  pose proof (fz_server_next_event_queue σ R) as (_ & H1 & H2). unfold q. split_and!; try done.
  - rewrite event_queue_length. destruct R as (_ & _ & ?). lia.
  - destruct (logs _ _ _) eqn:Hl; [|by apply log_event_filtered]. split; [by apply log_event_queue|].
    unfold τ. rewrite log_event_srv by done. rewrite event_queue_length.
    destruct R as (_ & _ & ?). destruct (Z.eqb_spec (s_event_count (srv σ)) 256) as [->|Hf]; [done|].
    destruct (Nat.eqb_spec (Z.to_nat (s_event_count (srv σ))) 256); [lia|done].
Qed.

End Log.

Lemma event_log_refines_queue_witness :
  let σ := after (srv demo_sys) (wld demo_sys) [Poll 16] in
  eval fz_server_next_event σ = hd_error (event_queue (srv σ)) /\
  e_message <$> hd_error (event_queue (srv σ)) =
    Some "listening address=127.0.0.1 port=12000 players=2"%string.
Proof.
  split; [|vm_compute; reflexivity].
  apply (event_log_refines_queue demo_config world0 _ _ [Poll 16] 0 0 "").
  apply demo_created.
Defined.
