(* ===== verification/ServerProps.v ===== *)
(** * What each handler of the server does

    Functional theorems on every branch: the countdown barrier, the reliable
    command stream and movement packets. *)

From S2P Require Import Prelude State Double Text Protocol Server Room ServerCore ServerRefine Scenario ServerRun.

Local Open Scope Z_scope.
Local Open Scope fz_scope.

(** ** Definitions *)

(** The handling of one received datagram. *)
Definition deliver {E : Env} (data : bytes) (a : sockaddr_in) : M Sys unit :=
  receive_packet data (Z.of_nat (length data)) a.

(** Every participant was heard within the last five seconds. *)
Definition all_heard (now : Z) (l : list Player) : Prop :=
  forall i, (i < 4)%nat -> occupied (pl_at l i) = true -> u64 (now - p_seen (pl_at l i)) < 5000000.

(** The countdown rule: wait for every participant to arm the exact deadline,
    start when it is due, postpone it when somebody is late. *)
Definition countdown_rule (now : Z) (c : Core) : Core :=
  if all_armed (k_players c) (k_start c)
  then if now >=? k_start c
       then {| c with k_phase := FZ_RACING; k_players := racing_player <$> k_players c |} else c
  else if u64 (now + 500000) >=? k_start c
       then {| c with k_start := u64 (now + 2000000) |} else c.

(** The blocks of [advance], as functions of the core. *)
Definition k_timeout (now : Z) (c : Core) (i : nat) : Core :=
  if occupied (pl_at (k_players c) i) && (u64 (now - p_seen (pl_at (k_players c) i)) >=? 5000000)
  then k_drop i c else c.

Definition k_load (c : Core) : Core :=
  if (k_phase c =? FZ_LOBBY) && (pl_count (k_players c) =? k_expected c)
     && at_least (k_players c) FZ_SELECTED
  then {| c with k_phase := FZ_LOADING |} else c.

Definition k_countdown (now : Z) (c : Core) : Core :=
  if (k_phase c =? FZ_LOADING) && at_least (k_players c) FZ_PLAYER_LOADED
  then {| c with k_start := u64 (now + 2000000); k_phase := FZ_COUNTDOWN;
                 k_players := (fun p => {| p with p_armed := 0 |}) <$> k_players c |} else c.

Definition k_go (now : Z) (c : Core) : Core :=
  if k_phase c =? FZ_COUNTDOWN then countdown_rule now c else c.

Definition k_results (c : Core) : Core :=
  if (k_phase c =? FZ_RACING) && at_least (k_players c) FZ_FINISHED
  then {| c with k_phase := FZ_RESULTS |} else c.

Definition k_advance (now : Z) (c : Core) : Core :=
  let c := foldl (k_timeout now) c all4 in
  if k_closed c then c else k_results (k_go now (k_countdown now (k_load c))).

Lemma k_drop_length i c : length (k_players c) = 4%nat -> length (k_players (k_drop i c)) = 4%nat.
Proof.
  intros Hl. unfold k_drop, k_renew, k_free. repeat case_if; cbn;
    rewrite ?length_fmap, ?length_alter; done.
Qed.

Lemma k_timeout_length now c i :
  length (k_players c) = 4%nat -> length (k_players (k_timeout now c i)) = 4%nat.
Proof. intros Hl. unfold k_timeout. case_if; [by apply k_drop_length|done]. Qed.

Lemma k_timeouts_length now c l :
  length (k_players c) = 4%nat -> length (k_players (foldl (k_timeout now) c l)) = 4%nat.
Proof. revert c. induction l; intros c Hl; [done|]. by apply IHl, k_timeout_length. Qed.

(** A participant that remains keeps its identity and its place in the command
    stream. *)
Definition same_id (p p' : Player) : Prop :=
  occupied p' = true ->
  occupied p = true /\ p_address p' = p_address p /\ p_token p' = p_token p /\
  p_nonce p' = p_nonce p /\ p_command_seq p' = p_command_seq p.

Definition ids (c c' : Core) : Prop :=
  length (k_players c') = length (k_players c) /\
  forall i, same_id (pl_at (k_players c) i) (pl_at (k_players c') i).

(** What an accepted movement packet leaves in its sender's slot. *)
Definition moved (packet : fz_packet) (size t : Z) (p : Player) : Player :=
  {| p with p_state_seq := pk_seq packet; p_x := fz_u16 (pk_payload packet) 0;
            p_y := fz_u16 (pk_payload packet) 2; p_orientation := rd (pk_payload packet) 4;
            p_updated := t; p_seen := t; p_packets := u64 (p_packets p + 1);
            p_bytes := u64 (p_bytes p + size) |}.

(** The conditions under which it is accepted. *)
Definition movement_ok (s : Server) (packet : fz_packet) (i : nat) : bool :=
  (pk_race packet =? s_race s) && (pk_length packet =? 5) && (s_phase s =? FZ_RACING)
  && (p_status (player_at s i) =? FZ_PLAYER_RACING)
  && fz_newer (pk_seq packet) (p_state_seq (player_at s i)).

Section Props.
Context {E : Env}.

(** ** [advance] on the core *)

Lemma coreσ_load σ :
  coreσ (exec (let* s := get in
    when ((s_phase s =? FZ_LOBBY) && (count s =? s_expected s) && all_at_least s FZ_SELECTED)
      (phase FZ_LOADING)) σ) = k_load (coreσ σ).
Proof. rewrite exec_bind, exec_get, eval_get, coreσ_when, coreσ_phase. done. Qed.

Lemma coreσ_countdown now σ :
  length (k_players (coreσ σ)) = 4%nat ->
  coreσ (exec (let* s := get in
    when ((s_phase s =? FZ_LOADING) && all_at_least s FZ_PLAYER_LOADED)
      (start_countdown (u64 (now + 2000000)))) σ) = k_countdown now (coreσ σ).
Proof.
  intros Hl. by rewrite exec_bind, exec_get, eval_get, coreσ_when, coreσ_start_countdown.
Qed.

Lemma coreσ_postpone d msg σ :
  coreσ (exec (upd (fun s => {| s with s_start := d |}) ;; log_event 2 (-1) msg) σ) =
    {| (coreσ σ) with k_start := d |}.
Proof. by rewrite exec_bind, log_event_keeps, coreσ_set_start. Qed.

Lemma coreσ_go now σ :
  length (k_players (coreσ σ)) = 4%nat ->
  coreσ (exec (let* s := get in
    when (s_phase s =? FZ_COUNTDOWN)
      (let all := forallb (fun i => negb (occupied (player_at s i)
                                          && negb (p_armed (player_at s i) =? s_start s))) all4 in
       if negb all && (u64 (now + 500000) >=? s_start s)
       then upd (fun s => {| s with s_start := u64 (now + 2000000) |}) ;;
            log_event 2 (-1) "start_rescheduled waiting_for_ack=1"
       else when (all && (now >=? s_start s)) start_race)) σ) = k_go now (coreσ σ).
Proof.
  intros Hl. rewrite exec_bind, exec_get, eval_get, coreσ_when.
  change (forallb _ all4) with (all_armed (k_players (coreσ σ)) (k_start (coreσ σ))).
  change (s_start (srv σ)) with (k_start (coreσ σ)).
  change (s_phase (srv σ)) with (k_phase (coreσ σ)). unfold k_go, countdown_rule.
  destruct (k_phase (coreσ σ) =? FZ_COUNTDOWN); [|done].
  destruct (all_armed _ _); cbv zeta; cbn [negb andb].
  - rewrite coreσ_when, coreσ_start_race by done. done.
  - destruct (u64 (now + 500000) >=? k_start (coreσ σ)); [apply coreσ_postpone|done].
Qed.

Lemma coreσ_results σ :
  coreσ (exec (let* s := get in
    when ((s_phase s =? FZ_RACING) && all_at_least s FZ_FINISHED) (phase FZ_RESULTS)) σ) =
    k_results (coreσ σ).
Proof. rewrite exec_bind, exec_get, eval_get, coreσ_when, coreσ_phase. done. Qed.

Lemma coreσ_timeouts now l σ :
  length (k_players (coreσ σ)) = 4%nat ->
  coreσ (exec (for_each l (fun i =>
    let* s := get in
    when (occupied (player_at s i) && (u64 (now - p_seen (player_at s i)) >=? 5000000))
      (drop_player i "heartbeat_timeout"))) σ) = foldl (k_timeout now) (coreσ σ) l.
Proof.
  revert σ. induction l as [|i l IH]; intros σ Hl; [done|]. cbn [for_each foldl]. rewrite exec_bind.
  set (τ := exec _ σ).
  assert (coreσ τ = k_timeout now (coreσ σ) i) as Hτ.
  { unfold τ. rewrite exec_bind, exec_get, eval_get, coreσ_when, coreσ_drop_player by done. done. }
  clearbody τ. rewrite IH; rewrite Hτ; [done|]. by apply k_timeout_length.
Qed.

(** The whole of [advance] is a function of the core. *)
Lemma coreσ_advance now σ :
  length (k_players (coreσ σ)) = 4%nat ->
  coreσ (exec (advance now) σ) = k_advance now (coreσ σ).
Proof.
  intros Hl. unfold advance, k_advance. rewrite exec_bind.
  pose proof (coreσ_timeouts now all4 σ Hl) as Ht.
  pose proof (k_timeouts_length now (coreσ σ) all4 Hl) as Hlt. rewrite <- Ht in *.
  set (τ := exec _ σ) in *. clearbody τ. clear Ht Hl.
  rewrite exec_bind, exec_get, eval_get. change (s_closed (srv τ)) with (k_closed (coreσ τ)).
  destruct (k_closed (coreσ τ)); [done|]. rewrite exec_bind.
  pose proof (coreσ_load τ) as H1. rewrite exec_bind, exec_get, eval_get in H1.
  set (τ1 := exec _ τ) in *. clearbody τ1. rewrite <- H1.
  assert (length (k_players (coreσ τ1)) = 4%nat) as Hl1 by (rewrite H1; unfold k_load; by case_if).
  clear H1 Hlt τ. rewrite exec_bind, exec_get, eval_get, exec_bind.
  pose proof (coreσ_countdown now τ1 Hl1) as H1. rewrite exec_bind, exec_get, eval_get in H1.
  unfold start_countdown in H1. set (τ2 := exec _ τ1) in *. clearbody τ2. rewrite <- H1.
  assert (length (k_players (coreσ τ2)) = 4%nat) as Hl2.
  { rewrite H1. unfold k_countdown. case_if; [cbn; by rewrite length_fmap|done]. }
  clear H1 Hl1 τ1. rewrite exec_bind, exec_get, eval_get, exec_bind.
  pose proof (coreσ_go now τ2 Hl2) as H1. rewrite exec_bind, exec_get, eval_get in H1.
  unfold start_race in H1. set (τ3 := exec _ τ2) in *. clearbody τ3. rewrite <- H1.
  apply coreσ_results.
Qed.

(** ** The countdown *)

Lemma timeouts_idle now c l :
  all_heard now (k_players c) -> l ⊆ all4 -> foldl (k_timeout now) c l = c.
Proof.
  intros H. induction l as [|i l IH]; intros Hs; [done|]. cbn [foldl].
  replace (k_timeout now c i) with c; [apply IH; set_solver|]. unfold k_timeout.
  case_if; [|done]. assert (i < 4)%nat as Hi by (apply all4_lt; set_solver).
  pose proof (H i Hi H0). lia.
Qed.

Lemma racing_not_finished l i :
  length l = 4%nat -> (i < 4)%nat -> occupied (pl_at l i) = true ->
  at_least (racing_player <$> l) FZ_FINISHED = false.
Proof.
  intros Hl Hi Ho. unfold at_least. apply andb_false_iff. right. apply not_true_is_false. intros H.
  pose proof (forallb_all4 _ i H Hi) as Hf. cbv beta in Hf.
  assert (pl_at (racing_player <$> l) i = racing_player (pl_at l i)) as Hr.
  { unfold pl_at at 1. rewrite list_lookup_fmap, (pl_at_lookup l i) by done. done. }
  rewrite Hr in Hf. unfold racing_player in Hf. by rewrite Ho in Hf.
Qed.

Lemma good_busy c :
  good c -> k_closed c = false -> stage_of (k_phase c) <> Lobby ->
  exists i, (i < 4)%nat /\ occupied (pl_at (k_players c) i) = true.
Proof.
  intros [W I] Hc Hp. destruct (inv_busy _ I Hc Hp) as (i & st & Hi).
  destruct (seated_pl _ _ _ (wf_len _ W) Hi) as (Hlt & Ho & _). eauto.
Qed.

Lemma k_advance_countdown now c :
  good c -> k_closed c = false -> k_phase c = FZ_COUNTDOWN -> all_heard now (k_players c) ->
  k_advance now c = countdown_rule now c.
Proof.
  intros G Hc Hp Hh. unfold k_advance. rewrite timeouts_idle, Hc by done.
  replace (k_load c) with c by (unfold k_load; by rewrite Hp).
  replace (k_countdown now c) with c by (unfold k_countdown; by rewrite Hp).
  replace (k_go now c) with (countdown_rule now c) by (unfold k_go; by rewrite Hp).
  unfold k_results, countdown_rule.
  destruct (good_busy _ G Hc) as (i & Hi & Ho); [by rewrite Hp|].
  repeat case_if; cbn [k_phase k_players] in *; try done; try (rewrite Hp in *; done).
  pose proof (racing_not_finished _ i (wf_len _ (proj1 G)) Hi Ho). congruence.
Qed.

(** C4. In the countdown, with everybody heard recently, [advance] starts the
    race exactly when every participant has armed the current deadline and the
    deadline has come; if somebody has not armed half a second before it, the
    deadline moves two seconds ahead; otherwise nothing of the room changes. *)
Theorem advance_countdown now σ :
  good (coreσ σ) -> closedσ σ = false -> k_phase (coreσ σ) = FZ_COUNTDOWN ->
  all_heard now (k_players (coreσ σ)) ->
  coreσ (exec (advance now) σ) = countdown_rule now (coreσ σ).
Proof.
  intros G Hc Hp Hh. rewrite coreσ_advance by apply G. by apply k_advance_countdown.
Qed.

(** ** Packets nobody is authenticated for *)

Lemma authenticate_None s packet a :
  (forall i, (i < 4)%nat -> occupied (player_at s i) = true ->
     ~ (pk_session packet = s_session s /\ pk_token packet = p_token (player_at s i) /\
        a = p_address (player_at s i))) ->
  authenticate s packet a = None.
Proof.
  intros H. destruct (authenticate s packet a) as [i|] eqn:Ha; [|done]. exfalso.
  unfold authenticate, first_slot in Ha. apply find_some in Ha as [Hi Hf].
  assert (i < 4)%nat as Hlt by (simpl in Hi; lia). rewrite !andb_true_iff in Hf.
  destruct Hf as [[[Ho Hs] Ht] Hsa]. apply Z.eqb_eq in Hs, Ht. apply same_address_eq in Hsa.
  by apply (H i Hlt Ho).
Qed.

(** ** Packets of a participant *)

(** [receive_packet] on an authenticated packet. *)
Lemma receive_packet_player data size a packet i σ :
  fz_decode data size = Some packet -> pk_type packet <> FZ_HELLO -> s_closed (srv σ) = false ->
  authenticate (srv σ) packet a = Some i ->
  exec (receive_packet data size a) σ =
    exec (receive_player packet size i)
      (exec (upd (fun s => {| s with s_rx := u64 (s_rx s + 1) |})) σ).
Proof.
  intros Hd Ht Hc Ha. unfold receive_packet. rewrite Hd, exec_bind, exec_get, eval_get, Hc, exec_bind.
  destruct (Z.eqb_spec (pk_type packet) FZ_HELLO); [done|]. by rewrite Ha.
Qed.

Lemma receive_state_core packet size i σ :
  coreσ (exec (receive_state packet size i) σ) =
    if (pk_length packet =? 5) && (k_phase (coreσ σ) =? FZ_RACING)
       && (p_status (pl_at (k_players (coreσ σ)) i) =? FZ_PLAYER_RACING)
       && fz_newer (pk_seq packet) (p_state_seq (pl_at (k_players (coreσ σ)) i))
    then {| (coreσ σ) with k_players :=
              alter (moved packet size (now_at (w_clock (wld σ)))) i (k_players (coreσ σ)) |}
    else coreσ σ.
Proof.
  unfold receive_state. rewrite exec_bind, exec_get, eval_get, player_at_pl.
  change (s_phase (srv σ)) with (k_phase (coreσ σ)).
  change (core (srv σ)) with (coreσ σ).
  destruct (pk_length packet =? 5), (k_phase (coreσ σ) =? FZ_RACING),
    (p_status (pl_at (k_players (coreσ σ)) i) =? FZ_PLAYER_RACING);
    cbn [negb orb andb]; try apply reject_keeps.
  destruct (fz_newer _ _); cbn [negb]; [|apply mark_stale_keeps].
  rewrite !exec_bind, log_event_keeps, coreσ_upd_player, now_us_keeps, coreσ_upd_player.
  cbn [k_players]. rewrite list_alter_alter_eq. done.
Qed.

(** C6. A movement packet of a participant is applied exactly when it belongs to
    the running race, its sender is still racing and it is newer than the last
    one applied; it then changes its sender's slot only. Otherwise the room does
    not change: late, repeated and reordered packets have no effect, and a
    participant that has finished is never moved again. *)
Theorem movement_packet data a packet i σ :
  fz_decode data (Z.of_nat (length data)) = Some packet -> pk_type packet = FZ_STATE -> s_closed (srv σ) = false ->
  authenticate (srv σ) packet a = Some i ->
  coreσ (exec (deliver data a) σ) =
    if movement_ok (srv σ) packet i
    then {| (coreσ σ) with k_players :=
              alter (moved packet (Z.of_nat (length data)) (now_at (w_clock (wld σ)))) i (k_players (coreσ σ)) |}
    else coreσ σ.
Proof.
  intros Hd Ht Hc Ha. unfold deliver. rewrite (receive_packet_player _ _ _ _ _ _ Hd) by (done || by rewrite Ht).
  set (τ := exec (upd _) σ). unfold receive_player. rewrite exec_bind, exec_get, eval_get, Ht.
  cbn [Z.eqb FZ_STATE FZ_PONG FZ_PING Pos.eqb andb]. unfold movement_ok.
  change (s_race (srv τ)) with (s_race (srv σ)).
  destruct (pk_race packet =? s_race (srv σ)); cbn [negb andb]; [|exact (mark_stale_keeps τ)].
  apply (receive_state_core packet _ i τ).
Qed.

(** ** The reliable command stream *)

#[local] Instance same_id_refl : Reflexive same_id.
Proof. by intros p H. Qed.

#[local] Instance same_id_trans : Transitive same_id.
Proof.
  intros p q r H1 H2 H. destruct (H2 H) as (Hq & ? & ? & ? & ?).
  destruct (H1 Hq) as (? & ? & ? & ? & ?). split_and!; congruence.
Qed.

#[local] Instance ids_refl : Reflexive ids.
Proof. by intros c. Qed.

#[local] Instance ids_trans : Transitive ids.
Proof. intros c1 c2 c3 [L1 H1] [L2 H2]. split; [congruence|]. intros i. eapply same_id_trans; [apply H1|apply H2]. Qed.

(** Only the slots matter. *)
Lemma ids_players c c' : k_players c' = k_players c -> ids c c'.
Proof. intros H. split; rewrite H; [done|]. intros i. reflexivity. Qed.

Lemma ids_alter c c' f i :
  same_id (pl_at (k_players c) i) (f (pl_at (k_players c) i)) ->
  k_players c' = alter f i (k_players c) -> ids c c'.
Proof.
  intros Hf H. split; rewrite H; [apply length_alter|]. intros j. rewrite pl_at_alter.
  case_bool_decide as Hd; [destruct Hd as [<- _]; apply Hf|reflexivity].
Qed.

Lemma pl_at_fmap f (l : list Player) i :
  f player0 = player0 -> pl_at (f <$> l) i = f (pl_at l i).
Proof. intros H. unfold pl_at. rewrite list_lookup_fmap. by destruct (l !! i). Qed.

Lemma ids_fmap c c' f :
  f player0 = player0 -> (forall p, same_id p (f p)) -> k_players c' = f <$> k_players c -> ids c c'.
Proof.
  intros H0 Hf H. split; rewrite H; [apply length_fmap|]. intros j. rewrite pl_at_fmap by done. apply Hf.
Qed.

Lemma ids_begin_lobby c : ids c (k_begin_lobby c).
Proof.
  apply (ids_fmap _ _ lobby_player); [done| |done]. intros p. unfold same_id, lobby_player.
  destruct (occupied p) eqn:Ho; simpl; done.
Qed.

Lemma ids_free i c : ids c (k_free i c).
Proof. unfold k_free. case_if; [|reflexivity]. by eapply (ids_alter _ _ (fun _ => player0) i). Qed.

Lemma ids_renew c : ids c (k_renew c).
Proof.
  unfold k_renew. case_if; [|reflexivity]. etrans; [apply ids_begin_lobby|]. by apply ids_players.
Qed.

Lemma ids_drop i c : ids c (k_drop i c).
Proof.
  unfold k_drop. etrans; [apply (ids_alter c {| c with k_players := alter gone_player i (k_players c) |}
    gone_player i); [done|done]|].
  case_if; [by apply ids_players|]. etrans; [|apply ids_renew]. etrans; [|apply ids_free].
  by apply ids_players.
Qed.

Lemma ids_timeouts now c l : ids c (foldl (k_timeout now) c l).
Proof.
  revert c. induction l as [|i l IH]; intros c; [reflexivity|]. cbn [foldl]. etrans; [|apply IH].
  unfold k_timeout. case_if; [apply ids_drop|reflexivity].
Qed.

Lemma ids_load c : ids c (k_load c).
Proof. unfold k_load. case_if; [by apply ids_players|reflexivity]. Qed.

Lemma ids_countdown now c : ids c (k_countdown now c).
Proof.
  unfold k_countdown. case_if; [|reflexivity]. by apply (ids_fmap _ _ (fun p => {| p with p_armed := 0 |})).
Qed.

Lemma ids_go now c : ids c (k_go now c).
Proof.
  unfold k_go, countdown_rule. repeat case_if; try reflexivity; [|by apply ids_players].
  apply (ids_fmap _ _ racing_player); [done| |done]. intros p. unfold same_id, racing_player.
  destruct (occupied p) eqn:Ho; simpl; [done|]. congruence.
Qed.

Lemma ids_results c : ids c (k_results c).
Proof. unfold k_results. case_if; [by apply ids_players|reflexivity]. Qed.

Lemma ids_advance now c : ids c (k_advance now c).
Proof.
  unfold k_advance. pose proof (ids_timeouts now c all4) as H. case_if; [done|].
  etrans; [done|]. etrans; [apply ids_load|]. etrans; [apply ids_countdown|].
  etrans; [apply ids_go|]. apply ids_results.
Qed.

(** The consequences of an acknowledged command, then [advance]. *)
Lemma ids_keeps {A} (m : M Sys A) σ : keeps coreσ m -> ids (coreσ σ) (coreσ (exec m σ)).
Proof. intros K. by rewrite K. Qed.

Lemma consequences_ids cmd i reason σ :
  length (k_players (coreσ σ)) = 4%nat ->
  ids (coreσ σ) (coreσ (exec (when (cmd =? FZ_NEXT) begin_lobby ;;
                              when (cmd =? FZ_LEAVE) (drop_player i reason)) σ)).
Proof.
  intros Hl. rewrite exec_bind. destruct (Z.eqb_spec cmd FZ_NEXT) as [->|Hn].
  - cbn [when Z.eqb FZ_NEXT FZ_LEAVE Pos.eqb]. rewrite exec_skip, coreσ_begin_lobby by done.
    apply ids_begin_lobby.
  - change (exec (when false begin_lobby) σ) with σ. rewrite coreσ_when.
    destruct (cmd =? FZ_LEAVE); [|reflexivity]. rewrite coreσ_drop_player by done. apply ids_drop.
Qed.

Lemma ids_upd_player i f σ :
  sits (coreσ σ) i ->
  (forall p, p_address (f p) = p_address p /\ p_token (f p) = p_token p /\ p_nonce (f p) = p_nonce p /\
     p_command_seq (f p) = p_command_seq p) ->
  ids (coreσ σ) (coreσ (exec (upd_player i f) σ)).
Proof.
  intros [_ Ho] Hf. apply (ids_alter _ _ f i); [|done]. intros _. split; [done|apply Hf].
Qed.

Lemma apply_command_ids packet i σ :
  ready σ i -> ids (coreσ σ) (coreσ (exec (apply_command packet i) σ)).
Proof.
  intros [Hs Hc]. unfold apply_command. rewrite exec_bind, exec_get, eval_get.
  case_if; [|case_if; [|case_if; [|case_if; [|case_if; [|case_if; [|case_if]]]]]];
    try reflexivity; rewrite exec_bind, exec_ret, exec_when; case_if; try reflexivity.
  - by apply ids_upd_player.
  - rewrite !exec_bind. set (σ1 := exec (upd_player i _) σ).
    assert (ids (coreσ σ) (coreσ σ1)) as H1 by (by apply ids_upd_player).
    assert (sits (coreσ σ1) i) as S1 by (by apply sits_upd_player). clearbody σ1.
    etrans; [exact H1|]. rewrite <- (now_us_keeps σ1). apply ids_upd_player; [|done].
    by rewrite now_us_keeps.
  - by apply ids_upd_player.
  - by apply ids_upd_player.
  - by apply ids_players.
Qed.

Lemma fz_newer_next q : fz_newer (u32 (q + 1)) q = true.
Proof.
  unfold fz_newer. rewrite u32_add_sub. destruct (Z.eqb_spec (u32 (q + 1)) q) as [H|H]; [|done].
  pose proof (u32_add_sub q 1) as H1. rewrite H, Z.sub_diag in H1. by vm_compute in H1.
Qed.

Lemma fz_newer_irrefl q : fz_newer q q = false.
Proof. unfold fz_newer. by rewrite Z.eqb_refl. Qed.

(** An in-sequence command: the [switch], the acknowledgement, its consequences. *)
Lemma receive_command_next packet i σ :
  pk_type packet = FZ_COMMAND -> 1 <= pk_length packet ->
  pk_seq packet = u32 (p_command_seq (player_at (srv σ) i) + 1) ->
  length (k_players (coreσ σ)) = 4%nat -> ready σ i ->
  exists σ3,
    (exists t, coreσ σ3 =
      let c := coreσ (exec (apply_command packet i) σ) in
      {| c with k_players := alter (fun p => {| p with p_command_seq := pk_seq packet; p_seen := t |}) i
                               (k_players c) |}) /\
    ids (coreσ σ3) (coreσ (exec (receive_command packet i) σ)).
Proof.
  intros Ht Hlen Hseq Hl R. unfold receive_command. rewrite exec_bind, exec_get, eval_get, Ht, Hseq.
  rewrite fz_newer_next, Z.eqb_refl. destruct (Z.ltb_spec (pk_length packet) 1); [lia|].
  cbn [Z.eqb FZ_COMMAND Pos.eqb negb orb]. rewrite <- Hseq, Z.eqb_refl. cbn [negb].
  rewrite exec_bind. set (valid := eval (apply_command packet i) σ).
  set (σ1 := exec (apply_command packet i) σ).
  pose proof (apply_command_ids packet i σ R) as [L1 _]. fold σ1 in L1. rewrite exec_bind.
  set (t := eval now_us σ1). set (σ2 := exec now_us σ1).
  assert (coreσ σ2 = coreσ σ1) as E2 by apply now_us_keeps. rewrite exec_bind.
  set (σ3 := exec (upd_player i _) σ2). exists σ3. split.
  { exists t. unfold σ3. by rewrite coreσ_upd_player, E2. }
  assert (length (k_players (coreσ σ3)) = 4%nat) as L3.
  { unfold σ3. rewrite coreσ_upd_player, E2. cbn. rewrite length_alter. congruence. }
  clearbody valid σ1 σ2 σ3 t. rewrite exec_bind, exec_get, eval_get, !exec_bind, snapshot_keeps.
  match goal with |- ids _ (coreσ (exec (advance _) (exec now_us ?τ))) => set (σ4 := τ) end.
  assert (ids (coreσ σ3) (coreσ σ4)) as H4.
  { unfold σ4. destruct valid; cbn [negb].
    - rewrite exec_bind. rewrite exec_bind. rewrite exec_bind. etrans; [|apply consequences_ids].
      + rewrite !kept by auto with keeps. reflexivity.
      + rewrite !kept by auto with keeps. done.
    - apply ids_keeps. auto with keeps. }
  clearbody σ4. etrans; [exact H4|].
  rewrite coreσ_advance; rewrite now_us_keeps; [apply ids_advance|].
  destruct H4 as [-> _]. done.
Qed.

Lemma receive_command_ids packet i σ j :
  length (k_players (coreσ σ)) = 4%nat -> ready σ i ->
  pk_type packet = FZ_COMMAND -> 1 <= pk_length packet ->
  pk_seq packet = u32 (p_command_seq (player_at (srv σ) i) + 1) ->
  let τ := exec (receive_command packet i) σ in
  occupied (player_at (srv τ) j) = true ->
  occupied (player_at (srv σ) j) = true /\
  p_address (player_at (srv τ) j) = p_address (player_at (srv σ) j) /\
  p_token (player_at (srv τ) j) = p_token (player_at (srv σ) j) /\
  (j = i -> p_command_seq (player_at (srv τ) j) = pk_seq packet).
Proof.
  intros Hl R Ht Hlen Hseq τ Ho. rewrite !player_at_pl in *.
  destruct (receive_command_next packet i σ) as (σ3 & (t & E3) & [L4 I4]); try done.
  destruct (I4 j Ho) as (Ho3 & Ha & Hk & _ & Hq).
  change (core (srv τ)) with (coreσ (exec (receive_command packet i) σ)). rewrite Ha, Hk, Hq.
  destruct (apply_command_ids packet i σ R) as [L1 I1].
  set (f := fun p => {| p with p_command_seq := pk_seq packet; p_seen := t |}).
  assert (pl_at (k_players (coreσ σ3)) j = (if bool_decide (i = j)
    then f else id) (pl_at (k_players (coreσ (exec (apply_command packet i) σ))) j)) as Epl.
  { rewrite E3. cbv zeta. cbn [k_players]. rewrite pl_at_alter, L1, Hl. destruct R as [[Hi _] _].
    repeat case_bool_decide; try done; [by destruct H|]. exfalso. by apply H. }
  rewrite Epl in Ho3 |- *. assert (occupied (pl_at (k_players (coreσ (exec (apply_command packet i) σ))) j)
    = true) as Ho1 by (by case_bool_decide).
  destruct (I1 j Ho1) as (Hoσ & Haσ & Hkσ & _). split; [done|]. do 2 (split; [by case_bool_decide|]).
  intros ->. by rewrite bool_decide_true.
Qed.

Lemma authenticate_Some s packet a i :
  authenticate s packet a = Some i ->
  (i < 4)%nat /\ occupied (player_at s i) = true /\ p_address (player_at s i) = a.
Proof.
  intros H. unfold authenticate, first_slot in H. apply find_some in H as [Hi Hf].
  rewrite !andb_true_iff in Hf. destruct Hf as [[[Ho _] _] Hs]. apply same_address_eq in Hs.
  split_and!; [simpl in Hi; lia|done|done].
Qed.

(** An authenticated command. *)
Lemma receive_player_command packet size i σ :
  pk_type packet = FZ_COMMAND ->
  exec (receive_player packet size i) σ =
    if pk_race packet =? s_race (srv σ) then exec (receive_command packet i) σ
    else exec mark_stale σ.
Proof.
  intros Ht. unfold receive_player. rewrite exec_bind, exec_get, eval_get, Ht.
  cbn [Z.eqb FZ_STATE FZ_PONG FZ_PING FZ_COMMAND Pos.eqb andb].
  by destruct (pk_race packet =? s_race (srv σ)).
Qed.

Lemma command_idle packet i σ :
  pk_type packet = FZ_COMMAND -> pk_seq packet <> u32 (p_command_seq (player_at (srv σ) i) + 1) ->
  coreσ (exec (receive_command packet i) σ) = coreσ σ /\
  wld (exec (receive_command packet i) σ) = wld σ.
Proof.
  intros Ht Hs. unfold receive_command. rewrite exec_bind, exec_get, eval_get, Ht.
  cbn [Z.eqb FZ_COMMAND Pos.eqb negb orb]. apply Z.eqb_neq in Hs. rewrite Hs.
  cbn [negb]. destruct (pk_length packet <? 1); [by split|].
  destruct (fz_newer (pk_seq packet) _); by split.
Qed.

(** C8. A command out of sequence (a repetition, or one that follows a command
    not yet received) or of another generation leaves the room and the world as
    they are: nothing is applied and nothing is sent. *)
Theorem command_out_of_sequence data a packet i σ :
  fz_decode data (Z.of_nat (length data)) = Some packet -> pk_type packet = FZ_COMMAND -> s_closed (srv σ) = false ->
  authenticate (srv σ) packet a = Some i ->
  pk_race packet <> s_race (srv σ) \/
    pk_seq packet <> u32 (p_command_seq (player_at (srv σ) i) + 1) ->
  coreσ (exec (deliver data a) σ) = coreσ σ /\
  wld (exec (deliver data a) σ) = wld σ.
Proof.
  intros Hd Ht Hc Ha Hs. unfold deliver. rewrite (receive_packet_player _ _ _ _ _ _ Hd) by (done || by rewrite Ht).
  rewrite receive_player_command by done. set (τ := exec (upd _) σ).
  destruct (Z.eqb_spec (pk_race packet) (s_race (srv τ))) as [Hr|Hr]; [|done].
  destruct Hs as [Hs|Hs]; [done|]. exact (command_idle packet i τ Ht Hs).
Qed.

(** Repetitions of an applied command change nothing. *)
Lemma replay_idle data size a packet σ :
  room_inv (abs (coreσ σ)) -> length (k_players (coreσ σ)) = 4%nat ->
  fz_decode data size = Some packet -> pk_type packet = FZ_COMMAND ->
  (forall j, (j < 4)%nat -> occupied (player_at (srv σ) j) = true ->
     p_address (player_at (srv σ) j) = a -> p_command_seq (player_at (srv σ) j) = pk_seq packet) ->
  coreσ (exec (receive_packet data size a) σ) = coreσ σ.
Proof.
  intros I Hl Hd Ht Hs. destruct (s_closed (srv σ)) eqn:Hc.
  { unfold receive_packet. rewrite Hd, exec_bind, exec_get, eval_get, Hc. done. }
  destruct (authenticate (srv σ) packet a) as [j|] eqn:Ha.
  - rewrite (receive_packet_player _ _ _ _ _ _ Hd) by (done || by rewrite Ht).
    rewrite receive_player_command by done. case_if; [|done].
    destruct (authenticate_Some _ _ _ _ Ha) as (Hj & Ho & Haj).
    unfold receive_command. rewrite exec_bind, exec_get, eval_get, Ht.
    change (player_at (srv (exec _ σ)) j) with (player_at (srv σ) j).
    rewrite (Hs j Hj Ho Haj), fz_newer_irrefl. cbn [Z.eqb FZ_COMMAND Pos.eqb negb orb].
    case_if; done.
  - unfold receive_packet. rewrite Hd, exec_bind, exec_get, eval_get, Hc, exec_bind, Ht, Ha. done.
Qed.

(** C3. The next command of a participant's stream is acknowledged with its
    sequence number, and however often the datagram that carried it is
    delivered again the room stays as its first delivery left it: commands are
    applied in order, each at most once. *)
Theorem command_applied_once data a packet i n σ :
  good (coreσ σ) -> fz_decode data (Z.of_nat (length data)) = Some packet -> pk_type packet = FZ_COMMAND ->
  s_closed (srv σ) = false -> authenticate (srv σ) packet a = Some i ->
  pk_race packet = s_race (srv σ) -> 1 <= pk_length packet -> all_bytes data ->
  pk_seq packet = u32 (p_command_seq (player_at (srv σ) i) + 1) ->
  let τ := exec (deliver data a) σ in
  (occupied (player_at (srv τ) i) = true ->
     p_command_seq (player_at (srv τ) i) = pk_seq packet) /\
  coreσ (exec (for_each (replicate n tt) (fun _ => deliver data a)) τ) = coreσ τ.
Proof.
  intros G Hd Ht Hc Ha Hr Hlen Hb Hs τ.
  assert (good (coreσ τ)) as Gτ by (eapply moves_good; [by apply receive_packet_moves|done]).
  destruct (authenticate_Some _ _ _ _ Ha) as (Hi & Ho & Hai).
  assert (forall j, occupied (player_at (srv τ) j) = true ->
    occupied (player_at (srv σ) j) = true /\
    p_address (player_at (srv τ) j) = p_address (player_at (srv σ) j) /\
    (j = i -> p_command_seq (player_at (srv τ) j) = pk_seq packet)) as Hids.
  { intros j. unfold τ, deliver.
    rewrite (receive_packet_player _ _ _ _ _ _ Hd) by (done || by rewrite Ht).
    rewrite receive_player_command by done. set (σ0 := exec (upd _) σ).
    rewrite (proj2 (Z.eqb_eq _ _) Hr : (pk_race packet =? s_race (srv σ0)) = true).
    intros Hj. destruct (receive_command_ids packet i σ0 j) as (I1 & I2 & _ & I4); try done. apply G. }
  split; [intros H; by apply Hids|].
  assert (forall m ρ, coreσ ρ = coreσ τ ->
    coreσ (exec (for_each (replicate m tt) (fun _ => deliver data a)) ρ) = coreσ τ) as Hrep; [|by apply Hrep].
  induction m as [|m IH]; intros ρ Hρ; [done|]. cbn [replicate for_each]. rewrite exec_bind. apply IH.
  rewrite <- Hρ. assert (forall j, player_at (srv ρ) j = player_at (srv τ) j) as Hp.
  { intros j. rewrite !player_at_pl. change (core (srv ρ)) with (coreσ ρ). by rewrite Hρ. }
  apply (replay_idle data _ a packet); try done; rewrite ?Hρ; try apply Gτ.
  intros j Hj. rewrite Hp. intros Hoj Haj. destruct (Hids j Hoj) as (Hoσ & Haσ & Hq). apply Hq.
  destruct (good_server_ok _ G) as [_ _ _ _ Hend _ _ _ _]. apply (Hend j i); try done.
  apply same_address_eq. congruence.
Qed.

End Props.

(** ** Concrete runs *)

(** The scenario after [n] polls. *)
Definition demo_after (n : nat) : Sys := after (srv demo_sys) (wld demo_sys) (replicate n (Poll 16)).

Lemma demo_after_good n : good (coreσ (demo_after n)).
Proof. apply (after_good demo_config world0); [apply demo_config_wf|apply demo_created]. Qed.

Lemma demo_sys_good : good (coreσ demo_sys).
Proof. exact (proj1 (fz_server_create_inv _ _ _ _ demo_created demo_config_wf)). Qed.

(** Four slots, one by one. *)
Ltac slots i := destruct i as [|[|[|[|i]]]]; [..|lia].

Lemma advance_countdown_witness :
  coreσ (exec (advance demo_start) (demo_after 2)) = countdown_rule demo_start (coreσ (demo_after 2)) /\
  k_phase (coreσ (demo_after 2)) = FZ_COUNTDOWN /\
  k_phase (countdown_rule demo_start (coreσ (demo_after 2))) = FZ_RACING.
Proof.
  split; [|by vm_compute]. apply advance_countdown.
  - apply demo_after_good.
  - by vm_compute.
  - by vm_compute.
  - intros i Hi _. slots i; by vm_compute.
Defined.

Definition carol : sockaddr_in := mk_sockaddr 769 16777343.

Definition alice_moves : fz_packet := player_packet FZ_STATE 101 1 [3; 0; 4; 0; 5].

Lemma movement_packet_witness :
  let σ := demo_after 3 in
  movement_ok (srv σ) alice_moves 0 = true /\
  coreσ (exec (deliver (datagram alice_moves) alice) σ) =
    {| (coreσ σ) with k_players :=
         alter (moved alice_moves 41 (now_at (w_clock (wld σ)))) 0%nat (k_players (coreσ σ)) |}.
Proof.
  split; [by vm_compute|].
  rewrite (movement_packet (datagram alice_moves) alice alice_moves 0 (demo_after 3)); by vm_compute.
Defined.

Definition alice_arms : fz_packet :=
  player_packet FZ_COMMAND 101 3 (FZ_ARM :: le64 demo_start).

(** The second command again, after it was applied. *)
Lemma command_out_of_sequence_witness :
  let again := player_packet FZ_COMMAND 101 2 [FZ_LOADED; 0; 1; 0; 2; 9] in
  coreσ (exec (deliver (datagram again) alice) (demo_after 1)) = coreσ (demo_after 1).
Proof.
  apply (command_out_of_sequence _ _ (player_packet FZ_COMMAND 101 2 [FZ_LOADED; 0; 1; 0; 2; 9]) 0);
    try (by vm_compute). right. by vm_compute.
Defined.

Lemma command_applied_once_witness :
  let τ := exec (deliver (datagram alice_arms) alice) (demo_after 1) in
  p_command_seq (player_at (srv τ) 0) = 3 /\
  coreσ (exec (for_each (replicate 5 tt) (fun _ => deliver (datagram alice_arms) alice)) τ) = coreσ τ.
Proof.
  split; [by vm_compute|].
  apply (command_applied_once _ _ alice_arms 0 5 (demo_after 1)); try (by vm_compute).
  - apply demo_after_good.
  - apply (bool_decide_unpack _). by vm_compute.
Defined.
