(* ===== verification/Commands.v ===== *)
(** * What a command does to the room, and the order of the phases

    [k_command] is the table of the reliable commands as a pure function: when
    a command is accepted, the fields it sets, the acknowledgement, its
    consequences and the rules [k_advance] applies afterwards. The server does
    exactly this with the next command of a participant's stream. From it
    follows how far one datagram, one tick and one poll can take the phase. *)

From S2P Require Import Prelude State Double Text Protocol Server Room ServerCore ServerRefine Scenario ServerRun ServerProps.

Local Open Scope Z_scope.
Local Open Scope fz_scope.

(** Walk through an operation of the server, unfolding what it is made of. *)
Ltac through :=
  lazymatch goal with
  | |- keeps _ (bind _ _) => apply keeps_bind; [|intros ?]; through
  | |- keeps _ (when _ _) => apply keeps_when; through
  | |- keeps _ (for_each _ _) => apply keeps_for_each; intros ?; through
  | |- keeps _ (if _ then _ else _) => apply keeps_if; through
  | |- keeps _ (match ?x with _ => _ end) => destruct x; through
  | |- keeps _ (ret _) => apply keeps_ret
  | |- keeps _ skip => apply keeps_skip
  | |- keeps _ get => intros ?; reflexivity
  | |- keeps _ (gets _) => intros ?; reflexivity
  | |- keeps _ (upd _) => intros ?; first [reflexivity|cbv [upd exec modify snd]; case_match; reflexivity]
  | |- keeps _ (updw _) => intros ?; reflexivity
  | |- keeps _ (upd_player _ _) => intros ?; reflexivity
  | |- keeps _ (modify _) => intros ?; reflexivity
  | |- keeps _ ?m => let h := get_head m in unfold h; cbv zeta; through
  end.

(** ** The table of commands *)

(** The command is accepted from the participant in slot [i]. *)
Definition command_ok (p : fz_packet) (i : nat) (c : Core) : bool :=
  let b := pk_payload p in
  let n := pk_length p in
  let cmd := rd b 0 in
  if cmd =? FZ_SELECT then (n =? 2) && (rd b 1 <? 4) && (k_phase c =? FZ_LOBBY)
  else if cmd =? FZ_LOADED then (n =? 6) && (k_phase c =? FZ_LOADING)
  else if cmd =? FZ_ARM then (n =? 9) && (k_phase c =? FZ_COUNTDOWN) && (fz_u64 b 1 =? k_start c)
  else if cmd =? FZ_FINISH then
    (n =? 1) && (k_phase c =? FZ_RACING) && (p_status (pl_at (k_players c) i) =? FZ_PLAYER_RACING)
  else if cmd =? FZ_NEXT then
    (n =? 1) && (Z.of_nat i =? k_host c) && ((k_phase c =? FZ_RESULTS) || (k_phase c =? FZ_LOBBY))
  else if cmd =? FZ_CONFIG then
    (n =? 4) && (Z.of_nat i =? k_host c) && (k_phase c =? FZ_LOBBY) && (rd b 1 >=? 2) && (rd b 1 <=? 4)
    && (rd b 1 >=? pl_count (k_players c)) && (rd b 2 <? 5) && (rd b 3 <? 3)
  else if cmd =? FZ_LEAVE then n =? 1
  else false.

Definition k_set (i : nat) (f : Player -> Player) (c : Core) : Core :=
  {| c with k_players := alter f i (k_players c) |}.

(** The fields an accepted command sets, at time [t]. *)
Definition command_set (p : fz_packet) (i : nat) (t : Z) (c : Core) : Core :=
  let b := pk_payload p in
  let cmd := rd b 0 in
  if cmd =? FZ_SELECT then k_set i (fun q => {| q with p_car := rd b 1; p_status := FZ_SELECTED |}) c
  else if cmd =? FZ_LOADED then
    k_set i (fun q => {| q with p_x := fz_u16 b 1; p_y := fz_u16 b 3; p_orientation := rd b 5;
                                p_status := FZ_PLAYER_LOADED; p_updated := t |}) c
  else if cmd =? FZ_ARM then k_set i (fun q => {| q with p_armed := k_start c |}) c
  else if cmd =? FZ_FINISH then k_set i (fun q => {| q with p_status := FZ_FINISHED; p_x := 0; p_y := 0 |}) c
  else if cmd =? FZ_CONFIG then {| c with k_expected := rd b 1; k_track := rd b 2; k_league := rd b 3 |}
  else c.

(** The consequences of NEXT and LEAVE. *)
Definition command_end (p : fz_packet) (i : nat) (c : Core) : Core :=
  let cmd := rd (pk_payload p) 0 in
  if cmd =? FZ_NEXT then k_begin_lobby c else if cmd =? FZ_LEAVE then k_drop i c else c.

(** The room once the command was heard at [t2]. *)
Definition k_heard (p : fz_packet) (i : nat) (t1 t2 : Z) (c : Core) : Core :=
  k_set i (fun q => {| q with p_command_seq := pk_seq p; p_seen := t2 |})
    (if command_ok p i c then command_set p i t1 c else c).

Definition k_command (p : fz_packet) (i : nat) (t1 t2 t3 : Z) (c : Core) : Core :=
  let c' := k_heard p i t1 t2 c in
  k_advance t3 (if command_ok p i c then command_end p i c' else c').

Section Commands.
Context {E : Env}.

Lemma apply_command_ok packet i σ : eval (apply_command packet i) σ = command_ok packet i (coreσ σ).
Proof.
  unfold apply_command, command_ok. rewrite eval_bind, exec_get, eval_get.
  repeat (case_if; [by rewrite ?eval_bind, ?eval_ret|]). by rewrite eval_ret.
Qed.

Lemma apply_command_core packet i σ :
  exists t, coreσ (exec (apply_command packet i) σ) =
    if command_ok packet i (coreσ σ) then command_set packet i t (coreσ σ) else coreσ σ.
Proof.
  exists (eval now_us (exec (upd_player i (fun p => {| p with p_x := fz_u16 (pk_payload packet) 1;
    p_y := fz_u16 (pk_payload packet) 3; p_orientation := rd (pk_payload packet) 5; p_status := FZ_PLAYER_LOADED |})) σ)).
  unfold apply_command, command_ok, command_set. rewrite exec_bind, exec_get, eval_get. cbv zeta.
  destruct (rd (pk_payload packet) 0 =? FZ_SELECT); [rewrite exec_bind, exec_ret, coreσ_when; done|].
  destruct (rd (pk_payload packet) 0 =? FZ_LOADED).
  { rewrite exec_bind, exec_ret, coreσ_when. rewrite exec_bind, exec_bind.
    match goal with |- (if ?b then _ else _) = (if ?b' then _ else _) => change b' with b; destruct b; [|done] end.
    rewrite coreσ_upd_player, now_us_keeps, coreσ_upd_player. unfold k_set. cbn [k_players].
    f_equal. by rewrite list_alter_alter_eq. }
  destruct (rd (pk_payload packet) 0 =? FZ_ARM); [rewrite exec_bind, exec_ret, coreσ_when; done|].
  destruct (rd (pk_payload packet) 0 =? FZ_FINISH); [rewrite exec_bind, exec_ret, coreσ_when; done|].
  destruct (rd (pk_payload packet) 0 =? FZ_NEXT) eqn:Hn.
  { apply Z.eqb_eq in Hn. rewrite Hn, exec_ret. by case_if. }
  destruct (rd (pk_payload packet) 0 =? FZ_CONFIG); [rewrite exec_bind, exec_ret, coreσ_when; done|].
  destruct (rd (pk_payload packet) 0 =? FZ_LEAVE); rewrite exec_ret; [by case_if|done].
Qed.

Lemma k_heard_length p i t1 t2 c :
  length (k_players c) = 4%nat -> length (k_players (k_heard p i t1 t2 c)) = 4%nat.
Proof.
  intros Hl. unfold k_heard, command_set, k_set. cbn [k_players]. rewrite length_alter.
  repeat case_if; cbn [k_players]; rewrite ?length_alter; done.
Qed.

(** The consequences on the core. *)
Lemma consequences_core packet i reason σ :
  length (k_players (coreσ σ)) = 4%nat ->
  coreσ (exec (when (rd (pk_payload packet) 0 =? FZ_NEXT) begin_lobby ;;
               when (rd (pk_payload packet) 0 =? FZ_LEAVE) (drop_player i reason)) σ) =
    command_end packet i (coreσ σ).
Proof.
  intros Hl. unfold command_end. rewrite exec_bind, coreσ_when.
  destruct (Z.eqb_spec (rd (pk_payload packet) 0) FZ_NEXT) as [->|Hn].
  - cbn [when]. by rewrite coreσ_begin_lobby.
  - cbn [when]. rewrite exec_skip. case_if; [by apply coreσ_drop_player|done].
Qed.

(** The server and the table agree on the next command of a stream. *)
Lemma receive_command_core packet i σ :
  pk_type packet = FZ_COMMAND -> 1 <= pk_length packet ->
  pk_seq packet = u32 (p_command_seq (player_at (srv σ) i) + 1) ->
  length (k_players (coreσ σ)) = 4%nat ->
  exists t1 t2 t3, coreσ (exec (receive_command packet i) σ) = k_command packet i t1 t2 t3 (coreσ σ).
Proof.
  intros Ht Hlen Hseq Hl. unfold receive_command. rewrite exec_bind, exec_get, eval_get, Ht, Hseq.
  rewrite fz_newer_next, Z.eqb_refl. destruct (Z.ltb_spec (pk_length packet) 1); [lia|].
  cbn [Z.eqb FZ_COMMAND Pos.eqb negb orb]. rewrite <- Hseq, Z.eqb_refl. cbn [negb]. rewrite exec_bind.
  destruct (apply_command_core packet i σ) as [t1 E1]. rewrite apply_command_ok.
  set (valid := command_ok packet i (coreσ σ)) in *. set (σ1 := exec (apply_command packet i) σ) in *.
  rewrite exec_bind. set (t2 := eval now_us σ1). set (σ2 := exec now_us σ1).
  assert (coreσ σ2 = coreσ σ1) as E2 by apply now_us_keeps. rewrite exec_bind.
  set (σ3 := exec (upd_player i _) σ2).
  assert (coreσ σ3 = k_heard packet i t1 t2 (coreσ σ)) as E3.
  { unfold σ3. rewrite coreσ_upd_player, E2, E1. done. }
  pose proof (k_heard_length packet i t1 t2 _ Hl) as L3. rewrite <- E3 in L3.
  clearbody σ1 σ2 σ3 t2. rewrite exec_bind, exec_get, eval_get, !exec_bind, snapshot_keeps.
  match goal with |- context [coreσ (exec (advance (eval now_us ?τ)) (exec now_us ?τ))] => set (σ4 := τ) end.
  assert (coreσ σ4 = if valid then command_end packet i (coreσ σ3) else coreσ σ3) as E4.
  { unfold σ4. destruct valid; cbn [negb].
    - rewrite exec_bind, exec_bind, exec_bind, consequences_core; rewrite !kept by auto with keeps; done.
    - rewrite !kept by auto with keeps. done. }
  clearbody σ4. exists t1, t2, (eval now_us σ4). unfold k_command. fold valid. rewrite <- E3, <- E4.
  rewrite coreσ_advance; rewrite now_us_keeps; [done|]. rewrite E4. unfold command_end, k_begin_lobby.
  repeat case_if; cbn [k_players]; rewrite ?length_fmap; try done. by apply k_drop_length.
Qed.

End Commands.

(** ** The order of the phases *)

(** How one datagram or one tick may change phase and generation: not at all,
    to the next phase, or to the lobby of at most [n] generations later. A
    deadline is two seconds ahead; if it wraps around to the very value 0 that
    slots start with, everyone counts as armed and the countdown is skipped. *)
Inductive phase_step (n : Z) (c c' : Core) : Prop :=
| phase_stays : k_race c' = k_race c -> k_phase c' = k_phase c -> phase_step n c c'
| phase_next : k_race c' = k_race c -> k_phase c' = k_phase c + 1 -> phase_step n c c'
| phase_wrapped : k_race c' = k_race c -> k_phase c = FZ_LOADING -> k_phase c' = FZ_RACING -> k_start c' = 0 ->
    phase_step n c c'
| phase_renewed k : 1 <= k <= n -> k_race c' = u32 (k_race c + k) -> k_phase c' = FZ_LOBBY -> phase_step n c c'.

(** The participants' statuses fit the phase. *)
Definition paced (c : Core) : Prop :=
  length (k_players c) = 4%nat /\
  forall i, occupied (pl_at (k_players c) i) = true -> status_in (k_phase c) (p_status (pl_at (k_players c) i)) = true.

Definition nobody (c : Core) : Prop := forall i, occupied (pl_at (k_players c) i) = false.

Lemma pl_at_out l i : length l = 4%nat -> (4 <= i)%nat -> pl_at l i = player0.
Proof. intros Hl Hi. unfold pl_at. by rewrite lookup_ge_None_2 by lia. Qed.

Lemma good_paced c : good c -> paced c.
Proof.
  intros G. pose proof (wf_len _ (proj1 G)) as Hl. split; [done|]. intros i Ho.
  destruct (decide (i < 4)%nat) as [Hi|Hi]; [|by rewrite pl_at_out in Ho by (done || lia)].
  set (s := {| server0 with s_players := k_players c; s_phase := k_phase c; s_closed := k_closed c;
    s_owner_nonce := k_owner c; s_session := k_session c; s_start := k_start c; s_race := k_race c;
    s_expected := k_expected c; s_host := k_host c; s_track := k_track c; s_league := k_league c; s_key := k_key c |}).
  assert (core s = c) as Hc by (by destruct c).
  destruct (good_server_ok s) as [_ _ Hs _ _ _ _ _ _]; [by rewrite Hc|]. exact (Hs i Hi Ho).
Qed.

Lemma count_nobody c : length (k_players c) = 4%nat -> pl_count (k_players c) = 0 -> nobody c.
Proof.
  intros Hl Hc i. destruct (decide (4 <= i)%nat) as [Hi|Hi]; [by rewrite pl_at_out|].
  unfold pl_count in Hc. simpl in Hc.
  destruct (occupied (pl_at (k_players c) 0)) eqn:E0, (occupied (pl_at (k_players c) 1)) eqn:E1,
    (occupied (pl_at (k_players c) 2)) eqn:E2, (occupied (pl_at (k_players c) 3)) eqn:E3; simpl in Hc; try lia.
  by destruct i as [|[|[|[|i]]]]; try lia.
Qed.

(** Whoever is there has reached the status, and somebody is. *)
Lemma at_least_some c v :
  length (k_players c) = 4%nat -> at_least (k_players c) v = true ->
  exists i, (i < 4)%nat /\ occupied (pl_at (k_players c) i) = true /\ v <= p_status (pl_at (k_players c) i).
Proof.
  intros Hl H. unfold at_least in H. apply andb_true_iff in H as [Hc Hf]. apply negb_true_iff, Z.eqb_neq in Hc.
  assert (exists i, (i < 4)%nat /\ occupied (pl_at (k_players c) i) = true) as (i & Hi & Ho).
  { unfold pl_count in Hc. simpl in Hc.
    destruct (occupied (pl_at (k_players c) 0)) eqn:E0; [exists 0%nat; split; [lia|done]|].
    destruct (occupied (pl_at (k_players c) 1)) eqn:E1; [exists 1%nat; split; [lia|done]|].
    destruct (occupied (pl_at (k_players c) 2)) eqn:E2; [exists 2%nat; split; [lia|done]|].
    destruct (occupied (pl_at (k_players c) 3)) eqn:E3; [exists 3%nat; split; [lia|done]|]. done. }
  exists i. split_and!; [done|done|]. pose proof (forallb_all4 _ i Hf Hi) as Hx. cbv beta in Hx. rewrite Ho in Hx.
  cbn [andb] in Hx. apply negb_true_iff, Z.ltb_ge in Hx. done.
Qed.

Lemma nobody_waits c v : nobody c -> at_least (k_players c) v = false.
Proof.
  intros H. unfold at_least, pl_count. simpl. by rewrite !H.
Qed.

(** ** Dropping participants *)

(** A participant left: nothing else happens, or the room starts over. *)
Definition dropped (c c' : Core) : Prop :=
  paced c' /\
  ((k_race c' = k_race c /\ k_phase c' = k_phase c) \/
   (k_race c' = u32 (k_race c + 1) /\ k_phase c' = FZ_LOBBY /\ nobody c')).

Lemma paced_alter c c' i f :
  paced c -> (forall p, occupied (f p) = false) -> k_phase c' = k_phase c -> k_players c' = alter f i (k_players c) ->
  paced c'.
Proof.
  intros [Hl H] Hf Hp Hk. split; [by rewrite Hk, length_alter|]. intros j. rewrite Hk, Hp, pl_at_alter.
  case_bool_decide; [by rewrite Hf|apply H].
Qed.

Lemma paced_begin_lobby c : length (k_players c) = 4%nat -> paced (k_begin_lobby c).
Proof.
  intros Hl. split; [cbn; by rewrite length_fmap|]. intros i. cbn [k_begin_lobby k_players k_phase].
  rewrite pl_at_fmap by done. unfold lobby_player. by destruct (occupied (pl_at (k_players c) i)) eqn:Ho.
Qed.

Lemma k_renew_dropped c : paced c -> dropped c (k_renew c).
Proof.
  intros P. unfold k_renew. destruct (Z.eqb_spec (pl_count (k_players c)) 0) as [Hc|]; [|split; auto].
  split; [exact (paced_begin_lobby c (proj1 P))|]. right. split_and!; try done. intros i.
  cbn [k_begin_lobby k_players]. rewrite pl_at_fmap by done. unfold lobby_player.
  by rewrite (count_nobody c (proj1 P) Hc i).
Qed.

Lemma k_drop_dropped i c : paced c -> dropped c (k_drop i c).
Proof.
  intros P. unfold k_drop. set (c1 := {| c with k_players := alter gone_player i (k_players c) |}).
  assert (paced c1) as P1 by (by apply (paced_alter c c1 i gone_player)). cbv zeta. case_if.
  { split; [exact P1|by left]. }
  set (c2 := {| c1 with k_host := k_next_host i c1 |}). assert (paced (k_free i c2)) as P2.
  { unfold k_free. case_if; [|exact P1]. by apply (paced_alter c2 _ i (fun _ => player0)). }
  assert (k_race (k_free i c2) = k_race c /\ k_phase (k_free i c2) = k_phase c) as [E1 E2]
    by (unfold k_free; by case_if).
  destruct (k_renew_dropped _ P2) as [P3 H]. split; [done|]. by rewrite <- E1, <- E2.
Qed.

Lemma k_timeouts_dropped now l : forall c, paced c -> dropped c (foldl (k_timeout now) c l).
Proof.
  induction l as [|i l IH]; intros c P; cbn [foldl]; [split; auto|]. unfold k_timeout at 2.
  case_if; [|by apply IH]. destruct (k_drop_dropped i c P) as [P1 [[E1 E2] | (E1 & E2 & E3)]].
  - destruct (IH _ P1) as [P2 Hd]. split; [done|]. by rewrite E1, E2 in Hd.
  - assert (forall l c, nobody c -> foldl (k_timeout now) c l = c) as Hn.
    { clear. induction l as [|j l IH]; intros c Hc; cbn [foldl]; [done|]. unfold k_timeout at 2. rewrite Hc. by apply IH. }
    rewrite Hn by done. split; auto.
Qed.

(** ** The rules of a tick *)

(** In its phase nobody is further than the phase allows. *)
Lemma status_bound phase status :
  status_in phase status = true ->
  (phase = FZ_LOBBY -> status <= FZ_SELECTED) /\ (phase = FZ_LOADING -> status <= FZ_PLAYER_LOADED).
Proof. intros H. split; intros ->; cbn in H; apply orb_true_iff in H as [H|H]; breflect; subst; by vm_compute. Qed.

Lemma k_load_paced c :
  paced c -> k_load c = c \/ (k_phase c = FZ_LOBBY /\ k_load c = {| c with k_phase := FZ_LOADING |} /\
    ~ nobody c /\ forall v, FZ_SELECTED < v -> at_least (k_players c) v = false).
Proof.
  intros [Hl P]. unfold k_load. destruct (_ && _) eqn:Hb; [|by left]. right. breflect. split_and!; try done.
  { intros Hn. by rewrite (nobody_waits c _ Hn) in *. }
  intros v Hv. destruct (at_least (k_players c) v) eqn:Ha; [|done]. exfalso.
  destruct (at_least_some c v Hl Ha) as (i & _ & Ho & Hs).
  destruct (status_bound _ _ (P i Ho)) as [B _]. specialize (B ltac:(done)). lia.
Qed.

Lemma all_armed_zero c start :
  length (k_players c) = 4%nat -> at_least (k_players c) FZ_PLAYER_LOADED = true ->
  all_armed ((fun p => {| p with p_armed := 0 |}) <$> k_players c) start = true -> start = 0.
Proof.
  intros Hl Ha Hb. destruct (at_least_some c _ Hl Ha) as (i & Hi & Ho & _).
  pose proof (forallb_all4 _ i Hb Hi) as Hx. cbv beta in Hx. rewrite pl_at_fmap in Hx by done.
  change (occupied {| (pl_at (k_players c) i) with p_armed := 0 |}) with (occupied (pl_at (k_players c) i)) in Hx.
  rewrite Ho in Hx. cbn [andb p_armed] in Hx. rewrite negb_involutive in Hx. apply Z.eqb_eq in Hx. done.
Qed.

Lemma racing_unfinished c :
  length (k_players c) = 4%nat -> at_least (racing_player <$> k_players c) FZ_FINISHED = false.
Proof.
  intros Hl. destruct (at_least (racing_player <$> k_players c) FZ_FINISHED) eqn:Ha; [|done]. exfalso.
  set (c' := {| c with k_players := racing_player <$> k_players c |}).
  destruct (at_least_some c' FZ_FINISHED) as (i & _ & Ho & Hs); [cbn; by rewrite length_fmap|exact Ha|].
  cbn [c' k_players] in Ho, Hs. rewrite pl_at_fmap in Ho, Hs by done. unfold racing_player in Ho, Hs.
  destruct (occupied (pl_at (k_players c) i)) eqn:Hx; [by vm_compute in Hs|congruence].
Qed.

(** From the countdown on. *)
Lemma k_go_phase now c :
  length (k_players c) = 4%nat -> k_phase c = FZ_COUNTDOWN ->
  let c' := k_results (k_go now c) in
  k_race c' = k_race c /\
  (k_phase c' = FZ_COUNTDOWN \/ (k_phase c' = FZ_RACING /\ all_armed (k_players c) (k_start c) = true /\ k_start c' = k_start c)).
Proof.
  intros Hl Hp. unfold k_go. rewrite Hp. cbn [Z.eqb FZ_COUNTDOWN Pos.eqb]. unfold countdown_rule, k_results.
  destruct (all_armed (k_players c) (k_start c)) eqn:Ha.
  - destruct (now >=? k_start c); cbn [k_phase k_players k_race k_start].
    + rewrite racing_unfinished, andb_false_r by done. auto.
    + rewrite Hp. auto.
  - destruct (u64 (now + 500000) >=? k_start c); cbn [k_phase k_players]; rewrite Hp; auto.
Qed.

(** All rules together. *)
Lemma k_rules_phase now c :
  paced c ->
  let c' := k_results (k_go now (k_countdown now (k_load c))) in
  k_race c' = k_race c /\
  (k_phase c' = k_phase c \/ (k_phase c' = k_phase c + 1 /\ (k_phase c = FZ_LOBBY -> ~ nobody c)) \/
   (k_phase c = FZ_LOADING /\ k_phase c' = FZ_RACING /\ k_start c' = 0)).
Proof.
  intros P. pose proof P as [Hl Hst]. cbv zeta. destruct (k_load_paced c P) as [-> | (Hp & -> & Hn & Hv)].
  - unfold k_countdown. destruct ((k_phase c =? FZ_LOADING) && at_least (k_players c) FZ_PLAYER_LOADED) eqn:Hb.
    + apply andb_true_iff in Hb as [Hp%Z.eqb_eq Ha].
      set (c1 := {| c with k_start := _; k_phase := _; k_players := _ |}).
      destruct (k_go_phase now c1) as [H1 [H2 | (H2 & H3 & H4)]]; [cbn; by rewrite length_fmap|done| |];
        (split; [exact H1|]); right.
      * left. rewrite H2, Hp. done.
      * right. split_and!; [done|done|]. rewrite H4. exact (all_armed_zero c _ Hl Ha H3).
    + clear Hb. destruct (Z.eqb_spec (k_phase c) FZ_COUNTDOWN) as [Hp|Hp].
      * destruct (k_go_phase now c Hl Hp) as [H1 [H2 | (H2 & _)]]; (split; [exact H1|]); [left; congruence|].
        right. left. by rewrite H2, Hp.
      * unfold k_go. destruct (Z.eqb_spec (k_phase c) FZ_COUNTDOWN); [done|]. unfold k_results. case_if; [|auto].
        split; [done|]. right. left. breflect. cbn [k_phase]. by rewrite H.
  - unfold k_countdown, k_go, k_results. cbn [k_phase k_players]. rewrite Hv by done.
    cbn [Z.eqb FZ_LOADING FZ_COUNTDOWN FZ_RACING Pos.eqb andb k_phase k_race]. split; [done|]. right. left.
    split; [by rewrite Hp|done].
Qed.

(** What a datagram or a tick leaves. *)
Lemma k_advance_phase now c : paced c -> phase_step 1 c (k_advance now c).
Proof.
  intros P. unfold k_advance. destruct (k_timeouts_dropped now all4 c P) as [P1 D].
  set (c1 := foldl (k_timeout now) c all4) in *. clearbody c1. case_if.
  { destruct D as [[E1 E2] | (E1 & E2 & _)]; [by apply phase_stays|by apply (phase_renewed _ _ _ 1)]. }
  destruct (k_rules_phase now c1 P1) as [R1 R2]. destruct D as [[E1 E2] | (E1 & E2 & E3)].
  - destruct R2 as [R2 | [[R2 _] | (R2 & R3 & R4)]].
    + apply phase_stays; congruence.
    + apply phase_next; congruence.
    + apply phase_wrapped; congruence.
  - apply (phase_renewed _ _ _ 1); [done|congruence|].
    destruct R2 as [R2 | [[_ R2] | (R2 & _)]]; [congruence|by destruct R2|]. rewrite E2 in R2. done.
Qed.

(** ** Datagrams and polls *)

Section Order.
Context {E : Env}.

Lemma phase_step_keeps n {A} (m : M Sys A) σ : keeps coreσ m -> phase_step n (coreσ σ) (coreσ (exec m σ)).
Proof. intros K. rewrite K. by apply phase_stays. Qed.

(** A command that was heard leaves phase and generation to its consequences. *)
Lemma k_heard_phase p i t1 t2 c :
  k_race (k_heard p i t1 t2 c) = k_race c /\ k_phase (k_heard p i t1 t2 c) = k_phase c.
Proof. unfold k_heard, command_set, k_set. cbn [k_race k_phase]. by repeat case_if. Qed.

Lemma paced_set c i f :
  paced c ->
  (occupied (f (pl_at (k_players c) i)) = true ->
   status_in (k_phase c) (p_status (f (pl_at (k_players c) i))) = true) ->
  paced (k_set i f c).
Proof.
  intros [Hl H] Hs. split; [cbn; by rewrite length_alter|]. intros j. cbn [k_set k_players k_phase].
  rewrite pl_at_alter. case_bool_decide as Hd; [|apply H]. destruct Hd as [<- _]. exact Hs.
Qed.

Lemma paced_command p i t c : paced c -> command_ok p i c = true -> paced (command_set p i t c).
Proof.
  intros P. unfold command_ok, command_set. cbv zeta.
  destruct (rd (pk_payload p) 0 =? FZ_SELECT); [intros H; breflect; apply paced_set; [done|]; by rewrite H0|].
  destruct (rd (pk_payload p) 0 =? FZ_LOADED); [intros H; breflect; apply paced_set; [done|]; by rewrite H0|].
  destruct (rd (pk_payload p) 0 =? FZ_ARM); [intros _; apply paced_set; [done|apply P]|].
  destruct (rd (pk_payload p) 0 =? FZ_FINISH); [intros H; breflect; apply paced_set; [done|]; by rewrite H1|].
  destruct (rd (pk_payload p) 0 =? FZ_NEXT) eqn:Hn; [apply Z.eqb_eq in Hn; by rewrite Hn|].
  by destruct (rd (pk_payload p) 0 =? FZ_CONFIG).
Qed.

Lemma paced_heard p i t1 t2 c : paced c -> paced (k_heard p i t1 t2 c).
Proof.
  intros P. unfold k_heard. assert (paced (if command_ok p i c then command_set p i t1 c else c)) as P1
    by (destruct (command_ok p i c) eqn:Hc; [by apply paced_command|done]).
  apply paced_set; [done|]. cbn [p_status]. intros Ho. by apply P1.
Qed.

(** In a lobby just begun nobody has selected a machine. *)
Definition all_joined (c : Core) : Prop :=
  forall i, occupied (pl_at (k_players c) i) = true -> p_status (pl_at (k_players c) i) = FZ_JOINED.

Lemma joined_begin_lobby c : all_joined (k_begin_lobby c).
Proof.
  intros i. cbn [k_begin_lobby k_players]. rewrite pl_at_fmap by done. unfold lobby_player.
  by destruct (occupied (pl_at (k_players c) i)).
Qed.

Lemma joined_alter c c' i f :
  all_joined c -> (forall p, occupied (f p) = false) -> k_players c' = alter f i (k_players c) -> all_joined c'.
Proof. intros H Hf Hk j. rewrite Hk, pl_at_alter. case_bool_decide; [by rewrite Hf|apply H]. Qed.

Lemma joined_drop i c : all_joined c -> all_joined (k_drop i c).
Proof.
  intros H. unfold k_drop. set (c1 := {| c with k_players := alter gone_player i (k_players c) |}).
  assert (all_joined c1) as H1 by (by apply (joined_alter c c1 i gone_player)). cbv zeta. case_if; [exact H1|].
  set (c2 := {| c1 with k_host := k_next_host i c1 |}). unfold k_renew. case_if; [apply (joined_begin_lobby (k_free i c2))|].
  unfold k_free. case_if; [by apply (joined_alter c2 _ i (fun _ => player0))|exact H1].
Qed.

Lemma joined_timeouts now l : forall c, all_joined c -> all_joined (foldl (k_timeout now) c l).
Proof.
  induction l as [|i l IH]; intros c H; cbn [foldl]; [done|]. unfold k_timeout at 2.
  destruct (_ && _); [by apply IH, joined_drop|by apply IH].
Qed.

(** Such a lobby lasts through a tick. *)
Lemma k_advance_joined now c :
  paced c -> k_phase c = FZ_LOBBY -> all_joined c ->
  k_phase (k_advance now c) = FZ_LOBBY /\
  (k_race (k_advance now c) = k_race c \/ k_race (k_advance now c) = u32 (k_race c + 1)).
Proof.
  intros P Hp J. destruct (k_timeouts_dropped now all4 c P) as [P1 D]. pose proof (joined_timeouts now all4 c J) as J1.
  unfold k_advance. set (c1 := foldl (k_timeout now) c all4) in *. clearbody c1.
  assert (k_phase c1 = FZ_LOBBY) as Hp1 by (destruct D as [[_ D] | (_ & D & _)]; congruence).
  assert (k_race c1 = k_race c \/ k_race c1 = u32 (k_race c + 1)) as Hr1
    by (destruct D as [[D _] | (D & _)]; auto).
  case_if; [done|]. replace (k_load c1) with c1.
  - replace (k_countdown now c1) with c1 by (unfold k_countdown; by rewrite Hp1).
    replace (k_go now c1) with c1 by (unfold k_go; by rewrite Hp1).
    by replace (k_results c1) with c1 by (unfold k_results; by rewrite Hp1).
  - unfold k_load. destruct (at_least (k_players c1) FZ_SELECTED) eqn:Ha; [|by rewrite andb_false_r].
    exfalso. destruct (at_least_some c1 _ (proj1 P1) Ha) as (i & _ & Ho & Hs). rewrite (J1 i Ho) in Hs. by vm_compute in Hs.
Qed.

(** What a tick makes of a room that did not change, or has just started over. *)
Lemma advance_after now c c1 :
  paced c1 ->
  (k_race c1 = k_race c /\ k_phase c1 = k_phase c) \/
    (k_race c1 = u32 (k_race c + 1) /\ k_phase c1 = FZ_LOBBY /\ all_joined c1) ->
  phase_step 2 c (k_advance now c1).
Proof.
  intros P [[E1 E2] | (E1 & E2 & J)].
  - destruct (k_advance_phase now c1 P) as [A1 A2|A1 A2|A1 A2 A3 A4|k A1 A2 A3].
    + apply phase_stays; congruence.
    + apply phase_next; congruence.
    + apply phase_wrapped; congruence.
    + apply (phase_renewed _ _ _ k); [lia|congruence|done].
  - destruct (k_advance_joined now c1 P E2 J) as [A1 [A2|A2]].
    + apply (phase_renewed _ _ _ 1); [lia|congruence|done].
    + apply (phase_renewed _ _ _ 2); [lia| |done]. rewrite A2, E1. unfold u32. rewrite Zplus_mod_idemp_l. f_equal. lia.
Qed.

(** The next command of a stream. *)
Lemma k_command_phase p i t1 t2 t3 c : paced c -> phase_step 2 c (k_command p i t1 t2 t3 c).
Proof.
  intros P. unfold k_command. cbv zeta. pose proof (paced_heard p i t1 t2 c P) as P1.
  destruct (k_heard_phase p i t1 t2 c) as [E1 E2]. set (c1 := k_heard p i t1 t2 c) in *. clearbody c1.
  destruct (command_ok p i c); [|apply advance_after; auto]. unfold command_end.
  case_if; [|case_if; [|apply advance_after; auto]].
  - apply advance_after; [apply paced_begin_lobby, P1|]. right. rewrite <- E1. split_and!; try done. apply joined_begin_lobby.
  - destruct (k_drop_dropped i c1 P1) as [P2 D]. apply advance_after; [done|]. rewrite <- E1, <- E2.
    destruct D as [D | (D1 & D2 & D3)]; [by left|]. right. split_and!; try done. intros j Hj. by rewrite D3 in Hj.
Qed.

Definition phaseσ (σ : Sys) : Z * Z * Z := (s_race (srv σ), s_phase (srv σ), s_start (srv σ)).

Lemma phase_step_phaseσ n σ τ : phaseσ τ = phaseσ σ -> phase_step n (coreσ σ) (coreσ τ).
Proof. intros [= H1 H2 _]. by apply phase_stays. Qed.

Lemma receive_hello_phase packet a : keeps phaseσ (receive_hello packet a).
Proof. through. Qed.

Lemma send_player_phase i p : keeps phaseσ (send_player i p).
Proof. through. Qed.

Lemma receive_state_phase packet size i : keeps phaseσ (receive_state packet size i).
Proof. through. Qed.

(** A command: the next one of its stream, or one that is not applied. *)
Lemma receive_command_phase packet i σ :
  good (coreσ σ) -> phase_step 2 (coreσ σ) (coreσ (exec (receive_command packet i) σ)).
Proof.
  intros G. destruct (Z.eqb_spec (pk_type packet) FZ_COMMAND) as [Ht|Ht];
    [destruct (Z.ltb_spec (pk_length packet) 1) as [Hl|Hl];
     [|destruct (Z.eqb_spec (pk_seq packet) (u32 (p_command_seq (player_at (srv σ) i) + 1))) as [Hq|Hq]]|].
  2:{ destruct (receive_command_core packet i σ Ht Hl Hq (wf_len _ (proj1 G))) as (t1 & t2 & t3 & ->).
      by apply k_command_phase, good_paced. }
  all: apply phase_step_phaseσ; unfold receive_command; rewrite exec_bind, exec_get, eval_get.
  - rewrite (proj2 (Z.ltb_lt _ _) Hl), orb_true_r. done.
  - rewrite (proj2 (Z.eqb_neq _ _) Hq). cbn [negb]. by repeat case_if.
  - rewrite (proj2 (Z.eqb_neq _ _) Ht). done.
Qed.

(** Any datagram. *)
Lemma deliver_phase data a σ :
  good (coreσ σ) -> phase_step 2 (coreσ σ) (coreσ (exec (deliver data a) σ)).
Proof.
  intros G. unfold deliver, receive_packet.
  destruct (fz_decode data _) as [packet|] eqn:Hd; [|apply phase_step_keeps; case_if; auto with keeps].
  rewrite exec_bind, exec_get, eval_get. case_if; [by apply phase_stays|]. rewrite exec_bind.
  set (σ0 := exec (upd _) σ). assert (coreσ σ0 = coreσ σ) as E0 by done. rewrite <- E0 in *. clearbody σ0. clear E0.
  case_if; [apply phase_step_phaseσ, receive_hello_phase|].
  destruct (authenticate _ _ _) as [i|]; [|by apply phase_stays].
  unfold receive_player. rewrite exec_bind, exec_get, eval_get. cbv zeta. case_if; [by apply phase_stays|].
  case_if; [apply phase_step_phaseσ; clear; rewrite !exec_bind; by rewrite send_player_phase|].
  case_if; [by apply phase_stays|]. case_if; [apply phase_step_phaseσ, receive_state_phase|by apply receive_command_phase].
Qed.

(** A tick. *)
Lemma advance_phase now σ :
  good (coreσ σ) -> phase_step 1 (coreσ σ) (coreσ (exec (advance now) σ)).
Proof. intros G. rewrite coreσ_advance by apply G. by apply k_advance_phase, good_paced. Qed.

Lemma phase_step_le n m c c' : n <= m -> phase_step n c c' -> phase_step m c c'.
Proof.
  intros Hn [H1 H2|H1 H2|H1 H2 H3 H4|k H1 H2 H3]; [by apply phase_stays|by apply phase_next|by apply phase_wrapped|].
  apply (phase_renewed _ _ _ k); [lia|done|done].
Qed.

(** At most [n] such steps, one after the other. *)
Definition phase_steps (n : nat) (c c' : Core) : Prop := exists m, (m <= n)%nat /\ nsteps (phase_step 2) m c c'.

Lemma phase_steps_none n c c' : k_race c' = k_race c -> k_phase c' = k_phase c -> phase_steps (S n) c c'.
Proof. intros H1 H2. exists 1%nat. split; [lia|]. apply nsteps_once. by apply phase_stays. Qed.

Lemma phase_steps_trans n m c1 c2 c3 : phase_steps n c1 c2 -> phase_steps m c2 c3 -> phase_steps (n + m) c1 c3.
Proof. intros (a & Ha & H1) (b & Hb & H2). exists (a + b)%nat. split; [lia|]. by eapply nsteps_trans. Qed.

Lemma phase_steps_one n c c' : n <= 2 -> phase_step n c c' -> phase_steps 1 c c'.
Proof. intros Hn H. exists 1%nat. split; [done|]. apply nsteps_once. by eapply phase_step_le. Qed.

(** Few steps cannot count the generations around: either a new generation was
    started, or the phases went forward only. *)
Definition phases_within (n : Z) (c c' : Core) : Prop :=
  exists k, 0 <= k <= n /\ k_race c' = u32 (k_race c + k) /\ (k = 0 -> k_phase c <= k_phase c').

Lemma phase_step_within c c' : fits 32 (k_race c) -> phase_step 2 c c' -> phases_within 2 c c'.
Proof.
  intros F H. assert (k_race c = u32 (k_race c + 0)) as Hr by (by rewrite Z.add_0_r, u32_small).
  destruct H as [H1 H2|H1 H2|H1 H2 H3 H4|k H1 H2 H3];
    [exists 0; rewrite H1, H2; repeat split; (done || lia)..|exists 0|exists k; repeat split; (done || lia)].
  rewrite H1, H2, H3. repeat split; done.
Qed.

Lemma phases_within_trans n m c1 c2 c3 :
  phases_within n c1 c2 -> phases_within m c2 c3 -> phases_within (n + m) c1 c3.
Proof.
  intros (a & Ha & H1 & H2) (b & Hb & H3 & H4). exists (a + b). split; [lia|]. split; [|intros; lia].
  rewrite H3, H1. unfold u32. rewrite Zplus_mod_idemp_l. f_equal. lia.
Qed.

Lemma phase_steps_within n c c' :
  fits 32 (k_race c) -> phase_steps n c c' -> phases_within (2 * Z.of_nat n) c c'.
Proof.
  intros F (m & Hm & H).
  assert (phases_within (2 * Z.of_nat m) c c') as (k & Hk & H1 & H2); [|exists k; split_and!; (done || lia)].
  clear Hm. induction H as [c|m c1 c2 c3 H1 H2 IH].
  - exists 0. rewrite Z.add_0_r, u32_small by done. split_and!; (done || lia).
  - pose proof (phase_step_within _ _ F H1) as W. replace (2 * Z.of_nat (S m)) with (2 + 2 * Z.of_nat m) by lia.
    eapply phases_within_trans; [exact W|]. apply IH. destruct W as (k & _ & -> & _). apply fits_u32.
Qed.

(** Once the datagrams are read, a poll ticks at most once. *)
Lemma poll_end_phase σ : good (coreσ σ) -> phase_steps 1 (coreσ σ) (coreσ (exec poll_end σ)).
Proof.
  intros G. unfold poll_end. rewrite exec_bind, exec_bind, exec_get, eval_get.
  set (now := eval now_us σ). set (σ0 := exec now_us σ). assert (coreσ σ0 = coreσ σ) as E0 by done.
  rewrite <- E0 in *. clearbody now σ0. clear E0 σ. rewrite exec_bind. set (σ1 := exec (when _ _) σ0).
  assert (phase_step 1 (coreσ σ0) (coreσ σ1)) as H1.
  { unfold σ1, when. case_if; [|by apply phase_stays]. rewrite exec_bind.
    pose proof (advance_phase now σ0 G) as H. set (σ2 := exec (advance now) σ0) in *. clearbody σ2.
    rewrite kept; [done|]. unfold get. auto 10 with keeps. }
  clearbody σ1. apply (phase_steps_one 1); [done|].
  set (rest := fun s : Server => _). assert (forall s, keeps phaseσ (rest s)) as K by (intros s; unfold rest; through).
  clearbody rest. rewrite exec_bind, exec_get, eval_get. specialize (K (srv σ1) σ1).
  set (τ := exec (rest _) σ1) in *. clearbody τ. injection K as K1 K2 K3.
  destruct H1 as [A1 A2|A1 A2|A1 A2 A3 A4|k A1 A2 A3].
  - by apply phase_stays; [rewrite <- A1|rewrite <- A2].
  - by apply phase_next; [rewrite <- A1|rewrite <- A2].
  - apply phase_wrapped; [by rewrite <- A1|done|by rewrite <- A3|by rewrite <- A4].
  - by apply (phase_renewed _ _ _ k); [|rewrite <- A2|rewrite <- A3].
Qed.

(** The datagrams of one poll. *)
Lemma receive_loop_phase {L : EnvLaws E} n : forall σ,
  good (coreσ σ) -> phase_steps n (coreσ σ) (coreσ (exec (receive_loop n) σ)).
Proof.
  assert (forall m c, phase_steps m c c) as H0 by (intros m c; exists 0%nat; split; [lia|constructor]).
  induction n as [|n IH]; intros σ G; cbn [receive_loop]; [apply H0|].
  rewrite exec_bind, exec_get, eval_get. case_if; [apply H0|]. rewrite exec_bind.
  set (σ1 := exec recvfrom σ). assert (coreσ σ1 = coreσ σ) as E1 by done.
  destruct (eval recvfrom σ) as [data from|e] eqn:Hr.
  - apply recvfrom_data in Hr. rewrite <- E1 in *. clearbody σ1. rewrite exec_bind.
    pose proof (deliver_phase data from σ1 G) as H1. unfold deliver in H1.
    pose proof (moves_good _ _ (receive_packet_moves data (Z.of_nat (length data)) from σ1 Hr) G) as G2.
    set (σ2 := exec (receive_packet _ _ _) σ1) in *. clearbody σ2.
    apply (phase_steps_trans 1 n _ (coreσ σ2)); [by apply (phase_steps_one 2)|by apply IH].
  - rewrite <- E1. clearbody σ1. apply phase_steps_none; destruct e; try done; rewrite kept; auto with keeps.
Qed.

Lemma fz_server_poll_phase {L : EnvLaws E} wait σ :
  good (coreσ σ) -> phase_steps 129 (coreσ σ) (coreσ (exec (fz_server_poll wait) σ)).
Proof.
  intros G. unfold fz_server_poll. rewrite exec_bind, exec_get, eval_get. case_if; [by apply phase_steps_none|].
  rewrite exec_bind. set (σ1 := exec now_us σ). assert (coreσ σ1 = coreσ σ) as E1 by done. rewrite <- E1 in *.
  clearbody σ1. clear E1. rewrite exec_bind. set (timeout := poll_timeout _ _ _).
  set (σ2 := exec (poll_socket timeout) σ1). assert (coreσ σ2 = coreσ σ1) as E2 by done. rewrite <- E2 in *.
  clearbody σ2. destruct (_ && _); [apply phase_steps_none; rewrite kept; auto with keeps|].
  rewrite exec_bind. pose proof (receive_loop_phase 128 σ2 G) as H3.
  pose proof (moves_good _ _ (receive_loop_moves 128 σ2) G) as G3.
  set (failed := eval (receive_loop 128) σ2) in *. set (σ3 := exec (receive_loop 128) σ2) in *.
  clearbody failed σ3. apply (phase_steps_trans 128 1 _ (coreσ σ3)); [done|].
  destruct failed; [by apply phase_steps_none|by apply poll_end_phase].
Qed.

(** C5. The phases of a room follow one another. One tick of the clock leaves
    phase and generation alone, goes to the next phase (lobby, loading,
    countdown, racing, results), or starts the lobby of the next generation;
    the countdown is passed over only when the 64-bit deadline wraps around to
    0. One received datagram does no more than that, or starts a second
    generation. A poll is at most 129 such steps, so it starts at most 258
    generations, and when it starts none it never goes back to an earlier
    phase. *)
Theorem server_phase_order {L : EnvLaws E} σ :
  good (coreσ σ) ->
  (forall now, phase_step 1 (coreσ σ) (coreσ (exec (advance now) σ))) /\
  (forall data a, phase_step 2 (coreσ σ) (coreσ (exec (deliver data a) σ))) /\
  (forall wait, let c' := coreσ (exec (fz_server_poll wait) σ) in
     phase_steps 129 (coreσ σ) c' /\ phases_within 258 (coreσ σ) c').
Proof.
  intros G. split_and!.
  - intros now. by apply advance_phase.
  - intros data a. by apply deliver_phase.
  - intros wait. pose proof (fz_server_poll_phase wait σ G) as H. split; [exact H|].
    apply (phase_steps_within 129); [apply G|exact H].
Qed.

End Order.

(** In the scenario the third poll starts the race: the countdown's successor in
    the same generation. *)
Lemma server_phase_order_witness :
  let c := coreσ (demo_after 2) in
  let c' := coreσ (exec (fz_server_poll 16) (demo_after 2)) in
  phase_steps 129 c c' /\ phases_within 258 c c' /\ k_phase c = FZ_COUNTDOWN /\ k_phase c' = FZ_RACING.
Proof.
  destruct (server_phase_order (demo_after 2) (demo_after_good 2)) as (_ & _ & H).
  destruct (H 16) as [H1 H2]. split; [exact H1|]. split; [exact H2|]. split; vm_compute; reflexivity.
Defined.
