(* ===== verification/Poll.v ===== *)
(** * The bounds of one poll

    [fz_server_poll] promises its caller a bounded amount of waiting and of
    work, and an error event when it fails. *)

From S2P Require Import Prelude State Double Text Protocol Server ServerCore Scenario ServerRun Events ServerProps.

Local Open Scope Z_scope.
Local Open Scope fz_scope.

Section Poll.
Context {E : Env}.

(** The number of [poll] calls, their timeouts and the number of [recvfrom] calls
    so far, with the log level. *)
Definition io (σ : Sys) : nat * list Z * nat * Z :=
  (w_poll (wld σ), w_waits (wld σ), w_recv (wld σ), s_log_level (srv σ)).

Lemma upd_io f : (forall s, s_log_level (f s) = s_log_level s) -> keeps io (upd f).
Proof. intros H [s w]. unfold io. rewrite exec_upd. cbn [srv wld]. by rewrite H. Qed.

Lemma upd_player_io i f : keeps io (upd_player i f).
Proof. by intros σ. Qed.

Lemma get_io : keeps io get.
Proof. by intros σ. Qed.

Lemma now_us_io : keeps io now_us.
Proof. by intros σ. Qed.

Lemma random_id_io : keeps io random_id.
Proof. by intros σ. Qed.

#[local] Hint Resolve upd_player_io get_io now_us_io random_id_io : keeps.
#[local] Hint Extern 2 (keeps io (upd _)) =>
  apply upd_io; intros; cbv beta; try case_if; reflexivity : keeps.
#[local] Hint Extern 1 (keeps io (match ?x with _ => _ end)) => destruct x : keeps.

Lemma log_event_io level player message : keeps io (log_event level player message).
Proof. unfold log_event. auto 20 with keeps. Qed.

Lemma transmit_io a p : keeps io (transmit a p).
Proof.
  unfold transmit. destruct (fz_encode _ _ _). repeat (apply keeps_bind; [|intros ?]); auto with keeps.
Qed.

#[local] Hint Resolve log_event_io transmit_io : keeps.

Lemma send_player_io i p : keeps io (send_player i p).
Proof. unfold send_player. auto 10 with keeps. Qed.

Lemma phase_io v : keeps io (phase v).
Proof. unfold phase. auto 10 with keeps. Qed.

#[local] Hint Resolve send_player_io phase_io : keeps.

Lemma snapshot_io : keeps io snapshot.
Proof. unfold snapshot. auto 20 with keeps. Qed.

Lemma begin_lobby_io : keeps io begin_lobby.
Proof. unfold begin_lobby. auto 20 with keeps. Qed.

#[local] Hint Resolve snapshot_io begin_lobby_io : keeps.

Lemma drop_player_io i r : keeps io (drop_player i r).
Proof. unfold drop_player. auto 30 with keeps. Qed.

#[local] Hint Resolve drop_player_io : keeps.

Lemma advance_io now : keeps io (advance now).
Proof. unfold advance. auto 40 with keeps. Qed.

Lemma join_error_io a n r : keeps io (join_error a n r).
Proof. unfold join_error, reject. auto 20 with keeps. Qed.

Lemma welcome_io i : keeps io (welcome i).
Proof. unfold welcome. auto 20 with keeps. Qed.

#[local] Hint Resolve advance_io join_error_io welcome_io : keeps.

Lemma receive_hello_io p a : keeps io (receive_hello p a).
Proof. unfold receive_hello, reject. auto 60 with keeps. Qed.

Lemma receive_state_io p n i : keeps io (receive_state p n i).
Proof. unfold receive_state, reject, mark_stale. auto 30 with keeps. Qed.

Lemma apply_command_io p i : keeps io (apply_command p i).
Proof. unfold apply_command. auto 60 with keeps. Qed.

#[local] Hint Resolve receive_hello_io receive_state_io apply_command_io : keeps.

Lemma receive_command_io p i : keeps io (receive_command p i).
Proof. unfold receive_command, reject, mark_stale. auto 60 with keeps. Qed.

#[local] Hint Resolve receive_command_io : keeps.

Lemma receive_packet_io d n a : keeps io (receive_packet d n a).
Proof. unfold receive_packet, receive_player, reject, mark_stale. auto 60 with keeps. Qed.

Lemma summarize_player_io now i : keeps io (summarize_player now i).
Proof. unfold summarize_player. auto 30 with keeps. Qed.

#[local] Hint Resolve receive_packet_io summarize_player_io : keeps.

(** The [n]th call of [poll] failed other than by an interruption. *)
Definition poll_failed (n : nat) : Prop := fst (poll_result n) < 0 /\ snd (poll_result n) <> EINTR.

(** The [n]th call of [recvfrom] failed, and not for want of a datagram or by an
    interruption. *)
Definition recv_failed (n : nat) : Prop := exists c, recvfrom_result n = RecvError (EOTHER c).

(** One of the calls made between the two states failed. *)
Definition socket_failed (σ τ : Sys) : Prop :=
  (exists n, (w_poll (wld σ) <= n < w_poll (wld τ))%nat /\ poll_failed n) \/
  (exists n, (w_recv (wld σ) <= n < w_recv (wld τ))%nat /\ recv_failed n).

(** The newest event of the log is an error. *)
Definition error_logged (s : Server) : Prop :=
  exists e, last (event_queue s) = Some e /\ e_level e = 0.

Lemma log_error_logged player message σ :
  ringσ σ -> 0 <= s_log_level (srv σ) -> error_logged (srv (exec (log_event 0 player message) σ)).
Proof.
  intros R Hl. exists (event_of σ 0 player message). split; [|done].
  rewrite log_event_queue; [|done|].
  - unfold queue_push. by rewrite last_snoc.
  - unfold logs. rewrite Z.gtb_ltb. destruct (Z.ltb_spec (s_log_level (srv σ)) 0); [lia|done].
Qed.

(** A loop that calls [recvfrom] at most [n] times, and reports a failure exactly
    when one of these calls failed. *)
Definition loop_io (n : nat) (σ τ : Sys) (failed : bool) : Prop :=
  w_poll (wld τ) = w_poll (wld σ) /\ w_waits (wld τ) = w_waits (wld σ) /\
  (w_recv (wld σ) <= w_recv (wld τ) <= w_recv (wld σ) + n)%nat /\
  (failed = true <-> exists k, (w_recv (wld σ) <= k < w_recv (wld τ))%nat /\ recv_failed k).

Lemma loop_io_stop n σ : loop_io n σ σ false.
Proof. split_and!; try done; try lia. split; [done|]. intros (k & Hk & _). lia. Qed.

(** The last call. *)
Lemma loop_io_last n σ τ failed :
  w_poll (wld τ) = w_poll (wld σ) -> w_waits (wld τ) = w_waits (wld σ) ->
  w_recv (wld τ) = S (w_recv (wld σ)) -> (failed = true <-> recv_failed (w_recv (wld σ))) ->
  loop_io (S n) σ τ failed.
Proof.
  intros H1 H2 H3 H4. split_and!; try done; try lia. rewrite H4. split.
  - intros H. exists (w_recv (wld σ)). split; [lia|done].
  - intros (k & Hk & H). by replace (w_recv (wld σ)) with k by lia.
Qed.

(** A call that brought a datagram. *)
Lemma loop_io_more n σ σ1 τ failed :
  w_poll (wld σ1) = w_poll (wld σ) -> w_waits (wld σ1) = w_waits (wld σ) ->
  w_recv (wld σ1) = S (w_recv (wld σ)) -> ~ recv_failed (w_recv (wld σ)) ->
  loop_io n σ1 τ failed -> loop_io (S n) σ τ failed.
Proof.
  intros H1 H2 H3 H4 (J0 & J1 & J2 & J3). split_and!; try congruence; try lia. rewrite J3. split.
  - intros (k & Hk & H). exists k. split; [lia|done].
  - intros (k & Hk & H). exists k. split; [|done]. destruct (decide (k = w_recv (wld σ))) as [->|]; [done|lia].
Qed.

Lemma receive_loop_io n : forall σ, loop_io n σ (exec (receive_loop n) σ) (eval (receive_loop n) σ).
Proof.
  induction n as [|n IH]; intros σ; cbn [receive_loop]; [apply loop_io_stop|].
  rewrite exec_bind, eval_bind, exec_get, eval_get. destruct (s_closed (srv σ)); [apply loop_io_stop|].
  rewrite exec_bind, eval_bind. set (σ1 := exec recvfrom σ).
  assert (w_poll (wld σ1) = w_poll (wld σ) /\ w_waits (wld σ1) = w_waits (wld σ) /\
    w_recv (wld σ1) = S (w_recv (wld σ))) as (H1 & H2 & H3) by done.
  change (eval recvfrom σ) with (match recvfrom_result (w_recv (wld σ)) with
    | Received data from => Received (take 257 data) from | RecvError e => RecvError e end).
  assert (recv_failed (w_recv (wld σ)) <-> exists c, recvfrom_result (w_recv (wld σ)) = RecvError (EOTHER c)) as Hf
    by done.
  destruct (recvfrom_result (w_recv (wld σ))) as [data from|e].
  - rewrite exec_bind, eval_bind. set (σ2 := exec (receive_packet _ _ _) σ1).
    assert (io σ2 = io σ1) as Hio by apply receive_packet_io. unfold io in Hio. injection Hio as I0 I1 I2 _.
    clearbody σ1 σ2. apply (loop_io_more n σ σ2); try congruence; [|apply IH]. rewrite Hf. by intros [c Hc].
  - assert (forall x, io (exec (log_event 0 (-1) x ;; ret true) σ1) = io σ1) as Hlog by
      (intros x; apply kept; auto with keeps).
    destruct e; try (apply loop_io_last; try done; rewrite Hf; by split; [|intros [c Hc]]).
    specialize (Hlog ("recvfrom: " +:+ strerror (EOTHER code))%string).
    unfold io in Hlog. injection Hlog as I0 I1 I2 _.
    apply loop_io_last; try congruence. rewrite Hf. split; [by exists code|done].
Qed.

(** When the loop reports a failure, the failure is the newest event. *)
Lemma receive_loop_failed n σ :
  ringσ σ -> 0 <= s_log_level (srv σ) -> eval (receive_loop n) σ = true ->
  error_logged (srv (exec (receive_loop n) σ)).
Proof.
  revert σ. induction n as [|n IH]; intros σ R Hl; [done|]. cbn [receive_loop].
  rewrite exec_bind, eval_bind, exec_get, eval_get. destruct (s_closed (srv σ)); [done|].
  rewrite exec_bind, eval_bind. set (σ1 := exec recvfrom σ). assert (ringσ σ1) as R1 by exact R.
  assert (s_log_level (srv σ1) = s_log_level (srv σ)) as L1 by done.
  destruct (eval recvfrom σ) as [data from|e].
  - rewrite exec_bind, eval_bind. set (σ2 := exec (receive_packet _ _ _) σ1).
    assert (io σ2 = io σ1) as Hio by apply receive_packet_io. unfold io in Hio. injection Hio as _ _ _ L2.
    apply IH; [by apply receive_packet_ringσ|lia].
  - destruct e; try done. intros _. rewrite exec_bind, exec_ret. apply log_error_logged; [done|lia].
Qed.

Lemma socket_failed_idle σ : ~ socket_failed σ σ.
Proof. intros [(n & Hn & _) | (n & Hn & _)]; lia. Qed.

(** The test of the code on the result of [poll]. *)
Lemma poll_failed_test n :
  (fst (poll_result n) <? 0) && match snd (poll_result n) with EINTR => false | _ => true end = true <->
  poll_failed n.
Proof.
  unfold poll_failed. rewrite andb_true_iff, Z.ltb_lt.
  split; intros [H1 H2]; (split; [done|]); by destruct (snd (poll_result n)).
Qed.

Lemma poll_timeout_range s before wait : 0 <= wait -> 0 <= poll_timeout s before wait <= Z.min wait 16.
Proof.
  intros Hw. unfold poll_timeout. set (until := u32 _).
  assert (0 <= until) as Hu by (apply (fits_u32 (_ / 1000))). cbv zeta.
  rewrite Z.gtb_ltb. destruct (Z.ltb_spec wait until);
    [destruct (Z.ltb_spec 16 wait)|destruct (Z.ltb_spec 16 until)]; lia.
Qed.

Lemma poll_end_io : keeps io poll_end.
Proof. unfold poll_end. auto 30 with keeps. Qed.

Lemma poll_end_result σ :
  eval poll_end σ = if s_closed (srv (exec poll_end σ)) then 0 else 1.
Proof. reflexivity. Qed.

End Poll.

(** C17. One call of [fz_server_poll] waits at most once, for at most the time it
    was given and at most 16 ms, and receives at most 128 datagrams. It returns
    -1 exactly when a socket call it made failed: [poll] other than by an
    interruption, or [recvfrom] other than by an interruption or because no
    datagram was waiting. The failure then is the newest event of the log, if
    errors are logged. Otherwise it returns 1 while the room is open and 0 once
    it is closed. *)
Theorem fz_server_poll_bounded {E : Env} wait σ :
  0 <= wait -> ring_ok (srv σ) -> 0 <= s_log_level (srv σ) ->
  let τ := exec (fz_server_poll wait) σ in
  (exists waits, w_waits (wld τ) = w_waits (wld σ) ++ waits /\ (length waits <= 1)%nat /\
     Forall (fun t => 0 <= t <= Z.min wait 16) waits) /\
  (w_recv (wld τ) <= w_recv (wld σ) + 128)%nat /\
  (eval (fz_server_poll wait) σ = -1 <-> socket_failed σ τ) /\
  (eval (fz_server_poll wait) σ = (if s_closed (srv τ) then 0 else 1) \/
   eval (fz_server_poll wait) σ = -1 /\ error_logged (srv τ)).
Proof.
  intros Hw R Hl τ. unfold τ, fz_server_poll. rewrite exec_bind, eval_bind, exec_get, eval_get.
  destruct (s_closed (srv σ)) eqn:Hc.
  { rewrite exec_ret. split; [exists []; split; [by rewrite app_nil_r|split; [cbn; lia|done]]|].
    split; [lia|]. split; [split; [done|by intros H%socket_failed_idle]|].
    left. change (0 = if s_closed (srv σ) then 0 else 1). by rewrite Hc. }
  rewrite exec_bind, eval_bind. set (before := eval now_us σ). set (σ1 := exec now_us σ).
  pose proof (poll_timeout_range (srv σ) before wait Hw) as Ht.
  set (timeout := poll_timeout (srv σ) before wait) in *. rewrite exec_bind, eval_bind.
  change (eval (poll_socket timeout) σ1) with (poll_result (w_poll (wld σ))).
  set (σ2 := exec (poll_socket timeout) σ1).
  assert (w_waits (wld σ2) = w_waits (wld σ) ++ [timeout] /\ w_recv (wld σ2) = w_recv (wld σ) /\
    srv σ2 = srv σ /\ w_poll (wld σ2) = S (w_poll (wld σ))) as (W2 & N2 & S2 & P2) by done.
  clearbody σ2 timeout. assert (ringσ σ2) as R2 by (unfold ringσ; by rewrite S2).
  assert (forall ws : list Z, ws = w_waits (wld σ) ++ [timeout] ->
    exists waits, ws = w_waits (wld σ) ++ waits /\ (length waits <= 1)%nat /\
      Forall (fun t => 0 <= t <= Z.min wait 16) waits) as Hwaits.
  { intros ws ->. exists [timeout]. split; [done|]. split; [done|]. by repeat constructor; lia. }
  pose proof (poll_failed_test (w_poll (wld σ))) as Hp.
  destruct (_ && _).
  { rewrite exec_bind, eval_bind, exec_ret. set (text := ("poll: " +:+ strerror _)%string).
    pose proof (log_event_io 0 (-1) text σ2) as Hio. unfold io in Hio. injection Hio as I0 I1 I2 _.
    split_and!; [apply Hwaits; congruence|lia| |right; split; [done|by apply log_error_logged; [|rewrite S2]]].
    split; [|done]. intros _. left. exists (w_poll (wld σ)). split; [lia|]. by apply Hp. }
  rewrite exec_bind, eval_bind. pose proof (receive_loop_io 128 σ2) as (L0 & L1 & L2 & L3).
  pose proof (receive_loop_failed 128 σ2 R2) as Lf. rewrite S2 in Lf. specialize (Lf Hl).
  set (failed := eval (receive_loop 128) σ2) in *. set (σ3 := exec (receive_loop 128) σ2) in *.
  clearbody failed σ3. rewrite N2 in *. destruct failed.
  - rewrite exec_ret. split_and!; [apply Hwaits; congruence|lia| |right; auto].
    split; [|done]. intros _. right. by apply L3.
  - pose proof (poll_end_io σ3) as Hio. unfold io in Hio. injection Hio as I0 I1 I2 _.
    rewrite poll_end_result. set (τ3 := exec poll_end σ3) in *. clearbody τ3.
    split_and!; [apply Hwaits; congruence|lia| |by left]. split; [by destruct (s_closed (srv τ3))|].
    intros [(n & Hn & Hf) | (n & Hn & Hf)]; exfalso.
    + assert (n = w_poll (wld σ)) as -> by lia. by apply Hp in Hf.
    + assert (false = true); [|done]. apply L3. exists n. split; [lia|done].
Qed.

Lemma fz_server_poll_bounded_witness :
  let τ := exec (fz_server_poll 16) (demo_after 2) in
  (w_recv (wld τ) <= w_recv (wld (demo_after 2)) + 128)%nat /\ w_waits (wld τ) = [0; 14; 0].
Proof.
  split; [|by vm_compute].
  apply (fz_server_poll_bounded 16 (demo_after 2)); [done| |by vm_compute].
  apply (after_ring demo_config world0). apply demo_created.
Defined.
