(* ===== verification/Client.v ===== *)
(** * The game client ([src/client/fzvs_client.cpp])

    The [Client] class as a state monad over its fields and the world: the
    steady clock, the UDP socket and the memory of the emulated machine. Every
    method is a definition; the emulator's reset routine, name resolution and
    the sockets are the class [ClientEnv]. Text printed on the standard output
    is not recorded. *)

From stdpp Require Export gmap.
From Stdlib Require Import Ascii.
From S2P Require Import Prelude State Double Text Protocol.

Local Open Scope string_scope.
Local Open Scope list_scope.
Local Open Scope Z_scope.
Local Open Scope fz_scope.

(** ** Data *)

(** The emulated memory behind the callbacks of [Memory]; the callbacks come
    together, so that one flag of the client says whether they are set. *)
Record Memory := mk_memory { ram : Z -> Z; rom : Z -> Z }.

Definition poke (f : Z -> Z) (a v : Z) : Z -> Z := fun x => if x =? a then v else f x.

Record Config := mk_client_config {
  f_enabled : bool; f_mute : bool; f_overlay : bool; f_capture : bool; f_autoNext : bool;
  f_baseline : bool;
  f_address : string; f_key : bytes; f_profile : string; f_label : string; f_input : string;
  f_ownerNonce : Z;
  f_x : Z; f_y : Z; f_width : Z; f_height : Z; f_autoCar : Z
}.

(** The member initialisers. *)
Definition config0 : Config :=
  mk_client_config false false true false false false "127.0.0.1:12000" [] "" "F-Zero VS" "keyboard" 0
    40 60 640 480 (-1).

Record Peer := mk_peer {
  peer_status : Z; peer_car : Z; peer_orientation : Z; peer_x : Z; peer_y : Z;
  peer_seq : Z; peer_age : Z
}.

Definition peer0 : Peer := mk_peer 0 0 0 0 0 0 0.

#[export] Instance Peer_eq_dec : EqDecision Peer.
Proof. solve_decision. Defined.

Record View := mk_view {
  v_connected : bool;
  v_player : Z; v_host : Z; v_expected : Z; v_phase : Z; v_track : Z; v_league : Z; v_race : Z;
  v_rtt : double; v_jitter : double; v_loss : double; v_rxRate : double; v_txRate : double;
  v_kbps : double; v_fps : double;
  v_stale : Z; v_retries : Z;
  v_ram54 : Z; v_ram55 : Z; v_ram56 : Z; v_x : Z; v_y : Z; v_patches : Z;
  v_game : string; v_message : string; v_events : string;
  v_peers : list Peer
}.

Definition view0 : View :=
  mk_view false (-1) (-1) 2 0 0 0 0 d0 d0 d0 d0 d0 d0 d0 0 0 0 0 0 0 0 0
    "unloaded" "Load the supported F-Zero US ROM" "" (replicate 4 peer0).

Inductive Game := Init | CarSelect | Waiting | Prepare | Location | Race | Finished | Results | Disconnected.

#[export] Instance Game_eq_dec : EqDecision Game.
Proof. solve_decision. Defined.

Record Pending := mk_pending { pd_packet : fz_packet; pd_sent : Z }.

Record Snapshot := mk_snapshot { sn_time : Z; sn_peers : list Peer }.

Record Client := mk_client {
  cl_config : Config;
  cl_attached : bool;
  cl_memory : Memory;
  cl_socket : Z;
  cl_id : Z;
  cl_session : Z; cl_token : Z; cl_nonce : Z;
  cl_lastRecv : Z; cl_lastHello : Z; cl_lastPing : Z; cl_startTime : Z; cl_armedTime : Z;
  cl_lastPublish : Z; cl_lastLog : Z; cl_resultsTime : Z;
  cl_race : Z; cl_commandSeq : Z; cl_stateSeq : Z; cl_snapshotSeq : Z;
  cl_phase : Z; cl_host : Z; cl_expected : Z; cl_track : Z; cl_league : Z; cl_armedMask : Z;
  cl_car : Z;
  cl_rx : Z; cl_tx : Z; cl_bytes : Z; cl_stale : Z; cl_retries : Z; cl_gaps : Z;
  cl_snapshots : Z; cl_frames : Z;
  cl_prevRx : Z; cl_prevTx : Z; cl_prevBytes : Z; cl_prevFrames : Z; cl_rateTime : Z;
  cl_rtt : double; cl_jitter : double; cl_offset : double; cl_bestRtt : double;
  cl_peers : list Peer;
  cl_snapshotBuffer : list Snapshot;
  cl_game : Game;
  cl_loadedSent : bool; cl_selectedSent : bool; cl_finishedSent : bool;
  cl_originals : gmap Z Z;
  cl_titleOriginals : gmap Z Z;
  cl_pending : list Pending;
  cl_published : View;
  cl_requests : list bytes;
  cl_events : list string;
  cl_message : string
}.

(** The member initialisers. *)
Definition client0 (config : Config) : Client :=
  {| cl_config := config; cl_attached := false; cl_memory := mk_memory (fun _ => 0) (fun _ => 0);
     cl_socket := -1; cl_id := -1; cl_session := 0; cl_token := 0; cl_nonce := 0; cl_lastRecv := 0;
     cl_lastHello := 0; cl_lastPing := 0; cl_startTime := 0; cl_armedTime := 0; cl_lastPublish := 0;
     cl_lastLog := 0; cl_resultsTime := 0; cl_race := 0; cl_commandSeq := 0; cl_stateSeq := 0;
     cl_snapshotSeq := 0; cl_phase := 0; cl_host := 255; cl_expected := 2; cl_track := 0;
     cl_league := 0; cl_armedMask := 0; cl_car := 0; cl_rx := 0; cl_tx := 0; cl_bytes := 0;
     cl_stale := 0; cl_retries := 0; cl_gaps := 0; cl_snapshots := 0; cl_frames := 0;
     cl_prevRx := 0; cl_prevTx := 0; cl_prevBytes := 0; cl_prevFrames := 0; cl_rateTime := 0;
     cl_rtt := d0; cl_jitter := d0; cl_offset := d0; cl_bestRtt := d_of_Z 1000000000000;
     cl_peers := replicate 4 peer0; cl_snapshotBuffer := []; cl_game := Init;
     cl_loadedSent := false; cl_selectedSent := false; cl_finishedSent := false;
     cl_originals := ∅; cl_titleOriginals := ∅; cl_pending := []; cl_published := view0;
     cl_requests := []; cl_events := []; cl_message := "" |}.

(** Inputs consumed so far and the datagrams passed to [send], in order. *)
Record CWorld := mk_cworld { cw_clock : nat; cw_recv : nat; cw_send : nat; cw_sent : list bytes }.

Record CSys := mk_csys { cl : Client; cw : CWorld }.

Class ClientEnv := {
  steady_clock : nat -> Z;
  recv_data : nat -> option bytes;
  send_result : nat -> Z;
  reset_ram : (Z -> Z) -> Z -> Z;
  resolves : string -> string -> bool;
  udp_socket : Z;
  connects : bool;
  nonblocking : bool;
  random_nonce : option Z
}.

(** ** Tables *)

Definition slots : list (list Z) := [[0; 3; 2; 1]; [1; 3; 2; 0]; [2; 3; 1; 0]; [3; 2; 1; 0]].

Definition selector : list Z := [3; 0; 1; 2].

Definition palettes : list (list Z) :=
  [[14; 12; 10; 8]; [8; 12; 10; 14]; [10; 12; 8; 14]; [12; 10; 8; 14]].

Definition colors : list string := ["Pink"; "Blue"; "Green"; "Yellow"].

Definition FZ_SNAPSHOT_BUFFER_CAPACITY : nat := 16.

Definition game_names : list (Game * string) :=
  [(Init, "init"); (CarSelect, "car-select"); (Waiting, "waiting"); (Prepare, "prepare");
   (Location, "location-load"); (Race, "racing"); (Finished, "finished"); (Results, "results");
   (Disconnected, "disconnected")].

Definition game_name (g : Game) : string :=
  default "" (snd <$> List.find (fun q => bool_decide (fst q = g)) game_names).

(** [table[id][slot]] *)
Definition at2 (table : list (list Z)) (i j : Z) : Z :=
  default 0 (table !! Z.to_nat i ≫= fun row => row !! Z.to_nat j).

Definition peer_at (l : list Peer) (i : Z) : Peer := default peer0 (l !! Z.to_nat i).

(** [1e12] *)
Definition d_1e12 : double := d_of_Z 1000000000000.

(** The conversion of a nonnegative double to [uint64_t]. *)
Definition u64_of_double (x : double) : Z := u64 (default 0 (d_trunc x)).

Definition active (c : Client) : bool := f_enabled (cl_config c).

Section Model.
Context {E : ClientEnv}.

Definition cget : M CSys Client := gets cl.

Definition cupd (f : Client -> Client) : M CSys unit :=
  modify (fun σ => mk_csys (f (cl σ)) (cw σ)).

Definition cupdw (f : CWorld -> CWorld) : M CSys unit :=
  modify (fun σ => mk_csys (cl σ) (f (cw σ))).

Definition now : M CSys Z :=
  let* n := gets (fun σ => cw_clock (cw σ)) in
  cupdw (fun w => {| w with cw_clock := S (cw_clock w) |}) ;;
  ret (u64 (steady_clock n)).

(** ** The emulated machine *)

Definition ram_at (a : Z) : M CSys Z := gets (fun σ => ram (cl_memory (cl σ)) a).

Definition rom_at (a : Z) : M CSys Z := gets (fun σ => rom (cl_memory (cl σ)) a).

Definition writeRam (a v : Z) : M CSys unit :=
  cupd (fun c => let m := cl_memory c in {| c with cl_memory := {| m with ram := poke (ram m) a v |} |}).

Definition writeRom (a v : Z) : M CSys unit :=
  cupd (fun c => let m := cl_memory c in {| c with cl_memory := {| m with rom := poke (rom m) a v |} |}).

(** [if(memory.reset) memory.reset();] *)
Definition reset : M CSys unit :=
  cupd (fun c => let m := cl_memory c in
                 if cl_attached c then {| c with cl_memory := {| m with ram := reset_ram (ram m) |} |}
                 else c).

Definition word (a : Z) : M CSys Z :=
  let* lo := ram_at a in
  let* hi := ram_at (a + 1) in
  ret (u16 (Z.lor lo (u16 (Z.shiftl hi 8)))).

Definition putWord (a v : Z) : M CSys unit :=
  writeRam a (u8 v) ;; writeRam (a + 1) (u8 (Z.shiftr v 8)).

(** ** Reporting *)

Definition log (text : string) : M CSys unit :=
  cupd (fun c => {| c with cl_message := text |}) ;;
  let* _ := now in
  cupd (fun c => {| c with cl_events := cl_events c ++ [text] |}) ;;
  cupd (fun c => if (12 <? length (cl_events c))%nat then {| c with cl_events := tail (cl_events c) |}
                 else c).

Definition change (next : Game) : M CSys unit :=
  let* c := cget in
  when (negb (bool_decide (cl_game c = next)))
    (log ("game=" +:+ game_name (cl_game c) +:+ "->" +:+ game_name next) ;;
     cupd (fun c => {| c with cl_game := next |})).

(** [a-b] on [uint64_t], as a double. *)
Definition rate (a b : Z) (elapsed : double) : double := ddiv (d_of_Z (u64 (a - b))) elapsed.

(** The view of the room and, when a machine is attached, of the game. *)
Definition view_now (c : Client) (x y : Z) : View :=
  let total := u64 (cl_snapshots c + cl_gaps c) in
  let m := ram (cl_memory c) in
  let v := {| view0 with
      v_connected := (cl_id c >=? 0) && negb (bool_decide (cl_game c = Disconnected));
      v_player := cl_id c; v_host := cl_host c; v_expected := cl_expected c; v_phase := cl_phase c;
      v_race := cl_race c; v_track := cl_track c; v_league := cl_league c; v_rtt := cl_rtt c;
      v_jitter := cl_jitter c; v_stale := cl_stale c; v_retries := cl_retries c;
      v_loss := if total =? 0 then d0
                else ddiv (dmul (d_of_Z 100) (d_of_Z (cl_gaps c))) (d_of_Z total);
      v_peers := cl_peers c; v_message := cl_message c;
      v_patches := Z.of_nat (size (cl_originals c)); v_game := game_name (cl_game c) |} in
  if cl_attached c
  then {| v with v_ram54 := m 0x54; v_ram55 := m 0x55; v_ram56 := m 0x56; v_x := x; v_y := y |}
  else v.

Definition with_rates (c : Client) (t : Z) (v : View) : View :=
  let elapsed := ddiv (d_of_Z (u64 (t - cl_rateTime c))) (d_of_Z 1000000) in
  if dlt d0 elapsed
  then {| v with v_rxRate := rate (cl_rx c) (cl_prevRx c) elapsed;
                 v_txRate := rate (cl_tx c) (cl_prevTx c) elapsed;
                 v_kbps := ddiv (rate (cl_bytes c) (cl_prevBytes c) elapsed) (d_of_Z 1024);
                 v_fps := rate (cl_frames c) (cl_prevFrames c) elapsed |}
  else v.

Definition with_events (events : list string) (v : View) : View :=
  {| v with v_events := foldl (fun acc e => acc +:+ e +:+ String "010"%char "") "" events |}.

Definition publish : M CSys unit :=
  let* c := cget in
  let* x := word 0xb70 in
  let* y := word 0xb90 in
  let* t := now in
  cupd (fun c => {| c with cl_prevRx := cl_rx c; cl_prevTx := cl_tx c; cl_prevBytes := cl_bytes c;
                           cl_prevFrames := cl_frames c; cl_rateTime := t; cl_lastPublish := t |}) ;;
  when (u64 (t - cl_lastLog c) >? 5000000) (cupd (fun c => {| c with cl_lastLog := t |})) ;;
  cupd (fun c' => {| c' with cl_published :=
                       with_events (cl_events c') (with_rates c t (view_now c x y)) |}).

(** ** Patching *)

Fixpoint patch (a : Z) (values : list Z) : M CSys unit :=
  match values with
  | [] => skip
  | v :: values =>
      let* old := rom_at a in
      cupd (fun c => match cl_originals c !! a with
                     | Some _ => c
                     | None => {| c with cl_originals := <[a := old]> (cl_originals c) |}
                     end) ;;
      writeRom a v ;;
      patch (a + 1) values
  end.

(** [for(auto [address,value]:map) memory.writeRom(address,value);] *)
Definition write_back (saved : gmap Z Z) : M CSys unit :=
  for_each (map_to_list saved) (fun q => writeRom (fst q) (snd q)).

Definition restore : M CSys unit :=
  let* c := cget in
  when (cl_attached c) (write_back (cl_originals c)) ;;
  cupd (fun c => {| c with cl_originals := ∅ |}).

Definition restoreTitle : M CSys unit :=
  let* c := cget in
  when (cl_attached c) (write_back (cl_titleOriginals c)) ;;
  cupd (fun c => {| c with cl_titleOriginals := ∅ |}).

Definition glyphs : list (ascii * list string) :=
  [("I"%char, ["..5555.."; ".533335."; ".553355."; "..5335.."; "..5335.."; "..5335.."; "..5225..";
               "..5115.."; "..5225.."; "..5335.."; "..5445.."; "..5335.."; "..5335.."; ".553355.";
               ".533335."; ".555555."]);
   ("L"%char, ["5555...."; "5335...."; "5335...."; "5335...."; "5335...."; "5335...."; "5225....";
               "5115...."; "5225...."; "5335...."; "5445...."; "5335...."; "5335...."; "53355555";
               "53333335"; "55555555"]);
   ("M"%char, ["55555555"; "53333335"; "53333335"; "53355335"; "53333335"; "53355335"; "52255225";
               "51155115"; "52255225"; "53355335"; "54455445"; "53355335"; "53355335"; "53355335";
               "53355335"; "55555555"]);
   ("T"%char, ["55555555"; "53333335"; "55533555"; "..5335.."; "..5335.."; "..5335.."; "..5225..";
               "..5115.."; "..5225.."; "..5335.."; "..5445.."; "..5335.."; "..5335.."; "..5335..";
               ".533335."; ".555555."]);
   ("U"%char, ["55555555"; "53355335"; "53355335"; "53355335"; "53355335"; "53355335"; "52255225";
               "51155115"; "52255225"; "53355335"; "54455445"; "53355335"; "53355335"; "53333335";
               ".533335."; ".555555."])].

(** One cell of a drawing: [None] for a transparent one. *)
Definition cell (drawing : list string) (y x : nat) : option Z :=
  match drawing !! y ≫= String.get x with
  | Some c => if Ascii.eqb c "." then None else Some (u8 (Z.of_nat (nat_of_ascii c) - 48))
  | None => None
  end.

(** The rows of the word, 80 pixels each. *)
Definition draw_letter (pixels : list (list Z)) (cursor : nat) (drawing : list string) : list (list Z) :=
  imap (fun y row =>
    foldl (fun row x => match cell drawing y x with
                        | Some v => <[(cursor + x)%nat := v]> row
                        | None => row
                        end) row (seq 0 8)) pixels.

Fixpoint draw_word (pixels : list (list Z)) (cursor : nat) (letters : list ascii) : list (list Z) :=
  match letters with
  | [] => pixels
  | c :: letters =>
      match List.find (fun g => Ascii.eqb (fst g) c) glyphs with
      | None => draw_word pixels cursor letters
      | Some g => draw_word (draw_letter pixels cursor (snd g)) (cursor + 8) letters
      end
  end.

Definition title_pixels : list (list Z) :=
  draw_word (replicate 16 (zeros 80)) 0 ["M"; "U"; "L"; "T"; "I"]%char.

(** A tile in the four bit planes of the console. *)
Definition encode_tile (pixels : list (list Z)) (tileX tileY : nat) : bytes :=
  foldl (fun b '(y, x, plane) =>
      let color := rd (default [] (pixels !! (tileY * 8 + y)%nat)) (tileX * 8 + x) in
      if Z.testbit color (Z.of_nat plane)
      then let k := (plane / 2 * 16 + y * 2 + plane mod 2)%nat in
           <[k := u8 (Z.lor (rd b k) (u8 (Z.shiftl 1 (7 - Z.of_nat x))))]> b
      else b)
    (zeros 32)
    (flat_map (fun y => flat_map (fun x => map (fun plane => (y, x, plane)) (seq 0 4)) (seq 0 8)) (seq 0 8)).

Fixpoint patch_tile (a : Z) (encoded : bytes) : M CSys unit :=
  match encoded with
  | [] => skip
  | v :: encoded =>
      let* old := rom_at a in
      cupd (fun c => {| c with cl_titleOriginals := <[a := old]> (cl_titleOriginals c) |}) ;;
      writeRom a v ;;
      patch_tile (a + 1) encoded
  end.

Definition patchTitleMenu : M CSys unit :=
  let* c := cget in
  if negb (cl_attached c) || negb (bool_decide (cl_titleOriginals c = ∅)) then skip
  else
    for_each (seq 0 5) (fun x =>
      patch_tile (0x67800 + Z.of_nat x * 32) (encode_tile title_pixels x 0) ;;
      patch_tile (0x67a00 + Z.of_nat x * 32) (encode_tile title_pixels x 1)).

(** ** Snapshots and interpolation *)

Definition clearSnapshotBuffer : M CSys unit :=
  cupd (fun c => {| c with cl_snapshotBuffer := [] |}).

Definition bufferSnapshot (serverTime : Z) : M CSys unit :=
  cupd (fun c => {| c with cl_snapshotBuffer :=
                      cl_snapshotBuffer c ++ [mk_snapshot serverTime (cl_peers c)] |}) ;;
  cupd (fun c => {| c with cl_snapshotBuffer :=
                      drop (length (cl_snapshotBuffer c) - FZ_SNAPSHOT_BUFFER_CAPACITY)
                        (cl_snapshotBuffer c) |}).

(** [std::clamp] *)
Definition dclamp (v lo hi : double) : double := if dlt v lo then lo else if dlt hi v then hi else v.

Definition interpolationDelay (c : Client) : Z :=
  u64_of_double
    (dmul (dclamp (dadd (d_of_Z 50) (dmul (d_of_Z 2) (cl_jitter c))) (d_of_Z 50) (d_of_Z 100))
       (d_of_Z 1000)).

(** [std::lround], whose argument the interpolation keeps finite. *)
Definition lround0 (x : double) : Z := default 0 (lround x).

Definition blend (fraction : double) (a b : Z) : Z :=
  u16 (lround0 (dadd (d_of_Z a) (dmul (dsub (d_of_Z b) (d_of_Z a)) fraction))).

(** The shorter way around the circle of 256 orientations. *)
Definition turn_between (a b : Z) : Z :=
  let turn := b - a in
  if turn >? 127 then turn - 256 else if turn <? -128 then turn + 256 else turn.

Definition blend_peer (fraction : double) (p q : Peer) : Peer :=
  {| p with peer_x := blend fraction (peer_x p) (peer_x q);
            peer_y := blend fraction (peer_y p) (peer_y q);
            peer_orientation :=
              Z.land (lround0 (dadd (d_of_Z (peer_orientation p))
                (dmul (d_of_Z (turn_between (peer_orientation p) (peer_orientation q))) fraction))) 255 |}.

(** The loop over consecutive snapshots of [renderedPeers]. *)
Fixpoint render_between (renderTime : Z) (before : Snapshot) (rest : list Snapshot) : list Peer :=
  match rest with
  | [] => sn_peers before
  | next :: rest =>
      if renderTime >? sn_time next then render_between renderTime next rest
      else
        let fraction := ddiv (d_of_Z (u64 (renderTime - sn_time before)))
                             (d_of_Z (u64 (sn_time next - sn_time before))) in
        map (fun i => blend_peer fraction (peer_at (sn_peers before) i) (peer_at (sn_peers next) i))
          [0; 1; 2; 3]
  end.

Definition renderedPeers (c : Client) (serverTime : Z) : list Peer :=
  match cl_snapshotBuffer c with
  | [] => cl_peers c
  | front :: rest =>
      let back := default front (last rest) in
      let delay := interpolationDelay c in
      let renderTime := if serverTime >? delay then serverTime - delay else 0 in
      if renderTime <=? sn_time front then sn_peers front
      else if renderTime >=? sn_time back then sn_peers back
      else render_between renderTime front rest
  end.

Definition opponents : M CSys unit :=
  let* t := now in
  let* c := cget in
  let estimated := dadd (d_of_Z t) (cl_offset c) in
  let rendered := renderedPeers c (if dlt d0 estimated then u64_of_double estimated else 0) in
  for_each [1; 2; 3] (fun slot =>
    let who := at2 slots (cl_id c) slot in
    let peer := peer_at (cl_peers c) who in
    let position := peer_at rendered who in
    let visible := (peer_status peer =? FZ_PLAYER_LOADED) || (peer_status peer =? FZ_PLAYER_RACING) in
    putWord (0xb70 + slot * 2) (if visible then peer_x position else 0) ;;
    putWord (0xb90 + slot * 2) (if visible then peer_y position else 0) ;;
    writeRam (0xbd1 + slot * 2) (if visible then peer_orientation position else 0)) ;;
  putWord 0xb78 0 ;;
  putWord 0xb98 0.

(** ** The connection *)

Definition send (packet : fz_packet) : M CSys unit :=
  let* c := cget in
  let packet := {| packet with pk_session := cl_session c; pk_token := cl_token c; pk_race := cl_race c |} in
  let '(n, data) := fz_encode (zeros 256) FZ_MAX_PACKET packet in
  if cl_socket c >=? 0 then
    let* k := gets (fun σ => cw_send (cw σ)) in
    cupdw (fun w => {| w with cw_send := S (cw_send w);
                              cw_sent := cw_sent w ++ [take (Z.to_nat n) data] |}) ;;
    when (send_result k =? n)
      (cupd (fun c => {| c with cl_tx := u64 (cl_tx c + 1); cl_bytes := u64 (cl_bytes c + n) |}))
  else skip.

Definition queue (command : bytes) : M CSys unit :=
  let* c := cget in
  if (cl_id c <? 0) || (8 <=? length (cl_pending c))%nat || (PAYLOAD_SIZE <? length command)%nat
  then skip
  else
    cupd (fun c => {| c with cl_commandSeq := u32 (cl_commandSeq c + 1) |}) ;;
    cupd (fun c =>
      let packet := {| packet0 with pk_type := FZ_COMMAND; pk_seq := cl_commandSeq c;
                                    pk_length := u16 (Z.of_nat (length command));
                                    pk_payload := memcpy (zeros PAYLOAD_SIZE) 0 command (length command) |} in
      {| c with cl_pending := cl_pending c ++ [mk_pending packet 0] |}).

Definition resetGame : M CSys unit :=
  restore ;;
  reset ;;
  clearSnapshotBuffer ;;
  cupd (fun c => {| c with cl_game := Init; cl_selectedSent := false; cl_loadedSent := false;
                           cl_finishedSent := false; cl_armedTime := 0; cl_startTime := 0;
                           cl_car := 0 |}).

Definition failure (text : string) : M CSys unit :=
  restore ;;
  restoreTitle ;;
  clearSnapshotBuffer ;;
  reset ;;
  cupd (fun c => if cl_socket c >=? 0 then {| c with cl_socket := -1 |} else c) ;;
  change Disconnected ;;
  log text ;;
  publish.

Definition join_reasons : list string :=
  ["Join rejected"; "Incorrect room password"; "Room is full"; "Race is already underway";
   "Host is still starting"; "Incompatible network protocol"].

(** The acknowledged commands leave the queue: the [while] loop of [receive]. *)
Fixpoint acknowledge (ack : Z) (pending : list Pending) : list Pending :=
  match pending with
  | [] => []
  | p :: rest =>
      if (ack =? pk_seq (pd_packet p)) || fz_newer ack (pk_seq (pd_packet p))
      then acknowledge ack rest else pending
  end.

(** The tests on the payload of a snapshot. *)
Definition snapshot_valid (p : fz_packet) : bool :=
  let b := pk_payload p in
  negb (negb (pk_type p =? FZ_SNAPSHOT) || negb (pk_length p =? FZ_SNAPSHOT_SIZE)
        || (rd b 0 >? FZ_RESULTS) || (rd b 1 <? 2) || (rd b 1 >? 4)
        || ((rd b 2 >? 3) && negb (rd b 2 =? 255)) || (rd b 3 >? 4) || (rd b 4 >? 2))
  && forallb (fun i => negb ((rd b (24 + i * 16) >? FZ_DISCONNECTED) || (rd b (25 + i * 16) >? 3)))
       [0; 1; 2; 3]%nat.

(** The player records of a snapshot. *)
Definition snapshot_peer (b : bytes) (i : nat) : Peer :=
  let q := (24 + i * 16)%nat in
  mk_peer (rd b q) (rd b (q + 1)) (rd b (q + 6)) (fz_u16 b (q + 2)) (fz_u16 b (q + 4))
    (fz_u32 b (q + 8)) (fz_u32 b (q + 12)).

(** The end of [receive]: the room, the snapshot buffer, the answer to a deadline. *)
Definition adopt_snapshot (b : bytes) : M CSys unit :=
  cupd (fun c => {| c with cl_phase := rd b 0; cl_expected := rd b 1; cl_host := rd b 2;
                           cl_track := rd b 3; cl_league := rd b 4; cl_armedMask := rd b 5;
                           cl_startTime := fz_u64 b 16;
                           cl_peers := map (snapshot_peer b) [0; 1; 2; 3]%nat |}) ;;
  bufferSnapshot (fz_u64 b 8) ;;
  let* c := cget in
  when ((cl_phase c =? FZ_COUNTDOWN) && negb (cl_startTime c =? cl_armedTime c))
    (queue (fz_put64 (<[0%nat := FZ_ARM]> (zeros 9)) 1 (cl_startTime c)) ;;
     cupd (fun c => {| c with cl_armedTime := cl_startTime c |})).

(** [receive] from its check for newer snapshots on. *)
Definition receive_snapshot (p : fz_packet) (t : Z) : M CSys unit :=
  let b := pk_payload p in
  let* c := cget in
  if negb (fz_newer (pk_seq p) (cl_snapshotSeq c))
     || (negb (pk_race p =? cl_race c) && negb (fz_newer (pk_race p) (cl_race c)))
  then cupd (fun c => {| c with cl_stale := u64 (cl_stale c + 1) |})
  else
    when (negb (cl_snapshotSeq c =? 0))
      (let delta := u32 (pk_seq p - cl_snapshotSeq c) in
       when (delta <? 10000)
         (cupd (fun c => {| c with cl_gaps := u64 (cl_gaps c + u32 (delta - 1)) |}))) ;;
    cupd (fun c => {| c with cl_snapshotSeq := pk_seq p; cl_snapshots := u64 (cl_snapshots c + 1);
                             cl_lastRecv := t |}) ;;
    cupd (fun c => {| c with cl_pending := acknowledge (pk_ack p) (cl_pending c) |}) ;;
    let* c := cget in
    when (negb (pk_race p =? cl_race c))
      (cupd (fun c => {| c with cl_race := pk_race p; cl_commandSeq := pk_ack p; cl_stateSeq := 0;
                                cl_pending := [] |}) ;;
       resetGame ;;
       log "New race lobby") ;;
    adopt_snapshot b.

Definition receive (p : fz_packet) : M CSys unit :=
  let b := pk_payload p in
  let* t := now in
  let* c := cget in
  if (cl_id c <? 0) && (pk_type p =? FZ_JOIN_REJECT) && (pk_length p =? 9)
     && (fz_u64 b 0 =? cl_nonce c)
  then failure (default "" (join_reasons !!
                  (if rd b 8 <=? FZ_REJECT_VERSION then Z.to_nat (rd b 8) else 0%nat)))
  else if (pk_type p =? FZ_WELCOME) && (pk_length p =? 9) && (fz_u64 b 1 =? cl_nonce c)
          && (rd b 0 <? 4) && negb (pk_session p =? 0) && negb (pk_token p =? 0)
  then
    if cl_id c >=? 0 then skip
    else
      cupd (fun c => {| c with cl_id := rd b 0; cl_session := pk_session p; cl_token := pk_token p;
                               cl_race := pk_race p; cl_commandSeq := pk_ack p; cl_lastRecv := t |}) ;;
      log ("Joined as P" +:+ dec (rd b 0 + 1) +:+ " (" +:+ default "" (colors !! Z.to_nat (rd b 0))
           +:+ ")")
  else if (cl_id c <? 0) || negb (pk_session p =? cl_session c) || negb (pk_token p =? cl_token c)
  then skip
  else if (pk_type p =? FZ_ROOM_CLOSED) && (pk_length p =? 1) then failure "Host closed the room"
  else if (pk_type p =? FZ_PING) && (pk_length p =? 8)
  then
    send {| packet0 with pk_type := FZ_PONG; pk_length := 8;
                         pk_payload := memcpy (zeros PAYLOAD_SIZE) 0 b 8 |} ;;
    cupd (fun c => {| c with cl_lastRecv := t |})
  else if (pk_type p =? FZ_PONG) && (pk_length p =? 16)
  then
    let sent := fz_u64 b 0 in
    if (sent >? t) || (u64 (t - sent) >? 5000000) then skip
    else
      let sample := ddiv (d_of_Z (u64 (t - sent))) (d_of_Z 1000) in
      cupd (fun c => {| c with cl_jitter := dadd (dmul (d_lit 9 10) (cl_jitter c))
                                              (dmul (d_lit 1 10) (dabs (dsub sample (cl_rtt c)))) |}) ;;
      cupd (fun c => {| c with cl_rtt := if d_true (cl_rtt c)
                                         then dadd (dmul (cl_rtt c) (d_lit 8 10)) (dmul sample (d_lit 2 10))
                                         else sample |}) ;;
      cupd (fun c => if dlt sample (cl_bestRtt c)
                     then {| c with cl_bestRtt := sample;
                                    cl_offset := dsub (d_of_Z (fz_u64 b 8))
                                                   (ddiv (dadd (d_of_Z sent) (d_of_Z t)) (d_of_Z 2)) |}
                     else c) ;;
      cupd (fun c => {| c with cl_lastRecv := t |})
  else
    when ((pk_type p =? FZ_ERROR) && (pk_length p =? 2))
      (log ("Server rejected command " +:+ dec (rd b 0) +:+
            " (state changed or action unavailable)")) ;;
    if snapshot_valid p then receive_snapshot p t else skip.

Definition detach : M CSys unit :=
  let* c := cget in
  when (cl_socket c >=? 0)
    (when ((cl_id c >=? 0) && bool_decide (length (cl_pending c) = 0%nat))
       (cupd (fun c => {| c with cl_commandSeq := u32 (cl_commandSeq c + 1) |}) ;;
        let* c := cget in
        send {| packet0 with pk_type := FZ_COMMAND; pk_seq := cl_commandSeq c; pk_length := 1;
                             pk_payload := <[0%nat := FZ_LEAVE]> (zeros PAYLOAD_SIZE) |}) ;;
     cupd (fun c => {| c with cl_socket := -1 |})) ;;
  restore ;;
  restoreTitle ;;
  cupd (fun c => {| c with cl_attached := false; cl_id := -1; cl_pending := [] |}) ;;
  clearSnapshotBuffer ;;
  cupd (fun c => {| c with cl_game := Init; cl_requests := []; cl_published := view0 |}).

(** [config.address.rfind(':')] *)
Fixpoint rfind_colon (s : string) (i : nat) (found : option nat) : option nat :=
  match s with
  | EmptyString => found
  | String c s => rfind_colon s (S i) (if Ascii.eqb c ":" then Some i else found)
  end.

Definition attach_fail (text : string) : M CSys bool := failure text ;; ret false.

(** [attach] once the socket is open and the nonce was read. *)
Definition attach_begin (r : Z) : M CSys bool :=
  cupd (fun c => {| c with cl_nonce := u64 r |}) ;;
  cupd (fun c => if f_ownerNonce (cl_config c) =? 0 then c
                 else {| c with cl_nonce := f_ownerNonce (cl_config c) |}) ;;
  cupd (fun c => {| c with cl_session := 0; cl_token := 0; cl_id := -1; cl_race := 0;
                           cl_commandSeq := 0; cl_stateSeq := 0; cl_snapshotSeq := 0;
                           cl_phase := FZ_LOBBY |}) ;;
  let* t := now in
  cupd (fun c => {| c with cl_lastRecv := t; cl_rateTime := t; cl_lastHello := 0; cl_lastPing := 0;
                           cl_lastPublish := 0; cl_frames := 0; cl_bestRtt := d_1e12; cl_rx := 0;
                           cl_tx := 0; cl_bytes := 0; cl_stale := 0; cl_retries := 0; cl_gaps := 0;
                           cl_snapshots := 0; cl_prevRx := 0; cl_prevTx := 0; cl_prevBytes := 0;
                           cl_prevFrames := 0; cl_rtt := d0; cl_jitter := d0; cl_offset := d0;
                           cl_peers := replicate 4 peer0; cl_pending := [] |}) ;;
  patchTitleMenu ;;
  resetGame ;;
  let* c := cget in
  log ("Connecting to " +:+ f_address (cl_config c)) ;;
  publish ;;
  ret true.

(** [attach] with its socket opened as [fd]. *)
Definition attach_socket (fd : Z) : M CSys bool :=
  cupd (fun c => {| c with cl_socket := fd |}) ;;
  if negb ((fd >=? 0) && connects && nonblocking)
  then cupd (fun c => {| c with cl_socket := -1 |}) ;; attach_fail "Cannot open UDP connection"
  else
    match random_nonce with
    | None => attach_fail "Cannot create session nonce"
    | Some r => attach_begin r
    end.

Definition attach (m : Memory) : M CSys bool :=
  detach ;;
  cupd (fun c => {| c with cl_memory := m; cl_attached := true |}) ;;
  let* c := cget in
  match rfind_colon (f_address (cl_config c)) 0 None with
  | None => attach_fail "Invalid server address or room key length"
  | Some colon =>
      if FZ_KEY_MAX <? Z.of_nat (length (f_key (cl_config c)))
      then attach_fail "Invalid server address or room key length"
      else if negb (resolves (String.substring 0 colon (f_address (cl_config c)))
                      (String.substring (S colon) (String.length (f_address (cl_config c)) - S colon)
                         (f_address (cl_config c))))
      then attach_fail "Cannot resolve server address"
      else attach_socket udp_socket
  end.

Definition request (command : Z) (data : bytes) : M CSys unit :=
  cupd (fun c => if (length (cl_requests c) <? 8)%nat
                 then {| c with cl_requests := cl_requests c ++ [command :: data] |} else c).

Definition client_view : M CSys View := gets (fun σ => cl_published (cl σ)).

(** [recv]: nothing from a closed socket. *)
Definition recv : M CSys (option bytes) :=
  let* c := cget in
  if cl_socket c <? 0 then ret None
  else
    let* n := gets (fun σ => cw_recv (cw σ)) in
    cupdw (fun w => {| w with cw_recv := S (cw_recv w) |}) ;;
    ret (take 257 <$> recv_data n).

Fixpoint tick_receive (budget : nat) : M CSys unit :=
  match budget with
  | O => skip
  | S budget =>
      let* r := recv in
      match r with
      | None => skip
      | Some data =>
          match fz_decode data (Z.of_nat (length data)) with
          | None => skip
          | Some p =>
              cupd (fun c => {| c with cl_rx := u64 (cl_rx c + 1);
                                       cl_bytes := u64 (cl_bytes c + Z.of_nat (length data)) |}) ;;
              receive p
          end ;;
          tick_receive budget
      end
  end.

(** The request to join. *)
Definition tick_hello (t : Z) : M CSys unit :=
  let* c := cget in
  when (u64 (t - cl_lastHello c) >? 250000)
    (let key := f_key (cl_config c) in
     let b := fz_put64 (zeros PAYLOAD_SIZE) 0 (cl_nonce c) in
     let b := <[8%nat := u8 (Z.of_nat (length key))]> b in
     let b := memcpy b 9 key (length key) in
     send {| packet0 with pk_type := FZ_HELLO; pk_length := u16 (9 + Z.of_nat (length key));
                          pk_payload := b |} ;;
     cupd (fun c => {| c with cl_lastHello := t |})).

(** Requests of the user interface, the command in flight, the heartbeat. *)
Definition tick_joined (t : Z) : M CSys unit :=
  let* c := cget in
  cupd (fun c => {| c with cl_requests := [] |}) ;;
  for_each (cl_requests c) queue ;;
  let* c := cget in
  match cl_pending c with
  | front :: _ =>
      when (u64 (t - pd_sent front) >=? 250000)
        (when (negb (pd_sent front =? 0))
           (cupd (fun c => {| c with cl_retries := u64 (cl_retries c + 1) |})) ;;
         send (pd_packet front) ;;
         cupd (fun c => {| c with cl_pending :=
                             alter (fun p => mk_pending (pd_packet p) t) 0%nat (cl_pending c) |}))
  | [] => skip
  end ;;
  let* c := cget in
  when (u64 (t - cl_lastPing c) >=? 500000)
    (send {| packet0 with pk_type := FZ_PING; pk_length := 8;
                          pk_payload := fz_put64 (zeros PAYLOAD_SIZE) 0 t |} ;;
     cupd (fun c => {| c with cl_lastPing := t |})).

Definition tick : M CSys unit :=
  let* c := cget in
  if (cl_socket c <? 0) || bool_decide (cl_game c = Disconnected) then skip
  else
    let* _ := now in
    tick_receive 128 ;;
    let* c := cget in
    if (cl_socket c <? 0) || bool_decide (cl_game c = Disconnected) then skip
    else
      let* t := now in
      (if cl_id c <? 0 then tick_hello t else tick_joined t) ;;
      let* c := cget in
      when (u64 (t - cl_lastRecv c) >? (if cl_id c <? 0 then 10000000 else 5000000))
        (failure (if cl_id c <? 0
                  then "Join timed out: check server, room key, or room availability"
                  else "Server connection lost; leave and reconnect for the next lobby")) ;;
      let* c := cget in
      when (u64 (t - cl_lastPublish c) >=? 200000) publish.

(** ** The game *)

Definition position (command : Z) : M CSys bytes :=
  let* x := word 0xb70 in
  let* y := word 0xb90 in
  let* o := ram_at 0xbd1 in
  let b := <[0%nat := command]> (zeros 6) in
  ret (<[5%nat := o]> (fz_put16 (fz_put16 b 1 x) 3 y)).

Definition nop3 : list Z := [0xea; 0xea; 0xea].

Definition prepareRace : M CSys unit :=
  let* c := cget in
  let sel := default 0 (selector !! Z.to_nat (cl_id c)) in
  patch 0x5486 [0x4c; 0xa7; 0xd4] ;;
  patch 0x532b nop3 ;;
  patch 0x52ef [0xa9; sel] ;;
  patch 0x572b [0xa9; sel] ;;
  for_each [0; 1; 2; 3] (fun slot =>
    when (negb (slot =? 0))
      (writeRam (0x1131 + slot * 2) (peer_car (peer_at (cl_peers c) (at2 slots (cl_id c) slot)))) ;;
    writeRam (0xc41 + slot * 2) (at2 palettes (cl_id c) slot)) ;;
  for_each [0x5dfc; 0x5dda; 0xdb6; 0x3db2; 0x3dd5; 0x3def; 0x3dfe; 0x3dae; 0x3dcb; 0x3de5]
    (fun a => patch a nop3) ;;
  patch 0xd3f [0] ;;
  patch 0x48ff [0x80] ;;
  patch 0x4d84 [0x80] ;;
  patch 0x1851f [0xa5; 0x55; 0xf0; 0x74].

(** The participants of the last snapshot, as a mask. *)
Definition participant_mask (l : list Peer) : Z :=
  fold_left (fun mask i =>
      let st := peer_status (peer_at l i) in
      if negb (st =? FZ_EMPTY) && negb (st =? FZ_DISCONNECTED)
      then u8 (Z.lor mask (u8 (Z.shiftl 1 i))) else mask) [0; 1; 2; 3] 0.

Definition frame_car_select : M CSys unit :=
  let* r55 := ram_at 0x55 in
  when (r55 =? 3)
    (let* r5a := ram_at 0x5a in
     cupd (fun c => {| c with cl_car := default 0 ([0; 2; 1; 3] !! Z.to_nat (Z.land r5a 3)) |})) ;;
  let* r55 := ram_at 0x55 in
  when (r55 =? 5) (patch 0x1851f [0x5c; 0x1f; 0x85; 0x03] ;; change Waiting).

Definition frame_waiting : M CSys unit :=
  let* c := cget in
  when ((cl_id c >=? 0) && negb (cl_selectedSent c) && (cl_phase c =? FZ_LOBBY))
    (queue [FZ_SELECT; cl_car c] ;; cupd (fun c => {| c with cl_selectedSent := true |})) ;;
  let* c := cget in
  when ((cl_id c >=? 0) && (cl_phase c =? FZ_LOADING)) (prepareRace ;; change Prepare).

Definition frame_prepare : M CSys unit :=
  patch 0x18795 [0x80] ;;
  patch 0x187fe [0x80] ;;
  let* c := cget in
  writeRam 0x53 (cl_track c) ;;
  writeRam 0x5a (cl_league c) ;;
  change Location.

Definition frame_location : M CSys unit :=
  patch 0xab1 [0xea; 0xea; 0xea; 0xea; 0xea; 0xea] ;;
  let* r54 := ram_at 0x54 in
  let* r55 := ram_at 0x55 in
  let* r56 := ram_at 0x56 in
  when ((r54 =? 2) && (r55 =? 0) && (r56 =? 2))
    (let* c := cget in
     when (negb (cl_loadedSent c) && (cl_phase c =? FZ_LOADING))
       (let* data := position FZ_LOADED in
        queue data ;;
        cupd (fun c => {| c with cl_loadedSent := true |})) ;;
     writeRam 0x53 0 ;;
     let* c := cget in
     let mask := participant_mask (cl_peers c) in
     let armed := (cl_phase c =? FZ_COUNTDOWN) && negb (mask =? 0)
                  && (Z.land (cl_armedMask c) mask =? mask) && dlt (cl_bestRtt c) d_1e12 in
     let* due := (if negb (cl_phase c =? FZ_RACING) && armed
                  then let* t := now in
                       ret (dle (d_of_Z (cl_startTime c)) (dadd (d_of_Z t) (cl_offset c)))
                  else ret false) in
     when ((cl_phase c =? FZ_RACING) || (armed && due))
       (opponents ;;
        patch 0xab1 [0xe6; 0x55; 0xe6; 0x55; 0x64; 0x56] ;;
        let* t := now in
        let skew := dsub (dadd (d_of_Z t) (cl_offset c)) (d_of_Z (cl_startTime c)) in
        log ("start_skew_us=" +:+ dec (default 0 (d_trunc skew))) ;;
        change Race)).

Definition frame_race : M CSys unit :=
  let* r54 := ram_at 0x54 in
  if r54 =? 3 then
    let* c := cget in
    when (negb (cl_finishedSent c))
      (queue [FZ_FINISH] ;; cupd (fun c => {| c with cl_finishedSent := true |})) ;;
    change Finished
  else
    let* data := position 0 in
    cupd (fun c => {| c with cl_stateSeq := u32 (cl_stateSeq c + 1) |}) ;;
    let* c := cget in
    send {| packet0 with pk_type := FZ_STATE; pk_seq := cl_stateSeq c; pk_length := 5;
                         pk_payload := memcpy (zeros PAYLOAD_SIZE) 0 (tail data) 5 |} ;;
    opponents.

Definition frame_finished : M CSys unit :=
  opponents ;;
  let* c := cget in
  when (cl_phase c =? FZ_RESULTS)
    (let* t := now in
     cupd (fun c => {| c with cl_resultsTime := t |}) ;;
     change Results).

Definition frame_results : M CSys unit :=
  let* c := cget in
  when (f_autoNext (cl_config c) && (cl_id c =? cl_host c) && negb (cl_resultsTime c =? 0))
    (let* t := now in
     when (u64 (t - cl_resultsTime c) >? 3000000)
       (queue [FZ_NEXT] ;; cupd (fun c => {| c with cl_resultsTime := 0 |}))).

Definition frame : M CSys unit :=
  let* c := cget in
  if negb (cl_attached c) || bool_decide (cl_game c = Disconnected) then skip
  else
    cupd (fun c => {| c with cl_frames := u64 (cl_frames c + 1) |}) ;;
    let* r54 := ram_at 0x54 in
    let* r55 := ram_at 0x55 in
    let* r56 := ram_at 0x56 in
    when ((r54 =? 0) && (r55 =? 1) && (r56 =? 0)) (writeRam 0x26d 0xf0 ;; writeRam 0x271 0xf0) ;;
    if f_baseline (cl_config c)
    then
      let* r54 := ram_at 0x54 in
      cupd (fun c => {| c with cl_game := if r54 =? 2 then Race else CarSelect |})
    else
      match cl_game c with
      | Init => patch 0x18176 [0xea] ;; patch 0x18143 [0x80] ;; change CarSelect
      | CarSelect => frame_car_select
      | Waiting => frame_waiting
      | Prepare => frame_prepare
      | Location => frame_location
      | Race => frame_race
      | Finished => frame_finished
      | Results => frame_results
      | Disconnected => skip
      end.

Definition scriptedButton (name : string) : M CSys bool :=
  let* c := cget in
  let m := ram (cl_memory c) in
  ret (if f_autoCar (cl_config c) <? 0 then false
       else if bool_decide (cl_game c = Race) then String.eqb name "B"
       else
         let pulse := cl_frames c mod 45 <? 3 in
         if bool_decide (cl_game c = CarSelect) && cl_attached c && (m 0x54 =? 1) && (m 0x55 =? 1)
            && negb (m 0x5a =? default 0 ([0; 2; 1; 3] !! Z.to_nat (f_autoCar (cl_config c))))
         then String.eqb name "Down" && pulse
         else String.eqb name "Start" && pulse).

End Model.
