(* ===== verification/Overlay.v ===== *)
(** * The statistics line over the picture ([Client::overlay])

    The picture is a row-major array of 32-bit pixels behind a pointer: a
    function from indices, with the index computed in [unsigned] as the code
    does. The theorem says which pixels a call can change. *)

From Stdlib Require Import Ascii.
From S2P Require Import Prelude State Double Text Protocol Client.

Local Open Scope string_scope.
Local Open Scope list_scope.
Local Open Scope Z_scope.

(** ** The drawing *)

Definition font : list bytes :=
  [[62;81;73;69;62];[0;66;127;64;0];[66;97;81;73;70];[33;65;69;75;49];[24;20;18;127;16];
   [39;69;69;69;57];[60;74;73;73;48];[1;113;9;5;3];[54;73;73;73;54];[6;73;73;41;30];
   [126;17;17;17;126];[127;73;73;73;54];[62;65;65;65;34];[127;65;65;34;28];[127;73;73;73;65];
   [127;9;9;9;1];[62;65;73;73;122];[127;8;8;8;127];[0;65;127;65;0];[32;64;65;63;1];
   [127;8;20;34;65];[127;64;64;64;64];[127;2;12;2;127];[127;4;8;16;127];[62;65;65;65;62];
   [127;9;9;9;6];[62;65;81;33;94];[127;9;25;41;70];[70;73;73;73;49];[1;1;127;1;1];
   [63;64;64;64;63];[31;32;64;32;31];[63;64;56;64;63];[99;20;8;20;99];[7;8;112;8;7];[97;81;73;69;67]].

Definition percent : bytes := [0x23; 0x13; 0x08; 0x64; 0x62].

(** The columns of a character, when it has a glyph. *)
Definition glyph (c : ascii) : option bytes :=
  let n := nat_of_ascii c in
  if ((48 <=? n) && (n <=? 57))%nat then font !! (n - 48)%nat
  else if ((65 <=? n) && (n <=? 90))%nat then font !! (10 + n - 65)%nat
  else if Ascii.eqb c "%" then Some percent
  else None.

(** Whether pixel [x], [y] of the character is lit. *)
Definition lit (c : ascii) (x y : nat) : bool :=
  match glyph c with
  | Some g => negb (Z.land (rd g x) (Z.shiftl 1 (Z.of_nat y)) =? 0)
  | None => if Ascii.eqb c "-" then (y =? 3)%nat
            else if Ascii.eqb c "." then ((x =? 2) && (y =? 6))%nat else false
  end.

Definition overlay_line (v : View) : string :=
  snprintf 160 ("RTT " +:+ show_f0 (v_rtt v) +:+ "MS JIT " +:+ show_f0 (v_jitter v) +:+ "MS LOSS "
                +:+ show_f1 (v_loss v) +:+ "%").

(** [pixels[y*pitch+x]], the index in [unsigned]. *)
Definition pixel_index (pitch y x : Z) : Z := u32 (u32 (y * pitch) + x).

Definition darken (p : Z) : Z :=
  Z.lor (Z.land p 0xff000000) (Z.shiftr (Z.land p 0x00fefefe) 2).

(** The ten darkened rows. *)
Definition shade (pixels : Z -> Z) (width pitch : Z) : Z -> Z :=
  foldl (fun px '(y, x) => let k := pixel_index pitch y x in poke px k (darken (px k))) pixels
    (flat_map (fun y => map (fun x => (Z.of_nat y, Z.of_nat x)) (seq 0 (Z.to_nat width))) (seq 0 10)).

(** One character, [n] characters from the left. *)
Definition draw_char (pixels : Z -> Z) (pitch n : Z) (c : ascii) : Z -> Z :=
  foldl (fun px '(x, y) =>
      if lit c x y
      then poke px (pixel_index pitch (2 + Z.of_nat y) (3 + n * 6 + Z.of_nat x)) 0xffffffff
      else px) pixels
    (flat_map (fun x => map (fun y => (x, y)) (seq 0 7)) (seq 0 5)).

Fixpoint draw_line (pixels : Z -> Z) (width pitch n : Z) (line : string) : Z -> Z :=
  match line with
  | EmptyString => pixels
  | String c line =>
      if n * 6 + 7 <? width then draw_line (draw_char pixels pitch n c) width pitch (n + 1) line
      else pixels
  end.

Definition overlay (c : Client) (pixels : Z -> Z) (width height pitch : Z) : Z -> Z :=
  if negb (f_overlay (cl_config c)) || (width =? 0) || (height <? 10) then pixels
  else draw_line (shade pixels width pitch) width pitch 0 (overlay_line (cl_published c)).

(** ** Which pixels change *)

(** The picture's first ten rows. *)
Definition in_band (width pitch a : Z) : Prop :=
  exists y x, 0 <= y < 10 /\ 0 <= x < width /\ a = y * pitch + x.

(** [g] differs from [f] only in the band. *)
Definition band_only (width pitch : Z) (f g : Z -> Z) : Prop :=
  forall a, ~ in_band width pitch a -> g a = f a.

Lemma band_only_refl width pitch f : band_only width pitch f f.
Proof. by intros a. Qed.

Lemma band_only_trans width pitch f g h :
  band_only width pitch f g -> band_only width pitch g h -> band_only width pitch f h.
Proof. intros H1 H2 a Ha. by rewrite (H2 a Ha), (H1 a Ha). Qed.

Section Bounds.
Context (width height pitch : Z).
Context (Hwidth : 0 <= width <= pitch) (Hheight : 10 <= height) (Hsize : height * pitch <= 2 ^ 32).

Lemma pixel_index_exact y x : 0 <= y < 10 -> 0 <= x < width -> pixel_index pitch y x = y * pitch + x.
Proof.
  intros Hy Hx. unfold pixel_index. assert (y * pitch + x < 10 * pitch) by nia.
  rewrite (u32_small (y * pitch)) by (unfold fits; nia). apply u32_small. unfold fits. nia.
Qed.

Lemma poke_band f y x v :
  0 <= y < 10 -> 0 <= x < width -> band_only width pitch f (poke f (pixel_index pitch y x) v).
Proof.
  intros Hy Hx a Ha. unfold poke. destruct (Z.eqb_spec a (pixel_index pitch y x)) as [->|]; [|done].
  destruct Ha. exists y, x. by rewrite pixel_index_exact.
Qed.

(** A fold of pokes inside the band stays in the band. *)
Lemma foldl_band {A} (step : (Z -> Z) -> A -> Z -> Z) (l : list A) :
  (forall f q, q ∈ l -> band_only width pitch f (step f q)) ->
  forall f, band_only width pitch f (foldl step f l).
Proof.
  induction l as [|q l IH]; intros H f; [apply band_only_refl|]. simpl.
  eapply band_only_trans; [apply H; left|]. apply IH. intros g r Hr. apply H. by right.
Qed.

Lemma shade_band f : band_only width pitch f (shade f width pitch).
Proof.
  apply foldl_band. intros g [y x] Hq%list_elem_of_In%in_flat_map.
  destruct Hq as (i & Hi%in_seq & Hx%in_map_iff). destruct Hx as (j & [= <- <-] & Hj%in_seq).
  apply poke_band; lia.
Qed.

Lemma draw_char_band f n c : 0 <= n -> n * 6 + 7 < width -> band_only width pitch f (draw_char f pitch n c).
Proof.
  intros Hn Hw. apply foldl_band. intros g [x y] Hq%list_elem_of_In%in_flat_map.
  destruct Hq as (i & Hi%in_seq & Hx%in_map_iff). destruct Hx as (j & [= <- <-] & Hj%in_seq).
  destruct (lit c i j); [|apply band_only_refl]. apply poke_band; lia.
Qed.

Lemma draw_line_band line : forall f n, 0 <= n -> band_only width pitch f (draw_line f width pitch n line).
Proof.
  induction line as [|c line IH]; intros f n Hn; simpl; [apply band_only_refl|].
  destruct (Z.ltb_spec (n * 6 + 7) width); [|apply band_only_refl].
  eapply band_only_trans; [by apply draw_char_band|]. apply IH. lia.
Qed.

(** C34. Drawing the statistics line is memory safe: in a picture of [height]
    rows of [pitch] pixels, of which [width] are visible, [overlay] changes
    nothing below the tenth row, nothing right of the visible columns and
    nothing outside the picture. *)
Theorem overlay_in_bounds c pixels a :
  a < 0 \/ height * pitch <= a \/ 10 <= a / pitch \/ width <= a mod pitch ->
  overlay c pixels width height pitch a = pixels a.
Proof.
  intros Ha. unfold overlay. destruct (_ || _); [done|].
  eapply band_only_trans; [apply shade_band|by apply draw_line_band|].
  intros (y & x & Hy & Hx & ->). assert (0 <= x < pitch) by lia.
  rewrite Z.add_comm, Z.div_add, Z.mod_add, Z.div_small, Z.mod_small in Ha by lia. nia.
Qed.

End Bounds.

(** ** A small picture *)

(** The text of the line, a shaded, a lit and an untouched pixel. *)
Example overlay_sample :
  overlay_line view0 = "RTT 0MS JIT 0MS LOSS 0.0%" /\
  let drawn := overlay (client0 config0) (fun _ => 0xff808080) 256 224 256 in
  map drawn [0; 2 * 256 + 2; 2 * 256 + 3; 11 * 256] = [0xff202020; 0xff202020; 0xffffffff; 0xff808080].
Proof. by vm_compute. Qed.

Lemma overlay_in_bounds_witness :
  overlay (client0 config0) (fun _ => 0xff808080) 256 224 512 (3 * 512 + 300) = 0xff808080.
Proof. apply (overlay_in_bounds 256 224 512); try lia. right. right. right. by vm_compute. Defined.
