(* ===== verification/Replication.v ===== *)
(** * From the server's room to the client's picture of it

    The payload of a snapshot, byte by byte, the datagrams [snapshot] sends and
    what [Client::receive] makes of them. *)

From S2P Require Import Prelude State Double Text Protocol Server Room ServerCore ServerRefine Scenario ServerRun ServerProps Client.

Local Open Scope Z_scope.
Local Open Scope fz_scope.

(** ** The documented layout *)

Definition armed_bit (s : Server) (i : nat) : bool :=
  occupied (player_at s i) && (p_armed (player_at s i) =? s_start s) && negb (s_start s =? 0).

Definition armed_mask (s : Server) : Z :=
  fold_left (fun m i => if armed_bit s i then u8 (Z.lor m (u8 (Z.shiftl 1 (Z.of_nat i)))) else m) all4 0.

(** Milliseconds since a player's last update, saturated. *)
Definition age32 (now : Z) (p : Player) : Z :=
  let age := age_ms now p in u32 (if age >? 4294967295 then 4294967295 else age).

Definition player_record (now : Z) (p : Player) : bytes :=
  [p_status p; p_car p] ++ le16 (p_x p) ++ le16 (p_y p) ++ [p_orientation p; 0] ++
  le32 (p_state_seq p) ++ le32 (age32 now p).

Definition snapshot_layout (s : Server) (now : Z) : bytes :=
  [s_phase s; s_expected s; s_host s; s_track s; s_league s; armed_mask s; 0; 0] ++
  le64 now ++ le64 (s_start s) ++
  player_record now (player_at s 0) ++ player_record now (player_at s 1) ++
  player_record now (player_at s 2) ++ player_record now (player_at s 3).

(** The payload [snapshot] builds. *)
Definition snapshot_payload (s : Server) (now : Z) : bytes :=
  let b := zeros PAYLOAD_SIZE in
  let b := <[0%nat := s_phase s]> b in
  let b := <[1%nat := s_expected s]> b in
  let b := <[2%nat := s_host s]> b in
  let b := <[3%nat := s_track s]> b in
  let b := <[4%nat := s_league s]> b in
  let b := fz_put64 b 8 now in
  let b := fz_put64 b 16 (s_start s) in
  fold_left (snapshot_player s now) all4 b.

Lemma snapshot_payload_layout s now :
  snapshot_payload s now = snapshot_layout s now ++ zeros 132.
Proof.
  unfold snapshot_payload, snapshot_layout, armed_mask, all4. cbn [fold_left].
  unfold snapshot_player. fold (armed_bit s 0) (armed_bit s 1) (armed_bit s 2) (armed_bit s 3).
  destruct (armed_bit s 0), (armed_bit s 1), (armed_bit s 2), (armed_bit s 3); reflexivity.
Qed.

(** The packet for slot [i]. *)
Definition snapshot_packet (s : Server) (now : Z) (i : nat) : fz_packet :=
  {| pk_type := FZ_SNAPSHOT; pk_length := FZ_SNAPSHOT_SIZE; pk_seq := s_snapshot_seq s;
                  pk_payload := snapshot_payload s now; pk_session := s_session s; pk_race := s_race s;
                  pk_token := p_token (player_at s i); pk_ack := p_command_seq (player_at s i) |}.

(** The server whose state a snapshot describes. *)
Definition numbered (s : Server) : Server := {| s with s_snapshot_seq := u32 (s_snapshot_seq s + 1) |}.

(** The datagrams of a snapshot, in the order they are sent. *)
Definition snapshot_datagrams (s : Server) (now : Z) : list (sockaddr_in * bytes) :=
  map (fun i => (p_address (player_at s i), datagram (snapshot_packet s now i)))
    (List.filter (fun i => occupied (player_at s i)) all4).

(** What a client should know of a player. *)
Definition peer_of (now : Z) (p : Player) : Peer :=
  mk_peer (p_status p) (p_car p) (p_orientation p) (p_x p) (p_y p) (p_state_seq p) (age32 now p).

(** A client's picture of the room and the one the server has. *)
Record picture := mk_picture {
  pic_phase : Z; pic_expected : Z; pic_host : Z; pic_track : Z; pic_league : Z; pic_armed : Z;
  pic_race : Z; pic_start : Z; pic_peers : list Peer
}.

Definition client_picture (γ : CSys) : picture :=
  let c := cl γ in
  mk_picture (cl_phase c) (cl_expected c) (cl_host c) (cl_track c) (cl_league c) (cl_armedMask c)
    (cl_race c) (cl_startTime c) (cl_peers c).

Definition server_picture (s : Server) (now : Z) : picture :=
  mk_picture (s_phase s) (s_expected s) (s_host s) (s_track s) (s_league s) (armed_mask s)
    (s_race s) (s_start s) (map (fun i => peer_of now (player_at s i)) all4).

(** ** Bytes of the layout *)

Lemma all_bytes_cons v l : fits 8 v -> all_bytes l -> all_bytes (v :: l).
Proof. by constructor. Qed.

Lemma all_bytes_nil : all_bytes [].
Proof. constructor. Qed.

Lemma all_bytes_le16 v : all_bytes (le16 v).
Proof. unfold le16. repeat (apply all_bytes_cons; [auto with fz|]). apply all_bytes_nil. Qed.

Lemma all_bytes_le32 v : all_bytes (le32 v).
Proof. unfold le32. apply all_bytes_app. auto using all_bytes_le16. Qed.

Lemma all_bytes_le64 v : all_bytes (le64 v).
Proof. unfold le64. apply all_bytes_app. auto using all_bytes_le32. Qed.

#[local] Hint Resolve all_bytes_nil all_bytes_le16 all_bytes_le32 all_bytes_le64 all_bytes_cons : fz.

Lemma all_bytes_record now p : wf_player p -> all_bytes (player_record now p).
Proof.
  intros W. unfold player_record. rewrite !all_bytes_app.
  destruct (wf_pos _ W) as (_ & _ & Ho). pose proof (wf_status _ W). pose proof (wf_car _ W).
  unfold FZ_EMPTY, FZ_DISCONNECTED in *.
  split_and!; auto with fz; repeat apply all_bytes_cons; auto with fz; unfold fits; lia.
Qed.

Lemma fits_fold_mask (f : nat -> bool) l m :
  fits 8 m -> fits 8 (fold_left (fun m i =>
    if f i then u8 (Z.lor m (u8 (Z.shiftl 1 (Z.of_nat i)))) else m) l m).
Proof. revert m. induction l as [|i l IH]; intros m Hm; [done|]. apply IH. case_if; auto with fz. Qed.

Lemma wf_player_at s i : wf_core (core s) -> wf_player (player_at s i).
Proof.
  intros W. rewrite player_at_pl. unfold pl_at. destruct (k_players (core s) !! i) eqn:Hi; [|apply wf_player0].
  eapply Forall_lookup_1; [apply W|done].
Qed.

Lemma all_bytes_snapshot s now : good (core s) -> all_bytes (snapshot_payload s now).
Proof.
  intros [W I]. rewrite snapshot_payload_layout. apply all_bytes_app. split; [|apply all_bytes_zeros].
  unfold snapshot_layout. rewrite !all_bytes_app.
  assert (0 <= s_phase s <= 4) as H1 by apply (wf_phase _ W).
  assert (s_host s = 255 \/ 0 <= s_host s < 4) as H2 by apply (wf_host _ W).
  assert (2 <= s_expected s <= 4) as H3 by apply (inv_capacity _ I).
  assert (0 <= s_track s < 5 /\ 0 <= s_league s < 3) as [H4 H5] by apply (inv_course _ I).
  assert (fits 8 (armed_mask s)) as H6 by (by apply fits_fold_mask).
  split_and!; auto using all_bytes_record, wf_player_at with fz.
  repeat apply all_bytes_cons; auto with fz; unfold fits; lia.
Qed.

Lemma snapshot_packet_wf s now i :
  good (core s) -> fits 32 (s_snapshot_seq s) -> wf_packet (snapshot_packet s now i).
Proof.
  intros G Hq. pose proof (proj1 G) as W. pose proof (wf_player_at s i W) as Wp.
  repeat split; try done; try apply W; try apply Wp; try apply Hq.
  - cbn [pk_payload snapshot_packet]. by rewrite snapshot_payload_layout.
  - by apply all_bytes_snapshot.
Qed.

(** ** Sending *)

Section Sending.
Context {E : Env}.

Definition sentσ (σ : Sys) : list (sockaddr_in * bytes) := w_sent (wld σ).

(** A well-formed packet leaves as its datagram. *)
Lemma encode_datagram p :
  wf_packet p ->
  fz_encode (zeros 256) FZ_MAX_PACKET p =
    (FZ_HEADER + pk_length p, datagram p ++ drop (Z.to_nat (FZ_HEADER + pk_length p)) (zeros 256)).
Proof.
  intros W. apply fz_encode_layout; [done| |done].
  destruct W as (_ & Hl & _). unfold FZ_HEADER, FZ_MAX_PACKET, PAYLOAD_SIZE in *. lia.
Qed.

Lemma transmit_sent a p σ :
  wf_packet p -> sentσ (exec (transmit a p) σ) = sentσ σ ++ [(a, datagram p)].
Proof.
  intros W. unfold transmit. rewrite (encode_datagram p W). rewrite !exec_bind, exec_when.
  replace (take (Z.to_nat (FZ_HEADER + pk_length p)) _) with (datagram p).
  - case_if; done.
  - rewrite take_app_length' by (by rewrite datagram_length). done.
Qed.

Lemma send_player_sent i p σ :
  let s := srv σ in
  let q := {| p with pk_session := s_session s; pk_race := s_race s;
                     pk_token := p_token (player_at s i); pk_ack := p_command_seq (player_at s i) |} in
  wf_packet q ->
  sentσ (exec (send_player i p) σ) = sentσ σ ++ [(p_address (player_at s i), datagram q)].
Proof. intros s q W. unfold send_player. rewrite exec_bind. by apply transmit_sent. Qed.

(** A loop that sends [packet] to the participants among [l]. *)
Lemma send_each_sent l packet σ :
  let s := srv σ in
  let q i := {| packet with pk_session := s_session s; pk_race := s_race s;
                            pk_token := p_token (player_at s i);
                            pk_ack := p_command_seq (player_at s i) |} in
  (forall i, wf_packet (q i)) ->
  sentσ (exec (for_each l (fun i =>
    let* s := get in when (occupied (player_at s i)) (send_player i packet))) σ) =
    sentσ σ ++ map (fun i => (p_address (player_at s i), datagram (q i)))
                 (List.filter (fun i => occupied (player_at s i)) l).
Proof.
  revert σ. induction l as [|i l IH]; intros σ s q Hq; [by rewrite app_nil_r|].
  cbn [for_each List.filter]. rewrite !exec_bind, exec_get, eval_get. fold s. set (τ := exec (when _ _) σ).
  assert (core (srv τ) = core s) as Hτ.
  { change (coreσ τ = coreσ σ). unfold τ. apply kept. auto with keeps. }
  assert (forall j, player_at (srv τ) j = player_at s j) as Hp.
  { intros j. rewrite !player_at_pl. by rewrite Hτ. }
  assert (s_session (srv τ) = s_session s /\ s_race (srv τ) = s_race s) as [Hs Hr].
  { change (k_session (core (srv τ)) = k_session (core s) /\ k_race (core (srv τ)) = k_race (core s)).
    by rewrite Hτ. }
  assert (sentσ τ = sentσ σ ++ if occupied (player_at s i)
    then [(p_address (player_at s i), datagram (q i))] else []) as Ht.
  { unfold τ. rewrite exec_when. case_if; [apply send_player_sent, Hq|by rewrite app_nil_r]. }
  rewrite (IH τ).
  - rewrite Ht. rewrite Hs, Hr. rewrite (List.filter_ext (fun i => occupied (player_at (srv τ) i))
      (fun i => occupied (player_at s i))) by (intros; by rewrite Hp).
    rewrite <- app_assoc. f_equal. case_if; cbn [map app]; [f_equal|];
      apply map_ext; intros j; by rewrite Hp.
  - intros j. rewrite Hp, Hs, Hr. apply Hq.
Qed.

Lemma exec_now_us σ :
  exec now_us σ = mk_sys (srv σ) (let w := wld σ in {| w with w_clock := S (w_clock w) |}).
Proof. done. Qed.

Lemma snapshot_sent σ :
  good (coreσ σ) ->
  sentσ (exec snapshot σ) =
    sentσ σ ++ snapshot_datagrams (numbered (srv σ)) (now_at (w_clock (wld σ))).
Proof.
  intros G. unfold snapshot. rewrite exec_bind. set (τ := exec (upd _) σ).
  change (srv τ) with (numbered (srv σ)) in *. rewrite exec_bind, exec_get, eval_get, exec_bind.
  change (eval now_us τ) with (now_at (w_clock (wld σ))).
  change (srv τ) with (numbered (srv σ)). set (now := now_at (w_clock (wld σ))).
  set (s := numbered (srv σ)).
  rewrite send_each_sent; rewrite exec_now_us; [done|]. intros i.
  change (wf_packet (snapshot_packet s now i)). apply snapshot_packet_wf; [exact G|].
  unfold s, numbered. cbn. auto with fz.
Qed.

End Sending.

(** ** Reading a snapshot *)

Lemma snapshot_trimmed s now i : trimmed (snapshot_packet s now i) = snapshot_packet s now i.
Proof.
  unfold trimmed, snapshot_packet. cbn [pk_length pk_payload]. rewrite snapshot_payload_layout. reflexivity.
Qed.

Lemma snapshot_decodes s now i :
  wf_packet (snapshot_packet s now i) ->
  let d := datagram (snapshot_packet s now i) in
  fz_decode d (Z.of_nat (length d)) = Some (snapshot_packet s now i).
Proof.
  intros W d. unfold d. rewrite datagram_length by done.
  rewrite Z2Nat.id by (destruct W as (_ & ? & _); unfold FZ_HEADER; lia).
  rewrite <- (app_nil_r (datagram _)), fz_decode_datagram by done. by rewrite snapshot_trimmed.
Qed.

Lemma layout_start s now : fits 64 (s_start s) -> fz_u64 (snapshot_payload s now) 16 = s_start s.
Proof.
  intros Hs. rewrite snapshot_payload_layout, fz_u64_drop.
  change (drop 16 (snapshot_layout s now ++ zeros 132)) with
    (le64 (s_start s) ++ drop 24 (snapshot_layout s now ++ zeros 132)). by apply fz_u64_le64.
Qed.

Lemma layout_times s now :
  fits 64 now -> fits 64 (s_start s) ->
  fz_u64 (snapshot_payload s now) 8 = now /\ fz_u64 (snapshot_payload s now) 16 = s_start s.
Proof.
  intros Hn Hs. split; [|by apply layout_start]. rewrite snapshot_payload_layout, fz_u64_drop.
  change (drop 8 (snapshot_layout s now ++ zeros 132)) with
    (le64 now ++ drop 16 (snapshot_layout s now ++ zeros 132)). by apply fz_u64_le64.
Qed.

(** One player record, wherever it starts. *)
Lemma record_read b q now p rest :
  drop q b = player_record now p ++ rest -> wf_player p ->
  mk_peer (rd b q) (rd b (q + 1)) (rd b (q + 6)) (fz_u16 b (q + 2)) (fz_u16 b (q + 4))
    (fz_u32 b (q + 8)) (fz_u32 b (q + 12)) = peer_of now p.
Proof.
  intros Hd W. destruct (wf_pos _ W) as (Hx & Hy & _). pose proof (wf_state_seq _ W) as Hq.
  assert (forall k, rd b (q + k) = rd (player_record now p ++ rest) k) as Hr
    by (intros k; by rewrite <- Hd, rd_drop).
  assert (forall k, drop (q + k) b = drop k (player_record now p ++ rest)) as Hk
    by (intros k; by rewrite <- Hd, drop_drop).
  rewrite <- (Nat.add_0_r q) at 1. rewrite !Hr, !(fz_u16_drop b), !(fz_u32_drop b), !Hk.
  unfold peer_of. f_equal.
  - change (drop 2 _) with (le16 (p_x p) ++ drop 4 (player_record now p ++ rest)). by apply fz_u16_le16.
  - change (drop 4 _) with (le16 (p_y p) ++ drop 6 (player_record now p ++ rest)). by apply fz_u16_le16.
  - change (drop 8 _) with (le32 (p_state_seq p) ++ drop 12 (player_record now p ++ rest)).
    by apply fz_u32_le32.
  - change (drop 12 _) with (le32 (age32 now p) ++ drop 16 (player_record now p ++ rest)).
    apply fz_u32_le32. unfold age32. auto with fz.
Qed.

Lemma layout_peers s now :
  wf_core (core s) ->
  map (snapshot_peer (snapshot_payload s now)) [0; 1; 2; 3]%nat =
    map (fun i => peer_of now (player_at s i)) all4.
Proof.
  intros W. rewrite snapshot_payload_layout. unfold all4. cbn [map].
  f_equal; [|f_equal; [|f_equal; [|f_equal]]]; unfold snapshot_peer;
    (eapply record_read; [reflexivity|by apply wf_player_at]).
Qed.

Lemma snapshot_valid_good s now i : good (core s) -> snapshot_valid (snapshot_packet s now i) = true.
Proof.
  intros [W I]. unfold snapshot_valid. cbn [pk_payload pk_type pk_length snapshot_packet].
  rewrite snapshot_payload_layout.
  assert (0 <= s_phase s <= 4) as H1 by apply (wf_phase _ W).
  assert (s_host s = 255 \/ 0 <= s_host s < 4) as H2 by apply (wf_host _ W).
  assert (2 <= s_expected s <= 4) as H3 by apply (inv_capacity _ I).
  assert (0 <= s_track s < 5 /\ 0 <= s_league s < 3) as [H4 H5] by apply (inv_course _ I).
  assert (forall j, FZ_EMPTY <= p_status (player_at s j) <= FZ_DISCONNECTED /\
                    0 <= p_car (player_at s j) < 4) as Hp.
  { intros j. pose proof (wf_player_at s j W) as Wp. split; apply Wp. }
  apply andb_true_iff. split.
  - apply negb_true_iff. set (b := snapshot_layout s now ++ zeros 132).
    change (rd b 0) with (s_phase s). change (rd b 1) with (s_expected s).
    change (rd b 2) with (s_host s). change (rd b 3) with (s_track s).
    change (rd b 4) with (s_league s). rewrite !orb_false_iff. unfold FZ_RESULTS.
    split_and!; try done; try (rewrite ?Z.gtb_ltb; apply Z.ltb_ge; lia).
    destruct H2 as [->|H2]; [done|]. rewrite Z.gtb_ltb. destruct (Z.ltb_spec 3 (s_host s)); [lia|done].
  - apply forallb_forall. intros j Hj. apply negb_true_iff, orb_false_iff.
    destruct (Hp j) as [Hs Hc]. unfold FZ_EMPTY, FZ_DISCONNECTED in *.
    assert (rd (snapshot_layout s now ++ zeros 132) (24 + j * 16) = p_status (player_at s j) /\
            rd (snapshot_layout s now ++ zeros 132) (25 + j * 16) = p_car (player_at s j)) as [-> ->]
      by (destruct Hj as [<-|[<-|[<-|[<-|[]]]]]; done).
    rewrite !Z.gtb_ltb. split; apply Z.ltb_ge; lia.
Qed.

(** ** Receiving *)

Section Receiving.
Context {E : ClientEnv}.

Lemma cupd_picture f :
  (forall c w, client_picture (mk_csys (f c) w) = client_picture (mk_csys c w)) ->
  keeps client_picture (cupd f).
Proof. intros H [c w]. apply H. Qed.

#[local] Hint Extern 2 (keeps client_picture (cupd _)) =>
  apply cupd_picture; intros; cbv beta; try case_if; reflexivity : keeps.

Lemma queue_picture command : keeps client_picture (queue command).
Proof. unfold queue, cget. auto 10 with keeps. Qed.

Lemma bufferSnapshot_picture t : keeps client_picture (bufferSnapshot t).
Proof. unfold bufferSnapshot. auto 10 with keeps. Qed.

#[local] Hint Resolve queue_picture bufferSnapshot_picture : keeps.

Lemma now_race f : keeps (fun γ => cl_race (cl γ)) (cupdw f).
Proof. by intros γ. Qed.

Lemma log_race text : keeps (fun γ => cl_race (cl γ)) (log text).
Proof.
  unfold log, now. repeat (apply keeps_bind; [|intros ?]); try done.
  intros [c w]. cbn. unfold exec, cupd, modify. cbn. by case_if.
Qed.

Lemma write_back_race m : keeps (fun γ => cl_race (cl γ)) (write_back m).
Proof. unfold write_back. apply keeps_for_each. by intros q γ. Qed.

Lemma resetGame_race : keeps (fun γ => cl_race (cl γ)) resetGame.
Proof.
  unfold resetGame, restore, reset, clearSnapshotBuffer, cget.
  repeat (apply keeps_bind; [|intros ?]); try done;
    try (by apply keeps_when, write_back_race).
  intros [c w]. unfold exec, cupd, modify. cbn. by case_if.
Qed.

Lemma adopt_snapshot_picture b γ :
  client_picture (exec (adopt_snapshot b) γ) =
    mk_picture (rd b 0) (rd b 1) (rd b 2) (rd b 3) (rd b 4) (rd b 5) (cl_race (cl γ)) (fz_u64 b 16)
      (map (snapshot_peer b) [0; 1; 2; 3]%nat).
Proof.
  unfold adopt_snapshot. rewrite exec_bind. set (γ1 := exec _ γ).
  rewrite kept; [done|]. unfold cget. auto 10 with keeps.
Qed.

Lemma new_race_race p γ :
  cl_race (cl (exec (when (negb (pk_race p =? cl_race (cl γ)))
    (cupd (fun c => {| c with cl_race := pk_race p; cl_commandSeq := pk_ack p; cl_stateSeq := 0;
                              cl_pending := [] |}) ;;
     resetGame ;; log "New race lobby")) γ)) = pk_race p.
Proof.
  rewrite exec_when. destruct (Z.eqb_spec (pk_race p) (cl_race (cl γ))) as [Hb|Hb]; [done|].
  cbn [negb]. rewrite !exec_bind. set (γ1 := exec (cupd _) γ).
  transitivity (cl_race (cl γ1)); [|done]. clearbody γ1.
  rewrite (kept (fun γ => cl_race (cl γ))) by apply log_race.
  by rewrite (kept (fun γ => cl_race (cl γ))) by apply resetGame_race.
Qed.

(** The picture after an accepted snapshot is the one in the packet. *)
Lemma receive_snapshot_picture p t γ :
  fz_newer (pk_seq p) (cl_snapshotSeq (cl γ)) = true ->
  (pk_race p = cl_race (cl γ) \/ fz_newer (pk_race p) (cl_race (cl γ)) = true) ->
  let b := pk_payload p in
  client_picture (exec (receive_snapshot p t) γ) =
    mk_picture (rd b 0) (rd b 1) (rd b 2) (rd b 3) (rd b 4) (rd b 5) (pk_race p) (fz_u64 b 16)
      (map (snapshot_peer b) [0; 1; 2; 3]%nat).
Proof.
  intros Hq Hr b. unfold receive_snapshot. rewrite exec_bind. change (eval cget γ) with (cl γ).
  change (exec cget γ) with γ. rewrite Hq.
  assert (negb (pk_race p =? cl_race (cl γ)) && negb (fz_newer (pk_race p) (cl_race (cl γ))) = false)
    as -> by (destruct Hr as [->| ->]; [by rewrite Z.eqb_refl|by rewrite andb_false_r]).
  cbn [negb orb]. rewrite exec_bind. set (γ1 := exec (when _ _) γ). clearbody γ1.
  rewrite exec_bind. set (γ2 := exec (cupd _) γ1). clearbody γ2.
  rewrite exec_bind. set (γ3 := exec (cupd _) γ2). clearbody γ3.
  rewrite exec_bind. change (eval cget γ3) with (cl γ3). change (exec cget γ3) with γ3.
  rewrite exec_bind, adopt_snapshot_picture. f_equal. apply new_race_race.
Qed.

(** A joined client hands a snapshot of its session to [receive_snapshot]. *)
Lemma receive_is_snapshot p γ :
  0 <= cl_id (cl γ) -> pk_session p = cl_session (cl γ) -> pk_token p = cl_token (cl γ) ->
  pk_type p = FZ_SNAPSHOT -> snapshot_valid p = true ->
  exists t, exec (receive p) γ = exec (receive_snapshot p t) (exec now γ).
Proof.
  intros Hi Hs Ht Hty Hv. exists (eval now γ). unfold receive. rewrite exec_bind.
  change (eval now γ) with (u64 (steady_clock (cw_clock (cw γ)))). set (t := u64 _).
  rewrite exec_bind. change (eval cget (exec now γ)) with (cl γ). change (exec cget ?τ) with τ.
  rewrite Hty, Hs, Ht, Hv, !Z.eqb_refl. destruct (Z.ltb_spec (cl_id (cl γ)) 0); [lia|]. done.
Qed.

End Receiving.

(** C10. Replication end to end: among the datagrams [snapshot] sends there is one
    to each participant's endpoint that a client that has joined as that
    participant and has seen nothing newer decodes and accepts; it then holds
    exactly the server's phase, configuration, host, deadline, armed mask,
    generation and the status, car, position and movement sequence of all four
    slots. *)
Theorem client_mirrors_server {E : Env} {F : ClientEnv} σ γ i :
  good (coreσ σ) -> (i < 4)%nat -> occupied (player_at (srv σ) i) = true ->
  let s := numbered (srv σ) in
  let now := now_at (w_clock (wld σ)) in
  let d := datagram (snapshot_packet s now i) in
  0 <= cl_id (cl γ) -> cl_session (cl γ) = s_session s -> cl_token (cl γ) = p_token (player_at s i) ->
  fz_newer (s_snapshot_seq s) (cl_snapshotSeq (cl γ)) = true ->
  s_race s = cl_race (cl γ) \/ fz_newer (s_race s) (cl_race (cl γ)) = true ->
  (p_address (player_at s i), d) ∈ drop (length (sentσ σ)) (sentσ (exec snapshot σ)) /\
  exists p, fz_decode d (Z.of_nat (length d)) = Some p /\
            client_picture (exec (receive p) γ) = server_picture s now.
Proof.
  intros G Hi Ho s now d Hid Hs Ht Hq Hr.
  assert (wf_packet (snapshot_packet s now i)) as W.
  { apply snapshot_packet_wf; [exact G|]. unfold s, numbered. cbn. auto with fz. }
  split.
  - rewrite snapshot_sent, drop_app_length by done. unfold snapshot_datagrams.
    apply list_elem_of_In, in_map_iff. exists i. split; [done|]. apply filter_In. split; [|done].
    simpl. lia.
  - exists (snapshot_packet s now i). split; [by apply snapshot_decodes|].
    destruct (receive_is_snapshot (snapshot_packet s now i) γ) as [t ->]; try done.
    { by apply snapshot_valid_good. }
    rewrite receive_snapshot_picture by done. unfold server_picture.
    cbn [pk_payload pk_race snapshot_packet]. rewrite layout_peers by apply G.
    destruct (layout_times s now) as [_ ->].
    + unfold now, now_at. destruct (clock_gettime _). auto with fz.
    + apply (wf_start _ (proj1 G)).
    + rewrite snapshot_payload_layout. reflexivity.
Qed.

(** ** A concrete run *)

#[export] Instance demo_client_env : ClientEnv := {|
  steady_clock n := Z.of_nat n * 1000;
  recv_data _ := None;
  send_result _ := 0;
  reset_ram m := m;
  resolves _ _ := true;
  udp_socket := 4;
  connects := true;
  nonblocking := true;
  random_nonce := Some 7
|}.

Definition demo_client_config : Config :=
  {| config0 with f_key := demo_key |}.

(** Alice's client, joined. *)
Definition alice_client : CSys :=
  mk_csys {| (client0 demo_client_config) with cl_id := 0; cl_session := 100; cl_token := 101;
                                               cl_race := 1; cl_socket := 4 |} (mk_cworld 0 0 0 []).

Lemma client_mirrors_server_witness :
  let s := numbered (srv (demo_after 3)) in
  let now := now_at (w_clock (wld (demo_after 3))) in
  let d := datagram (snapshot_packet s now 0) in
  exists p, fz_decode d (Z.of_nat (length d)) = Some p /\
            client_picture (exec (receive p) alice_client) = server_picture s now.
Proof.
  apply (client_mirrors_server (demo_after 3) alice_client 0); try (by vm_compute).
  - apply demo_after_good.
  - lia.
  - left. by vm_compute.
Defined.
