(* ===== verification/ClientRom.v ===== *)
(** * The client's patches of the game

    The client overwrites bytes of the cartridge in memory and saves each one
    before its first change. [rom_ok] says that the saved bytes together with
    the untouched ones are the original cartridge, and that only documented
    places were touched; every operation of the client keeps it, and [detach]
    and [failure] put the original bytes back. *)

From S2P Require Import Prelude State Double Text Protocol Client.

Local Open Scope Z_scope.
Local Open Scope fz_scope.

(** ** The documented places *)

(** ROM offsets and sizes of the hooks. *)
Definition patch_sites : list (Z * Z) :=
  [(0x18176, 1); (0x18143, 1); (0x1851f, 4); (0x5486, 3); (0x532b, 3); (0x52ef, 2); (0x572b, 2);
   (0x5dfc, 3); (0x5dda, 3); (0xd3f, 1); (0x48ff, 1); (0x4d84, 1); (0xdb6, 3); (0x3db2, 3);
   (0x3dd5, 3); (0x3def, 3); (0x3dfe, 3); (0x3dae, 3); (0x3dcb, 3); (0x3de5, 3); (0x18795, 1);
   (0x187fe, 1); (0xab1, 6)].

Definition in_site (a : Z) (q : Z * Z) : bool := (fst q <=? a) && (a <? fst q + snd q).

Definition patch_site (a : Z) : bool := existsb (in_site a) patch_sites.

(** The tiles of the title menu: 0x120 to 0x124 and 0x130 to 0x134. *)
Definition title_site (a : Z) : bool := in_site a (0x67800, 160) || in_site a (0x67a00, 160).

(** ** The original cartridge *)

(** The byte the cartridge had before the client touched it. *)
Definition pristine (c : Client) (a : Z) : Z :=
  match cl_originals c !! a with
  | Some v => v
  | None => match cl_titleOriginals c !! a with Some v => v | None => rom (cl_memory c) a end
  end.

Record rom_ok (original : Z -> Z) (c : Client) : Prop := {
  rom_pristine : forall a, pristine c a = original a;
  rom_sites : forall a, is_Some (cl_originals c !! a) -> patch_site a = true;
  rom_title : forall a, is_Some (cl_titleOriginals c !! a) -> title_site a = true;
  rom_detached : cl_attached c = false -> cl_originals c = ∅ /\ cl_titleOriginals c = ∅
}.

(** Everything the environment of an attached client can make it do. *)
Inductive client_op :=
| OpTick
| OpFrame
| OpRequest (command : Z) (data : bytes)
| OpFailure (text : string)
| OpDetach
| OpRun (ram' : Z -> Z).

(** [OpRun]: the emulated machine runs and changes its work memory. *)
Definition run_op {E : ClientEnv} (op : client_op) : M CSys unit :=
  match op with
  | OpTick => tick
  | OpFrame => frame
  | OpRequest command data => request command data
  | OpFailure text => failure text
  | OpDetach => detach
  | OpRun ram' => cupd (fun c => let m := cl_memory c in {| c with cl_memory := {| m with ram := ram' |} |})
  end.

Lemma sites_disjoint a : patch_site a = true -> title_site a = true -> False.
Proof.
  unfold patch_site, title_site. rewrite existsb_exists. intros (q & Hq & Hi) Ht.
  assert (forallb (fun q => fst q + snd q <=? 0x67800) patch_sites = true) as Hall by done.
  rewrite forallb_forall in Hall. specialize (Hall q Hq). unfold in_site in *. cbn in Ht. bsolve.
Qed.

(** Project the fields of an updated client. *)
Ltac romsimpl :=
  change (exec (cupd ?f) ?τ) with (mk_csys (f (cl τ)) (cw τ));
  cbn [cl cl_originals cl_titleOriginals cl_memory rom cl_attached].

Section Rom.
Context {E : ClientEnv} (original : Z -> Z).

(** The invariant, for a client that is attached or not. *)
Definition rom_inv (b : bool) (γ : CSys) : Prop :=
  rom_ok original (cl γ) /\ cl_attached (cl γ) = b.

(** Operations that leave the cartridge and its bookkeeping alone. *)
Definition rom_view (γ : CSys) : (Z -> Z) * gmap Z Z * gmap Z Z * bool :=
  (rom (cl_memory (cl γ)), cl_originals (cl γ), cl_titleOriginals (cl γ), cl_attached (cl γ)).

Lemma keeps_rom_inv {A} b (m : M CSys A) : keeps rom_view m -> pres (rom_inv b) m.
Proof.
  intros K γ [R Ha]. specialize (K γ). unfold rom_view in K. injection K as H1 H2 H3 H4.
  split; [|congruence]. destruct R. split; try (rewrite ?H2, ?H3, ?H4; done).
  intros a. unfold pristine. rewrite H1, H2, H3. apply rom_pristine0.
Qed.

Lemma cupd_rom f :
  (forall c w, rom_view (mk_csys (f c) w) = rom_view (mk_csys c w)) -> keeps rom_view (cupd f).
Proof. intros H [c w]. apply H. Qed.

#[local] Hint Extern 2 (keeps rom_view (cupd _)) =>
  apply cupd_rom; intros; cbv beta zeta; try case_if; reflexivity : keeps.
#[local] Hint Extern 2 (keeps rom_view (cupdw _)) => intros ?; reflexivity : keeps.
#[local] Hint Extern 2 (keeps rom_view cget) => intros ?; reflexivity : keeps.
#[local] Hint Extern 2 (keeps rom_view (match ?x with _ => _ end)) => destruct x : keeps.

Lemma now_rom : keeps rom_view now.
Proof. unfold now. auto 10 with keeps. Qed.

#[local] Hint Resolve now_rom : keeps.

Lemma log_rom text : keeps rom_view (log text).
Proof. unfold log. auto 10 with keeps. Qed.

Lemma writeRam_rom a v : keeps rom_view (writeRam a v).
Proof. unfold writeRam. auto 10 with keeps. Qed.

Lemma reset_rom : keeps rom_view reset.
Proof.
  unfold reset. apply cupd_rom. intros c w. cbv beta zeta.
  destruct (cl_attached c) eqn:Ha; [unfold rom_view; cbn; by rewrite Ha|done].
Qed.

#[local] Hint Resolve log_rom writeRam_rom reset_rom : keeps.

Lemma putWord_rom a v : keeps rom_view (putWord a v).
Proof. unfold putWord. auto 10 with keeps. Qed.

Lemma ram_at_rom a : keeps rom_view (ram_at a).
Proof. by intros γ. Qed.

Lemma rom_at_rom a : keeps rom_view (rom_at a).
Proof. by intros γ. Qed.

#[local] Hint Resolve putWord_rom ram_at_rom rom_at_rom : keeps.

Lemma word_rom a : keeps rom_view (word a).
Proof. unfold word. auto 10 with keeps. Qed.

Lemma change_rom g : keeps rom_view (change g).
Proof. unfold change. auto 10 with keeps. Qed.

#[local] Hint Resolve word_rom change_rom : keeps.

Lemma publish_rom : keeps rom_view publish.
Proof. unfold publish. auto 20 with keeps. Qed.

Lemma send_rom p : keeps rom_view (send p).
Proof.
  unfold send. apply keeps_bind; [auto with keeps|]. intros c.
  destruct (fz_encode _ _ _) as [n data]. auto 20 with keeps.
Qed.

Lemma queue_rom command : keeps rom_view (queue command).
Proof. unfold queue. auto 20 with keeps. Qed.

Lemma bufferSnapshot_rom t : keeps rom_view (bufferSnapshot t).
Proof. unfold bufferSnapshot. auto 20 with keeps. Qed.

Lemma opponents_rom : keeps rom_view opponents.
Proof. unfold opponents. auto 30 with keeps. Qed.

Lemma position_rom c : keeps rom_view (position c).
Proof. unfold position. auto 30 with keeps. Qed.

#[local] Hint Resolve publish_rom send_rom queue_rom bufferSnapshot_rom opponents_rom position_rom : keeps.

(** ** Writing back *)

Lemma write_list_rom (l : list (Z * Z)) γ :
  NoDup l.*1 ->
  exists f, exec (for_each l (fun q => writeRom (fst q) (snd q))) γ =
      mk_csys (let c := cl γ in let m := cl_memory c in
               {| c with cl_memory := {| m with rom := f |} |}) (cw γ) /\
    forall a, f a = default (rom (cl_memory (cl γ)) a) ((list_to_map l : gmap Z Z) !! a).
Proof.
  revert γ. induction l as [|[k v] l IH]; intros γ Hd.
  - exists (rom (cl_memory (cl γ))). split; [by destruct γ as [[? ? []] ?]|done].
  - cbn [fmap list_fmap fst] in Hd. apply NoDup_cons in Hd as [Hk Hd]. cbn [for_each]. rewrite exec_bind.
    set (γ1 := exec (writeRom _ _) γ). destruct (IH γ1 Hd) as (f & Hf & Ha). exists f. rewrite Hf.
    split; [done|]. intros a. rewrite Ha. cbn [list_to_map foldr fst snd].
    change (rom (cl_memory (cl γ1)) a) with (poke (rom (cl_memory (cl γ))) k v a). unfold poke.
    destruct (Z.eqb_spec a k) as [->|Hne].
    + change (list_to_map ((k, v) :: l)) with (<[k := v]> (list_to_map l : gmap Z Z)).
      rewrite lookup_insert_eq. by rewrite not_elem_of_list_to_map_1.
    + change (list_to_map ((k, v) :: l)) with (<[k := v]> (list_to_map l : gmap Z Z)).
      by rewrite lookup_insert_ne.
Qed.

Lemma write_back_rom saved γ :
  exists f, exec (write_back saved) γ =
      mk_csys (let c := cl γ in let m := cl_memory c in
               {| c with cl_memory := {| m with rom := f |} |}) (cw γ) /\
    forall a, f a = default (rom (cl_memory (cl γ)) a) (saved !! a).
Proof.
  unfold write_back. destruct (write_list_rom (map_to_list saved) γ) as (f & Hf & Ha).
  { apply NoDup_fst_map_to_list. }
  exists f. split; [done|]. intros a. by rewrite Ha, list_to_map_to_list.
Qed.

(** [restore] and [restoreTitle] put saved bytes back and forget them. *)
Lemma restore_inv b γ :
  rom_inv b γ ->
  rom_inv b (exec restore γ) /\ cl_originals (cl (exec restore γ)) = ∅ /\
  cl_titleOriginals (cl (exec restore γ)) = cl_titleOriginals (cl γ).
Proof.
  intros [R Ha]. unfold restore. rewrite exec_bind. change (eval cget γ) with (cl γ).
  change (exec cget γ) with γ. rewrite exec_bind, exec_when, Ha. destruct b.
  - destruct (write_back_rom (cl_originals (cl γ)) γ) as (f & -> & Hf).
    split; [|done]. split; [|done]. split; try apply R; try done.
    + intros a. rewrite <- (rom_pristine _ _ R a). unfold pristine. romsimpl. rewrite lookup_empty, Hf.
      destruct (cl_originals (cl γ) !! a) as [v|] eqn:Ho; [|done]. cbn.
      destruct (cl_titleOriginals (cl γ) !! a) as [u|] eqn:Ht; [|done]. exfalso.
      eapply (sites_disjoint a); [by eapply rom_sites|by eapply rom_title].
    + intros a. romsimpl. rewrite lookup_empty. by intros [? ?].
    + romsimpl. congruence.
  - destruct (rom_detached _ _ R Ha) as [H1 H2]. split; [|done]. split; [|done].
    destruct R. split; try done.
    + intros a. rewrite <- (rom_pristine0 a). unfold pristine. romsimpl. by rewrite H1.
    + intros a. romsimpl. rewrite lookup_empty. by intros [? ?].
Qed.

Lemma restoreTitle_inv b γ :
  rom_inv b γ -> cl_originals (cl γ) = ∅ ->
  rom_inv b (exec restoreTitle γ) /\ cl_originals (cl (exec restoreTitle γ)) = ∅ /\
  cl_titleOriginals (cl (exec restoreTitle γ)) = ∅.
Proof.
  intros [R Ha] He. unfold restoreTitle. rewrite exec_bind. change (eval cget γ) with (cl γ).
  change (exec cget γ) with γ. rewrite exec_bind, exec_when, Ha. destruct b.
  - destruct (write_back_rom (cl_titleOriginals (cl γ)) γ) as (f & -> & Hf).
    split; [|done]. split; [|done]. split; try apply R; try done.
    + intros a. rewrite <- (rom_pristine _ _ R a). unfold pristine. romsimpl. rewrite He, !lookup_empty, Hf.
      by destruct (cl_titleOriginals (cl γ) !! a).
    + intros a. romsimpl. rewrite lookup_empty. by intros [? ?].
  - destruct (rom_detached _ _ R Ha) as [H1 H2]. split; [|done]. split; [|done].
    destruct R. split; try done.
    + intros a. rewrite <- (rom_pristine0 a). unfold pristine. romsimpl. by rewrite H1, H2.
    + intros a. romsimpl. rewrite lookup_empty. by intros [? ?].
Qed.

(** ** Patching *)

Definition saved_byte (a : Z) (c : Client) : Client :=
  match cl_originals c !! a with
  | Some _ => c
  | None => {| c with cl_originals := <[a := rom (cl_memory c) a]> (cl_originals c) |}
  end.

Lemma patch_byte_inv a v γ :
  patch_site a = true -> rom_inv true γ -> rom_inv true (exec (writeRom a v) (exec (cupd (saved_byte a)) γ)).
Proof.
  intros Hs [R Ha]. destruct γ as [c w]. cbn in R, Ha.
  assert (cl_titleOriginals c !! a = None) as Ht.
  { destruct (cl_titleOriginals c !! a) eqn:Ht; [|done]. exfalso.
    eapply (sites_disjoint a); [done|by eapply rom_title]. }
  change (exec (writeRom a v) (exec (cupd (saved_byte a)) (mk_csys c w))) with
    (mk_csys (let c := saved_byte a c in let m := cl_memory c in
              {| c with cl_memory := {| m with rom := poke (rom m) a v |} |}) w).
  assert (forall c', rom (cl_memory c') = rom (cl_memory c) -> cl_titleOriginals c' = cl_titleOriginals c ->
    cl_attached c' = true -> is_Some (cl_originals c' !! a) ->
    (forall x, x <> a -> cl_originals c' !! x = cl_originals c !! x) ->
    (default (rom (cl_memory c) a) (cl_originals c !! a) = default 0 (cl_originals c' !! a)) ->
    rom_inv true (mk_csys (let m := cl_memory c' in
              {| c' with cl_memory := {| m with rom := poke (rom m) a v |} |}) w)) as H.
  { intros c' H1 H2 H3 [u Hu] Hx Hd. split; [|done]. destruct R.
    split; unfold pristine; romsimpl; rewrite ?H2; try done; [| |congruence].
    - intros x. rewrite <- (rom_pristine0 x). unfold pristine, poke. rewrite H1.
      destruct (Z.eqb_spec x a) as [->|Hne]; [|by rewrite Hx].
      rewrite Hu in *. cbn in Hd. rewrite <- Hd, Ht. by destruct (cl_originals c !! a).
    - intros x [y Hy]. destruct (decide (x = a)) as [->|Hne]; [done|]. rewrite Hx in Hy by done.
      by eapply rom_sites0. }
  unfold saved_byte. destruct (cl_originals c !! a) as [u|] eqn:Ho.
  - apply (H c); try done; rewrite Ho; done.
  - apply H; try done; cbn [cl_originals].
    + rewrite lookup_insert_eq. by eexists.
    + intros x Hx. by rewrite lookup_insert_ne.
    + by rewrite lookup_insert_eq.
Qed.

(** The addresses of [n] bytes from [a] on are documented. *)
Fixpoint sites_from (a : Z) (n : nat) : bool :=
  match n with O => true | S n => patch_site a && sites_from (a + 1) n end.

Lemma patch_inv a values : sites_from a (length values) = true -> pres (rom_inv true) (patch a values).
Proof.
  revert a. induction values as [|v values IH]; intros a Hs; [apply pres_skip|].
  cbn in Hs. apply andb_true_iff in Hs as [Hs Hr]. intros γ R. cbn [patch]. rewrite !exec_bind.
  change (eval (rom_at a) γ) with (rom (cl_memory (cl γ)) a). change (exec (rom_at a) γ) with γ.
  apply (IH (a + 1) Hr). exact (patch_byte_inv a v γ Hs R).
Qed.

(** The title tiles, written once: [l] are the tiles already written. *)
Definition tiles_inv (l : list Z) (γ : CSys) : Prop :=
  rom_inv true γ /\ cl_originals (cl γ) = ∅ /\
  forall x, is_Some (cl_titleOriginals (cl γ) !! x) -> existsb (fun b => in_site x (b, 32)) l = true.

Lemma patch_tile_inv values a γ :
  rom_inv true γ -> cl_originals (cl γ) = ∅ ->
  (forall k, a <= k < a + Z.of_nat (length values) -> title_site k = true) ->
  (forall k, a <= k < a + Z.of_nat (length values) -> cl_titleOriginals (cl γ) !! k = None) ->
  let γ' := exec (patch_tile a values) γ in
  rom_inv true γ' /\ cl_originals (cl γ') = ∅ /\
  (forall x, is_Some (cl_titleOriginals (cl γ') !! x) ->
     is_Some (cl_titleOriginals (cl γ) !! x) \/ a <= x < a + Z.of_nat (length values)).
Proof.
  revert a γ. induction values as [|v values IH]; intros a γ R Ho Hs Hf; [by cbn; auto|].
  cbn [patch_tile]. rewrite !exec_bind. change (eval (rom_at a) γ) with (rom (cl_memory (cl γ)) a).
  change (exec (rom_at a) γ) with γ. cbn [length] in Hs, Hf. rewrite Nat2Z.inj_succ in Hs, Hf.
  set (γ1 := exec (cupd _) γ). set (γ2 := exec (writeRom a v) γ1). destruct R as [R Ha].
  assert (cl_titleOriginals (cl γ2) = <[a := rom (cl_memory (cl γ)) a]> (cl_titleOriginals (cl γ))) as Ht
    by done.
  assert (rom_inv true γ2) as R2.
  { split; [|done]. split.
    - intros x. rewrite <- (rom_pristine _ _ R x). unfold pristine. rewrite Ht.
      change (cl_originals (cl γ2)) with (cl_originals (cl γ)). rewrite Ho, lookup_empty.
      change (rom (cl_memory (cl γ2)) x) with (poke (rom (cl_memory (cl γ))) a v x). unfold poke.
      destruct (Z.eqb_spec x a) as [->|Hne]; [|by rewrite lookup_insert_ne].
      rewrite lookup_insert_eq, Hf by lia. done.
    - apply R.
    - intros x. rewrite Ht. destruct (decide (x = a)) as [->|Hne]; [intros _; apply Hs; lia|].
      rewrite lookup_insert_ne by done. apply R.
    - change (cl_attached (cl γ2)) with (cl_attached (cl γ)). congruence. }
  assert (cl_originals (cl γ2) = ∅) as Ho2 by done.
  clearbody γ2. destruct (IH (a + 1) γ2 R2 Ho2) as (R' & Ho' & Hx').
  - intros k Hk. apply Hs. lia.
  - intros k Hk. rewrite Ht, lookup_insert_ne by lia. apply Hf. lia.
  - split; [done|]. split; [done|]. intros x [Hx|Hx]%Hx'; [|right; cbn [length]; lia].
    rewrite Ht in Hx. destruct (decide (x = a)) as [->|Hne]; [right; cbn [length]; lia|].
    rewrite lookup_insert_ne in Hx by done. by left.
Qed.

Lemma tile_step l a values γ :
  length values = 32%nat ->
  forallb (fun b => (b + 32 <=? a) || (a + 32 <=? b)) l = true ->
  in_site a (0x67800, 129) || in_site a (0x67a00, 129) = true ->
  tiles_inv l γ -> tiles_inv (a :: l) (exec (patch_tile a values) γ).
Proof.
  intros Hv Hd Hs (R & Ho & Hl). rewrite forallb_forall in Hd.
  destruct (patch_tile_inv values a γ R Ho) as (R' & Ho' & Hx).
  - intros k Hk. rewrite Hv in Hk. unfold title_site, in_site in *. cbn in *.
    apply orb_true_iff. apply orb_true_iff in Hs as [Hs|Hs]; breflect; [left|right]; lia.
  - intros k Hk. rewrite Hv in Hk. destruct (cl_titleOriginals (cl γ) !! k) eqn:Hk'; [|done]. exfalso.
    destruct (proj1 (existsb_exists _ _) (Hl k (ex_intro _ _ Hk'))) as (b & Hb & Hin).
    specialize (Hd b Hb). unfold in_site in Hin. cbn in Hin. bsolve.
  - split; [done|]. split; [done|]. intros x [H|H]%Hx; cbn [existsb]; apply orb_true_iff.
    + right. by apply Hl.
    + left. rewrite Hv in H. unfold in_site. cbn. lia.
Qed.

(** All tiles have 32 bytes. *)
Lemma encode_tile_length x y : length (encode_tile title_pixels x y) = 32%nat.
Proof.
  unfold encode_tile. generalize title_pixels. intros pixels.
  assert (forall l b, length b = 32%nat -> length (foldl (fun b '(y0, x0, plane) =>
      let color := rd (default [] (pixels !! (y * 8 + y0)%nat)) (x * 8 + x0) in
      if Z.testbit color (Z.of_nat plane)
      then let k := (plane / 2 * 16 + y0 * 2 + plane mod 2)%nat in
           <[k := u8 (Z.lor (rd b k) (u8 (Z.shiftl 1 (7 - Z.of_nat x0))))]> b
      else b) b l) = 32%nat) as H.
  { induction l as [|[[y0 x0] pl] l IH]; intros b Hb; [done|]. cbn [foldl]. apply IH.
    cbv zeta. case_if; [by rewrite length_insert|done]. }
  by apply H.
Qed.

Lemma patchTitleMenu_inv b : pres (fun γ => rom_inv b γ /\ cl_originals (cl γ) = ∅) patchTitleMenu.
Proof.
  intros γ [R Ho]. unfold patchTitleMenu. rewrite exec_bind. change (eval cget γ) with (cl γ).
  change (exec cget γ) with γ. destruct R as [R Ha]. rewrite Ha.
  destruct b; [|done]. case_bool_decide as Ht; [|done]. cbn [negb orb seq for_each].
  assert (tiles_inv [] γ) as T.
  { split; [done|]. split; [done|]. rewrite Ht. intros x. rewrite lookup_empty. by intros [? ?]. }
  clear R Ha Ho Ht. rewrite !exec_bind, exec_skip.
  match goal with |- rom_inv true ?τ /\ _ =>
    assert (tiles_inv [0x67a00 + Z.of_nat 4 * 32; 0x67800 + Z.of_nat 4 * 32;
                       0x67a00 + Z.of_nat 3 * 32; 0x67800 + Z.of_nat 3 * 32;
                       0x67a00 + Z.of_nat 2 * 32; 0x67800 + Z.of_nat 2 * 32;
                       0x67a00 + Z.of_nat 1 * 32; 0x67800 + Z.of_nat 1 * 32;
                       0x67a00 + Z.of_nat 0 * 32; 0x67800 + Z.of_nat 0 * 32] τ) as T' end.
  { do 10 (apply tile_step; [apply encode_tile_length|reflexivity|reflexivity|]). exact T. }
  destruct T' as (R & Ho & _). split; [exact R|exact Ho].
Qed.

(** ** Every operation keeps the invariant *)

#[local] Hint Extern 3 (pres (rom_inv _) _) => apply keeps_rom_inv; solve [auto 8 with keeps] : pres.

Lemma restore_pres b : pres (rom_inv b) restore.
Proof. intros γ R. by apply restore_inv. Qed.

#[local] Hint Resolve restore_pres : pres.

Lemma resetGame_pres b : pres (rom_inv b) resetGame.
Proof. unfold resetGame, clearSnapshotBuffer. auto 20 with pres. Qed.

#[local] Hint Resolve resetGame_pres : pres.

(** Both caches are empty. *)
Definition clean (γ : CSys) : Prop := cl_originals (cl γ) = ∅ /\ cl_titleOriginals (cl γ) = ∅.

Lemma keeps_clean {A} (m : M CSys A) : keeps rom_view m -> pres clean m.
Proof. intros K γ [H1 H2]. specialize (K γ). injection K as _ K1 K2 _. split; congruence. Qed.

Lemma pres_and {A} (P Q : CSys -> Prop) (m : M CSys A) :
  pres P m -> pres Q m -> pres (fun γ => P γ /\ Q γ) m.
Proof. intros H1 H2 γ [HP HQ]. split; auto. Qed.

Lemma keeps_rom_clean {A} b (m : M CSys A) : keeps rom_view m -> pres (fun γ => rom_inv b γ /\ clean γ) m.
Proof. intros K. apply pres_and; [by apply keeps_rom_inv|by apply keeps_clean]. Qed.

(** Restoring leaves the original cartridge. *)
Lemma restore_all b γ :
  rom_inv b γ -> rom_inv b (exec (restore ;; restoreTitle) γ) /\ clean (exec (restore ;; restoreTitle) γ).
Proof.
  intros R. rewrite exec_bind. destruct (restore_inv b γ R) as (R1 & H1 & _).
  destruct (restoreTitle_inv b _ R1 H1) as (R2 & H2 & H3). done.
Qed.

Lemma failure_clean b text γ :
  rom_inv b γ -> rom_inv b (exec (failure text) γ) /\ clean (exec (failure text) γ).
Proof.
  intros R. unfold failure. pose proof (restore_all b γ R) as H. rewrite exec_bind in H.
  rewrite !(exec_bind restore), !(exec_bind restoreTitle). set (γ1 := exec restoreTitle _) in *.
  clearbody γ1. revert γ1 H. apply (keeps_rom_clean b).
  unfold clearSnapshotBuffer. auto 20 with keeps.
Qed.

Lemma failure_pres b text : pres (rom_inv b) (failure text).
Proof. intros γ R. by apply failure_clean. Qed.

#[local] Hint Resolve failure_pres : pres.

Lemma receive_pres b p : pres (rom_inv b) (receive p).
Proof.
  unfold receive, receive_snapshot, adopt_snapshot.
  repeat (apply pres_bind; [auto with pres|intros ?]).
  repeat (apply pres_if; [solve [auto 20 with pres]|]). auto 40 with pres.
Qed.

#[local] Hint Resolve receive_pres : pres.

Lemma recv_rom : keeps rom_view recv.
Proof. unfold recv. auto 20 with keeps. Qed.

#[local] Hint Resolve recv_rom : keeps.

Lemma tick_receive_pres b n : pres (rom_inv b) (tick_receive n).
Proof. induction n; cbn [tick_receive]; auto 30 with pres. Qed.

Lemma tick_hello_rom t : keeps rom_view (tick_hello t).
Proof. unfold tick_hello. auto 20 with keeps. Qed.

Lemma tick_joined_rom t : keeps rom_view (tick_joined t).
Proof. unfold tick_joined. auto 30 with keeps. Qed.

#[local] Hint Resolve tick_receive_pres : pres.
#[local] Hint Resolve tick_hello_rom tick_joined_rom : keeps.

Lemma tick_pres b : pres (rom_inv b) tick.
Proof. unfold tick. auto 30 with pres. Qed.

#[local] Hint Extern 1 (pres (rom_inv true) (patch _ _)) => apply patch_inv; reflexivity : pres.

Lemma pres_for_each_in {A} (P : CSys -> Prop) (l : list A) (f : A -> M CSys unit) :
  Forall (fun x => pres P (f x)) l -> pres P (for_each l f).
Proof. induction 1; [apply pres_skip|]. by apply pres_bind. Qed.

Lemma prepareRace_pres : pres (rom_inv true) prepareRace.
Proof.
  unfold prepareRace. apply pres_bind; [auto with pres|]. intros c.
  repeat (apply pres_bind; [solve [auto 10 with pres]|intros _]).
  apply pres_bind; [|auto 10 with pres]. apply pres_for_each_in.
  repeat (constructor; [apply patch_inv; reflexivity|]). constructor.
Qed.

#[local] Hint Resolve prepareRace_pres : pres.

Lemma frame_pres b : pres (rom_inv b) frame.
Proof.
  intros γ R. unfold frame. rewrite exec_bind. change (eval cget γ) with (cl γ).
  change (exec cget γ) with γ. rewrite (proj2 R). destruct b; [|exact R]. cbn [negb orb].
  match goal with |- rom_inv true (exec ?m γ) => cut (pres (rom_inv true) m); [intros K; exact (K γ R)|] end.
  generalize (cl γ). clear γ R. intros c.
  unfold frame_car_select, frame_waiting, frame_prepare, frame_location, frame_race, frame_finished,
    frame_results.
  apply pres_if; [auto with pres|]. repeat (apply pres_bind; [solve [auto 10 with pres]|intros ?]).
  apply pres_if; [auto 10 with pres|]. destruct (cl_game c); auto 40 with pres.
Qed.

Lemma request_rom command data : keeps rom_view (request command data).
Proof. unfold request. auto with keeps. Qed.

(** With empty caches the cartridge in memory is the original one. *)
Lemma clean_original b γ a : rom_inv b γ -> clean γ -> rom (cl_memory (cl γ)) a = original a.
Proof.
  intros [R _] [H1 H2]. rewrite <- (rom_pristine _ _ R a). unfold pristine. by rewrite H1, H2, !lookup_empty.
Qed.

(** [detach] leaves no patch behind. *)
Lemma detach_clean b γ :
  rom_inv b γ -> rom_inv false (exec detach γ) /\ clean (exec detach γ).
Proof.
  intros R. unfold detach. rewrite exec_bind. change (exec cget γ) with γ. rewrite exec_bind.
  set (γ0 := exec (when _ _) γ).
  assert (rom_inv b γ0) as R0.
  { unfold γ0. apply (keeps_rom_inv b); [auto 20 with keeps|done]. }
  clearbody γ0. clear γ R. pose proof (restore_all b γ0 R0) as H. rewrite exec_bind in H.
  rewrite !(exec_bind restore), !(exec_bind restoreTitle). set (γ1 := exec restoreTitle _) in *.
  clearbody γ1. clear γ0 R0. rewrite exec_bind. set (γ2 := exec (cupd _) γ1).
  assert (rom_inv false γ2 /\ clean γ2) as H2.
  { destruct H as [[R Ha] [C1 C2]]. split; [|done]. split; [|done]. destruct R. by split. }
  clearbody γ2. revert γ2 H2. apply (keeps_rom_clean false).
  unfold clearSnapshotBuffer. auto 10 with keeps.
Qed.

Lemma run_op_pres op γ b : rom_inv b γ -> exists b', rom_inv b' (exec (run_op op) γ).
Proof.
  intros R. destruct op; cbn [run_op].
  - exists b. by apply tick_pres.
  - exists b. by apply frame_pres.
  - exists b. apply (keeps_rom_inv b); [apply request_rom|done].
  - exists b. by apply failure_pres.
  - exists false. by apply (detach_clean b).
  - exists b. apply (keeps_rom_inv b); [auto with keeps|done].
Qed.

Lemma run_ops_inv ops γ b : rom_inv b γ -> exists b', rom_inv b' (exec (for_each ops run_op) γ).
Proof.
  revert γ b. induction ops as [|op ops IH]; intros γ b R; [by exists b|].
  cbn [for_each]. rewrite exec_bind. destruct (run_op_pres op γ b R) as [b' R']. by eapply IH.
Qed.

(** ** Attaching *)

(** Whatever state a client is in, [detach] empties its caches. *)
Lemma restore_empties γ : cl_originals (cl (exec restore γ)) = ∅.
Proof.
  unfold restore. rewrite exec_bind. change (exec cget γ) with γ. rewrite exec_bind. done.
Qed.

Lemma restoreTitle_empties γ :
  cl_originals (cl γ) = ∅ -> clean (exec restoreTitle γ).
Proof.
  intros Ho. unfold restoreTitle. rewrite exec_bind. change (eval cget γ) with (cl γ).
  change (exec cget γ) with γ. rewrite exec_bind, exec_when.
  destruct (cl_attached (cl γ)); [|done].
  destruct (write_back_rom (cl_titleOriginals (cl γ)) γ) as (f & -> & _). done.
Qed.

Lemma detach_empties γ : clean (exec detach γ).
Proof.
  unfold detach. rewrite exec_bind. change (exec cget γ) with γ. rewrite exec_bind.
  set (γ0 := exec (when _ _) γ). clearbody γ0. rewrite exec_bind. rewrite exec_bind.
  pose proof (restoreTitle_empties (exec restore γ0) (restore_empties γ0)) as H.
  set (γ1 := exec restoreTitle _) in *. clearbody γ1. exact H.
Qed.

(** Triples from a clean client to one within the invariant. *)
Definition fresh (γ : CSys) : Prop := rom_inv true γ /\ clean γ.

Lemma fresh_keeps {A} (m : M CSys A) : keeps rom_view m -> hoare fresh m (fun _ => fresh).
Proof. intros K. exact (keeps_rom_clean true m K). Qed.

Lemma fresh_then {A B} (m : M CSys A) (k : A -> M CSys B) :
  keeps rom_view m -> (forall a, hoare fresh (k a) (fun _ => rom_inv true)) ->
  hoare fresh (bind m k) (fun _ => rom_inv true).
Proof. intros K H. eapply hoare_bind; [by apply fresh_keeps|]. exact H. Qed.

Lemma fresh_fail text : hoare fresh (attach_fail text) (fun _ => rom_inv true).
Proof. intros γ [R _]. unfold attach_fail. rewrite exec_bind, exec_ret. by apply failure_pres. Qed.

Lemma fresh_title {A} (k : M CSys A) :
  pres (rom_inv true) k -> hoare fresh (bind patchTitleMenu (fun _ => k)) (fun _ => rom_inv true).
Proof.
  intros K γ [R [C1 C2]]. rewrite exec_bind. apply K.
  by destruct (patchTitleMenu_inv true γ (conj R C1)).
Qed.

Lemma attach_begin_inv r : hoare fresh (attach_begin r) (fun _ => rom_inv true).
Proof.
  unfold attach_begin. do 3 (apply fresh_then; [auto with keeps|intros _]).
  apply fresh_then; [auto with keeps|intros t]. apply fresh_then; [auto with keeps|intros _].
  apply fresh_title. auto 10 with pres.
Qed.

Lemma attach_socket_inv fd : hoare fresh (attach_socket fd) (fun _ => rom_inv true).
Proof.
  unfold attach_socket. apply fresh_then; [auto with keeps|intros _].
  case_if; [apply fresh_then; [auto with keeps|intros _; apply fresh_fail]|].
  destruct random_nonce; [apply attach_begin_inv|apply fresh_fail].
Qed.

Lemma fresh_memory m γ :
  (forall a, rom m a = original a) -> clean γ ->
  fresh (exec (cupd (fun c => {| c with cl_memory := m; cl_attached := true |})) γ).
Proof.
  intros Hm [C1 C2]. split; [|done]. split; [|done]. split.
  - intros a. unfold pristine. romsimpl. by rewrite C1, C2, !lookup_empty.
  - intros a. romsimpl. rewrite C1, lookup_empty. by intros [? ?].
  - intros a. romsimpl. rewrite C2, lookup_empty. by intros [? ?].
  - done.
Qed.

Lemma attach_inv m γ : (forall a, rom m a = original a) -> rom_inv true (exec (attach m) γ).
Proof.
  intros Hm. unfold attach. rewrite exec_bind, exec_bind.
  pose proof (fresh_memory m _ Hm (detach_empties γ)) as H.
  set (γ1 := exec (cupd _) (exec detach γ)) in *. clearbody γ1. revert γ1 H.
  apply fresh_then; [auto with keeps|]. intros c.
  destruct (rfind_colon _ _ _) as [colon|]; [|apply fresh_fail].
  do 2 (case_if; [apply fresh_fail|]). apply attach_socket_inv.
Qed.

End Rom.

(** C12. From the moment a client is attached to a machine, through any
    interleaving of network ticks, frames, requests, failures, the machine
    running and a detach: the cartridge differs from the original only at the
    documented hooks and the ten title tiles, and both [detach] and [failure]
    bring back every original byte. *)
Theorem rom_always_restored {E : ClientEnv} m γ0 ops text a :
  let γ := exec (for_each ops run_op) (exec (attach m) γ0) in
  (rom (cl_memory (cl γ)) a <> rom m a -> patch_site a || title_site a = true) /\
  rom (cl_memory (cl (exec detach γ))) a = rom m a /\
  rom (cl_memory (cl (exec (failure text) γ))) a = rom m a.
Proof.
  intros γ. destruct (run_ops_inv (rom m) ops (exec (attach m) γ0) true) as [b R].
  { by apply attach_inv. }
  fold γ in R. clearbody γ. split_and!.
  - intros Hne. destruct R as [R _]. pose proof (rom_pristine _ _ R a) as Hp. unfold pristine in Hp.
    destruct (cl_originals (cl γ) !! a) eqn:Ho.
    { apply orb_true_iff. left. by eapply rom_sites. }
    destruct (cl_titleOriginals (cl γ) !! a) eqn:Ht; [|done].
    apply orb_true_iff. right. by eapply rom_title.
  - destruct (detach_clean (rom m) b γ R) as [R' C']. by eapply clean_original.
  - destruct (failure_clean (rom m) b text γ R) as [R' C']. by eapply clean_original.
Qed.
