(* ===== verification/ClientQueue.v ===== *)
(** * The client's queues

    The commands waiting for acknowledgement carry consecutive sequence numbers
    ending at the client's counter, and every buffer of the client is bounded,
    whatever the network delivers and the user asks for. A selection made while
    the queue is full is lost. *)

From S2P Require Import Prelude State Double Text Protocol Client ClientRom.

Local Open Scope Z_scope.
Local Open Scope fz_scope.

(** The [k]-th of [n] waiting commands has the number [q] less the [n-1-k]
    commands behind it. *)
Definition consecutive (q : Z) (l : list Pending) : Prop :=
  forall k p, l !! k = Some p ->
  pk_seq (pd_packet p) = u32 (q - (Z.of_nat (length l) - 1 - Z.of_nat k)).

Record queues_ok (c : Client) : Prop := {
  qk_pending : (length (cl_pending c) <= 8)%nat;
  qk_joined : cl_id c < 0 -> cl_pending c = [];
  qk_seq : consecutive (cl_commandSeq c) (cl_pending c);
  qk_types : Forall (fun p => pk_type (pd_packet p) = FZ_COMMAND) (cl_pending c);
  qk_buffer : (length (cl_snapshotBuffer c) <= FZ_SNAPSHOT_BUFFER_CAPACITY)%nat;
  qk_events : (length (cl_events c) <= 12)%nat;
  qk_requests : (length (cl_requests c) <= 8)%nat
}.

(** Any use of the class. *)
Inductive client_call := CallAttach (m : Memory) | CallOp (op : client_op).

Definition run_client {E : ClientEnv} (x : client_call) : M CSys unit :=
  match x with
  | CallAttach m => attach m ;; skip
  | CallOp op => run_op op
  end.

(** ** Sequence numbers *)

Lemma consecutive_nil q : consecutive q [].
Proof. by intros k p. Qed.

Lemma consecutive_snoc q l p :
  consecutive q l -> pk_seq (pd_packet p) = u32 (q + 1) -> consecutive (u32 (q + 1)) (l ++ [p]).
Proof.
  intros H Hp k x Hx. rewrite length_app. cbn [length]. apply lookup_app_Some in Hx as [Hx|[Hk Hx]].
  - rewrite (H k x Hx). pose proof (lookup_lt_Some _ _ _ Hx). unfold u32.
    rewrite Zminus_mod_idemp_l. f_equal. lia.
  - apply list_lookup_singleton_Some in Hx as [Hk0 <-]. rewrite Hp.
    assert (k = length l) as -> by lia. unfold u32. rewrite Zminus_mod_idemp_l. f_equal. lia.
Qed.

Lemma consecutive_tail q p l : consecutive q (p :: l) -> consecutive q l.
Proof. intros H k x Hx. rewrite (H (S k) x Hx). cbn [length]. f_equal. lia. Qed.

Lemma acknowledge_consecutive ack q l : consecutive q l -> consecutive q (acknowledge ack l).
Proof.
  induction l as [|p l IH]; intros H; [done|]. cbn. case_if; [|done]. by apply IH, (consecutive_tail q p).
Qed.

Lemma acknowledge_suffix ack l : exists k, acknowledge ack l = drop k l.
Proof.
  induction l as [|p l [k IH]]; [by exists 0%nat|]. cbn. case_if; [exists (S k); done|by exists 0%nat].
Qed.

Lemma consecutive_alter q l t :
  consecutive q l -> consecutive q (alter (fun p => mk_pending (pd_packet p) t) 0%nat l).
Proof.
  intros H k x Hx. rewrite length_alter. rewrite list_lookup_alter in Hx. case_decide as Hd.
  - subst k. destruct (l !! 0%nat) as [y|] eqn:Hy; [|done]. cbn in Hx. injection Hx as <-. by apply (H 0%nat y).
  - by apply H.
Qed.

Section Queues.
Context {E : ClientEnv}.

Lemma exec_cupd f γ : exec (cupd f) γ = mk_csys (f (cl γ)) (cw γ).
Proof. done. Qed.

Definition qσ (γ : CSys) : Prop := queues_ok (cl γ).

Lemma cupd_q f : (forall c, queues_ok c -> queues_ok (f c)) -> pres qσ (cupd f).
Proof. intros H γ Q. by apply H. Qed.

Lemma pres_cget {A} (P : CSys -> Prop) (k : Client -> M CSys A) :
  (forall γ, P γ -> P (exec (k (cl γ)) γ)) -> pres P (bind cget k).
Proof. intros H γ Hγ. by apply H. Qed.

Lemma cget_q : pres qσ cget.
Proof. by intros γ. Qed.

Lemma cupdw_q f : pres qσ (cupdw f).
Proof. by intros γ. Qed.

#[local] Hint Resolve cget_q cupdw_q : pres.
#[local] Hint Extern 2 (pres qσ (cupd _)) =>
  apply cupd_q; let c := fresh in let Q := fresh in
  intros c Q; cbv beta zeta; try case_if; destruct Q; split; assumption : pres.

Lemma now_q : pres qσ now.
Proof. unfold now. auto 10 with pres. Qed.

#[local] Hint Resolve now_q : pres.

Lemma log_q text : pres qσ (log text).
Proof.
  unfold log. apply pres_bind; [auto with pres|intros _]. apply pres_bind; [auto with pres|intros _].
  intros γ Q. rewrite exec_bind. rewrite !exec_cupd.
  cbn [cl cl_events]. unfold qσ. cbn [cl]. destruct Q.
  assert (length (tail (cl_events (cl γ) ++ [text])) = (length (cl_events (cl γ) ++ [text]) - 1)%nat) as Ht
    by (destruct (cl_events (cl γ) ++ [text]); cbn; lia).
  assert (length (cl_events (cl γ) ++ [text]) <= 13)%nat as Hb by (rewrite length_app; cbn [length]; lia).
  destruct (Nat.ltb_spec 12 (length (cl_events (cl γ) ++ [text]))); split; try assumption;
    cbn [cl_events]; lia.
Qed.

#[local] Hint Resolve log_q : pres.

Lemma ram_at_q a : pres qσ (ram_at a).
Proof. by intros γ. Qed.

Lemma rom_at_q a : pres qσ (rom_at a).
Proof. by intros γ. Qed.

#[local] Hint Resolve ram_at_q rom_at_q : pres.

Lemma writeRam_q a v : pres qσ (writeRam a v).
Proof. unfold writeRam. auto with pres. Qed.

Lemma writeRom_q a v : pres qσ (writeRom a v).
Proof. unfold writeRom. auto with pres. Qed.

Lemma reset_q : pres qσ reset.
Proof. unfold reset. auto with pres. Qed.

#[local] Hint Resolve writeRam_q writeRom_q reset_q : pres.

Lemma word_q a : pres qσ (word a).
Proof. unfold word. auto 10 with pres. Qed.

Lemma putWord_q a v : pres qσ (putWord a v).
Proof. unfold putWord. auto 10 with pres. Qed.

Lemma change_q g : pres qσ (change g).
Proof. unfold change. auto 10 with pres. Qed.

#[local] Hint Resolve word_q putWord_q change_q : pres.

Lemma publish_q : pres qσ publish.
Proof. unfold publish. auto 20 with pres. Qed.

Lemma patch_q a l : pres qσ (patch a l).
Proof.
  revert a. induction l as [|v l IH]; intros a; cbn [patch]; [auto with pres|].
  apply pres_bind; [auto with pres|]. intros old. apply pres_bind; [|auto with pres].
  apply cupd_q. intros c Q. destruct (cl_originals c !! a); [done|]. destruct Q. by split.
Qed.

Lemma write_back_q m : pres qσ (write_back m).
Proof. unfold write_back. auto with pres. Qed.

#[local] Hint Resolve publish_q patch_q write_back_q : pres.

Lemma restore_q : pres qσ restore.
Proof. unfold restore. auto 10 with pres. Qed.

Lemma restoreTitle_q : pres qσ restoreTitle.
Proof. unfold restoreTitle. auto 10 with pres. Qed.

Lemma patch_tile_q a l : pres qσ (patch_tile a l).
Proof. revert a. induction l; intros a'; cbn [patch_tile]; auto 10 with pres. Qed.

Lemma patchTitleMenu_q : pres qσ patchTitleMenu.
Proof.
  unfold patchTitleMenu. apply pres_bind; [auto with pres|intros c].
  apply pres_if; [auto with pres|]. apply pres_for_each. intros x.
  apply pres_bind; [apply patch_tile_q|intros _; apply patch_tile_q].
Qed.

#[local] Hint Resolve restore_q restoreTitle_q patchTitleMenu_q : pres.

Lemma clear_q : pres qσ clearSnapshotBuffer.
Proof. apply cupd_q. intros c []. split; try assumption. cbn. lia. Qed.

#[local] Hint Resolve clear_q : pres.

Lemma resetGame_q : pres qσ resetGame.
Proof. unfold resetGame. auto 10 with pres. Qed.

Lemma failure_q text : pres qσ (failure text).
Proof. unfold failure. auto 20 with pres. Qed.

Lemma send_q p : pres qσ (send p).
Proof.
  unfold send. apply pres_bind; [auto with pres|]. intros c.
  destruct (fz_encode _ _ _) as [n data]. auto 20 with pres.
Qed.

#[local] Hint Resolve resetGame_q failure_q send_q : pres.

(** ** Operations on the queues *)

Lemma bufferSnapshot_q t : pres qσ (bufferSnapshot t).
Proof.
  intros γ Q. unfold bufferSnapshot. rewrite exec_bind.
  rewrite !exec_cupd. unfold qσ. cbn [cl cl_snapshotBuffer].
  destruct Q. split; try assumption. cbn [cl_snapshotBuffer]. rewrite length_drop. lia.
Qed.

Lemma queue_q command : pres qσ (queue command).
Proof.
  unfold queue. apply pres_cget. intros γ Q.
  destruct (_ || _) eqn:Hc; [done|]. apply orb_false_iff in Hc as [[Hi Hp]%orb_false_iff _].
  apply Z.ltb_ge in Hi. apply Nat.leb_gt in Hp. rewrite exec_bind.
  rewrite !exec_cupd. unfold qσ.
  cbn [cl cl_pending cl_commandSeq]. destruct Q.
  split; try assumption; cbn [cl_pending cl_id cl_commandSeq].
  - rewrite length_app. cbn [length]. lia.
  - lia.
  - by apply consecutive_snoc.
  - apply Forall_app. split; [done|]. by repeat constructor.
Qed.

Lemma request_q command data : pres qσ (request command data).
Proof.
  unfold request. apply cupd_q. intros c []. destruct (Nat.ltb_spec (length (cl_requests c)) 8); [|by split].
  split; try assumption. cbn [cl_requests]. rewrite length_app. cbn [length]. lia.
Qed.

#[local] Hint Resolve bufferSnapshot_q queue_q : pres.

Lemma acknowledge_q ack :
  pres qσ (cupd (fun c => {| c with cl_pending := acknowledge ack (cl_pending c) |})).
Proof.
  apply cupd_q. intros c []. destruct (acknowledge_suffix ack (cl_pending c)) as [k Hk].
  split; try assumption; cbn [cl_pending cl_id cl_commandSeq].
  - rewrite Hk, length_drop. lia.
  - intros Hi. by rewrite qk_joined0.
  - by apply acknowledge_consecutive.
  - rewrite Hk. by apply Forall_drop.
Qed.

#[local] Hint Resolve acknowledge_q : pres.

(** A new generation starts with an empty queue. *)
Lemma new_race_q race seq :
  pres qσ (cupd (fun c => {| c with cl_race := race; cl_commandSeq := seq; cl_stateSeq := 0;
                                    cl_pending := [] |})).
Proof.
  apply cupd_q. intros c []. split; try assumption; cbn [cl_pending]; try done; try (cbn; lia).
Qed.

#[local] Hint Resolve new_race_q : pres.

Lemma adopt_snapshot_q b : pres qσ (adopt_snapshot b).
Proof. unfold adopt_snapshot. auto 20 with pres. Qed.

#[local] Hint Resolve adopt_snapshot_q : pres.

Lemma receive_snapshot_q p t : pres qσ (receive_snapshot p t).
Proof. unfold receive_snapshot. auto 40 with pres. Qed.

#[local] Hint Resolve receive_snapshot_q : pres.

Lemma receive_q p : pres qσ (receive p).
Proof.
  unfold receive. apply pres_bind; [auto with pres|]. intros t. apply pres_cget. intros γ Q.
  case_if; [by apply failure_q|]. case_cond Hw.
  { destruct (cl_id (cl γ) >=? 0) eqn:Hi; [done|]. rewrite exec_bind. apply log_q.
    rewrite !exec_cupd. unfold qσ. cbn [cl].
    assert (cl_pending (cl γ) = []) as Hp by (apply Q; lia).
    destruct Q. split; try assumption; cbn [cl_pending cl_id cl_commandSeq]; rewrite Hp; [done|].
    apply consecutive_nil. }
  match goal with |- qσ (exec ?m γ) => cut (pres qσ m); [intros K; exact (K γ Q)|] end.
  repeat (apply pres_if; [solve [auto 20 with pres]|]). auto 20 with pres.
Qed.

#[local] Hint Resolve receive_q : pres.

Lemma recv_q : pres qσ recv.
Proof. unfold recv. auto 20 with pres. Qed.

#[local] Hint Resolve recv_q : pres.

Lemma tick_receive_q n : pres qσ (tick_receive n).
Proof. induction n; cbn [tick_receive]; auto 30 with pres. Qed.

Lemma tick_hello_q t : pres qσ (tick_hello t).
Proof. unfold tick_hello. auto 20 with pres. Qed.

Lemma resend_q t :
  pres qσ (cupd (fun c => {| c with cl_pending :=
    alter (fun p => mk_pending (pd_packet p) t) 0%nat (cl_pending c) |})).
Proof.
  apply cupd_q. intros c []. split; try assumption; cbn [cl_pending cl_id cl_commandSeq].
  - by rewrite length_alter.
  - intros Hi. by rewrite qk_joined0.
  - by apply consecutive_alter.
  - by destruct (cl_pending c); [|inversion qk_types0; constructor].
Qed.

Lemma take_requests_q : pres qσ (cupd (fun c => {| c with cl_requests := [] |})).
Proof. apply cupd_q. intros c []. split; try assumption. cbn. lia. Qed.

#[local] Hint Resolve tick_receive_q tick_hello_q resend_q take_requests_q : pres.

Lemma tick_joined_q t : pres qσ (tick_joined t).
Proof. unfold tick_joined. auto 40 with pres. Qed.

#[local] Hint Resolve tick_joined_q : pres.

Lemma tick_q : pres qσ tick.
Proof. unfold tick. auto 40 with pres. Qed.

Lemma opponents_q : pres qσ opponents.
Proof. unfold opponents. auto 40 with pres. Qed.

Lemma position_q x : pres qσ (position x).
Proof. unfold position. auto 40 with pres. Qed.

Lemma prepareRace_q : pres qσ prepareRace.
Proof. unfold prepareRace. auto 60 with pres. Qed.

#[local] Hint Resolve opponents_q position_q prepareRace_q : pres.

Lemma frame_q : pres qσ frame.
Proof.
  unfold frame, frame_car_select, frame_waiting, frame_prepare, frame_location, frame_race,
    frame_finished, frame_results.
  apply pres_bind; [auto with pres|]. intros c. apply pres_if; [auto with pres|].
  repeat (apply pres_bind; [solve [auto 10 with pres]|intros ?]).
  apply pres_if; [auto 10 with pres|]. destruct (cl_game c); auto 40 with pres.
Qed.

(** ** Attaching and detaching *)

(** Nothing is waiting. *)
Definition idle (γ : CSys) : Prop := qσ γ /\ cl_pending (cl γ) = [].

Lemma leave_q γ :
  qσ γ ->
  qσ (exec (when ((cl_id (cl γ) >=? 0) && bool_decide (length (cl_pending (cl γ)) = 0%nat))
    (cupd (fun c => {| c with cl_commandSeq := u32 (cl_commandSeq c + 1) |}) ;;
     let* c := cget in
     send {| packet0 with pk_type := FZ_COMMAND; pk_seq := cl_commandSeq c; pk_length := 1;
                          pk_payload := <[0%nat := FZ_LEAVE]> (zeros PAYLOAD_SIZE) |})) γ).
Proof.
  intros Q. rewrite exec_when. case_cond Hc; [|done]. breflect. rewrite exec_bind.
  set (γ1 := exec (cupd _) γ). assert (qσ γ1) as Q1.
  { unfold γ1, qσ. rewrite exec_cupd. cbn [cl]. apply length_zero_iff_nil in H0.
    destruct Q. split; try assumption. cbn [cl_pending cl_commandSeq]. rewrite H0. apply consecutive_nil. }
  clearbody γ1. revert γ1 Q1. change (pres qσ (let* c := cget in
     send {| packet0 with pk_type := FZ_COMMAND; pk_seq := cl_commandSeq c; pk_length := 1;
                          pk_payload := <[0%nat := FZ_LEAVE]> (zeros PAYLOAD_SIZE) |})).
  auto 10 with pres.
Qed.

Lemma detached_q :
  pres qσ (cupd (fun c => {| c with cl_attached := false; cl_id := -1; cl_pending := [] |})).
Proof.
  apply cupd_q. intros c []. split; try assumption; cbn [cl_pending]; try done; cbn; lia.
Qed.

Lemma unpublished_q :
  pres qσ (cupd (fun c => {| c with cl_game := Init; cl_requests := []; cl_published := view0 |})).
Proof. apply cupd_q. intros c []. split; try assumption. cbn. lia. Qed.

#[local] Hint Resolve detached_q unpublished_q : pres.

Lemma detach_idle γ : qσ γ -> idle (exec detach γ).
Proof.
  intros Q. unfold detach. rewrite exec_bind. change (eval cget γ) with (cl γ).
  change (exec cget γ) with γ. rewrite exec_bind. set (γ0 := exec (when _ _) γ).
  assert (qσ γ0) as Q0.
  { unfold γ0. clear γ0. rewrite exec_when. case_if; [|done]. rewrite exec_bind.
    pose proof (leave_q γ Q) as Q1. set (γ1 := exec (when _ _) γ) in *. clearbody γ1. revert γ1 Q1.
    change (pres qσ (cupd (fun c => {| c with cl_socket := -1 |}))). auto with pres. }
  clearbody γ0. rewrite !exec_bind. split; [|done].
  apply unpublished_q, clear_q, detached_q, restoreTitle_q, restore_q, Q0.
Qed.

Lemma idle_then {A B} (m : M CSys A) (k : A -> M CSys B) :
  pres qσ m -> keeps (fun γ => cl_pending (cl γ)) m -> (forall a, hoare idle (k a) (fun _ => qσ)) ->
  hoare idle (bind m k) (fun _ => qσ).
Proof.
  intros P K H γ [Q Hp]. rewrite exec_bind. apply H. split; [by apply P|].
  pose proof (K γ) as HK. cbv beta in HK. congruence.
Qed.

Lemma idle_fail text : hoare idle (attach_fail text) (fun _ => qσ).
Proof. intros γ [Q _]. unfold attach_fail. rewrite exec_bind, exec_ret. by apply failure_q. Qed.

Lemma restart_q γ :
  idle γ ->
  qσ (exec (cupd (fun c => {| c with cl_session := 0; cl_token := 0; cl_id := -1; cl_race := 0;
                                     cl_commandSeq := 0; cl_stateSeq := 0; cl_snapshotSeq := 0;
                                     cl_phase := FZ_LOBBY |})) γ).
Proof.
  intros [Q Hp]. unfold qσ. rewrite exec_cupd. cbn [cl]. destruct Q.
  split; try assumption; cbn [cl_pending cl_commandSeq]; rewrite Hp; [done|apply consecutive_nil].
Qed.

Lemma zeroed_q t :
  pres qσ (cupd (fun c => {| c with cl_lastRecv := t; cl_rateTime := t; cl_lastHello := 0; cl_lastPing := 0;
                           cl_lastPublish := 0; cl_frames := 0; cl_bestRtt := d_1e12; cl_rx := 0;
                           cl_tx := 0; cl_bytes := 0; cl_stale := 0; cl_retries := 0; cl_gaps := 0;
                           cl_snapshots := 0; cl_prevRx := 0; cl_prevTx := 0; cl_prevBytes := 0;
                           cl_prevFrames := 0; cl_rtt := d0; cl_jitter := d0; cl_offset := d0;
                           cl_peers := replicate 4 peer0; cl_pending := [] |})).
Proof.
  apply cupd_q. intros c []. split; try assumption; cbn [cl_pending]; try done; cbn; lia.
Qed.

#[local] Hint Resolve zeroed_q : pres.

Lemma attach_begin_q r : hoare idle (attach_begin r) (fun _ => qσ).
Proof.
  unfold attach_begin. apply idle_then; [auto with pres|by intros γ|intros _].
  apply idle_then; [auto with pres| |intros _].
  { intros γ. rewrite exec_cupd. cbn [cl]. by case_if. }
  intros γ I. rewrite exec_bind. pose proof (restart_q γ I) as Q. set (γ1 := exec (cupd _) γ) in *.
  clearbody γ1. clear I. revert γ1 Q.
  match goal with |- forall γ1, _ -> qσ (exec ?m γ1) => change (pres qσ m) end.
  repeat (apply pres_bind; [solve [auto 5 with pres]|intros ?]). auto with pres.
Qed.

Lemma attach_q m : pres qσ (attach m).
Proof.
  intros γ Q. unfold attach. rewrite exec_bind. pose proof (detach_idle γ Q) as I.
  set (γ0 := exec detach γ) in *. clearbody γ0. revert γ0 I.
  match goal with |- forall γ0, _ -> qσ (exec ?m γ0) => change (hoare idle m (fun _ => qσ)) end.
  apply idle_then; [auto with pres|by intros ?|intros _].
  apply idle_then; [auto with pres|by intros ?|intros c].
  destruct (rfind_colon _ _ _); [|apply idle_fail]. do 2 (case_if; [apply idle_fail|]).
  unfold attach_socket. apply idle_then; [auto with pres|by intros ?|intros _]. case_if.
  - apply idle_then; [auto with pres|by intros ?|intros _; apply idle_fail].
  - destruct random_nonce; [apply attach_begin_q|apply idle_fail].
Qed.

Lemma run_client_q x : pres qσ (run_client x).
Proof.
  destruct x as [m|op]; cbn [run_client].
  - apply pres_bind; [apply attach_q|auto with pres].
  - destruct op; cbn [run_op]; [apply tick_q|apply frame_q|apply request_q|apply failure_q| |auto with pres].
    intros γ Q. by apply detach_idle.
Qed.

Lemma client0_q config w : qσ (mk_csys (client0 config) w).
Proof. split; cbn; try done; try lia. Qed.

End Queues.

(** C13. After any sequence of calls on a new client, at most eight commands are
    waiting, they are COMMAND packets whose sequence numbers are consecutive
    modulo 2^32 and end at the client's counter, none waits before the client
    has joined, and the snapshot buffer, the event log and the request queue
    stay within their capacities of 16, 12 and 8. *)
Theorem client_queues_bounded {E : ClientEnv} config w calls :
  queues_ok (cl (exec (for_each calls run_client) (mk_csys (client0 config) w))).
Proof.
  assert (pres qσ (for_each calls run_client)) as P.
  { apply pres_for_each. apply run_client_q. }
  apply P, client0_q.
Qed.

(** ** A full queue loses the selection *)

Section Selection.
Context {E : ClientEnv}.

Lemma queue_exact command γ :
  0 <= cl_id (cl γ) -> (length command <= PAYLOAD_SIZE)%nat ->
  cl_pending (cl (exec (queue command) γ)) = cl_pending (cl γ) ++
    if (8 <=? length (cl_pending (cl γ)))%nat then []
    else [mk_pending {| packet0 with pk_type := FZ_COMMAND; pk_seq := u32 (cl_commandSeq (cl γ) + 1);
            pk_length := u16 (Z.of_nat (length command));
            pk_payload := memcpy (zeros PAYLOAD_SIZE) 0 command (length command) |} 0].
Proof.
  intros Hi Hl. unfold queue. rewrite exec_bind. change (eval cget γ) with (cl γ). change (exec cget γ) with γ.
  rewrite (proj2 (Z.ltb_ge _ _) Hi), (proj2 (Nat.ltb_ge _ _) Hl), orb_false_r. cbn [orb].
  case_if; [by rewrite app_nil_r|]. by rewrite exec_bind.
Qed.

(** A joined client that plays, with its machine confirmed, in the lobby. *)
Record confirmed (c : Client) : Prop := {
  cf_attached : cl_attached c = true;
  cf_baseline : f_baseline (cl_config c) = false;
  cf_waiting : cl_game c = Waiting;
  cf_joined : 0 <= cl_id c;
  cf_lobby : cl_phase c = FZ_LOBBY
}.

(** The command that announces the machine. *)
Definition select_command (seq car : Z) : Pending :=
  mk_pending {| packet0 with pk_type := FZ_COMMAND; pk_seq := seq; pk_length := 2;
                             pk_payload := FZ_SELECT :: car :: zeros 218 |} 0.

(** What happens to the commands when the selection is announced. *)
Definition announced (c : Client) : list Pending :=
  cl_pending c ++ if (8 <=? length (cl_pending c))%nat then []
                  else [select_command (u32 (cl_commandSeq c + 1)) (cl_car c)].

(** The commands after a frame. *)
Definition after_selection (c : Client) : list Pending :=
  if cl_selectedSent c then cl_pending c else announced c.

Lemma queue_confirmed command γ : confirmed (cl γ) -> confirmed (cl (exec (queue command) γ)).
Proof.
  intros H. unfold queue. rewrite exec_bind. change (eval cget γ) with (cl γ). change (exec cget γ) with γ.
  case_if; [done|]. rewrite exec_bind. by destruct H.
Qed.

Lemma frame_waiting_lobby γ :
  confirmed (cl γ) ->
  let τ := exec frame_waiting γ in
  confirmed (cl τ) /\ cl_selectedSent (cl τ) = true /\ cl_pending (cl τ) = after_selection (cl γ).
Proof.
  intros C τ. unfold τ, frame_waiting, after_selection. rewrite exec_bind.
  change (eval cget γ) with (cl γ). change (exec cget γ) with γ. rewrite exec_bind.
  set (γ1 := exec (when _ _) γ).
  assert (confirmed (cl γ1) /\ cl_selectedSent (cl γ1) = true /\ cl_pending (cl γ1) =
    if cl_selectedSent (cl γ) then cl_pending (cl γ) else announced (cl γ)) as (H1 & H2 & H3).
  { unfold γ1. rewrite exec_when, (cf_lobby _ C), (proj2 (Z.geb_le _ _) (cf_joined _ C)).
    destruct (cl_selectedSent (cl γ)) eqn:Hs; cbn [negb andb Z.eqb FZ_LOBBY]; [done|]. rewrite exec_bind.
    pose proof (queue_confirmed [FZ_SELECT; cl_car (cl γ)] γ C) as C1.
    pose proof (queue_exact [FZ_SELECT; cl_car (cl γ)] γ (cf_joined _ C) ltac:(by vm_compute; lia)) as Q1.
    set (γ2 := exec (queue _) γ) in *. clearbody γ2. split; [by destruct C1|]. split; [done|]. exact Q1. }
  clearbody γ1. rewrite exec_bind. change (eval cget γ1) with (cl γ1). change (exec cget γ1) with γ1.
  rewrite exec_when, (cf_lobby _ H1), andb_false_r. done.
Qed.

(** A frame of such a client. *)
Lemma frame_lobby γ :
  confirmed (cl γ) ->
  let τ := exec frame γ in
  confirmed (cl τ) /\ cl_selectedSent (cl τ) = true /\ cl_pending (cl τ) = after_selection (cl γ).
Proof.
  intros C τ. unfold τ, frame. rewrite exec_bind. change (eval cget γ) with (cl γ). change (exec cget γ) with γ.
  rewrite (cf_attached _ C), (cf_baseline _ C), (cf_waiting _ C), bool_decide_eq_false_2 by done. cbn [negb orb].
  rewrite exec_bind. set (γ1 := exec (cupd _) γ).
  assert (confirmed (cl γ1) /\ after_selection (cl γ1) = after_selection (cl γ)) as [C1 A1] by (destruct C; done).
  rewrite <- A1. clearbody γ1. do 3 (rewrite exec_bind; change (exec (ram_at _) γ1) with γ1).
  generalize (eval (ram_at 0x54) γ1) (eval (ram_at 0x55) γ1) (eval (ram_at 0x56) γ1). intros r54 r55 r56.
  rewrite exec_bind. set (γ2 := exec (when _ _) γ1).
  assert (confirmed (cl γ2) /\ after_selection (cl γ2) = after_selection (cl γ1)) as [C2 A2].
  { unfold γ2. rewrite exec_when. case_if; [|done]. by destruct C1. }
  rewrite <- A2. by apply frame_waiting_lobby.
Qed.


End Selection.

(** An environment in which nothing arrives. *)
#[local] Instance quiet_env : ClientEnv := {|
  steady_clock n := Z.of_nat n;
  recv_data _ := None;
  send_result _ := 0;
  reset_ram m := m;
  resolves _ _ := true;
  udp_socket := 4;
  connects := true;
  nonblocking := true;
  random_nonce := Some 7
|}.

(** A joined client in the lobby whose player has just confirmed a machine, after
    [n] requests of the user interface that no snapshot has acknowledged yet. *)
Definition busy_client (n : nat) : CSys :=
  let config := config0 in
  exec (for_each (replicate n [FZ_CONFIG; 2; 1; 1]) queue)
    (mk_csys {| (client0 config) with cl_attached := true; cl_socket := 4; cl_id := 0;
                                      cl_game := Waiting; cl_car := 2 |} (mk_cworld 0 0 0 [])).

