(* ===== verification/Delivery.v ===== *)
(** * A command from the client to the server and back

    The client keeps its commands in order and repeats the oldest until a
    snapshot acknowledges it; the server applies the next command of the stream
    and acknowledges it in every snapshot. Composed: the datagram the client
    repeats makes the server apply that command, whether or not an earlier copy
    arrived, and the snapshot sent afterwards takes exactly that command off
    the client's queue. *)

From S2P Require Import Prelude State Double Text Protocol Server Room ServerCore ServerRefine Scenario ServerRun ServerProps Commands Client ClientRom ClientQueue Replication.

Local Open Scope Z_scope.
Local Open Scope fz_scope.

(** What [Client::send] puts on the wire for [p]. *)
Definition stamped (c : Client) (p : fz_packet) : fz_packet :=
  {| p with pk_session := cl_session c; pk_token := cl_token c; pk_race := cl_race c |}.

(** The client has joined the server's room as the participant in slot [i]. *)
Record linked (i : nat) (a : sockaddr_in) (σ : Sys) (γ : CSys) : Prop := {
  lk_slot : (i < 4)%nat;
  lk_occupied : occupied (player_at (srv σ) i) = true;
  lk_address : p_address (player_at (srv σ) i) = a;
  lk_open : s_closed (srv σ) = false;
  lk_joined : 0 <= cl_id (cl γ);
  lk_session : cl_session (cl γ) = s_session (srv σ);
  lk_token : cl_token (cl γ) = p_token (player_at (srv σ) i);
  lk_race : cl_race (cl γ) = s_race (srv σ)
}.

(** The command that acknowledges the deadline [start] of a countdown. *)
Definition arm_command (seq start : Z) : Pending :=
  mk_pending {| packet0 with pk_type := FZ_COMMAND; pk_seq := seq; pk_length := 9;
                             pk_payload := FZ_ARM :: le64 start ++ zeros 211 |} 0.

(** The command a snapshot makes the client add to a queue [kept]: the
    acknowledgement of a deadline it has not acknowledged yet, if there is room. *)
Definition countdown_answer (c : Client) (phase start : Z) (kept : list Pending) : list Pending :=
  if (phase =? FZ_COUNTDOWN) && negb (start =? cl_armedTime c) && negb (8 <=? length kept)%nat
  then [arm_command (u32 (cl_commandSeq c + 1)) start] else [].

(** What decides about such a command. *)
Definition queue_view (γ : CSys) : list Pending * Z * Z * Z :=
  (cl_pending (cl γ), cl_commandSeq (cl γ), cl_armedTime (cl γ), cl_id (cl γ)).

(** ** The acknowledgement window *)

Lemma u32_succ_neq q : fits 32 q -> q <> u32 (q + 1).
Proof. intros Hq H. unfold u32, fits in *. rewrite H in Hq at 1. Z.to_euclidean_division_equations. lia. Qed.

Lemma fz_newer_prev q : fits 32 q -> fz_newer q (u32 (q + 1)) = false.
Proof.
  intros Hq. unfold fz_newer. destruct (Z.eqb_spec q (u32 (q + 1))) as [H|H]; [done|]. cbn [negb andb].
  unfold u32, fits in *. apply Z.ltb_ge. Z.to_euclidean_division_equations. lia.
Qed.

(** The number after that of the first waiting command. *)
Lemma consecutive_second q p p' l :
  consecutive q (p :: p' :: l) -> pk_seq (pd_packet p') = u32 (pk_seq (pd_packet p) + 1).
Proof.
  intros H. rewrite (H 0%nat p eq_refl), (H 1%nat p' eq_refl). cbn [length]. unfold u32.
  rewrite Zplus_mod_idemp_l. f_equal. lia.
Qed.

Lemma consecutive_fits q p l : consecutive q (p :: l) -> fits 32 (pk_seq (pd_packet p)).
Proof. intros H. rewrite (H 0%nat p eq_refl). apply fits_u32. Qed.

(** Nothing is acknowledged before the server had the first command. *)
Lemma acknowledge_before q p l ack :
  consecutive q (p :: l) -> fits 32 ack -> pk_seq (pd_packet p) = u32 (ack + 1) ->
  acknowledge ack (p :: l) = p :: l.
Proof.
  intros _ Ha Hs. cbn [acknowledge]. rewrite Hs, (fz_newer_prev ack Ha).
  destruct (Z.eqb_spec ack (u32 (ack + 1))) as [H|]; [by apply u32_succ_neq in H|done].
Qed.

(** The first command, and nothing else, is acknowledged once the server had it. *)
Lemma acknowledge_first q p l :
  consecutive q (p :: l) -> acknowledge (pk_seq (pd_packet p)) (p :: l) = l.
Proof.
  intros H. cbn [acknowledge]. rewrite Z.eqb_refl. cbn [orb]. destruct l as [|p' l]; [done|].
  pose proof (consecutive_fits _ _ _ H) as Hf. pose proof (consecutive_second _ _ _ _ H) as Hs.
  cbn [acknowledge]. rewrite Hs, (fz_newer_prev _ Hf).
  destruct (Z.eqb_spec (pk_seq (pd_packet p)) (u32 (pk_seq (pd_packet p) + 1))) as [He|]; [|done].
  by apply u32_succ_neq in He.
Qed.

Section Client.
Context {F : ClientEnv}.

Lemma queue_pending command γ :
  exists extra, cl_pending (cl (exec (queue command) γ)) = cl_pending (cl γ) ++ extra.
Proof.
  unfold queue. rewrite exec_bind. change (eval cget γ) with (cl γ). change (exec cget γ) with γ.
  case_if; [exists []; by rewrite app_nil_r|]. rewrite exec_bind. by eexists.
Qed.

(** Commands are only added, by a countdown that asks for its acknowledgement. *)
Lemma adopt_snapshot_pending b γ :
  0 <= cl_id (cl γ) ->
  cl_pending (cl (exec (adopt_snapshot b) γ)) =
    cl_pending (cl γ) ++ countdown_answer (cl γ) (rd b 0) (fz_u64 b 16) (cl_pending (cl γ)).
Proof.
  intros Hi. unfold adopt_snapshot. rewrite exec_bind. set (γ1 := exec (cupd _) γ).
  assert (queue_view γ1 = queue_view γ /\ cl_phase (cl γ1) = rd b 0 /\ cl_startTime (cl γ1) = fz_u64 b 16)
    as (H1 & H2 & H3) by done. clearbody γ1.
  rewrite exec_bind. set (γ2 := exec (bufferSnapshot _) γ1).
  assert (queue_view γ2 = queue_view γ1 /\ cl_phase (cl γ2) = cl_phase (cl γ1) /\
    cl_startTime (cl γ2) = cl_startTime (cl γ1)) as (H4 & H5 & H6) by done.
  clearbody γ2. rewrite exec_bind. change (eval cget γ2) with (cl γ2). change (exec cget γ2) with γ2.
  rewrite exec_when. rewrite H1 in H4. rewrite H2 in H5. rewrite H3 in H6. injection H4 as V1 V2 V3 V4.
  unfold countdown_answer. rewrite <- V1, <- V2, <- V3, <- H5, <- H6.
  destruct (_ && _); cbn [andb]; [|by rewrite app_nil_r]. rewrite exec_bind. set (command := fz_put64 _ 1 _).
  etransitivity; [exact (queue_exact command γ2 ltac:(lia) ltac:(by vm_compute; lia))|].
  by destruct (8 <=? length (cl_pending (cl γ2)))%nat.
Qed.

(** A snapshot of the same race takes the acknowledged commands off the queue. *)
Lemma receive_snapshot_pending p t γ :
  0 <= cl_id (cl γ) -> fz_newer (pk_seq p) (cl_snapshotSeq (cl γ)) = true -> pk_race p = cl_race (cl γ) ->
  let kept := acknowledge (pk_ack p) (cl_pending (cl γ)) in
  cl_pending (cl (exec (receive_snapshot p t) γ)) =
    kept ++ countdown_answer (cl γ) (rd (pk_payload p) 0) (fz_u64 (pk_payload p) 16) kept.
Proof.
  intros Hi Hq Hr kept. unfold kept, receive_snapshot. rewrite exec_bind. change (eval cget γ) with (cl γ).
  change (exec cget γ) with γ. rewrite Hq, Hr, Z.eqb_refl. cbn [negb orb andb]. rewrite exec_bind.
  match goal with |- context [exec _ (exec (when ?b ?m) γ)] => set (γ1 := exec (when b m) γ) end.
  assert (queue_view γ1 = queue_view γ /\ cl_race (cl γ1) = cl_race (cl γ)) as [H1 H2].
  { unfold γ1. rewrite exec_when. case_if; [|done]. cbv zeta. rewrite exec_when. by case_if. }
  clearbody γ1. rewrite exec_bind, exec_bind. injection H1 as V1 V2 V3 V4.
  match goal with |- context [exec (cupd ?f) (exec (cupd ?g) γ1)] => set (γ2 := exec (cupd f) (exec (cupd g) γ1)) end.
  assert (cl_pending (cl γ2) = acknowledge (pk_ack p) (cl_pending (cl γ1)) /\ cl_race (cl γ2) = cl_race (cl γ1) /\
    cl_commandSeq (cl γ2) = cl_commandSeq (cl γ1) /\ cl_armedTime (cl γ2) = cl_armedTime (cl γ1) /\
    cl_id (cl γ2) = cl_id (cl γ1)) as (W1 & W2 & W3 & W4 & W5) by done.
  clearbody γ2. rewrite exec_bind. change (eval cget γ2) with (cl γ2). change (exec cget γ2) with γ2.
  rewrite W2, H2, Z.eqb_refl. cbn [negb when]. rewrite exec_bind, exec_skip, adopt_snapshot_pending by lia.
  unfold countdown_answer. by rewrite W1, W3, W4, V1, V2, V3.
Qed.

End Client.

(** ** The server's part *)

Section Server.
Context {E : Env}.

Definition sessionσ (σ : Sys) : Z := s_session (srv σ).

Lemma log_event_session l i m : keeps sessionσ (log_event l i m).
Proof. through. Qed.

Lemma receive_command_session packet i : keeps sessionσ (receive_command packet i).
Proof. through. Qed.

Lemma all_bytes_datagram p : wf_packet p -> all_bytes (datagram p).
Proof.
  intros (Ht & Hl & _ & _ & _ & _ & _ & _ & Hp). unfold datagram. apply Forall_app. split.
  - unfold header_of. apply Forall_app. split; [by repeat constructor|]. apply Forall_app. split.
    { apply Forall_cons_2; [done|]. apply Forall_cons_2; [|apply Forall_nil_2].
      unfold FZ_HELLO, FZ_ROOM_CLOSED, fits in *. lia. }
    repeat (apply Forall_app; split); first [apply all_bytes_le16|apply all_bytes_le32|apply all_bytes_le64].
  - by apply Forall_take.
Qed.

Lemma decode_stamped p :
  wf_packet p -> fz_decode (datagram p) (Z.of_nat (length (datagram p))) = Some (trimmed p).
Proof.
  intros W. rewrite datagram_length by done.
  rewrite Z2Nat.id by (destruct W as (_ & ? & _); unfold FZ_HEADER; lia).
  by rewrite <- (app_nil_r (datagram _)), fz_decode_datagram.
Qed.

(** The sender of a stamped packet is recognized. *)
Lemma authenticate_linked i a σ γ p :
  good (coreσ σ) -> linked i a σ γ -> pk_session p = cl_session (cl γ) -> pk_token p = cl_token (cl γ) ->
  authenticate (srv σ) p a = Some i.
Proof.
  intros G [K1 K2 K3 K4 K5 K6 K7 K8] Hs Ht. destruct (authenticate (srv σ) p a) as [j|] eqn:Ha.
  - destruct (authenticate_Some _ _ _ _ Ha) as (Hj & Ho & Haj). f_equal.
    destruct (good_server_ok _ G) as [_ _ _ _ Hend _ _ _ _]. apply (Hend j i); try done.
    apply same_address_eq. congruence.
  - exfalso. unfold authenticate, first_slot in Ha. pose proof (find_none _ _ Ha i) as Hn. cbv beta in Hn.
    rewrite K2, Hs, K6, Ht, K7, !Z.eqb_refl in Hn. cbn [andb] in Hn.
    rewrite (proj2 (same_address_eq _ _)) in Hn by done. discriminate Hn. simpl. lia.
Qed.

(** What the room makes of a command: its next one has the effect the table of
    commands says, at some times the clock gave, and its last one again has none. *)
Definition applied (p : fz_packet) (i : nat) (σ τ : Sys) : Prop :=
  (pk_seq p = u32 (p_command_seq (player_at (srv σ) i) + 1) ->
     exists t1 t2 t3, coreσ τ = k_command p i t1 t2 t3 (coreσ σ)) /\
  (pk_seq p = p_command_seq (player_at (srv σ) i) -> coreσ τ = coreσ σ).

(** The datagram of the next command, or of the last one again. *)
Lemma deliver_command i a σ γ front :
  good (coreσ σ) -> linked i a σ γ -> wf_packet (stamped (cl γ) front) -> pk_type front = FZ_COMMAND ->
  1 <= pk_length front ->
  pk_seq front = u32 (p_command_seq (player_at (srv σ) i) + 1) \/ pk_seq front = p_command_seq (player_at (srv σ) i) ->
  let τ := exec (deliver (datagram (stamped (cl γ) front)) a) σ in
  good (coreσ τ) /\ s_session (srv τ) = s_session (srv σ) /\
  applied (trimmed (stamped (cl γ) front)) i σ τ /\
  (occupied (player_at (srv τ) i) = true ->
   p_token (player_at (srv τ) i) = p_token (player_at (srv σ) i) /\
   p_command_seq (player_at (srv τ) i) = pk_seq front).
Proof.
  intros G K W Ht Hlen Hq. set (d := datagram (stamped (cl γ) front)). cbv zeta.
  pose proof (decode_stamped _ W) as Hd. fold d in Hd. set (p := trimmed (stamped (cl γ) front)) in *.
  pose proof (authenticate_linked i a σ γ p G K eq_refl eq_refl) as Ha.
  assert (pk_type p = FZ_COMMAND) as Htp by exact Ht.
  pose proof K as [K1 K2 K3 K4 K5 K6 K7 K8]. split.
  { eapply moves_good; [apply receive_packet_moves; by apply all_bytes_datagram|done]. }
  pose proof (u32_succ_neq _ (wf_command_seq _ (wf_player_at (srv σ) i (proj1 G)))) as Hsucc.
  destruct Hq as [Hq|Hq].
  - assert (exec (deliver d a) σ = exec (receive_command p i) (exec (upd (fun s => {| s with s_rx := u64 (s_rx s + 1) |})) σ))
      as ->.
    { unfold deliver. rewrite (receive_packet_player _ _ _ _ _ _ Hd) by (done || by rewrite Htp).
      rewrite receive_player_command by done. match goal with |- (if ?x =? ?y then _ else _) = _ =>
        destruct (Z.eqb_spec x y) as [|Hn]; [done|exact (False_rect _ (Hn K8))] end. }
    set (σ0 := exec (upd _) σ). split; [exact (receive_command_session p i σ0)|]. split.
    { split; [|intros Hn; exfalso; by apply Hsucc; rewrite <- Hq]. intros _. apply (receive_command_core p i σ0); try done. apply (wf_len _ (proj1 G)). }
    intros Ho.
    destruct (receive_command_ids p i σ0 i) as (_ & _ & I3 & I4); try done; [apply G|]. by split; [|apply I4].
  - assert (coreσ (exec (deliver d a) σ) = coreσ σ) as Hc.
    { apply (replay_idle d _ a p); try done; [apply G|apply G|]. intros j Hj Ho Haj.
      destruct (good_server_ok _ G) as [_ _ _ _ Hend _ _ _ _].
      assert (j = i) as -> by (apply (Hend j i); try done; apply same_address_eq; congruence). done. }
    split; [exact (f_equal k_session Hc)|]. split.
    { split; [|done]. intros Hn. exfalso. apply Hsucc. by rewrite <- Hq at 1. }
    intros _. rewrite !player_at_pl.
    change (core (srv ?x)) with (coreσ x). rewrite Hc. change (coreσ σ) with (core (srv σ)).
    by rewrite <- player_at_pl.
Qed.

End Server.

(** ** Back to the client *)

(** What a snapshot of the server does to the queue of a linked client. *)
Lemma snapshot_pending {E : Env} {F : ClientEnv} σ γ i now :
  good (coreσ σ) -> (i < 4)%nat -> 0 <= cl_id (cl γ) -> cl_session (cl γ) = s_session (srv σ) ->
  cl_token (cl γ) = p_token (player_at (srv σ) i) -> s_race (srv σ) = cl_race (cl γ) ->
  fz_newer (u32 (s_snapshot_seq (srv σ) + 1)) (cl_snapshotSeq (cl γ)) = true ->
  let d := datagram (snapshot_packet (numbered (srv σ)) now i) in
  let kept := acknowledge (p_command_seq (player_at (srv σ) i)) (cl_pending (cl γ)) in
  exists p, fz_decode d (Z.of_nat (length d)) = Some p /\
    cl_pending (cl (exec (receive p) γ)) =
      kept ++ countdown_answer (cl γ) (s_phase (srv σ)) (s_start (srv σ)) kept.
Proof.
  intros G Hi Hid Hs Ht Hr Hq d kept. set (s := numbered (srv σ)).
  assert (wf_packet (snapshot_packet s now i)) as W.
  { apply snapshot_packet_wf; [exact G|]. unfold s, numbered. cbn. auto with fz. }
  destruct (receive_is_snapshot (snapshot_packet s now i) γ) as [t Hx]; try done.
  { by apply snapshot_valid_good. }
  pose proof (receive_snapshot_pending (snapshot_packet s now i) t (exec Client.now γ) Hid Hq Hr) as H1.
  exists (snapshot_packet s now i). split; [by apply snapshot_decodes|]. rewrite Hx. rewrite H1. unfold kept.
  cbn [pk_payload pk_ack snapshot_packet]. rewrite layout_start by apply (wf_start _ (proj1 G)).
  by rewrite snapshot_payload_layout.
Qed.

Section Tick.
Context {F : ClientEnv}.

(** What [send] writes into a packet, and where it sends it. *)
Definition stampσ (γ : CSys) := (cl_session (cl γ), cl_token (cl γ), cl_race (cl γ), cl_socket (cl γ), cw γ).

Lemma queue_all l : forall γ,
  stampσ (exec (for_each l queue) γ) = stampσ γ /\
  exists extra, cl_pending (cl (exec (for_each l queue) γ)) = cl_pending (cl γ) ++ extra.
Proof.
  induction l as [|x l IH]; intros γ; [split; [done|exists []; by rewrite app_nil_r]|].
  cbn [for_each]. rewrite exec_bind. destruct (IH (exec (queue x) γ)) as [I1 [e I2]].
  destruct (queue_pending x γ) as [e' He]. split.
  - rewrite I1. unfold queue. rewrite exec_bind. change (eval cget γ) with (cl γ). change (exec cget γ) with γ. by case_if.
  - exists (e' ++ e). by rewrite I2, He, app_assoc.
Qed.

Lemma send_sent p γ :
  0 <= cl_socket (cl γ) -> wf_packet (stamped (cl γ) p) ->
  cw_sent (cw (exec (send p) γ)) = cw_sent (cw γ) ++ [datagram (stamped (cl γ) p)].
Proof.
  intros Hs W. unfold send. rewrite exec_bind. change (eval cget γ) with (cl γ). change (exec cget γ) with γ.
  cbv zeta. fold (stamped (cl γ) p). rewrite encode_datagram by done. destruct (Z.geb_spec (cl_socket (cl γ)) 0); [|lia].
  rewrite exec_bind, exec_bind, exec_when. rewrite <- (datagram_length _ W), take_app_length. by case_if.
Qed.

Lemma send_grows p : forall γ, cw_sent (cw γ) `prefix_of` cw_sent (cw (exec (send p) γ)).
Proof.
  intros γ. unfold send. rewrite exec_bind. change (eval cget γ) with (cl γ). change (exec cget γ) with γ. cbv zeta.
  destruct (fz_encode _ _ _) as [n data]. case_if; [|done]. rewrite exec_bind, exec_bind, exec_when. by case_if; eexists.
Qed.

(** The oldest command is sent when it is due. *)
Lemma tick_joined_sends t γ front rest :
  cl_pending (cl γ) = front :: rest -> 0 <= cl_socket (cl γ) -> wf_packet (stamped (cl γ) (pd_packet front)) ->
  250000 <= u64 (t - pd_sent front) ->
  cw_sent (cw γ) ++ [datagram (stamped (cl γ) (pd_packet front))] `prefix_of` cw_sent (cw (exec (tick_joined t) γ)).
Proof.
  intros Hp Hs W Hd. unfold tick_joined. rewrite exec_bind. change (eval cget γ) with (cl γ). change (exec cget γ) with γ.
  rewrite exec_bind, exec_bind. set (γ0 := exec (cupd _) γ).
  assert (stampσ γ0 = stampσ γ /\ cl_pending (cl γ0) = front :: rest) as [S0 P0] by done. clearbody γ0.
  destruct (queue_all (cl_requests (cl γ)) γ0) as [S1 [extra P1]].
  set (γ1 := exec (for_each (cl_requests (cl γ)) queue) γ0) in *. rewrite P0 in P1. rewrite S0 in S1. clearbody γ1.
  injection S1 as Q1 Q2 Q3 Q4 Q5.
  rewrite exec_bind. change (eval cget γ1) with (cl γ1). change (exec cget γ1) with γ1. rewrite P1. cbn [app].
  rewrite exec_bind, exec_when. destruct (Z.geb_spec (u64 (t - pd_sent front)) 250000); [|lia].
  match goal with |- context [exec (bind (when ?b ?m) ?k) γ1] =>
    rewrite (exec_bind (when b m) k γ1); set (γ2 := exec (when b m) γ1) end. assert (stampσ γ2 = stampσ γ) as S2.
  { unfold γ2. rewrite exec_when. transitivity (stampσ γ1); [by case_if|].
    unfold stampσ. by rewrite Q1, Q2, Q3, Q4, Q5. }
  clearbody γ2. injection S2 as V1 V2 V3 V4 V5.
  assert (stamped (cl γ2) (pd_packet front) = stamped (cl γ) (pd_packet front)) as Hst
    by (unfold stamped; by rewrite V1, V2, V3).
  match goal with |- context [exec (bind (send ?p) ?k) γ2] => rewrite (exec_bind (send p) k γ2) end.
  set (γ3 := exec (send (pd_packet front)) γ2).
  assert (cw_sent (cw γ3) = cw_sent (cw γ) ++ [datagram (stamped (cl γ) (pd_packet front))]) as H3.
  { unfold γ3. rewrite send_sent, Hst, V5; [done|lia|]. by rewrite Hst. }
  clearbody γ3.
  match goal with |- context [exec (cupd ?f) γ3] => set (γ4 := exec (cupd f) γ3) end. assert (cw γ4 = cw γ3) as H4 by done. clearbody γ4.
  rewrite exec_bind. change (eval cget γ4) with (cl γ4). change (exec cget γ4) with γ4. rewrite exec_when, <- H3, <- H4.
  case_if; [|done]. rewrite exec_bind. apply send_grows.
Qed.

End Tick.

(** C11. A command's way to the server and back. A joined client whose oldest
    command is due sends it. When the datagram reaches the server from the
    client's endpoint as its next command, the room changes exactly as the table
    of commands [k_command] says (the command's effect if it is accepted, its
    consequences, then the rules of a tick); when it is a repetition, the room
    does not change. Either way, while the participant stays, the command's
    number is the last one applied, and while the race is the same the next
    snapshot that reaches the client takes exactly this command off the queue,
    the others stay in order; a snapshot from before takes nothing off. The
    only command a snapshot adds is one acknowledgement of a countdown's
    deadline that was not acknowledged before, if the queue has room for it. *)
Theorem command_round_trip {E : Env} {F : ClientEnv} i a σ γ front rest t now :
  good (coreσ σ) -> linked i a σ γ -> queues_ok (cl γ) -> cl_pending (cl γ) = front :: rest ->
  wf_packet (stamped (cl γ) (pd_packet front)) -> 1 <= pk_length (pd_packet front) ->
  pk_seq (pd_packet front) = u32 (p_command_seq (player_at (srv σ) i) + 1) \/
    pk_seq (pd_packet front) = p_command_seq (player_at (srv σ) i) ->
  let command := stamped (cl γ) (pd_packet front) in
  let τ := exec (deliver (datagram command) a) σ in
  let answer ρ := datagram (snapshot_packet (numbered (srv ρ)) now i) in
  let fresh ρ := fz_newer (u32 (s_snapshot_seq (srv ρ) + 1)) (cl_snapshotSeq (cl γ)) = true in
  let received ρ kept := exists p, fz_decode (answer ρ) (Z.of_nat (length (answer ρ))) = Some p /\
    cl_pending (cl (exec (receive p) γ)) =
      kept ++ countdown_answer (cl γ) (s_phase (srv ρ)) (s_start (srv ρ)) kept in
  (0 <= cl_socket (cl γ) -> 250000 <= u64 (t - pd_sent front) ->
     cw_sent (cw γ) ++ [datagram command] `prefix_of` cw_sent (cw (exec (tick_joined t) γ))) /\
  applied (trimmed command) i σ τ /\
  (occupied (player_at (srv τ) i) = true ->
     p_command_seq (player_at (srv τ) i) = pk_seq (pd_packet front) /\
     (s_race (srv τ) = cl_race (cl γ) -> fresh τ -> received τ rest)) /\
  (p_command_seq (player_at (srv σ) i) <> pk_seq (pd_packet front) -> fresh σ -> received σ (front :: rest)).
Proof.
  intros G K Q Hp W Hlen Hq command τ answer fresh received.
  pose proof Q as [_ _ Qs Qt _ _ _]. rewrite Hp in Qs, Qt. apply Forall_cons in Qt as [Qt _].
  destruct (deliver_command i a σ γ (pd_packet front) G K W Qt Hlen Hq) as (Gτ & Sτ & Aτ & Oτ).
  fold command in Gτ, Sτ, Aτ, Oτ. fold τ in Gτ, Sτ, Aτ, Oτ.
  pose proof K as [K1 K2 K3 K4 K5 K6 K7 K8]. split_and!.
  - intros Hs Ht. by apply (tick_joined_sends t γ front rest).
  - exact Aτ.
  - intros Ho. destruct (Oτ Ho) as [O1 O2]. split; [exact O2|]. intros Hr Hf.
    destruct (snapshot_pending τ γ i now) as (p & H1 & H2); try done; try congruence.
    exists p. split; [done|]. by rewrite H2, O2, Hp, (acknowledge_first _ _ _ Qs).
  - intros Hne Hf. destruct (snapshot_pending σ γ i now) as (p & H1 & H2); try done.
    exists p. split; [done|]. rewrite H2, Hp, (acknowledge_before _ _ _ _ Qs); [done| |].
    { apply (wf_command_seq _ (wf_player_at (srv σ) i (proj1 G))). }
    destruct Hq as [Hq|Hq]; [done|]. by destruct Hne.
Qed.

(** ** Alice selects a machine *)

(** In the lobby of the second race, with two commands waiting. *)
Definition selecting_client : CSys :=
  exec (for_each [[FZ_SELECT; 2]; [FZ_CONFIG; 2; 1; 1]] queue)
    (mk_csys {| (cl alice_client) with cl_race := 2; cl_commandSeq := 5 |} (cw alice_client)).

Definition select_pending : Pending :=
  mk_pending {| packet0 with pk_type := FZ_COMMAND; pk_seq := 6; pk_length := 2;
                             pk_payload := payload_of [FZ_SELECT; 2] |} 0.

Lemma selecting_linked : linked 0 alice (demo_after 5) selecting_client.
Proof. split; try (by vm_compute). lia. Qed.

Lemma command_round_trip_witness :
  let d := datagram (stamped (cl selecting_client) (pd_packet select_pending)) in
  let τ := exec (deliver d alice) (demo_after 5) in
  p_command_seq (player_at (srv (demo_after 5)) 0) = 5 /\ p_car (player_at (srv τ) 0) = 2 /\
  p_command_seq (player_at (srv τ) 0) = 6 /\
  applied (trimmed (stamped (cl selecting_client) (pd_packet select_pending))) 0 (demo_after 5) τ /\
  (cw_sent (cw selecting_client) ++ [d]) `prefix_of` cw_sent (cw (exec (tick_joined 300000) selecting_client)).
Proof.
  intros d τ.
  assert (exists rest, cl_pending (cl selecting_client) = select_pending :: rest) as [rest Hp]
    by (eexists; vm_compute; reflexivity).
  assert (queues_ok (cl selecting_client)) as Q.
  { apply (pres_for_each qσ [[FZ_SELECT; 2]; [FZ_CONFIG; 2; 1; 1]] queue); [intros c; apply queue_q|].
    split; cbn; try done; lia. }
  assert (wf_packet (stamped (cl selecting_client) (pd_packet select_pending))) as W.
  { vm_compute. repeat split; try discriminate. repeat constructor; discriminate. }
  assert (p_command_seq (player_at (srv (demo_after 5)) 0) = 5 /\ p_car (player_at (srv τ) 0) = 2) as [H1 H2]
    by (split; by vm_compute).
  assert (occupied (player_at (srv τ) 0) = true) as H3 by (by vm_compute).
  assert (pk_seq (pd_packet select_pending) = u32 (p_command_seq (player_at (srv (demo_after 5)) 0) + 1)) as H4
    by (rewrite H1; by vm_compute).
  destruct (command_round_trip 0 alice (demo_after 5) selecting_client select_pending rest 300000 0
    (demo_after_good 5) selecting_linked Q Hp W) as (J1 & J2 & J3 & _); [done|by left|].
  split; [exact H1|]. split; [exact H2|]. split; [exact (proj1 (J3 H3))|].
  split; [exact J2|]. apply J1; by vm_compute.
Defined.
