(* ===== verification/Admission.v ===== *)
(** * Joining a room

    What becomes of a datagram from somebody who has no place in the room: the
    verdict of the server on a HELLO, the answer it sends, what the client makes
    of that answer, and the silence about everything else. *)

From S2P Require Import Prelude State Double Text Protocol Server Room ServerCore ServerRefine Scenario ServerRun ServerProps Client Replication.

Local Open Scope Z_scope.
Local Open Scope fz_scope.

(** ** The verdict *)

(** A HELLO whose length agrees with its key. *)
Definition hello_ok (p : fz_packet) : bool :=
  (9 <=? pk_length p) && (rd (pk_payload p) 8 <=? FZ_KEY_MAX)
  && (pk_length p =? 9 + rd (pk_payload p) 8).

Definition hello_nonce (p : fz_packet) : Z := fz_u64 (pk_payload p) 0.

Definition hello_key (p : fz_packet) : bytes :=
  take (Z.to_nat (rd (pk_payload p) 8)) (drop 9 (pk_payload p)).

(** The endpoint is a participant's. *)
Definition known (s : Server) (a : sockaddr_in) : bool :=
  existsb (fun i => occupied (player_at s i) && same_address a (p_address (player_at s i))) all4.

(** Why a HELLO is refused; [None] when it is admitted or belongs to a participant. *)
Definition refusal (s : Server) (p : fz_packet) (a : sockaddr_in) : option Z :=
  if negb (bool_decide (hello_key p = s_key s)) then Some FZ_REJECT_PASSWORD
  else if negb (s_owner_nonce s =? 0) && negb (occupied (player_at s 0))
          && negb (hello_nonce p =? s_owner_nonce s) then Some FZ_REJECT_STARTING
  else if known s a then None
  else if negb (s_phase s =? FZ_LOBBY) then Some FZ_REJECT_RACING
  else if s_expected s <=? count s then Some FZ_REJECT_FULL
  else None.

(** The answer to a refused HELLO. *)
Definition reject_packet (nonce reason : Z) : fz_packet :=
  {| packet0 with pk_type := FZ_JOIN_REJECT; pk_length := 9;
                  pk_payload := <[8%nat := reason]> (fz_put64 (zeros PAYLOAD_SIZE) 0 nonce) |}.

(** A HELLO of another protocol version. *)
Definition outdated_hello (data : bytes) : bool :=
  let size := Z.of_nat (length data) in
  (FZ_HEADER + 9 <=? size) && (size <=? FZ_MAX_PACKET) && memeq data FZVS_MAGIC 4
  && (rd data 5 =? FZ_HELLO) && negb (rd data 4 =? FZ_VERSION) && (fz_u16 data 6 =? size - FZ_HEADER).

(** The packet names the session and the token of a participant at [a]. *)
Definition credentials (s : Server) (packet : fz_packet) (a : sockaddr_in) : Prop :=
  exists i, (i < 4)%nat /\ occupied (player_at s i) = true /\ pk_session packet = s_session s /\
    pk_token packet = p_token (player_at s i) /\ a = p_address (player_at s i).

(** A client that was told to give up for [reason]. *)
Definition gave_up (γ : CSys) (reason : Z) : Prop :=
  cl_game (cl γ) = Disconnected /\ cl_socket (cl γ) < 0 /\
  Some (cl_message (cl γ)) = join_reasons !! Z.to_nat reason.

Lemma reject_payload nonce reason :
  <[8%nat := reason]> (fz_put64 (zeros PAYLOAD_SIZE) 0 nonce) = le64 nonce ++ reason :: zeros 211.
Proof. reflexivity. Qed.

Lemma reject_packet_wf nonce reason : fits 8 reason -> wf_packet (reject_packet nonce reason).
Proof.
  intros Hr. unfold reject_packet. repeat split; try done. cbn [pk_payload]. rewrite reject_payload.
  apply all_bytes_app. split; [apply all_bytes_le64|]. apply all_bytes_cons; [done|apply all_bytes_zeros].
Qed.

(** The key comparison of the server, as an equation. *)
Lemma key_test p (key : bytes) :
  fits 8 (rd (pk_payload p) 8) -> length (pk_payload p) = PAYLOAD_SIZE -> rd (pk_payload p) 8 <= FZ_KEY_MAX ->
  negb (rd (pk_payload p) 8 =? Z.of_nat (length key))
  || negb (memeq (skipn 9 (pk_payload p)) key (Z.to_nat (rd (pk_payload p) 8))) =
    negb (bool_decide (hello_key p = key)).
Proof.
  intros Hf Hl Hk. unfold hello_key. set (n := rd (pk_payload p) 8) in *. unfold fits in Hf.
  unfold FZ_KEY_MAX, PAYLOAD_SIZE in *.
  assert (length (take (Z.to_nat n) (drop 9 (pk_payload p))) = Z.to_nat n) as Hn.
  { rewrite length_take, length_drop, Hl. lia. }
  rewrite <- negb_andb. f_equal. apply eq_true_iff_eq.
  rewrite andb_true_iff, Z.eqb_eq, memeq_true, bool_decide_eq_true. split.
  - intros [H1 H2]. change (skipn 9) with (drop (A:=Z) 9) in H2. rewrite H2.
    apply take_ge. lia.
  - intros H. assert (length key = Z.to_nat n) as Hk' by (by rewrite <- H). split; [lia|].
    change (skipn 9) with (drop (A:=Z) 9). rewrite H. symmetry. apply take_ge. lia.
Qed.

Section Refusals.
Context {E : Env}.

Lemma join_error_sent a nonce reason σ :
  fits 8 reason ->
  sentσ (exec (join_error a nonce reason) σ) = sentσ σ ++ [(a, datagram (reject_packet nonce reason))].
Proof.
  intros Hr. unfold join_error. rewrite exec_bind. cbv zeta. rewrite transmit_sent; [done|].
  by apply (reject_packet_wf nonce reason).
Qed.

Lemma first_slot_known s a :
  match first_slot (fun i => occupied (player_at s i) && same_address a (p_address (player_at s i))) with
  | Some _ => known s a = true
  | None => known s a = false
  end.
Proof.
  unfold first_slot, known. destruct (List.find _ all4) as [i|] eqn:Hf.
  - apply find_some in Hf. apply existsb_exists. eauto.
  - apply not_true_is_false. intros (i & Hi & Ho)%existsb_exists.
    pose proof (find_none _ _ Hf i Hi). congruence.
Qed.

(** C7. A received datagram that is not a HELLO and does not carry the session
    identifier together with the token of a participant at the endpoint it came
    from changes nothing but the receive and reject counters, and is not
    answered. A datagram that is no packet of this protocol changes nothing but
    the reject counter and is not answered either, except that a HELLO of
    another protocol version gets one reply that names the version as the
    reason; the room stays as it is in that case too. A closed room ignores
    every packet. *)
Theorem unauthenticated_packet_ignored data a σ :
  let τ := exec (deliver data a) σ in
  (forall packet, fz_decode data (Z.of_nat (length data)) = Some packet ->
     pk_type packet <> FZ_HELLO -> s_closed (srv σ) = false -> ~ credentials (srv σ) packet a ->
     τ = mk_sys {| (srv σ) with s_rx := u64 (s_rx (srv σ) + 1);
                                s_rejected := u64 (s_rejected (srv σ) + 1) |} (wld σ)) /\
  (fz_decode data (Z.of_nat (length data)) = None -> outdated_hello data = false ->
     τ = mk_sys {| (srv σ) with s_rejected := u64 (s_rejected (srv σ) + 1) |} (wld σ)) /\
  (fz_decode data (Z.of_nat (length data)) = None -> outdated_hello data = true ->
     coreσ τ = coreσ σ /\
     sentσ τ = sentσ σ ++ [(a, datagram (reject_packet (fz_u64 data 36) FZ_REJECT_VERSION))]) /\
  (forall packet, fz_decode data (Z.of_nat (length data)) = Some packet -> s_closed (srv σ) = true -> τ = σ).
Proof.
  unfold deliver, receive_packet, outdated_hello. rewrite Z.geb_leb. split_and!.
  - intros packet -> Ht Hs Hc. rewrite exec_bind, exec_get, eval_get, Hs, exec_bind.
    destruct (Z.eqb_spec (pk_type packet) FZ_HELLO); [done|].
    rewrite authenticate_None; [rewrite <- Hs; reflexivity|]. intros i Hi Ho H. apply Hc. by exists i.
  - by intros -> ->.
  - intros -> ->. split; [apply join_error_keeps|by apply join_error_sent].
  - intros packet -> Hs. by rewrite exec_bind, exec_get, eval_get, Hs.
Qed.

(** C14. A well-formed HELLO that the room refuses, because of its key, because
    the owner has not arrived, because a race is under way or because the room
    is full, changes nothing of the room and is answered by exactly one
    datagram, to the sender, that carries its nonce and the reason. *)
Theorem hello_refused data a packet reason σ :
  all_bytes data -> fz_decode data (Z.of_nat (length data)) = Some packet ->
  pk_type packet = FZ_HELLO -> hello_ok packet = true -> s_closed (srv σ) = false ->
  refusal (srv σ) packet a = Some reason ->
  coreσ (exec (deliver data a) σ) = coreσ σ /\
  sentσ (exec (deliver data a) σ) =
    sentσ σ ++ [(a, datagram (reject_packet (hello_nonce packet) reason))].
Proof.
  intros Hb Hd Ht Ho Hc Hr. pose proof (fz_decode_wf _ _ _ Hb Hd) as (_ & _ & _ & _ & _ & _ & _ & Hl & Hp).
  unfold deliver, receive_packet. rewrite Hd, exec_bind, exec_get, eval_get, Hc, exec_bind, Ht.
  set (τ := exec (upd _) σ). change (refusal (srv τ) packet a = Some reason) in Hr.
  change (coreσ σ) with (coreσ τ). change (sentσ σ) with (sentσ τ). clearbody τ.
  cbn [Z.eqb FZ_HELLO Pos.eqb]. unfold receive_hello, hello_ok in *. rewrite !andb_true_iff in Ho.
  destruct Ho as [[H1 H2] H3]. apply Z.leb_le in H1, H2.
  destruct (Z.ltb_spec (pk_length packet) 9); [lia|]. rewrite Z.gtb_ltb.
  destruct (Z.ltb_spec FZ_KEY_MAX (rd (pk_payload packet) 8)); [lia|]. rewrite H3. cbn [negb orb].
  rewrite exec_bind, exec_get, eval_get, key_test by auto using rd_fits.
  unfold refusal in Hr. change (fz_u64 (pk_payload packet) 0) with (hello_nonce packet).
  assert (forall r, fits 8 r -> Some r = Some reason ->
    coreσ (exec (join_error a (hello_nonce packet) r) τ) = coreσ τ /\
    sentσ (exec (join_error a (hello_nonce packet) r) τ) =
      sentσ τ ++ [(a, datagram (reject_packet (hello_nonce packet) reason))]) as Hj.
  { intros r Hr8 [= <-]. split; [apply join_error_keeps|by apply join_error_sent]. }
  case_cond H4; [by apply Hj|]. case_cond H5; [by apply Hj|].
  pose proof (first_slot_known (srv τ) a) as Hk. destruct (first_slot _).
  { by rewrite Hk in Hr. }
  rewrite Hk in Hr. case_cond H6; [by apply Hj|]. rewrite Z.geb_leb.
  case_cond H7; [by apply Hj|done].
Qed.

End Refusals.

(** ** The refused client *)

Section Client.
Context {F : ClientEnv}.

Definition fate (γ : CSys) : Game * Z * string := (cl_game (cl γ), cl_socket (cl γ), cl_message (cl γ)).

Lemma cupd_fate f :
  (forall c w, fate (mk_csys (f c) w) = fate (mk_csys c w)) -> keeps fate (cupd f).
Proof. intros H [c w]. apply H. Qed.

#[local] Hint Extern 2 (keeps fate (cupd _)) =>
  apply cupd_fate; intros; cbv beta zeta; try case_if; reflexivity : keeps.
#[local] Hint Extern 2 (keeps fate (cupdw _)) => intros ?; reflexivity : keeps.
#[local] Hint Extern 2 (keeps fate cget) => intros ?; reflexivity : keeps.

Lemma publish_fate : keeps fate publish.
Proof. unfold publish, word, ram_at, now. auto 20 with keeps. Qed.

Lemma log_fate text γ : fate (exec (log text) γ) = (cl_game (cl γ), cl_socket (cl γ), text).
Proof.
  unfold log. rewrite exec_bind, kept; [done|]. unfold now. auto 10 with keeps.
Qed.

Lemma change_fate g γ :
  cl_game (cl (exec (change g) γ)) = g /\ cl_socket (cl (exec (change g) γ)) = cl_socket (cl γ).
Proof.
  unfold change. rewrite exec_bind. change (eval cget γ) with (cl γ). change (exec cget γ) with γ.
  rewrite exec_when. case_bool_decide as Hg; [done|]. cbn [negb]. rewrite exec_bind.
  pose proof (log_fate ("game=" +:+ game_name (cl_game (cl γ)) +:+ "->" +:+ game_name g)%string γ) as H.
  unfold fate in H. injection H as _ H _. split; [done|]. exact H.
Qed.

Lemma failure_fate text γ : exists v, v < 0 /\ fate (exec (failure text) γ) = (Disconnected, v, text).
Proof.
  unfold failure. rewrite exec_bind, exec_bind, exec_bind, exec_bind.
  set (γ1 := exec reset _). clearbody γ1. rewrite exec_bind. set (γ2 := exec (cupd _) γ1).
  assert (cl_socket (cl γ2) < 0) as H2.
  { unfold γ2. change (exec (cupd ?f) γ1) with (mk_csys (f (cl γ1)) (cw γ1)). cbn [cl].
    destruct (cl_socket (cl γ1) >=? 0) eqn:Hs; [done|]. lia. }
  clearbody γ2. rewrite exec_bind. destruct (change_fate Disconnected γ2) as [H3 H4].
  set (γ3 := exec (change _) γ2) in *. clearbody γ3. rewrite exec_bind, publish_fate, log_fate, H3, H4.
  by exists (cl_socket (cl γ2)).
Qed.

(** C15. The client that is still joining decodes the refusal of its own HELLO,
    closes its socket, leaves the game and shows the reason the server gave. *)
Theorem refusal_reaches_client γ nonce reason :
  fits 64 nonce -> cl_id (cl γ) < 0 -> cl_nonce (cl γ) = nonce ->
  FZ_REJECT_PASSWORD <= reason <= FZ_REJECT_VERSION ->
  let d := datagram (reject_packet nonce reason) in
  exists p, fz_decode d (Z.of_nat (length d)) = Some p /\ gave_up (exec (receive p) γ) reason.
Proof.
  intros Hn Hi Hc Hr d. exists (reject_packet nonce reason). unfold FZ_REJECT_PASSWORD, FZ_REJECT_VERSION in Hr.
  assert (wf_packet (reject_packet nonce reason)) as W by (apply reject_packet_wf; unfold fits; lia). split.
  - unfold d. rewrite datagram_length by done. rewrite Z2Nat.id by done.
    rewrite <- (app_nil_r (datagram _)), fz_decode_datagram by done. f_equal.
  - unfold receive. rewrite exec_bind, exec_bind. change (eval cget (exec now γ)) with (cl γ).
    change (exec cget ?τ) with τ.
    assert (fz_u64 (pk_payload (reject_packet nonce reason)) 0 = nonce) as Hu.
    { cbn [pk_payload reject_packet]. rewrite reject_payload. by apply fz_u64_le64. }
    rewrite Hu, Hc, (Z.eqb_refl nonce). destruct (Z.ltb_spec (cl_id (cl γ)) 0); [|lia].
    change (rd (pk_payload (reject_packet nonce reason)) 8) with reason.
    change (pk_type (reject_packet nonce reason) =? FZ_JOIN_REJECT) with true.
    change (pk_length (reject_packet nonce reason) =? 9) with true. cbn [andb].
    destruct (Z.leb_spec reason FZ_REJECT_VERSION) as [_|Hbad]; [|unfold FZ_REJECT_VERSION in Hbad; lia].
    match goal with |- gave_up (exec (failure ?text) ?τ) _ => destruct (failure_fate text τ) as (v & Hv & Hf);
      generalize dependent (exec (failure text) τ) end.
    intros δ Hf. unfold fate in Hf. injection Hf as H1 H2 H3. unfold gave_up. rewrite H1, H2, H3. split_and!; [done|done|].
    assert (reason = 1 \/ reason = 2 \/ reason = 3 \/ reason = 4 \/ reason = 5) as
      [->|[->|[->|[->| ->]]]] by lia; reflexivity.
Qed.

End Client.

(** ** Admission *)

(** The participant a HELLO creates. *)
Definition newcomer (a : sockaddr_in) (nonce token t : Z) : Player :=
  {| player0 with p_address := a; p_token := token; p_nonce := nonce; p_seen := t;
                  p_status := FZ_JOINED |}.

(** The answer to an admitted HELLO. *)
Definition welcome_packet (s : Server) (i : nat) (nonce token : Z) : fz_packet :=
  {| pk_type := FZ_WELCOME; pk_length := 9; pk_session := s_session s; pk_race := s_race s; pk_seq := 0;
     pk_token := token; pk_ack := 0;
     pk_payload := fz_put64 (<[0%nat := u8 (Z.of_nat i)]> (zeros PAYLOAD_SIZE)) 1 nonce |}.

(** The client holds the identity the server gave it. *)
Definition joined_as (γ : CSys) (s : Server) (i : nat) (token : Z) : Prop :=
  cl_id (cl γ) = Z.of_nat i /\ cl_session (cl γ) = s_session s /\ cl_token (cl γ) = token /\
  cl_race (cl γ) = s_race s /\ cl_commandSeq (cl γ) = 0.

Section Admission.
Context {E : Env}.

(** The body of the loop that seats a newcomer. *)
Definition seat_newcomer (i : nat) (address : sockaddr_in) (nonce : Z) : M Sys unit :=
  upd_player i (fun _ => {| player0 with p_address := address |}) ;;
  let* token := random_id in
  upd_player i (fun p => {| p with p_token := token |}) ;;
  if token =? 0 then log_event 0 (Z.of_nat i) "Cannot create session token"
  else
    upd_player i (fun p => {| p with p_nonce := nonce |}) ;;
    let* t := now_us in
    upd_player i (fun p => {| p with p_seen := t; p_status := FZ_JOINED |}) ;;
    upd (fun s => if s_host s =? 255 then {| s with s_host := u8 (Z.of_nat i) |} else s) ;;
    log_event 1 (Z.of_nat i)
      ("joined endpoint=" +:+ inet_ntoa (sin_addr address) +:+ ":" +:+
       dec (ntohs (sin_port address)))%string ;;
    welcome i ;;
    snapshot.

Lemma upd_sent f : keeps sentσ (upd f).
Proof. by intros σ. Qed.

Lemma upd_player_sent i f : keeps sentσ (upd_player i f).
Proof. by intros σ. Qed.

Lemma get_sent : keeps sentσ get.
Proof. by intros σ. Qed.

Lemma now_us_sent : keeps sentσ now_us.
Proof. by intros σ. Qed.

Lemma random_id_sent : keeps sentσ random_id.
Proof. by intros σ. Qed.

#[local] Hint Resolve upd_sent upd_player_sent get_sent now_us_sent random_id_sent : keeps.

Lemma log_event_sent level player message : keeps sentσ (log_event level player message).
Proof. unfold log_event. auto 20 with keeps. Qed.

(** Sending never takes anything back. *)
Definition since (l : list (sockaddr_in * bytes)) (σ : Sys) : Prop := exists rest, sentσ σ = l ++ rest.

Lemma keeps_since {A} l (m : M Sys A) : keeps sentσ m -> pres (since l) m.
Proof. intros K σ [rest H]. exists rest. by rewrite K. Qed.

Lemma transmit_since l a p : pres (since l) (transmit a p).
Proof.
  unfold transmit. destruct (fz_encode _ _ _) as [n d]. intros σ [rest H].
  rewrite !exec_bind, exec_when. exists (rest ++ [(a, take (Z.to_nat n) d)]).
  rewrite app_assoc, <- H. by case_if.
Qed.

#[local] Hint Extern 3 (pres (since _) _) => apply keeps_since; solve [auto 8 with keeps] : pres.
#[local] Hint Resolve transmit_since : pres.

Lemma snapshot_since l : pres (since l) snapshot.
Proof. unfold snapshot, send_player. auto 20 with pres. Qed.

Lemma welcome_payload i nonce :
  fz_put64 (<[0%nat := u8 (Z.of_nat i)]> (zeros PAYLOAD_SIZE)) 1 nonce =
    u8 (Z.of_nat i) :: le64 nonce ++ zeros 211.
Proof. reflexivity. Qed.

Lemma welcome_packet_wf s i nonce token :
  wf_core (core s) -> fits 64 token -> wf_packet (welcome_packet s i nonce token).
Proof.
  intros W Ht. repeat split; try done; try apply W; try apply Ht. cbn [pk_payload welcome_packet].
  rewrite welcome_payload. apply all_bytes_cons; [auto with fz|]. apply all_bytes_app.
  split; [apply all_bytes_le64|apply all_bytes_zeros].
Qed.

Lemma welcome_sent i a nonce token t σ τ :
  wf_core (coreσ σ) -> fits 64 token ->
  k_session (coreσ τ) = k_session (coreσ σ) -> k_race (coreσ τ) = k_race (coreσ σ) ->
  player_at (srv τ) i = newcomer a nonce token t ->
  sentσ (exec (welcome i) τ) = sentσ τ ++ [(a, datagram (welcome_packet (srv σ) i nonce token))].
Proof.
  intros W Ht Hs Hr Hp. unfold welcome. rewrite exec_bind, exec_get, eval_get, Hp. cbv zeta.
  change (s_session (srv τ) = s_session (srv σ)) in Hs. change (s_race (srv τ) = s_race (srv σ)) in Hr.
  rewrite send_player_sent; rewrite Hp, Hs, Hr; [done|].
  by apply (welcome_packet_wf (srv σ) i nonce token).
Qed.

Lemma seat_newcomer_spec i a nonce r σ :
  urandom (w_random (wld σ)) = Some r -> wf_core (coreσ σ) -> (i < 4)%nat -> fits 64 nonce ->
  exists token t, fits 64 token /\ token <> 0 /\
  let τ := exec (seat_newcomer i a nonce) σ in
  k_players (coreσ τ) = alter (fun _ => newcomer a nonce token t) i (k_players (coreσ σ)) /\
  since (sentσ σ ++ [(a, datagram (welcome_packet (srv σ) i nonce token))]) τ.
Proof.
  intros Hr W Hi Hn. unfold seat_newcomer. rewrite exec_bind. set (σ1 := exec (upd_player i _) σ).
  assert (coreσ σ1 = {| (coreσ σ) with k_players :=
    alter (fun _ => {| player0 with p_address := a |}) i (k_players (coreσ σ)) |}) as E1
    by apply coreσ_upd_player.
  assert (sentσ σ1 = sentσ σ) as S1 by done.
  pose proof (eval_random_id_fits σ1) as Hf. rewrite exec_bind. set (tok := eval random_id σ1) in *.
  assert (tok <> 0) as Hnz.
  { unfold tok. change (eval random_id σ1) with (match urandom (w_random (wld σ)) with
      | None => 0 | Some id => if u64 id =? 0 then 1 else u64 id end). rewrite Hr.
    destruct (Z.eqb_spec (u64 r) 0); done. }
  clearbody tok. set (σ2 := exec random_id σ1).
  assert (coreσ σ2 = coreσ σ1 /\ sentσ σ2 = sentσ σ1) as [E2 S2] by (split; [apply random_id_keeps|done]).
  clearbody σ2. rewrite exec_bind. set (σ3 := exec (upd_player i _) σ2).
  assert (coreσ σ3 = {| (coreσ σ) with k_players :=
    alter (fun _ => {| player0 with p_address := a; p_token := tok |}) i (k_players (coreσ σ)) |}) as E3.
  { unfold σ3. rewrite coreσ_upd_player, E2, E1. cbn [k_players]. by rewrite list_alter_alter_eq. }
  assert (sentσ σ3 = sentσ σ) as S3 by (unfold σ3; rewrite upd_player_sent; congruence).
  clearbody σ3. clear σ1 σ2 E1 E2 S1 S2. destruct (Z.eqb_spec tok 0); [done|].
  destruct (coreσ_take_seat i nonce σ3) as [t E7]. exists tok, t. split; [done|]. split; [done|].
  unfold take_seat in E7. rewrite !exec_bind in E7. cbv zeta. rewrite exec_bind. rewrite exec_bind.
  rewrite exec_bind. rewrite exec_bind. set (σ7 := exec (upd _) _) in *.
  assert (sentσ σ7 = sentσ σ) as S7 by exact S3. clearbody σ7. rewrite E3 in E7. cbn [k_players] in E7.
  rewrite list_alter_alter_eq in E7. rewrite !exec_bind. set (σ8 := exec (log_event _ _ _) σ7).
  assert (coreσ σ8 = coreσ σ7) as E8 by apply log_event_keeps.
  assert (sentσ σ8 = sentσ σ) as S8 by (unfold σ8; by rewrite log_event_sent). clearbody σ8.
  rewrite snapshot_keeps, welcome_keeps, E8, E7. cbn [k_players]. split; [done|].
  apply snapshot_since. exists []. rewrite app_nil_r, (welcome_sent i a nonce tok t σ σ8); try done.
  - by rewrite S8.
  - rewrite E8, E7. by cbn [k_session].
  - rewrite E8, E7. by cbn [k_race].
  - rewrite player_at_pl. change (core (srv σ8)) with (coreσ σ8). rewrite E8, E7. cbn [k_players].
    rewrite pl_at_alter, bool_decide_true; [done|]. by rewrite (wf_len _ W).
Qed.

End Admission.

(** ** The admitted client *)

Lemma joined_log {F : ClientEnv} text γ s i token :
  joined_as γ s i token -> joined_as (exec (log text) γ) s i token.
Proof.
  unfold log. rewrite !exec_bind. intros J. change (exec (cupd ?f) ?τ) with (mk_csys (f (cl τ)) (cw τ)) at 1.
  unfold joined_as. cbn [cl]. case_if; exact J.
Qed.

Lemma welcome_received {F : ClientEnv} γ s i nonce token :
  wf_core (core s) -> (i < 4)%nat -> fits 64 nonce -> fits 64 token -> token <> 0 ->
  cl_id (cl γ) < 0 -> cl_nonce (cl γ) = nonce ->
  let d := datagram (welcome_packet s i nonce token) in
  exists p, fz_decode d (Z.of_nat (length d)) = Some p /\ joined_as (exec (receive p) γ) s i token.
Proof.
  intros W Hi Hn Ht Hnz Hid Hc d. set (p := welcome_packet s i nonce token). exists p.
  assert (wf_packet p) as Wp by (by apply welcome_packet_wf). split.
  - unfold d. fold p. rewrite datagram_length by done. rewrite Z2Nat.id by done.
    rewrite <- (app_nil_r (datagram _)), fz_decode_datagram by done. reflexivity.
  - unfold receive. rewrite exec_bind, exec_bind. change (eval cget (exec now γ)) with (cl γ).
    change (exec cget ?τ) with τ. change (pk_type p) with FZ_WELCOME. change (pk_length p) with 9.
    change (FZ_WELCOME =? FZ_JOIN_REJECT) with false. rewrite andb_false_r, !andb_false_l.
    assert (fz_u64 (pk_payload p) 1 = nonce) as ->.
    { unfold p, welcome_packet. cbn [pk_payload]. rewrite welcome_payload, fz_u64_drop.
      change (drop 1 _) with (le64 nonce ++ zeros 211). by apply fz_u64_le64. }
    assert (rd (pk_payload p) 0 = Z.of_nat i) as Hs.
    { change (rd (pk_payload p) 0) with (u8 (Z.of_nat i)). apply u8_small. unfold fits. lia. }
    rewrite Hs, Hc, (Z.eqb_refl nonce). change (pk_session p) with (s_session s).
    change (pk_token p) with token. destruct (wf_session _ W) as [_ Hsn].
    change (k_session (core s)) with (s_session s) in Hsn. apply Z.eqb_neq in Hsn as ->.
    apply Z.eqb_neq in Hnz as ->. destruct (Z.ltb_spec (Z.of_nat i) 4); [|lia]. cbn [negb andb].
    change ((FZ_WELCOME =? FZ_WELCOME) && (9 =? 9)) with true. cbn [andb].
    destruct (cl_id (cl γ) >=? 0) eqn:Hge; [rewrite Z.geb_leb in Hge; apply Z.leb_le in Hge; lia|].
    rewrite exec_bind. set (γ1 := exec (cupd _) _).
    assert (joined_as γ1 s i token) as J by done. clearbody γ1. revert J. apply joined_log.
Qed.

(** A room that is not full has a free slot. *)
Lemma free_slot s :
  length (s_players s) = 4%nat -> count s < 4 ->
  exists i, first_slot (fun i => negb (occupied (player_at s i))) = Some i /\ (i < 4)%nat /\
            occupied (player_at s i) = false.
Proof.
  intros Hl Hn. destruct (first_slot _) as [i|] eqn:Hf.
  - exists i. unfold first_slot in Hf. apply find_some in Hf as [Hi Ho]. apply negb_true_iff in Ho.
    split; [done|]. split; [simpl in Hi; lia|done].
  - exfalso. assert (forall i, (i < 4)%nat -> occupied (player_at s i) = true) as Ha.
    { intros i Hi. unfold first_slot in Hf.
      apply negb_false_iff. apply (find_none _ _ Hf). simpl. lia. }
    unfold count, all4 in Hn. cbn [foldr] in Hn. rewrite !Ha in Hn by lia. cbn in Hn. lia.
Qed.

(** C16. A HELLO the room does not refuse, from an endpoint that is not a
    participant's, seats its sender in a free slot with a nonzero token and changes
    no other slot; the first datagram sent in answer goes to the sender,
    and the client that was joining decodes it and then holds exactly that slot,
    session, token and generation. *)
Theorem hello_admitted {E : Env} {F : ClientEnv} data a packet r σ γ :
  good (coreσ σ) -> all_bytes data -> fz_decode data (Z.of_nat (length data)) = Some packet ->
  pk_type packet = FZ_HELLO -> hello_ok packet = true -> s_closed (srv σ) = false ->
  refusal (srv σ) packet a = None -> known (srv σ) a = false ->
  urandom (w_random (wld σ)) = Some r ->
  cl_id (cl γ) < 0 -> cl_nonce (cl γ) = hello_nonce packet ->
  let τ := exec (deliver data a) σ in
  exists i token t d, (i < 4)%nat /\ token <> 0 /\ occupied (player_at (srv σ) i) = false /\
    s_players (srv τ) = alter (fun _ => newcomer a (hello_nonce packet) token t) i (s_players (srv σ)) /\
    since (sentσ σ ++ [(a, d)]) τ /\
    exists p, fz_decode d (Z.of_nat (length d)) = Some p /\
              joined_as (exec (receive p) γ) (srv σ) i token.
Proof.
  intros G Hb Hd Ht Ho Hc Hr Hk Hu Hid Hn τ.
  pose proof (fz_decode_wf _ _ _ Hb Hd) as (_ & _ & _ & _ & _ & _ & _ & Hl & Hp).
  assert (fits 64 (hello_nonce packet)) as Hnf by apply fits_fz_u64.
  unfold refusal in Hr. destruct (negb (bool_decide _)) eqn:R1; [done|].
  destruct (_ && _ && _) eqn:R2; [done|]. rewrite Hk in Hr.
  destruct (negb (s_phase (srv σ) =? FZ_LOBBY)) eqn:R3; [done|].
  destruct (s_expected (srv σ) <=? count (srv σ)) eqn:R4; [done|]. apply Z.leb_gt in R4.
  assert (2 <= s_expected (srv σ) <= 4) as He by apply (inv_capacity _ (proj2 G)).
  destruct (free_slot (srv σ)) as (i & Hf & Hi & Hfree); [apply (wf_len _ (proj1 G))|lia|].
  set (σ1 := exec (upd (fun s => {| s with s_rx := u64 (s_rx s + 1) |})) σ).
  assert (τ = exec (seat_newcomer i a (hello_nonce packet)) σ1) as Hτ.
  { unfold τ, deliver, receive_packet. rewrite Hd, exec_bind, exec_get, eval_get, Hc, exec_bind, Ht. fold σ1.
    change (FZ_HELLO =? FZ_HELLO) with true. cbv iota. unfold receive_hello, hello_ok in *.
    rewrite !andb_true_iff in Ho. destruct Ho as [[H1 H2] H3]. apply Z.leb_le in H1, H2.
    destruct (Z.ltb_spec (pk_length packet) 9); [lia|]. rewrite Z.gtb_ltb.
    destruct (Z.ltb_spec FZ_KEY_MAX (rd (pk_payload packet) 8)); [lia|]. rewrite H3. cbn [negb orb].
    rewrite exec_bind, exec_get, eval_get, key_test by auto using rd_fits.
    change (s_key (srv σ1)) with (s_key (srv σ)). rewrite R1.
    change (fz_u64 (pk_payload packet) 0) with (hello_nonce packet).
    change (s_owner_nonce (srv σ1)) with (s_owner_nonce (srv σ)).
    change (player_at (srv σ1)) with (player_at (srv σ)). rewrite R2.
    pose proof (first_slot_known (srv σ) a) as Hfk. destruct (first_slot (fun i => _ && _)); [congruence|].
    change (s_phase (srv σ1)) with (s_phase (srv σ)). rewrite R3.
    change (count (srv σ1)) with (count (srv σ)). change (s_expected (srv σ1)) with (s_expected (srv σ)).
    rewrite Z.geb_leb. destruct (Z.leb_spec (s_expected (srv σ)) (count (srv σ))); [lia|].
    rewrite Hf. reflexivity. }
  clearbody τ. subst τ.
  destruct (seat_newcomer_spec i a (hello_nonce packet) r σ1 Hu (proj1 G) Hi Hnf)
    as (token & t & Htf & Htn & Hpl & Hse).
  exists i, token, t, (datagram (welcome_packet (srv σ) i (hello_nonce packet) token)).
  do 3 (split; [done|]). split; [exact Hpl|]. split; [exact Hse|].
  by apply welcome_received; [apply G|..].
Qed.

(** ** Concrete runs *)

(** Alice's token used from another endpoint. *)
Definition stolen : fz_packet := player_packet FZ_COMMAND 101 3 [FZ_LEAVE].

Lemma unauthenticated_packet_ignored_witness :
  let σ := demo_after 1 in
  exec (deliver (datagram stolen) carol) σ =
    mk_sys {| (srv σ) with s_rx := u64 (s_rx (srv σ) + 1); s_rejected := u64 (s_rejected (srv σ) + 1) |}
      (wld σ).
Proof.
  intros σ. destruct (unauthenticated_packet_ignored (datagram stolen) carol σ) as (H & _).
  apply (H stolen); [by vm_compute..|].
  intros (i & Hi & _ & _ & _ & Ha). slots i; vm_compute in Ha; discriminate Ha.
Defined.

Definition carol_guess : bytes := datagram (hello_packet 9 [107; 101]).

Lemma hello_refused_witness :
  let σ := demo_after 1 in
  coreσ (exec (deliver carol_guess carol) σ) = coreσ σ /\
  sentσ (exec (deliver carol_guess carol) σ) =
    sentσ σ ++ [(carol, datagram (reject_packet 9 FZ_REJECT_PASSWORD))].
Proof.
  apply (hello_refused carol_guess carol (hello_packet 9 [107; 101])); try (by vm_compute).
  apply (bool_decide_unpack _). by vm_compute.
Defined.

(** Alice's client, still joining. *)
Definition alice_joining : CSys :=
  mk_csys {| (client0 demo_client_config) with cl_nonce := 7; cl_socket := 4 |} (mk_cworld 0 0 0 []).

Lemma refusal_reaches_client_witness :
  let d := datagram (reject_packet 7 FZ_REJECT_FULL) in
  exists p, fz_decode d (Z.of_nat (length d)) = Some p /\
            gave_up (exec (receive p) alice_joining) FZ_REJECT_FULL.
Proof. apply (refusal_reaches_client alice_joining 7 FZ_REJECT_FULL); by vm_compute. Defined.

Definition alice_hello : bytes := datagram (hello_packet 7 demo_key).

Lemma hello_admitted_witness :
  let τ := exec (deliver alice_hello alice) demo_sys in
  exists i token t d, (i < 4)%nat /\ token <> 0 /\ occupied (player_at (srv demo_sys) i) = false /\
    s_players (srv τ) = alter (fun _ => newcomer alice 7 token t) i (s_players (srv demo_sys)) /\
    since (sentσ demo_sys ++ [(alice, d)]) τ /\
    exists p, fz_decode d (Z.of_nat (length d)) = Some p /\
              joined_as (exec (receive p) alice_joining) (srv demo_sys) i token.
Proof.
  apply (hello_admitted alice_hello alice (hello_packet 7 demo_key) 101 demo_sys alice_joining);
    try (by vm_compute).
  - exact demo_sys_good.
  - apply (bool_decide_unpack _). by vm_compute.
Defined.
