(* ===== verification/Interface.v ===== *)
(** * What the interface offers and what the server accepts

    The configuration dialog and the server apply the same rules to a change of
    the room, except for participants in slots past the capacity, which the
    roster does not show. *)

From S2P Require Import Prelude State Double Text Protocol Server Room ServerCore ServerRefine Scenario ServerRun ServerProps Client Replication Presentation.

Local Open Scope Z_scope.
Local Open Scope fz_scope.

(** A published view that agrees with the server about the room. *)
Definition view_agrees (v : View) (s : Server) (now : Z) : Prop :=
  v_connected v = true /\ v_phase v = s_phase s /\ v_expected v = s_expected s /\ v_host v = s_host s /\
  v_track v = s_track s /\ v_league v = s_league s /\
  v_peers v = map (fun i => peer_of now (player_at s i)) all4.

(** Everybody sits within the capacity. *)
Definition compact (s : Server) : Prop :=
  forall i, (i < 4)%nat -> occupied (player_at s i) = true -> Z.of_nat i < s_expected s.

(** The CONFIG command of the dialog. *)
Definition config_packet (players track league : Z) : fz_packet :=
  {| packet0 with pk_type := FZ_COMMAND; pk_length := 4;
                  pk_payload := payload_of [FZ_CONFIG; players; track; league] |}.

Lemma peer_occupied_of now p : peer_occupied (peer_of now p) = occupied p.
Proof. done. Qed.

Lemma peer_at_all4 (f : nat -> Peer) i : (i < 4)%nat -> peer_at (map f all4) (Z.of_nat i) = f i.
Proof. intros Hi. unfold peer_at. rewrite Nat2Z.id. by slots i. Qed.

Lemma shown_occupied_count v s now :
  view_agrees v s now -> 2 <= s_expected s <= 4 ->
  shown_occupied v = Z.of_nat (length (List.filter (fun i => occupied (player_at s i))
                                         (seq 0 (Z.to_nat (s_expected s))))).
Proof.
  intros (_ & _ & He & _ & _ & _ & Hp) Hr. unfold shown_occupied, shown, clamp. rewrite He.
  destruct (Z.ltb_spec (s_expected s) 2); [lia|]. destruct (Z.ltb_spec 4 (s_expected s)); [lia|].
  f_equal. f_equal. apply filter_ext_in. intros i Hi%in_seq. rewrite Hp, peer_at_all4 by lia.
  apply peer_occupied_of.
Qed.

Lemma count_filter s :
  count s = Z.of_nat (length (List.filter (fun i => occupied (player_at s i)) all4)).
Proof.
  unfold count, all4. cbn [foldr List.filter].
  repeat match goal with |- context [occupied ?p] => destruct (occupied p) end; done.
Qed.

(** Showing fewer slots counts fewer participants, and exactly as many when
    nobody sits past the capacity. *)
Lemma shown_le_count s n :
  (n <= 4)%nat ->
  Z.of_nat (length (List.filter (fun i => occupied (player_at s i)) (seq 0 n))) <= count s.
Proof.
  intros Hn. rewrite count_filter. change all4 with (seq 0 4).
  replace 4%nat with (n + (4 - n))%nat by lia. rewrite seq_app, List.filter_app, length_app. lia.
Qed.

Lemma compact_count s n :
  (n <= 4)%nat -> (forall i, (i < 4)%nat -> occupied (player_at s i) = true -> (i < n)%nat) ->
  Z.of_nat (length (List.filter (fun i => occupied (player_at s i)) (seq 0 n))) = count s.
Proof.
  intros Hn Hc. rewrite count_filter. change all4 with (seq 0 4).
  replace (seq 0 4) with (seq 0 n ++ seq n (4 - n)) by (rewrite <- seq_app; f_equal; lia).
  rewrite List.filter_app, length_app.
  assert (List.filter (fun i => occupied (player_at s i)) (seq n (4 - n)) = []) as ->; [|cbn; lia].
  destruct (List.filter _ (seq n (4 - n))) as [|i l] eqn:Hf; [done|].
  assert (In i (List.filter (fun i => occupied (player_at s i)) (seq n (4 - n)))) as Hi by (rewrite Hf; by left).
  apply filter_In in Hi as [Hi%in_seq Ho]. specialize (Hc i). lia || (specialize (Hc ltac:(lia) Ho); lia).
Qed.

Lemma config_command {E : Env} players track league i σ :
  eval (apply_command (config_packet players track league) i) σ =
    (Z.of_nat i =? s_host (srv σ)) && (s_phase (srv σ) =? FZ_LOBBY) && (players >=? 2) && (players <=? 4)
    && (players >=? count (srv σ)) && (track <? 5) && (league <? 3).
Proof. reflexivity. Qed.

(** The rule of the dialog, in terms of the server's fields. *)
Lemma validRoomChange_agrees v s now i players track league :
  server_ok s -> view_agrees v s now -> v_player v = Z.of_nat i ->
  validRoomChange v players track league =
    (Z.of_nat i =? s_host s) && (s_phase s =? FZ_LOBBY) && (players >=? 2) && (players <=? 4)
    && (players >=? shown_occupied v) && (track <? 5) && (league <? 3)
    && (negb (players =? s_expected s) || negb (track =? s_track s) || negb (league =? s_league s)).
Proof.
  intros O (H1 & H2 & H3 & H4 & H5 & H6 & _) Hp. pose proof (ok_count _ O). pose proof (ok_course _ O).
  unfold validRoomChange, presentRoom. rewrite H1. cbn [negb pr_canConfigure pr_occupied].
  rewrite Hp, H2, H3, H4, H5, H6. by rewrite !u32_small by (unfold fits; lia).
Qed.

(** A participant past the capacity is not counted. *)
Lemma shown_lt_count s n j :
  (n <= j < 4)%nat -> occupied (player_at s j) = true ->
  Z.of_nat (length (List.filter (fun i => occupied (player_at s i)) (seq 0 n))) < count s.
Proof.
  intros Hj Ho. rewrite count_filter. change all4 with (seq 0 4).
  replace (seq 0 4) with (seq 0 n ++ seq n (4 - n)) by (rewrite <- seq_app; f_equal; lia).
  rewrite List.filter_app, length_app.
  assert (In j (List.filter (fun i => occupied (player_at s i)) (seq n (4 - n)))) as Hi
    by (apply filter_In; split; [apply in_seq; lia|done]).
  destruct (List.filter _ (seq n (4 - n))); [done|]. cbn [length]. lia.
Qed.

(** C18. For a view that agrees with the server and a room whose participants sit
    within its capacity, the interface offers a change of the room exactly when
    it would change something and the server accepts the CONFIG command it
    stands for; when somebody sits past the capacity it may only offer more. *)
Theorem room_change_offered {E : Env} v σ now i players track league :
  good (coreσ σ) -> (i < 4)%nat -> view_agrees v (srv σ) now -> v_player v = Z.of_nat i ->
  let changes := negb (players =? s_expected (srv σ)) || negb (track =? s_track (srv σ))
                 || negb (league =? s_league (srv σ)) in
  let accepts := eval (apply_command (config_packet players track league) i) σ in
  (accepts && changes = true -> validRoomChange v players track league = true) /\
  (compact (srv σ) -> validRoomChange v players track league = accepts && changes).
Proof.
  intros G Hi Hv Hp changes accepts.
  pose proof (good_server_ok _ G) as O. destruct (ok_count _ O) as [_ He].
  pose proof (shown_occupied_count v (srv σ) now Hv He) as Hs.
  assert (shown_occupied v <= count (srv σ)) as Hle by (rewrite Hs; apply shown_le_count; lia).
  pose proof (validRoomChange_agrees v (srv σ) now i players track league O Hv Hp) as Hval. fold changes in Hval.
  unfold accepts. rewrite config_command. split.
  - intros Ha. rewrite Hval. breflect. rewrite !andb_true_iff, ?Z.geb_leb, ?Z.leb_le. repeat split; try done; lia.
  - intros Hc. rewrite Hval, Hs, compact_count; [done|lia|]. intros j Hj Ho. specialize (Hc j Hj Ho). lia.
Qed.

(** C40. A participant in a slot past the capacity, where one may be left when the
    host lowers it, is missing from the roster of every client: the roster has
    one line per slot of the capacity, fewer participants are counted than are
    there, and the lobby is said to wait for players. When there are at least
    three participants, the host is offered a capacity that the server refuses. *)
Theorem roster_hides_participant {E : Env} v σ now i j :
  good (coreσ σ) -> view_agrees v (srv σ) now -> v_player v = Z.of_nat i ->
  (j < 4)%nat -> occupied (player_at (srv σ) j) = true -> s_expected (srv σ) <= Z.of_nat j ->
  let track := s_track (srv σ) in
  let league := s_league (srv σ) in
  Z.of_nat (length (pr_players (presentRoom v))) = s_expected (srv σ) /\
  pr_occupied (presentRoom v) < count (srv σ) <= s_expected (srv σ) /\
  (s_phase (srv σ) = FZ_LOBBY -> pr_guidance (presentRoom v) = "Waiting for players"%string) /\
  (s_phase (srv σ) = FZ_LOBBY -> Z.of_nat i = s_host (srv σ) -> 3 <= count (srv σ) ->
     validRoomChange v (count (srv σ) - 1) track league = true /\
     eval (apply_command (config_packet (count (srv σ) - 1) track league) i) σ = false).
Proof.
  intros G Hv Hp Hj Ho He track league. pose proof (good_server_ok _ G) as O. destruct (ok_count _ O) as [Hc Hr].
  pose proof (ok_course _ O) as [Ht Hl]. fold track in Ht. fold league in Hl.
  assert (shown_occupied v < count (srv σ)) as Hlt
    by (rewrite (shown_occupied_count v (srv σ) now) by done; apply (shown_lt_count _ _ j); [lia|done]).
  pose proof (validRoomChange_agrees v (srv σ) now i (count (srv σ) - 1) track league O Hv Hp) as Hval.
  destruct Hv as (H1 & H2 & H3 & H4 & H5 & H6 & _). unfold presentRoom. rewrite H1. cbn [negb pr_players pr_occupied pr_guidance].
  split_and!; try done.
  - unfold shown. rewrite length_map, length_seq, H3. unfold clamp. repeat case_if; breflect; lia.
  - intros Hph. rewrite H2, Hph. cbn [Z.eqb FZ_LOBBY FZ_RESULTS FZ_RACING FZ_COUNTDOWN FZ_LOADING].
    rewrite H3, u32_small by (unfold fits; lia). destruct (Z.ltb_spec (shown_occupied v) (s_expected (srv σ))); [done|lia].
  - intros Hph Hh H. rewrite Hval, config_command, Hh, Hph, !Z.eqb_refl, !Z.geb_leb. split.
    + rewrite !andb_true_iff, orb_true_iff, orb_true_iff, negb_true_iff, Z.eqb_neq, !Z.leb_le, !Z.ltb_lt.
      repeat split; try lia.
    + rewrite (proj2 (Z.leb_gt (count (srv σ)) _)) by lia. by rewrite andb_false_r.
Qed.

(** ** Concrete rooms *)

(** The view of a connected client that mirrors the server. *)
Definition view_of (s : Server) (now player : Z) : View :=
  {| view0 with v_connected := true; v_player := player; v_host := s_host s; v_expected := s_expected s;
                v_phase := s_phase s; v_track := s_track s; v_league := s_league s; v_race := s_race s;
                v_peers := map (fun i => peer_of now (player_at s i)) all4 |}.

Lemma view_of_agrees s now player : view_agrees (view_of s now player) s now.
Proof. by split_and!. Qed.

Definition demo_hello (nonce : Z) (a : sockaddr_in) : M Sys unit :=
  deliver (datagram (hello_packet nonce demo_key)) a.

Definition demo_command (token seq : Z) (l : bytes) (a : sockaddr_in) : M Sys unit :=
  deliver (datagram (player_packet FZ_COMMAND token seq l)) a.

Definition demo_joined : Sys := exec (demo_hello 7 alice) demo_sys.

Lemma demo_joined_good : good (coreσ demo_joined).
Proof.
  assert (all_bytes (datagram (hello_packet 7 demo_key))) as Hb
    by (apply (bool_decide_unpack _); by vm_compute).
  refine (moves_good _ _ (receive_packet_moves _ (Z.of_nat (length (datagram (hello_packet 7 demo_key))))
            alice demo_sys Hb) demo_sys_good).
Qed.

Lemma room_change_offered_witness :
  let v := view_of (srv demo_joined) 0 0 in
  validRoomChange v 4 1 2 = true /\
  validRoomChange v 4 1 2 = eval (apply_command (config_packet 4 1 2) 0) demo_joined && true.
Proof.
  split; [by vm_compute|].
  apply (room_change_offered (view_of (srv demo_joined) 0 0) demo_joined 0 0 4 1 2).
  - apply demo_joined_good.
  - lia.
  - by vm_compute.
  - done.
  - intros i Hi Ho. slots i; vm_compute in Ho |- *; congruence.
Defined.

Definition dave : sockaddr_in := mk_sockaddr 1025 16777343.

Definition four_config : fz_server_config :=
  mk_config (Some "127.0.0.1"%string) (Some demo_key) 12000 4 1 2 3 (-1) 0.

(** Four players join, the third leaves and the host lowers the capacity to three. *)
Definition lopsided_room : Sys :=
  match fz_server_create (Some four_config) world0 with
  | (inl _, w) => mk_sys server0 w
  | (inr s, w) =>
      exec (demo_hello 7 alice ;; demo_hello 8 bob ;; demo_hello 9 carol ;; demo_hello 10 dave ;;
            demo_command 103 1 [FZ_LEAVE] carol ;;
            demo_command 101 1 [FZ_CONFIG; 3; 1; 2] alice) (mk_sys s w)
  end.

Lemma deliver_good {E : Env} d a σ : all_bytes d -> good (coreσ σ) -> good (coreσ (exec (deliver d a) σ)).
Proof. intros Hb. apply moves_good. by apply receive_packet_moves. Qed.

Lemma lopsided_room_good : good (coreσ lopsided_room).
Proof.
  unfold lopsided_room. destruct (fz_server_create (Some four_config) world0) as [[|s] w] eqn:H; [by vm_compute in H|].
  assert (wf_config four_config) as Hc
    by (by repeat split; try (by apply (bool_decide_unpack _)); repeat constructor).
  destruct (fz_server_create_inv _ _ _ _ H Hc) as [G _]. clear H. unfold demo_hello, demo_command. rewrite !exec_bind.
  repeat (apply deliver_good; [apply (bool_decide_unpack _); by vm_compute|]). exact G.
Qed.

(** Dave, in the fourth slot of a room of three, is not on the host's roster. *)
Lemma roster_hides_participant_witness :
  let s := srv lopsided_room in
  let v := view_of s 0 0 in
  occupied (player_at s 3) = true /\ count s = 3 /\
  Z.of_nat (length (pr_players (presentRoom v))) = s_expected s /\
  validRoomChange v (count s - 1) (s_track s) (s_league s) = true /\
  eval (apply_command (config_packet (count s - 1) (s_track s) (s_league s)) 0) lopsided_room = false.
Proof.
  assert (occupied (player_at (srv lopsided_room) 3) = true /\ count (srv lopsided_room) = 3 /\
    s_expected (srv lopsided_room) <= Z.of_nat 3 /\ s_phase (srv lopsided_room) = FZ_LOBBY /\
    Z.of_nat 0 = s_host (srv lopsided_room) /\ 3 <= count (srv lopsided_room)) as (H1 & H2 & H3 & H4 & H5 & H6)
    by (split_and!; by vm_compute).
  destruct (roster_hides_participant (view_of (srv lopsided_room) 0 0) lopsided_room 0 0 3 lopsided_room_good
    (view_of_agrees _ 0 0) eq_refl ltac:(lia) H1 H3) as (R1 & _ & _ & R4).
  intros s v. split; [exact H1|]. split; [exact H2|]. split; [exact R1|]. exact (R4 H4 H5 H6).
Defined.
