(* ===== verification/Discovery.v ===== *)
(** * Finding rooms on the local network ([src/client/fzvs_session.cpp], [Discovery])

    The three sockets of discovery, the queries and replies they exchange and
    the list of rooms a browser keeps, as a state monad over the [Discovery]
    object and the operating system. The system keeps the set of open
    descriptors, so that leaks can be stated; what [sendto] was given is
    recorded in order. *)

From stdpp Require Export gmap.
From Stdlib Require Import Ascii.
From S2P Require Import Prelude State Text Protocol Server.

Local Open Scope string_scope.
Local Open Scope list_scope.
Local Open Scope Z_scope.
Local Open Scope fz_scope.

(** ** Data *)

Record HostOptions := mk_host {
  h_bind : string; h_key : bytes; h_name : bytes; h_logPath : string; h_readyFile : string;
  h_port : Z; h_players : Z; h_track : Z; h_league : Z
}.

(** The member initialisers. *)
Definition host0 : HostOptions := mk_host "0.0.0.0" [] [] "" "" 12000 2 0 0.

Record Room := mk_room_entry {
  rm_session : Z; rm_seen : Z; rm_name : bytes; rm_address : string;
  rm_players : Z; rm_occupied : Z; rm_phase : Z; rm_track : Z; rm_league : Z; rm_version : Z;
  rm_password : bool
}.

Inductive DiscoveryPhase := Idle | Searching | Empty | Rooms | Unavailable.

#[export] Instance DiscoveryPhase_eq_dec : EqDecision DiscoveryPhase.
Proof. solve_decision. Defined.

Record DiscoveryFailure := mk_failure {
  df_operation : string; df_interface : string; df_message : string; df_code : Z
}.

Record DiscoveryStatus := mk_dstatus {
  ds_phase : DiscoveryPhase; ds_failures : list DiscoveryFailure; ds_queries : Z; ds_replies : Z
}.

Definition dstatus0 : DiscoveryStatus := mk_dstatus Idle [] 0 0.

Record Discovery := mk_discovery {
  d_listener : Z; d_query : Z; d_responder : Z;
  d_lastQuery : Z; d_nonce : Z;
  d_networks : list Z;
  d_status : DiscoveryStatus;
  d_hostFailures : list DiscoveryFailure;
  d_browseFailures : list DiscoveryFailure;
  d_browseStarted : Z; d_lastListen : Z
}.

Definition discovery0 (networks : list Z) : Discovery :=
  mk_discovery (-1) (-1) (-1) 0 0 networks dstatus0 [] [] 0 0.

(** ** The operating system *)

(** One entry of [getifaddrs]: an IPv4 address with the flags the code tests. *)
Record ifaddr := mk_ifaddr { ifa_inet : bool; ifa_up : bool; ifa_pointopoint : bool; ifa_s_addr : Z }.

(** The [n]-th result of each kind of call. [new_socket] is given the open
    descriptors; [call_errno] is the outcome of [fcntl], [bind] and
    [setsockopt]: [None] for success. *)
Class DEnv := {
  clock_ms : nat -> Z;
  random_device : nat -> option Z;
  getifaddrs_result : nat -> option (list ifaddr);
  new_socket : nat -> gset Z -> Z + Z;
  call_errno : nat -> option Z;
  incoming : nat -> (bytes * sockaddr_in) + Z;
  sent_count : nat -> Z * Z;
  error_text : Z -> string;
  e_again : Z; e_wouldblock : Z; e_badf : Z; e_io : Z; e_netunreach : Z
}.

Record DWorld := mk_dworld {
  dw_clock : nat; dw_random : nat; dw_ifs : nat; dw_socket : nat; dw_call : nat; dw_recv : nat;
  dw_send : nat;
  dw_errno : Z;
  dw_open : gset Z;
  dw_sent : list (sockaddr_in * bytes)
}.

Record DSys := mk_dsys { dsc : Discovery; dwd : DWorld }.

(** The three descriptors of the object. *)
Inductive holder := Listener | Query | Responder.

Definition held (d : Discovery) (h : holder) : Z :=
  match h with Listener => d_listener d | Query => d_query d | Responder => d_responder d end.

Definition hold (h : holder) (fd : Z) (d : Discovery) : Discovery :=
  match h with
  | Listener => {| d with d_listener := fd |}
  | Query => {| d with d_query := fd |}
  | Responder => {| d with d_responder := fd |}
  end.

(** [ntohl] on a little-endian machine. *)
Definition ntohl (a : Z) : Z :=
  Z.lor (Z.lor (Z.shiftl (u8 a) 24) (Z.shiftl (u8 (Z.shiftr a 8)) 16))
        (Z.lor (Z.shiftl (u8 (Z.shiftr a 16)) 8) (u8 (Z.shiftr a 24))).

(** [htonl(INADDR_LOOPBACK)], [htons(12001)] and [239.255.70.90] as stored. *)
Definition LOOPBACK : Z := 16777343.
Definition discovery_group : sockaddr_in := mk_sockaddr 57646 1514602479.

Section Model.
Context {E : DEnv}.

Definition dget : M DSys Discovery := gets dsc.

Definition dupd (f : Discovery -> Discovery) : M DSys unit :=
  modify (fun σ => mk_dsys (f (dsc σ)) (dwd σ)).

Definition wupd (f : DWorld -> DWorld) : M DSys unit :=
  modify (fun σ => mk_dsys (dsc σ) (f (dwd σ))).

Definition clockMs : M DSys Z :=
  let* n := gets (fun σ => dw_clock (dwd σ)) in
  wupd (fun w => {| w with dw_clock := S (dw_clock w) |}) ;;
  ret (u64 (clock_ms n)).

Definition randomNonce : M DSys Z :=
  let* n := gets (fun σ => dw_random (dwd σ)) in
  wupd (fun w => {| w with dw_random := S (dw_random w) |}) ;;
  ret (match random_device n with Some v => u64 v | None => 0 end).

(** [std::set<uint32_t>::insert], the set as its ascending list. *)
Fixpoint set_insert (a : Z) (l : list Z) : list Z :=
  match l with
  | [] => [a]
  | b :: r => if a <? b then a :: l else if a =? b then l else b :: set_insert a r
  end.

Definition interfaces : M DSys (list Z) :=
  let* n := gets (fun σ => dw_ifs (dwd σ)) in
  wupd (fun w => {| w with dw_ifs := S (dw_ifs w) |}) ;;
  let found := match getifaddrs_result n with
               | Some l => map ifa_s_addr (List.filter (fun p => ifa_inet p && ifa_up p
                                                                 && negb (ifa_pointopoint p)) l)
               | None => []
               end in
  ret (set_insert LOOPBACK (foldl (fun s a => set_insert (u32 a) s) [] found)).

Definition set_errno (e : Z) : M DSys unit := wupd (fun w => {| w with dw_errno := e |}).

(** [close] of an open descriptor. *)
Definition close_fd (fd : Z) : M DSys unit :=
  when (fd >=? 0) (wupd (fun w => {| w with dw_open := dw_open w ∖ {[fd]} |})).

(** [fcntl], [bind] or [setsockopt]: whether it succeeded. *)
Definition syscall : M DSys bool :=
  let* n := gets (fun σ => dw_call (dwd σ)) in
  wupd (fun w => {| w with dw_call := S (dw_call w) |}) ;;
  match call_errno n with
  | None => ret true
  | Some e => set_errno e ;; ret false
  end.

Definition udp : M DSys Z :=
  let* n := gets (fun σ => dw_socket (dwd σ)) in
  let* opened := gets (fun σ => dw_open (dwd σ)) in
  wupd (fun w => {| w with dw_socket := S (dw_socket w) |}) ;;
  match new_socket n opened with
  | inr e => set_errno e ;; ret (-1)
  | inl fd =>
      wupd (fun w => {| w with dw_open := dw_open w ∪ {[fd]} |}) ;;
      let* ok := syscall in
      if ok then ret fd else close_fd fd ;; ret (-1)
  end.

Definition closeSocket (h : holder) : M DSys unit :=
  let* d := dget in
  close_fd (held d h) ;;
  dupd (hold h (-1)).

(** [recvfrom] into a buffer of 257 bytes. *)
Definition recv_from (fd : Z) : M DSys (option (bytes * sockaddr_in)) :=
  if fd <? 0 then set_errno e_badf ;; ret None
  else
    let* n := gets (fun σ => dw_recv (dwd σ)) in
    wupd (fun w => {| w with dw_recv := S (dw_recv w) |}) ;;
    match incoming n with
    | inl (data, from) => ret (Some (take 257 data, from))
    | inr e => set_errno e ;; ret None
    end.

(** [sendDatagram], by default [sendto]: its result. *)
Definition sendDatagram (data : bytes) (to : sockaddr_in) : M DSys Z :=
  let* n := gets (fun σ => dw_send (dwd σ)) in
  wupd (fun w => {| w with dw_send := S (dw_send w); dw_sent := dw_sent w ++ [(to, data)] |}) ;;
  let '(count, e) := sent_count n in
  when (count <? 0) (set_errno e) ;;
  ret count.

(** ** The object *)

Definition add_failure (l : list DiscoveryFailure) (f : DiscoveryFailure) : list DiscoveryFailure :=
  if (length l <? 16)%nat then l ++ [f] else l.

(** [failure(hostFailures,...)] and [failure(browseFailures,...)] with [errno]. *)
Definition host_failure (operation interface : string) : M DSys unit :=
  let* e := gets (fun σ => dw_errno (dwd σ)) in
  dupd (fun d => {| d with d_hostFailures :=
                      add_failure (d_hostFailures d) (mk_failure operation interface (error_text e) e) |}).

Definition browse_failure_code (operation interface : string) (e : Z) : M DSys unit :=
  dupd (fun d => {| d with d_browseFailures :=
                      add_failure (d_browseFailures d) (mk_failure operation interface (error_text e) e) |}).

Definition browse_failure (operation interface : string) : M DSys unit :=
  let* e := gets (fun σ => dw_errno (dwd σ)) in
  browse_failure_code operation interface e.

Definition retry : M DSys unit :=
  closeSocket Listener ;;
  closeSocket Responder ;;
  closeSocket Query ;;
  let* networks := interfaces in
  dupd (fun d => {| d with d_networks := networks; d_lastQuery := 0; d_lastListen := 0;
                           d_browseStarted := 0; d_status := dstatus0; d_hostFailures := [];
                           d_browseFailures := [] |}).

Definition set_phase (phase : DiscoveryPhase) : M DSys unit :=
  dupd (fun d => let s := d_status d in {| d with d_status := {| s with ds_phase := phase |} |}).

Definition publish (browsing : bool) (rooms : list Room) : M DSys unit :=
  dupd (fun d => let s := d_status d in
                 {| d with d_status := {| s with ds_failures := d_hostFailures d ++ d_browseFailures d |} |}) ;;
  let* d := dget in
  if browsing then
    if negb (bool_decide (length rooms = 0%nat)) then set_phase Rooms
    else if (d_query d <? 0) && negb (bool_decide (length (d_browseFailures d) = 0%nat))
         then set_phase Unavailable
    else
      let* t := clockMs in
      set_phase (if u64 (t - d_browseStarted d) <? 2000 then Searching else Empty)
  else
    set_phase (if bool_decide (length (d_hostFailures d) = 0%nat) then Idle else Unavailable).

(** The multicast group on every interface: whether one was joined. *)
Fixpoint join_groups (networks : list Z) (joined : bool) : M DSys bool :=
  match networks with
  | [] => ret joined
  | ip :: networks =>
      let* ok := syscall in
      if ok then join_groups networks true
      else host_failure "IP_ADD_MEMBERSHIP" (inet_ntoa ip) ;; join_groups networks joined
  end.

(** [listen] once the multicast group is joined: the reply socket. *)
Definition listen_responder (error bindAddress : string) : M DSys (bool * string) :=
  let* fd := udp in
  dupd (hold Responder fd) ;;
  let* bound := (if fd <? 0 then ret false else syscall) in
  if negb bound
  then
    host_failure "bind reply socket" bindAddress ;;
    closeSocket Responder ;;
    closeSocket Listener ;;
    ret (false, "LAN reply socket unavailable; direct address still works")
  else ret (true, error).

(** [listen(error,bindAddress)]: the result and [error] afterwards. *)
Definition listen (error bindAddress : string) : M DSys (bool * string) :=
  let* d := dget in
  if d_listener d >=? 0 then ret (true, error)
  else
    let* networks := interfaces in
    dupd (fun d => {| d with d_networks := networks; d_hostFailures := [] |}) ;;
    let* t := clockMs in
    dupd (fun d => {| d with d_lastListen := t |}) ;;
    let* fd := udp in
    dupd (hold Listener fd) ;;
    if fd <? 0
    then
      host_failure "socket" "discovery listener" ;;
      ret (false, "LAN discovery socket unavailable; direct address still works")
    else
      let* _ := syscall in
      let* _ := syscall in
      let* bound := syscall in
      if negb bound
      then
        host_failure "bind" "0.0.0.0:12001" ;;
        closeSocket Listener ;;
        ret (false, "LAN discovery port unavailable; direct address still works")
      else
        let* joined := join_groups networks false in
        if negb joined
        then closeSocket Listener ;; ret (false, "LAN multicast unavailable; direct address still works")
        else listen_responder error bindAddress.

(** ** Answering queries *)

Definition FZVD_MAGIC : bytes := [70; 90; 86; 68].

(** A character of a room name that is printed as it is. *)
Definition printable (c : Z) : Z := if (c >=? 32) && (c <? 127) then c else 63.

(** The reply to a query [b], before the name and with it. *)
Definition reply_header (status : fz_server_status) (host : HostOptions) (b : bytes) : bytes :=
  let reply := memcpy (zeros 96) 0 FZVD_MAGIC 4 in
  let reply := <[4%nat := 1]> reply in
  let reply := <[5%nat := 2]> reply in
  let reply := <[6%nat := FZ_VERSION]> reply in
  let reply := memcpy reply 8 (drop 8 b) 8 in
  let reply := fz_put64 reply 16 (o_session status) in
  let reply := fz_put16 reply 24 (u16 (o_port status)) in
  let reply := <[26%nat := u8 (o_phase status)]> reply in
  let reply := <[27%nat := u8 (o_occupied status)]> reply in
  let reply := <[28%nat := u8 (o_players status)]> reply in
  let reply := <[29%nat := u8 (o_track status)]> reply in
  let reply := <[30%nat := u8 (o_league status)]> reply in
  <[31%nat := Z.b2z (negb (bool_decide (length (h_key host) = 0%nat)))]> reply.

Definition reply_for (status : fz_server_status) (host : HostOptions) (b : bytes) : bytes :=
  memcpy (reply_header status host b) 32 (map printable (h_name host)) (Nat.min 63 (length (h_name host))).

(** The reply to one datagram, when it deserves one. *)
Definition answer (status : fz_server_status) (host : HostOptions) (b : bytes) (peer : sockaddr_in) :
    option bytes :=
  if negb (Z.of_nat (length b) =? 16) || negb (memeq b FZVD_MAGIC 4) || negb (rd b 4 =? 1)
     || negb (rd b 5 =? 1) || negb (o_owner_joined status) || o_closed status
  then None
  else if String.prefix "127." (h_bind host) && negb (Z.shiftr (ntohl (sin_addr peer)) 24 =? 127)
  then None
  else Some (reply_for status host b).

Fixpoint advertise_loop (budget : nat) (status : fz_server_status) (host : HostOptions) : M DSys unit :=
  match budget with
  | O => skip
  | S budget =>
      let* d := dget in
      let* r := recv_from (d_listener d) in
      match r with
      | None => skip
      | Some (b, peer) =>
          match answer status host b peer with
          | None => skip
          | Some reply =>
              let* count := sendDatagram reply peer in
              when (count <? 0) (host_failure "send reply" (inet_ntoa (sin_addr peer)))
          end ;;
          advertise_loop budget status host
      end
  end.

Definition advertise (status : fz_server_status) (host : HostOptions) : M DSys unit :=
  let* d := dget in
  if d_listener d <? 0 then skip else advertise_loop 32 status host.

(** ** Browsing *)

(** The name of a reply: up to its first zero byte. *)
Fixpoint until_zero (l : bytes) : bytes :=
  match l with
  | [] => []
  | c :: l => if c =? 0 then [] else printable c :: until_zero l
  end.

(** The room a reply announces, when it answers the query [nonce]. *)
Definition parse_reply (nonce now : Z) (b : bytes) (src : sockaddr_in) : option Room :=
  if negb (Z.of_nat (length b) =? 96) || negb (memeq b FZVD_MAGIC 4) || negb (rd b 4 =? 1)
     || negb (rd b 5 =? 2) || negb (fz_u64 b 8 =? nonce) || (fz_u64 b 16 =? 0)
     || (fz_u16 b 24 =? 0) || (fz_u16 b 24 =? 12001) || (rd b 26 >? FZ_RESULTS) || (rd b 27 >? 4)
     || (rd b 28 <? 2) || (rd b 28 >? 4) || (rd b 29 >? 4) || (rd b 30 >? 2) || (rd b 31 >? 1)
  then None
  else Some {| rm_session := fz_u64 b 16; rm_seen := now; rm_name := until_zero (take 64 (drop 32 b));
               rm_address := inet_ntoa (sin_addr src) +:+ ":" +:+ dec (fz_u16 b 24);
               rm_players := rd b 28; rm_occupied := rd b 27; rm_phase := rd b 26; rm_track := rd b 29;
               rm_league := rd b 30; rm_version := rd b 6; rm_password := negb (rd b 31 =? 0) |}.

(** A room is listed once, under its session: the entry is replaced in place or
    appended while there are fewer than 64. *)
Fixpoint replace_room (r : Room) (rooms : list Room) : option (list Room) :=
  match rooms with
  | [] => None
  | x :: rooms => if rm_session x =? rm_session r then Some (r :: rooms)
                  else (fun l => x :: l) <$> replace_room r rooms
  end.

Definition list_room (r : Room) (rooms : list Room) : list Room :=
  match replace_room r rooms with
  | Some rooms => rooms
  | None => if (length rooms <? 64)%nat then rooms ++ [r] else rooms
  end.

(** [std::erase_if] of the entries not seen for six seconds. *)
Definition expire (now : Z) (rooms : list Room) : list Room :=
  List.filter (fun r => negb (u64 (now - rm_seen r) >? 6000)) rooms.

(** The browser's socket; [false] when [scan] returns early. *)
Definition scan_open (now : Z) : M DSys bool :=
  let* d := dget in
  if (d_query d <? 0) && (u64 (now - d_lastQuery d) <? 2000) then ret false
  else if negb (d_query d <? 0) then ret true
  else
    let* networks := interfaces in
    dupd (fun d => {| d with d_networks := networks; d_browseFailures := []; d_lastQuery := now |}) ;;
    let* fd := udp in
    dupd (hold Query fd) ;;
    let* nonce := randomNonce in
    dupd (fun d => {| d with d_nonce := nonce |}) ;;
    if fd <? 0 then browse_failure "socket" "discovery browser" ;; ret false
    else
      let* bound := syscall in
      if negb bound
      then browse_failure "bind" "browser ephemeral port" ;; closeSocket Query ;; ret false
      else if nonce =? 0
      then browse_failure_code "random nonce" "browser" e_io ;; closeSocket Query ;; ret false
      else
        let* ttl := syscall in
        let* loop := (if ttl then syscall else ret false) in
        if negb loop
        then browse_failure "multicast options" "browser" ;; closeSocket Query ;; ret false
        else dupd (fun d => {| d with d_lastQuery := 0 |}) ;; ret true.

(** The query, sent from every interface: whether one was sent. *)
Fixpoint send_queries (q : bytes) (networks : list Z) (sent : bool) : M DSys bool :=
  match networks with
  | [] => ret sent
  | ip :: networks =>
      let* chosen := syscall in
      if negb chosen
      then browse_failure "IP_MULTICAST_IF" (inet_ntoa ip) ;; send_queries q networks sent
      else
        let* count := sendDatagram q discovery_group in
        if count =? 16
        then
          dupd (fun d => let s := d_status d in
                         {| d with d_status := {| s with ds_queries := u64 (ds_queries s + 1) |} |}) ;;
          send_queries q networks true
        else browse_failure "send query" (inet_ntoa ip) ;; send_queries q networks sent
  end.

Definition query_packet (nonce : Z) : bytes :=
  let q := memcpy (zeros 16) 0 FZVD_MAGIC 4 in
  let q := <[6%nat := FZ_VERSION]> (<[5%nat := 1]> (<[4%nat := 1]> q)) in
  fz_put64 q 8 nonce.

(** The query is repeated every two seconds; the warning afterwards. *)
Definition scan_query (now : Z) (warning : string) : M DSys string :=
  let* d := dget in
  if negb (u64 (now - d_lastQuery d) >=? 2000) then ret warning
  else
    let* networks := interfaces in
    dupd (fun d => {| d with d_networks := networks; d_browseFailures := [] |}) ;;
    let* sent := send_queries (query_packet (d_nonce d)) networks false in
    let* d := dget in
    when (negb sent && bool_decide (length (d_browseFailures d) = 0%nat))
      (browse_failure_code "enumerate interfaces" "IPv4" e_netunreach) ;;
    when (negb sent) (closeSocket Query) ;;
    dupd (fun d => {| d with d_lastQuery := now |}) ;;
    ret (if sent then "" else "Nearby games unavailable. Enter a host address or retry.").

Fixpoint scan_loop (budget : nat) (now : Z) (rooms : list Room) : M DSys (list Room) :=
  match budget with
  | O => ret rooms
  | S budget =>
      let* d := dget in
      let* r := recv_from (d_query d) in
      match r with
      | None =>
          let* e := gets (fun σ => dw_errno (dwd σ)) in
          when ((d_query d >=? 0) && negb (e =? e_again) && negb (e =? e_wouldblock))
            (browse_failure "receive reply" "browser" ;; closeSocket Query) ;;
          ret rooms
      | Some (b, src) =>
          match parse_reply (d_nonce d) now b src with
          | None => scan_loop budget now rooms
          | Some r =>
              dupd (fun d => let s := d_status d in
                             {| d with d_status := {| s with ds_replies := u64 (ds_replies s + 1) |} |}) ;;
              scan_loop budget now (list_room r rooms)
          end
      end
  end.

(** [scan(rooms,warning)]: the rooms and the warning afterwards. *)
Definition scan (rooms : list Room) (warning : string) : M DSys (list Room * string) :=
  let* now := clockMs in
  dupd (fun d => if d_browseStarted d =? 0 then {| d with d_browseStarted := now |} else d) ;;
  let* ready := scan_open now in
  if negb ready then ret (rooms, warning)
  else
    let* warning := scan_query now warning in
    let* rooms := scan_loop 64 now rooms in
    ret (expire now rooms, warning).

End Model.
