(* ===== verification/DiscoveryProps.v ===== *)
(** * What discovery guarantees

    The room a browser lists is the room the host's server runs; the list of
    rooms stays bounded and fresh; a host answers queries only, and within its
    own machine when it is bound to the loopback interface; and no descriptor
    is lost on any path. *)

From S2P Require Import Prelude State Text Protocol Server Room ServerCore ServerRefine Scenario ServerRun Events ServerProps Discovery.

Local Open Scope string_scope.
Local Open Scope list_scope.
Local Open Scope Z_scope.
Local Open Scope fz_scope.

(** ** Query and reply on the wire *)

(** The bytes of a reply, field by field. *)
Definition reply_layout (nonce : Z) (status : fz_server_status) (host : HostOptions) : bytes :=
  FZVD_MAGIC ++ [1; 2; FZ_VERSION; 0] ++ le64 nonce ++ le64 (o_session status)
  ++ le16 (u16 (o_port status))
  ++ [u8 (o_phase status); u8 (o_occupied status); u8 (o_players status); u8 (o_track status);
      u8 (o_league status); Z.b2z (negb (bool_decide (length (h_key host) = 0%nat)))]
  ++ map printable (take 63 (h_name host)) ++ zeros (64 - length (take 63 (h_name host))).

(** The host answers guests: its owner is in, the room is open, and a host on
    the loopback interface answers its own machine. *)
Definition answers (status : fz_server_status) (host : HostOptions) (peer : sockaddr_in) : Prop :=
  o_owner_joined status = true /\ o_closed status = false /\
  (String.prefix "127." (h_bind host) = true -> Z.shiftr (ntohl (sin_addr peer)) 24 = 127).

Lemma shiftr_u8 z n : 8 <= n -> Z.shiftr (u8 z) n = 0.
Proof.
  intros Hn. rewrite Z.shiftr_div_pow2 by lia. apply Z.div_small. pose proof (fits_u8 z) as [? H].
  pose proof (Z.pow_le_mono_r 2 8 n ltac:(lia) Hn). lia.
Qed.

(** The first number of a dotted address is the low byte as stored. *)
Lemma ntohl_first a : Z.shiftr (ntohl a) 24 = u8 a.
Proof.
  unfold ntohl. rewrite !Z.shiftr_lor, !Z.shiftr_shiftl_r by lia.
  replace (24 - 24) with 0 by lia. rewrite Z.shiftr_0_r, !shiftr_u8 by lia. by rewrite !Z.lor_0_r.
Qed.

Lemma printable_range c : 32 <= printable c < 127.
Proof. unfold printable. case_if; lia. Qed.

Lemma printable_idem c : printable (printable c) = printable c.
Proof. unfold printable at 1. pose proof (printable_range c). case_if; [done|]. bsolve. Qed.

Lemma until_zero_name l k : until_zero (map printable l ++ zeros k) = map printable l.
Proof.
  induction l as [|c l IH]; simpl; [by destruct k|].
  pose proof (printable_range c). replace (printable c =? 0) with false by lia.
  by rewrite printable_idem, IH.
Qed.

Lemma query_packet_layout nonce : query_packet nonce = FZVD_MAGIC ++ [1; 1; FZ_VERSION; 0] ++ le64 nonce.
Proof. done. Qed.

(** Copying the name over the zeroed end of the reply. *)
Lemma memcpy_name a l :
  memcpy (a ++ zeros 64) (length a) (map printable l) (Nat.min 63 (length l)) =
  a ++ map printable (take 63 l) ++ zeros (64 - length (take 63 l)).
Proof.
  rewrite <- (Nat.add_0_r (length a)), memcpy_app_r, length_take. f_equal.
  rewrite memcpy_0 by (rewrite ?length_map, ?length_replicate; unfold zeros; rewrite ?length_replicate; lia).
  unfold zeros. rewrite drop_replicate. f_equal.
  rewrite <- firstn_map, <- take_take. by rewrite (take_ge (map printable l)) by (by rewrite length_map).
Qed.

Lemma reply_for_layout status host nonce :
  reply_for status host (query_packet nonce) = reply_layout nonce status host.
Proof.
  unfold reply_for, reply_layout. rewrite query_packet_layout.
  set (a := FZVD_MAGIC ++ [1; 2; FZ_VERSION; 0] ++ le64 nonce ++ le64 (o_session status)
    ++ le16 (u16 (o_port status)) ++
    [u8 (o_phase status); u8 (o_occupied status); u8 (o_players status); u8 (o_track status);
     u8 (o_league status); Z.b2z (negb (bool_decide (length (h_key host) = 0%nat)))]).
  assert (reply_header status host (FZVD_MAGIC ++ [1; 1; FZ_VERSION; 0] ++ le64 nonce) = a ++ zeros 64) as ->
    by reflexivity.
  etransitivity; [exact (memcpy_name a (h_name host))|]. unfold a. by rewrite <- !app_assoc.
Qed.

(** What a reply looks like, and to which queries there is one. *)
Lemma answer_layout status host nonce peer :
  answers status host peer -> answer status host (query_packet nonce) peer = Some (reply_layout nonce status host).
Proof.
  intros (Hj & Hc & Hl). unfold answer. rewrite Hj, Hc, reply_for_layout, query_packet_layout.
  replace (negb _ || _ || _ || _ || _ || _) with false by reflexivity.
  destruct (String.prefix "127." (h_bind host)); [|done]. by rewrite (Hl eq_refl).
Qed.

(** A status whose fields are in the range a browser accepts. *)
Record advertisable (status : fz_server_status) : Prop := {
  ad_session : fits 64 (o_session status) /\ o_session status <> 0;
  ad_port : 0 < o_port status < 65536 /\ o_port status <> 12001;
  ad_phase : 0 <= o_phase status <= FZ_RESULTS;
  ad_occupied : 0 <= o_occupied status <= 4;
  ad_players : 2 <= o_players status <= 4;
  ad_track : 0 <= o_track status <= 4;
  ad_league : 0 <= o_league status <= 2
}.

(** The entry a browser should have of a room. *)
Definition room_of (status : fz_server_status) (host : HostOptions) (now : Z) (src : sockaddr_in) : Room :=
  {| rm_session := o_session status; rm_seen := now; rm_name := map printable (take 63 (h_name host));
     rm_address := inet_ntoa (sin_addr src) +:+ ":" +:+ dec (o_port status);
     rm_players := o_players status; rm_occupied := o_occupied status; rm_phase := o_phase status;
     rm_track := o_track status; rm_league := o_league status; rm_version := FZ_VERSION;
     rm_password := negb (bool_decide (length (h_key host) = 0%nat)) |}.

Lemma length_reply_layout nonce status host : length (reply_layout nonce status host) = 96%nat.
Proof.
  unfold reply_layout. rewrite !length_app, length_map. unfold zeros. rewrite length_replicate.
  pose proof (length_take (h_name host) 63). simpl. lia.
Qed.

Lemma parse_layout nonce now status host src :
  fits 64 nonce -> advertisable status ->
  parse_reply nonce now (reply_layout nonce status host) src = Some (room_of status host now src).
Proof.
  intros Hn [[Hs Hs0] [Hp Hp1] Hph Ho Hpl Ht Hl]. unfold parse_reply. rewrite length_reply_layout.
  set (b := reply_layout nonce status host). set (pw := negb (bool_decide (length (h_key host) = 0%nat))).
  assert (memeq b FZVD_MAGIC 4 = true) as -> by reflexivity.
  assert (rd b 4 = 1 /\ rd b 5 = 2 /\ rd b 6 = FZ_VERSION) as (-> & -> & ->) by done.
  assert (rd b 26 = u8 (o_phase status) /\ rd b 27 = u8 (o_occupied status) /\
    rd b 28 = u8 (o_players status) /\ rd b 29 = u8 (o_track status) /\ rd b 30 = u8 (o_league status) /\
    rd b 31 = Z.b2z pw) as (-> & -> & -> & -> & -> & ->) by done.
  rewrite !u8_small by (unfold fits, FZ_RESULTS in *; lia).
  assert (fz_u64 b 8 = nonce) as -> by (rewrite fz_u64_drop; by apply (fz_u64_le64 nonce)).
  assert (fz_u64 b 16 = o_session status) as ->
    by (rewrite fz_u64_drop; by apply (fz_u64_le64 (o_session status))).
  assert (fz_u16 b 24 = o_port status) as ->.
  { rewrite fz_u16_drop. etransitivity; [apply (fz_u16_le16 (u16 (o_port status))), fits_u16|].
    apply u16_small. unfold fits. lia. }
  assert (take 64 (drop 32 b) =
    map printable (take 63 (h_name host)) ++ zeros (64 - length (take 63 (h_name host)))) as ->.
  { change (drop 32 b) with (map printable (take 63 (h_name host)) ++ zeros (64 - length (take 63 (h_name host)))).
    apply take_ge. rewrite length_app, length_map. unfold zeros. rewrite length_replicate.
    pose proof (length_take (h_name host) 63). lia. }
  rewrite until_zero_name, Z.eqb_refl. unfold FZ_RESULTS in *.
  replace (negb _ || _ || _ || _ || _ || _ || _ || _ || _ || _ || _ || _ || _ || _ || _) with false.
  - unfold room_of. fold pw. by destruct pw.
  - symmetry. repeat (apply orb_false_iff; split); try lia; try done. by destruct pw.
Qed.

(** The status of a server in a reachable state, owner present and open. *)
Lemma good_advertisable {E : Env} σ :
  good (coreσ σ) -> 0 < s_port (srv σ) < 65536 -> s_port (srv σ) <> 12001 ->
  advertisable (eval fz_server_get_status σ).
Proof.
  intros G Hp Hp1. destruct (good_server_ok _ G) as [_ Hph _ _ _ [Hc He] [Ht Hl] _ _].
  pose proof (wf_session _ (proj1 G)) as [Hs Hs0].
  assert (0 <= count (srv σ)) by (unfold count, all4; cbn [foldr]; repeat destruct (occupied _); simpl; lia).
  unfold FZ_LOBBY, FZ_RESULTS in *. split; try done.
  - change (o_occupied _) with (count (srv σ)). lia.
  - change (o_track _) with (s_track (srv σ)). lia.
  - change (o_league _) with (s_league (srv σ)). lia.
Qed.

(** C19. A nearby game is listed as it is. The server of a host is in any state
    its interface can reach, its owner has joined and it is open; a browser's
    query reaches the host and the reply reaches the browser. The host answers,
    and the browser lists exactly that room: the session and port to connect
    to, the phase, the number of participants, the capacity and the course of
    the server, the (printable) name and whether a password is needed. *)
Theorem advertised_room_listed {E : Env} σ host nonce peer now src :
  good (coreσ σ) -> 0 < s_port (srv σ) < 65536 -> s_port (srv σ) <> 12001 -> fits 64 nonce ->
  let status := eval fz_server_get_status σ in
  answers status host peer ->
  exists reply, answer status host (query_packet nonce) peer = Some reply /\
    parse_reply nonce now reply src =
      Some {| rm_session := s_session (srv σ); rm_seen := now;
              rm_name := map printable (take 63 (h_name host));
              rm_address := inet_ntoa (sin_addr src) +:+ ":" +:+ dec (s_port (srv σ));
              rm_players := s_expected (srv σ); rm_occupied := count (srv σ);
              rm_phase := s_phase (srv σ); rm_track := s_track (srv σ); rm_league := s_league (srv σ);
              rm_version := FZ_VERSION;
              rm_password := negb (bool_decide (length (h_key host) = 0%nat)) |}.
Proof.
  intros G Hp Hp1 Hn status Ha. exists (reply_layout nonce status host).
  split; [by apply answer_layout|]. by apply (parse_layout nonce now status host src Hn), good_advertisable.
Qed.

(** ** What a host sends *)

Section Advertise.
Context {E : DEnv}.

(** The datagrams among [n] results of [recvfrom] from the [k]th on, as the code
    sees them: cut to its buffer of 257 bytes. *)
Definition arrivals (k n : nat) : list (bytes * sockaddr_in) :=
  omap (fun i => match incoming i with inl (data, from) => Some (take 257 data, from) | inr _ => None end)
    (seq k n).

(** The replies to these datagrams, each with the address it goes to. *)
Definition replies (status : fz_server_status) (host : HostOptions) (l : list (bytes * sockaddr_in)) :
    list (sockaddr_in * bytes) :=
  omap (fun q => (fun reply => (snd q, reply)) <$> answer status host (fst q) (snd q)) l.

(** The query of a browser. *)
Definition is_query (b : bytes) : Prop :=
  length b = 16%nat /\ memeq b FZVD_MAGIC 4 = true /\ rd b 4 = 1 /\ rd b 5 = 1.

Lemma sendDatagram_sent data to σ :
  dw_sent (dwd (exec (sendDatagram data to) σ)) = dw_sent (dwd σ) ++ [(to, data)].
Proof.
  unfold sendDatagram, wupd, set_errno. rewrite !exec_bind. cbn [eval gets fst].
  destruct (sent_count _) as [c e]. rewrite exec_bind, exec_when. by destruct (c <? 0).
Qed.

(** The listener and the number of datagrams read. *)
Definition read_by (σ : DSys) : Z * nat := (d_listener (dsc σ), dw_recv (dwd σ)).

Lemma sendDatagram_read data to : keeps read_by (sendDatagram data to).
Proof.
  intros σ. unfold sendDatagram, wupd, set_errno. rewrite !exec_bind. cbn [eval gets fst].
  destruct (sent_count _) as [c e]. rewrite exec_bind, exec_when. by destruct (c <? 0).
Qed.

Lemma answer_inv status host b peer reply :
  answer status host b peer = Some reply -> length reply = 96%nat /\ is_query b /\ answers status host peer.
Proof.
  intros H. unfold answer in H. destruct (_ || _) eqn:Hc; [done|].
  destruct (String.prefix _ _ && _) eqn:Hl; [done|]. injection H as <-. split.
  - unfold reply_for. rewrite length_memcpy. unfold reply_header, fz_put64, fz_put32, fz_put16.
    repeat (rewrite length_insert || rewrite length_memcpy). apply length_replicate.
  - breflect. split; [by split_and!; try lia|]. split_and!; try done. intros Hp. rewrite Hp in Hl. rewrite andb_true_l in Hl.
    by breflect.
Qed.

(** Answering one datagram. *)
Lemma answer_one status host b peer σ :
  let τ := exec (match answer status host b peer with
                 | None => skip
                 | Some reply =>
                     let* count := sendDatagram reply peer in
                     when (count <? 0) (host_failure "send reply" (inet_ntoa (sin_addr peer)))
                 end) σ in
  read_by τ = read_by σ /\ dw_sent (dwd τ) = dw_sent (dwd σ) ++ replies status host [(b, peer)].
Proof.
  cbv zeta. unfold replies. cbn [omap list_omap fst snd].
  destruct (answer status host b peer) as [reply|]; [|by rewrite app_nil_r]. cbn [fmap option_fmap option_map].
  rewrite exec_bind. pose proof (sendDatagram_sent reply peer σ) as Hs. pose proof (sendDatagram_read reply peer σ) as Hr.
  set (σ1 := exec _ σ) in *. clearbody σ1. rewrite <- Hs, <- Hr.
  set (m := when _ _). assert (keeps (fun σ => (read_by σ, dw_sent (dwd σ))) m) as K
    by (unfold m, host_failure, dupd; auto with keeps).
  specialize (K σ1). injection K as K1 K2 K3. unfold read_by. by rewrite K1, K2, K3.
Qed.

Lemma arrivals_S k n :
  arrivals k (S n) = match incoming k with inl (data, from) => [(take 257 data, from)] | inr _ => [] end
                     ++ arrivals (S k) n.
Proof. unfold arrivals. cbn. by destruct (incoming k) as [[data from]|]. Qed.

Lemma replies_app status host l1 l2 : replies status host (l1 ++ l2) = replies status host l1 ++ replies status host l2.
Proof. apply omap_app. Qed.

(** The loop reads until nothing is waiting or its budget is used. *)
Lemma advertise_loop_replies status host budget : forall σ,
  0 <= d_listener (dsc σ) ->
  let τ := exec (advertise_loop budget status host) σ in
  exists n, (n <= budget)%nat /\ dw_recv (dwd τ) = (dw_recv (dwd σ) + n)%nat /\
    dw_sent (dwd τ) = dw_sent (dwd σ) ++ replies status host (arrivals (dw_recv (dwd σ)) n) /\
    (n = budget \/ exists e, incoming (pred (dw_recv (dwd τ))) = inr e).
Proof.
  induction budget as [|budget IH]; intros σ Hl τ; unfold τ; cbn [advertise_loop].
  { exists 0%nat. rewrite Nat.add_0_r, app_nil_r. auto. }
  rewrite exec_bind, exec_bind. change (eval dget σ) with (dsc σ). change (exec dget σ) with σ.
  unfold recv_from. rewrite (proj2 (Z.ltb_ge _ _) Hl), !exec_bind, !eval_bind.
  change (eval (gets _) σ) with (dw_recv (dwd σ)). change (exec (gets _) σ) with σ.
  set (σ1 := exec (wupd _) σ).
  assert (dsc σ1 = dsc σ /\ dw_recv (dwd σ1) = S (dw_recv (dwd σ)) /\ dw_sent (dwd σ1) = dw_sent (dwd σ))
    as (D1 & N1 & S1) by done.
  pose proof (arrivals_S (dw_recv (dwd σ))) as Ha.
  clearbody σ1. destruct (incoming (dw_recv (dwd σ))) as [[data from]|e] eqn:Hi.
  - rewrite exec_ret, eval_ret, exec_bind. destruct (answer_one status host (take 257 data) from σ1) as [A1 A2].
    set (σ2 := exec _ σ1) in *. clearbody σ2. injection A1 as A1 A3.
    destruct (IH σ2) as (n & Hn & N2 & S2 & Hs); [by rewrite A1, D1|].
    exists (S n). rewrite Ha, replies_app, app_assoc, <- S1, <- A2, <- N1, <- A3. split_and!; [lia|lia|exact S2|].
    destruct Hs as [->|Hs]; [by left|by right].
  - exists 1%nat. rewrite Ha. rewrite eval_bind, eval_ret, exec_bind, exec_ret, exec_skip. set (σ2 := exec (set_errno e) σ1).
    assert (dw_recv (dwd σ2) = dw_recv (dwd σ1) /\ dw_sent (dwd σ2) = dw_sent (dwd σ1)) as [N2 S2] by done.
    rewrite N2, S2, N1, S1, app_nil_r.
    split_and!; [lia|lia|done|]. right. by exists e.
Qed.

(** C20. Answering is bounded and discreet. One call of [advertise] reads at most
    32 datagrams, and stops earlier only when none is left. What it sends is, in
    the order of the datagrams it read, the 96-byte reply to each that is a
    query, to the address that query came from. Nothing is sent before the
    owner has joined or once the room is closed, and a room bound to a loopback
    address answers only addresses of its own machine. *)
Theorem advertise_replies status host σ :
  let τ := exec (advertise status host) σ in
  exists n, (n <= 32)%nat /\ dw_recv (dwd τ) = (dw_recv (dwd σ) + n)%nat /\
    dw_sent (dwd τ) = dw_sent (dwd σ) ++ replies status host (arrivals (dw_recv (dwd σ)) n) /\
    (n = 32%nat \/ d_listener (dsc σ) < 0 /\ n = 0%nat \/ exists e, incoming (pred (dw_recv (dwd τ))) = inr e) /\
    forall b peer reply, answer status host b peer = Some reply ->
      length reply = 96%nat /\ is_query b /\ o_owner_joined status = true /\ o_closed status = false /\
      (String.prefix "127." (h_bind host) = true -> u8 (sin_addr peer) = 127).
Proof.
  assert (forall b peer reply, answer status host b peer = Some reply ->
      length reply = 96%nat /\ is_query b /\ o_owner_joined status = true /\ o_closed status = false /\
      (String.prefix "127." (h_bind host) = true -> u8 (sin_addr peer) = 127)) as Ha.
  { intros b peer reply H. apply answer_inv in H as (H1 & H2 & H3 & H4 & H5). split_and!; try done.
    intros Hp. rewrite <- ntohl_first. by apply H5. }
  intros τ. unfold τ, advertise. rewrite exec_bind. change (eval dget σ) with (dsc σ). change (exec dget σ) with σ.
  destruct (Z.ltb_spec (d_listener (dsc σ)) 0) as [Hl|Hl].
  - exists 0%nat. rewrite exec_skip, app_nil_r. split_and!; [lia|lia|done|auto|done].
  - destruct (advertise_loop_replies status host 32 σ Hl) as (n & H1 & H2 & H3 & H4). exists n.
    split_and!; try done. tauto.
Qed.

End Advertise.

(** ** The list of rooms *)

(** What the code relies on: received bytes are bytes, and a new descriptor is
    a number that is not in use. *)
Class DEnvLaws (E : DEnv) := {
  incoming_bytes : forall n data from, incoming n = inl (data, from) -> all_bytes data;
  new_socket_fresh : forall n opened fd, new_socket n opened = inl fd -> 0 <= fd /\ fd ∉ opened
}.

(** An entry the user can act on. *)
Record listed (r : Room) : Prop := {
  li_session : fits 64 (rm_session r) /\ rm_session r <> 0;
  li_phase : 0 <= rm_phase r <= FZ_RESULTS;
  li_room : 0 <= rm_occupied r <= 4 /\ 2 <= rm_players r <= 4;
  li_course : 0 <= rm_track r <= 4 /\ 0 <= rm_league r <= 2;
  li_name : (length (rm_name r) <= 64)%nat /\ Forall (fun c => 32 <= c < 127) (rm_name r)
}.

Record rooms_ok (rooms : list Room) : Prop := {
  ro_bound : (length rooms <= 64)%nat;
  ro_once : NoDup (map rm_session rooms);
  ro_listed : Forall listed rooms
}.

Lemma until_zero_spec l :
  (length (until_zero l) <= length l)%nat /\ Forall (fun c => 32 <= c < 127) (until_zero l).
Proof.
  induction l as [|c l [IH1 IH2]]; simpl; [by split|]. case_if; simpl; split; try lia; try constructor; auto.
  apply printable_range.
Qed.

Lemma parse_reply_listed nonce now b src r :
  all_bytes b -> parse_reply nonce now b src = Some r -> listed r /\ rm_seen r = now.
Proof.
  intros Hb H. unfold parse_reply in H. destruct (_ || _) eqn:Hc; [done|]. injection H as <-. breflect.
  assert (forall i, 0 <= rd b i) as R by (intros i; by apply rd_fits).
  destruct (until_zero_spec (take 64 (drop 32 b))) as [N1 N2]. rewrite length_take in N1.
  split; [|done]. split; cbn [rm_session rm_phase rm_occupied rm_players rm_track rm_league rm_name];
    split_and?; try done; try apply R; try lia; apply fits_fz_u64.
Qed.

Lemma replace_room_sessions r rooms rooms' :
  replace_room r rooms = Some rooms' ->
  map rm_session rooms' = map rm_session rooms /\ (Forall listed rooms -> listed r -> Forall listed rooms').
Proof.
  revert rooms'. induction rooms as [|x rooms IH]; intros rooms' H; simpl in H; [done|].
  destruct (Z.eqb_spec (rm_session x) (rm_session r)) as [Hx|Hx].
  - injection H as <-. split; [by simpl; rewrite Hx|]. intros Hl Hr. inversion Hl. by constructor.
  - destruct (replace_room r rooms) as [l|]; [|done]. injection H as <-.
    destruct (IH l eq_refl) as [IH1 IH2]. split; [by simpl; rewrite IH1|].
    intros Hl Hr. inversion Hl. constructor; auto.
Qed.

Lemma replace_room_none r rooms : replace_room r rooms = None -> rm_session r ∉ map rm_session rooms.
Proof.
  induction rooms as [|x rooms IH]; simpl; [set_solver|].
  destruct (Z.eqb_spec (rm_session x) (rm_session r)) as [Hx|Hx]; [done|].
  destruct (replace_room r rooms); [done|]. intros _. specialize (IH eq_refl). set_solver.
Qed.

Lemma list_room_ok r rooms : listed r -> rooms_ok rooms -> rooms_ok (list_room r rooms).
Proof.
  intros Hr [H1 H2 H3]. unfold list_room. destruct (replace_room r rooms) as [l|] eqn:H.
  - destruct (replace_room_sessions _ _ _ H) as [E1 E2]. split; [|by rewrite E1|auto].
    by rewrite <- (length_map rm_session), E1, length_map.
  - apply replace_room_none in H. destruct (Nat.ltb_spec (length rooms) 64); [|done].
    split; [rewrite length_app; simpl; lia| |apply Forall_app; auto].
    rewrite map_app. apply NoDup_app. split_and!; [done|set_solver|apply NoDup_singleton].
Qed.

Lemma filter_rooms_ok f rooms : rooms_ok rooms -> rooms_ok (List.filter f rooms).
Proof.
  intros [H1 H2 H3]. induction rooms as [|x rooms IH]; [done|]. simpl in *.
  inversion H3; subst. apply NoDup_cons in H2 as [N1 N2].
  destruct IH as [I1 I2 I3]; [lia|done|done|]. destruct (f x); [|split; simpl in *; [lia|done..]].
  split; simpl; [|apply NoDup_cons; split; [|done]|by constructor].
  - pose proof (List.filter_length_le f rooms). lia.
  - intros Hin. apply N1. apply list_elem_of_In, in_map_iff in Hin as (y & Hy & Hin%filter_In).
    apply list_elem_of_In, in_map_iff. exists y. tauto.
Qed.

Section Browse.
Context {E : DEnv} {L : DEnvLaws E}.

Lemma eval_clockMs σ : eval clockMs σ = u64 (clock_ms (dw_clock (dwd σ))).
Proof. reflexivity. Qed.

Lemma recv_from_bytes fd σ b from : eval (recv_from fd) σ = Some (b, from) -> all_bytes b.
Proof.
  unfold recv_from. case_if; [done|]. rewrite !eval_bind. cbn [eval gets fst].
  destruct (incoming _) as [[data a]|e] eqn:Hi; [|done].
  intros [= <- <-]. by eapply all_bytes_take, incoming_bytes.
Qed.

Lemma scan_loop_ok now budget : forall rooms σ, rooms_ok rooms -> rooms_ok (eval (scan_loop budget now rooms) σ).
Proof.
  induction budget as [|budget IH]; intros rooms σ Hr; [done|]. cbn [scan_loop].
  rewrite !eval_bind.
  destruct (eval (recv_from _) _) as [[b src]|] eqn:He; [|done].
  destruct (parse_reply _ _ _ _) as [r|] eqn:Hp; [|by apply IH].
  rewrite eval_bind. apply IH, list_room_ok; [|done]. by eapply parse_reply_listed, Hp; eapply recv_from_bytes.
Qed.

(** [scan] when it looks for its socket. *)
Definition scan_begin (σ : DSys) : DSys :=
  let now := u64 (clock_ms (dw_clock (dwd σ))) in
  exec (dupd (fun d => if d_browseStarted d =? 0 then {| d with d_browseStarted := now |} else d)) (exec clockMs σ).

Lemma scan_begin_query σ : d_query (dsc (scan_begin σ)) = d_query (dsc σ).
Proof.
  change (d_query (if d_browseStarted (dsc σ) =? 0
    then {| (dsc σ) with d_browseStarted := u64 (clock_ms (dw_clock (dwd σ))) |} else dsc σ) = d_query (dsc σ)).
  by case_if.
Qed.

(** After a closing, and after a failure is recorded, there is no socket. *)
Lemma closeSocket_query σ : d_query (dsc (exec (closeSocket Query) σ)) = -1.
Proof. reflexivity. Qed.

Lemma give_up_query (m : M DSys unit) σ :
  eval (m ;; closeSocket Query ;; ret false) σ = false /\
  d_query (dsc (exec (m ;; closeSocket Query ;; ret false) σ)) < 0.
Proof. split; [done|]. rewrite !exec_bind, exec_ret, closeSocket_query. lia. Qed.

(** Without a socket [scan] does nothing but try to open one. *)
Lemma scan_open_failed now σ :
  eval (scan_open now) σ = false ->
  d_query (dsc σ) < 0 /\ d_query (dsc (exec (scan_open now) σ)) < 0.
Proof.
  unfold scan_open. rewrite exec_bind, eval_bind. change (eval dget σ) with (dsc σ). change (exec dget σ) with σ.
  destruct (Z.ltb_spec (d_query (dsc σ)) 0) as [Hq|Hq]; cbn [andb negb]; [|done].
  case_if; [done|]. intros He. split; [done|]. revert He.
  rewrite exec_bind, eval_bind. generalize (eval interfaces σ) (exec interfaces σ). intros networks σ1.
  rewrite exec_bind, eval_bind. set (σ2 := exec (dupd _) σ1). clearbody σ2.
  rewrite exec_bind, eval_bind. generalize (eval udp σ2) (exec udp σ2). intros fd σ3.
  rewrite exec_bind, eval_bind. set (σ4 := exec (dupd (hold Query fd)) σ3).
  assert (d_query (dsc σ4) = fd) as H4 by done. clearbody σ4.
  rewrite exec_bind, eval_bind. generalize (eval randomNonce σ4). intros nonce.
  set (σ5 := exec randomNonce σ4). assert (d_query (dsc σ5) = fd) as H5 by done. clearbody σ5.
  rewrite exec_bind, eval_bind. set (σ6 := exec (dupd _) σ5). assert (d_query (dsc σ6) = fd) as H6 by done. clearbody σ6.
  destruct (Z.ltb_spec fd 0) as [Hf|Hf]; [intros _; rewrite exec_bind, exec_ret; by rewrite <- H6 in Hf|].
  rewrite exec_bind, eval_bind. generalize (eval syscall σ6) (exec syscall σ6). intros bound σ7.
  destruct bound; cbn [negb]; [|intros _; apply give_up_query]. case_if; [intros _; apply give_up_query|].
  rewrite exec_bind, eval_bind. generalize (eval syscall σ7) (exec syscall σ7). intros ttl σ8.
  rewrite exec_bind, eval_bind. generalize (eval (if ttl then syscall else ret false) σ8) (exec (if ttl then syscall else ret false) σ8).
  intros loop σ9. destruct loop; cbn [negb]; [done|intros _; apply give_up_query].
Qed.

Lemma expire_recent now rooms r : r ∈ expire now rooms -> u64 (now - rm_seen r) <= 6000.
Proof. intros [_ Hf]%list_elem_of_In%filter_In. by breflect. Qed.

(** C21. The list a browser shows stays small, current and sensible: it has at
    most 64 rooms, no session twice, every entry within the ranges of the game
    and with a printable name. After a scan at time [t] that has a socket every
    entry was announced in the last six seconds. Only a scan that starts and
    ends without a socket leaves the list as it was. *)
Theorem scan_rooms_ok rooms warning σ :
  rooms_ok rooms ->
  let t := u64 (clock_ms (dw_clock (dwd σ))) in
  let rooms' := fst (eval (scan rooms warning) σ) in
  rooms_ok rooms' /\
  if eval (scan_open t) (scan_begin σ)
  then forall r, r ∈ rooms' -> u64 (t - rm_seen r) <= 6000
  else rooms' = rooms /\ d_query (dsc σ) < 0 /\ d_query (dsc (exec (scan rooms warning) σ)) < 0.
Proof.
  intros Hr t rooms'. unfold rooms', scan. rewrite exec_bind, eval_bind, eval_clockMs. fold t.
  rewrite exec_bind, eval_bind. change (exec (dupd _) (exec clockMs σ)) with (scan_begin σ).
  rewrite <- (scan_begin_query σ).
  set (σ1 := scan_begin σ). clearbody σ1. rewrite exec_bind, eval_bind.
  pose proof (scan_open_failed t σ1) as Hf. destruct (eval (scan_open t) σ1); cbn [negb].
  - rewrite eval_bind. generalize (exec (scan_query t warning) (exec (scan_open t) σ1)). intros σ2.
    rewrite eval_bind, eval_ret. cbn [fst]. split; [by apply filter_rooms_ok, scan_loop_ok|].
    intros r. apply expire_recent.
  - rewrite exec_ret, eval_ret. cbn [fst]. split; [done|]. split; [done|]. by apply Hf.
Qed.

End Browse.

(** ** A small network *)

(** A hosted room whose owner, nonce 7, has joined. *)
Definition owned_config : fz_server_config :=
  mk_config (Some "0.0.0.0") (Some demo_key) 12000 2 1 2 3 (-1) 7.

Definition owned_room : Sys :=
  match fz_server_create (Some owned_config) world0 with
  | (inr s, w) => mk_sys s w
  | (inl _, w) => mk_sys server0 w
  end.

Definition owned_joined : Sys := exec (deliver (datagram (hello_packet 7 demo_key)) alice) owned_room.

Lemma owned_room_good : good (coreσ owned_room).
Proof.
  assert (fz_server_create (Some owned_config) world0 = (inr (srv owned_room), wld owned_room)) as H
    by (vm_compute; reflexivity).
  assert (wf_config owned_config) as Hc
    by (by repeat split; try (by apply (bool_decide_unpack _)); repeat constructor).
  exact (proj1 (fz_server_create_inv _ _ _ _ H Hc)).
Qed.

Lemma owned_joined_good : good (coreσ owned_joined).
Proof.
  assert (all_bytes (datagram (hello_packet 7 demo_key))) as Hb
    by (apply (bool_decide_unpack _); by vm_compute).
  exact (moves_good _ _ (receive_packet_moves _ (Z.of_nat (length (datagram (hello_packet 7 demo_key))))
           alice owned_room Hb) owned_room_good).
Qed.

(** "mario", with a character that is not printable. *)
Definition mario_host : HostOptions := {| host0 with h_name := [109; 97; 114; 105; 111; 9; 33] |}.

Lemma advertised_room_listed_witness :
  exists reply, answer (eval fz_server_get_status owned_joined) mario_host (query_packet 77) alice = Some reply /\
    parse_reply 77 1000 reply alice =
      Some {| rm_session := s_session (srv owned_joined); rm_seen := 1000;
              rm_name := map printable (take 63 (h_name mario_host));
              rm_address := inet_ntoa (sin_addr alice) +:+ ":" +:+ dec (s_port (srv owned_joined));
              rm_players := s_expected (srv owned_joined); rm_occupied := count (srv owned_joined);
              rm_phase := s_phase (srv owned_joined); rm_track := s_track (srv owned_joined);
              rm_league := s_league (srv owned_joined); rm_version := FZ_VERSION;
              rm_password := negb (bool_decide (length (h_key mario_host) = 0%nat)) |}.
Proof.
  apply (advertised_room_listed owned_joined mario_host 77 alice 1000 alice).
  - exact owned_joined_good.
  - by vm_compute.
  - by vm_compute.
  - by vm_compute.
  - split_and!; by vm_compute.
Defined.

Definition mario_reply : bytes :=
  Eval vm_compute in reply_layout 77 (eval fz_server_get_status owned_joined) mario_host.

(** One interface, a browser's query and the reply to it. *)
#[export] Instance lan_env : DEnv := {|
  clock_ms n := Z.of_nat n * 700;
  random_device n := Some 77;
  getifaddrs_result n := Some [mk_ifaddr true true false 83994816];
  new_socket n opened := let fd := Z.of_nat n + 3 in if decide (fd ∈ opened) then inr 24 else inl fd;
  call_errno n := None;
  incoming n :=
    match n with
    | 0%nat => inl (query_packet 77, alice)
    | 1%nat => inl (mario_reply, alice)
    | _ => inr 11
    end;
  sent_count n := (16, 0);
  error_text e := "error";
  e_again := 11; e_wouldblock := 11; e_badf := 9; e_io := 5; e_netunreach := 101
|}.

#[export] Instance lan_laws : DEnvLaws lan_env.
Proof.
  split.
  - intros n data from. destruct n as [|[|n]]; cbn; intros [= <- <-]; apply (bool_decide_unpack _); by vm_compute.
  - intros n opened fd. cbn. case_decide; [done|]. intros [= <-]. split; [lia|done].
Defined.

Definition lan_world : DWorld := mk_dworld 3 0 0 0 0 0 0 0 ∅ [].

Definition lan : DSys := mk_dsys (discovery0 []) lan_world.

(** The browser finds the room. *)
Example lan_browse :
  map rm_name (fst (eval (scan [] "") lan)) = [[109; 97; 114; 105; 111; 63; 33]] /\
  map rm_address (fst (eval (scan [] "") lan)) = ["127.0.0.1:12000"].
Proof. by vm_compute. Qed.

Lemma scan_rooms_ok_witness :
  rooms_ok (fst (eval (scan [] "") lan)) /\ length (fst (eval (scan [] "") lan)) = 1%nat /\
  eval (scan_open 2100) (scan_begin lan) = true /\
  forall r, r ∈ fst (eval (scan [] "") lan) -> u64 (2100 - rm_seen r) <= 6000.
Proof.
  destruct (scan_rooms_ok [] "" lan) as [H1 H2]; [split; [simpl; lia|constructor|constructor]|].
  split; [exact H1|]. split; [by vm_compute|]. split; [by vm_compute|exact H2].
Defined.
