(* ===== verification/DiscoverySockets.v ===== *)
(** * Discovery loses no descriptor

    The descriptors the operating system has open for discovery are, after any
    sequence of calls and whatever fails in between, exactly those the object
    holds; the socket that listens for queries and the one that answers them
    are open together. *)

From S2P Require Import Prelude State Text Protocol Server Room ServerCore ServerRefine Scenario ServerRun Events ServerProps Discovery DiscoveryProps.

Local Open Scope list_scope.
Local Open Scope Z_scope.
Local Open Scope fz_scope.

(** ** Ownership *)

#[export] Instance holder_eq_dec : EqDecision holder.
Proof. solve_decision. Defined.

(** The descriptor is stored in the object. *)
Definition stored (d : Discovery) (fd : Z) : Prop := 0 <= fd /\ exists h, held d h = fd.

(** No descriptor is stored twice. *)
Definition distinct (d : Discovery) : Prop :=
  forall h h', 0 <= held d h -> held d h = held d h' -> h = h'.

(** Each descriptor is stored once and nothing else is open. *)
Definition owns (σ : DSys) : Prop :=
  distinct (dsc σ) /\ forall fd, fd ∈ dw_open (dwd σ) <-> stored (dsc σ) fd.

(** [owns], but for a descriptor just opened and not yet stored. *)
Definition owns_with (fd : Z) (σ : DSys) : Prop :=
  distinct (dsc σ) /\ ~ stored (dsc σ) fd /\ -1 <= fd /\
  forall x, x ∈ dw_open (dwd σ) <-> stored (dsc σ) x \/ (0 <= fd /\ x = fd).

(** The signs of the three descriptors. *)
Definition opens (listener query responder : bool) (d : Discovery) : Prop :=
  forall h, (0 <=? held d h) =
            match h with Listener => listener | Query => query | Responder => responder end.

(** The state between two calls. *)
Definition tidy (σ : DSys) : Prop := owns σ /\ exists b q, opens b q b (dsc σ).

(** What the operations that open and close nothing leave alone. *)
Definition socks (σ : DSys) : Z * Z * Z * gset Z :=
  (d_listener (dsc σ), d_query (dsc σ), d_responder (dsc σ), dw_open (dwd σ)).

(** [owns] with known signs, the assertions of the proofs below. *)
Definition state (l q r : bool) (σ : DSys) : Prop := owns σ /\ opens l q r (dsc σ).

Lemma socks_state l q r σ τ : socks σ = socks τ -> state l q r τ -> state l q r σ.
Proof.
  intros [= H1 H2 H3 H4] [[N O] S].
  assert (forall h, held (dsc σ) h = held (dsc τ) h) as K by (by intros []).
  unfold state, owns, opens, distinct, stored in *. rewrite H4. setoid_rewrite K. done.
Qed.

Lemma held_hold h fd d h' : held (hold h fd d) h' = if decide (h' = h) then fd else held d h'.
Proof. by destruct h, h'. Qed.

(** ** Operations that open and close nothing *)

Section Sockets.
Context {E : DEnv} {L : DEnvLaws E}.

#[local] Hint Unfold dupd wupd set_errno : keeps.

Lemma clockMs_socks : keeps socks clockMs.
Proof. unfold clockMs, wupd. auto with keeps. Qed.

Lemma randomNonce_socks : keeps socks randomNonce.
Proof. unfold randomNonce, wupd. auto with keeps. Qed.

Lemma interfaces_socks : keeps socks interfaces.
Proof. unfold interfaces, wupd. auto with keeps. Qed.

Lemma syscall_socks : keeps socks syscall.
Proof.
  unfold syscall, set_errno, wupd. apply keeps_bind; [auto with keeps|intros n].
  apply keeps_bind; [auto with keeps|intros _]. destruct (call_errno n); auto with keeps.
Qed.

Lemma host_failure_socks op i : keeps socks (host_failure op i).
Proof. unfold host_failure, dupd. auto with keeps. Qed.

Lemma browse_failure_code_socks op i e : keeps socks (browse_failure_code op i e).
Proof. unfold browse_failure_code, dupd. auto with keeps. Qed.

Lemma browse_failure_socks op i : keeps socks (browse_failure op i).
Proof. unfold browse_failure. auto using browse_failure_code_socks with keeps. Qed.

Lemma recv_from_socks fd : keeps socks (recv_from fd).
Proof.
  unfold recv_from, set_errno, wupd. apply keeps_if; [auto with keeps|].
  apply keeps_bind; [auto with keeps|intros n]. apply keeps_bind; [auto with keeps|intros _].
  destruct (incoming n) as [[data from]|e]; auto with keeps.
Qed.

Lemma sendDatagram_socks data to : keeps socks (sendDatagram data to).
Proof.
  unfold sendDatagram, set_errno, wupd. apply keeps_bind; [auto with keeps|intros n].
  apply keeps_bind; [auto with keeps|intros _]. destruct (sent_count n). auto with keeps.
Qed.

#[local] Hint Resolve clockMs_socks randomNonce_socks interfaces_socks syscall_socks host_failure_socks
  browse_failure_code_socks browse_failure_socks recv_from_socks sendDatagram_socks : keeps.

Lemma join_groups_socks l : forall b, keeps socks (join_groups l b).
Proof. induction l as [|ip l IH]; intros b; simpl; auto with keeps. Qed.

Lemma send_queries_socks q l : forall b, keeps socks (send_queries q l b).
Proof. induction l as [|ip l IH]; intros b; simpl; unfold dupd; auto 10 with keeps. Qed.

Lemma advertise_loop_socks status host n : keeps socks (advertise_loop n status host).
Proof.
  induction n as [|n IH]; simpl; [auto with keeps|].
  apply keeps_bind; [auto with keeps|intros d]. apply keeps_bind; [auto with keeps|intros [[b peer]|]];
    [|auto with keeps].
  apply keeps_bind; [|done]. destruct (answer _ _ _ _); auto with keeps.
Qed.

Lemma publish_socks b rooms : keeps socks (publish b rooms).
Proof. unfold publish, set_phase, dupd, dget. auto 12 with keeps. Qed.

(** ** Opening and closing *)

Lemma hoare_keeps {A} l q r (m : M DSys A) :
  keeps socks m -> hoare (state l q r) m (fun _ => state l q r).
Proof. intros K σ Hσ. by apply (socks_state _ _ _ _ σ). Qed.

Lemma udp_spec l q r : hoare (state l q r) udp (fun fd σ => owns_with fd σ /\ opens l q r (dsc σ)).
Proof.
  intros σ [[N O] S]. unfold udp, syscall, close_fd, set_errno, wupd, exec, eval, bind, gets, modify, ret, when.
  cbn. destruct (new_socket _ _) as [fd|e] eqn:Hs; cbn.
  - apply new_socket_fresh in Hs as [Hfd Hn]. rewrite O in Hn.
    destruct (call_errno _) as [e|]; cbn.
    + replace (fd >=? 0) with true by lia. cbn. split; [|done].
      split_and!; [done|by intros []|lia|]. intros x. cbn. rewrite elem_of_difference, elem_of_union, O,
        elem_of_singleton. split; [intuition lia|]. intros [Hx|[]]; [|lia]. split; [by left|congruence].
    + split; [|done]. split_and!; [done..|lia|]. intros x. cbn. rewrite elem_of_union, O, elem_of_singleton.
      intuition.
  - split; [|done]. split_and!; [done|by intros []|lia|]. intros x. cbn. rewrite O. intuition lia.
Qed.

(** The sign of one descriptor. *)
Definition sign_at (h : holder) (l q r : bool) : bool :=
  match h with Listener => l | Query => q | Responder => r end.

(** The same signs with [h]'s replaced. *)
Definition state_at (h : holder) (b : bool) (l q r : bool) : DSys -> Prop :=
  match h with Listener => state b q r | Query => state l b r | Responder => state l q b end.

Lemma state_at_intro h b l q r σ τ :
  owns τ -> (0 <=? held (dsc τ) h) = b ->
  (forall h', h' <> h -> held (dsc τ) h' = held (dsc σ) h') -> opens l q r (dsc σ) ->
  state_at h b l q r τ.
Proof.
  intros O Hb K S.
  assert (forall h', h' <> h -> (0 <=? held (dsc τ) h') = sign_at h' l q r) as Hs
    by (intros h' Hh; rewrite (K h' Hh); apply S).
  destruct h; (split; [done|]); intros []; try done; by apply Hs.
Qed.

Lemma hold_spec h fd l q r :
  sign_at h l q r = false ->
  hoare (fun σ => owns_with fd σ /\ opens l q r (dsc σ)) (dupd (hold h fd))
        (fun _ => state_at h (0 <=? fd) l q r).
Proof.
  intros Hh σ [(N & F & B & O) S].
  assert ((0 <=? held (dsc σ) h) = false) as Hn by (rewrite S; by destruct h). breflect.
  apply (state_at_intro h _ l q r σ); unfold dupd, exec, modify; cbn [fst snd dsc dwd dw_open].
  - split.
    + intros a b. cbn [dsc]. rewrite !held_hold. intros Ha Hab. repeat case_decide; subst; try done.
      * destruct F. split; [done|]. by exists b.
      * destruct F. split; [lia|]. by exists a.
      * by apply N.
    + intros x. cbn [dsc dwd]. rewrite O. split.
      * intros [[Hx [a Ha]]|[Hx ->]]; (split; [done|]).
        -- exists a. rewrite held_hold. case_decide; [subst; lia|done].
        -- exists h. rewrite held_hold. by case_decide.
      * intros [Hx [a Ha]]. rewrite held_hold in Ha. case_decide; [right; split; lia|].
        left. split; [done|]. by exists a.
  - rewrite held_hold. by case_decide.
  - intros h' Hh'. rewrite held_hold. by case_decide.
  - done.
Qed.

Lemma closeSocket_spec h l q r : hoare (state l q r) (closeSocket h) (fun _ => state_at h false l q r).
Proof.
  intros σ [[N O] S]. apply (state_at_intro h _ l q r σ);
    unfold closeSocket, dget, close_fd, dupd, wupd, when, exec, bind, gets, modify; cbn [fst snd dsc dwd dw_open].
  - assert (distinct (hold h (-1) (dsc σ))) as N'.
    { intros a b. rewrite !held_hold. repeat case_decide; subst; try done; try lia. apply N. }
    destruct (held (dsc σ) h >=? 0) eqn:Hs; cbn [fst snd dsc dwd]; (split; [done|]); intros x; cbn [dwd dw_open dsc].
    + rewrite elem_of_difference, O, elem_of_singleton. unfold stored. split.
      * intros [[Hx [a Ha]] Hn]. split; [done|]. exists a. rewrite held_hold. case_decide; [congruence|done].
      * intros [Hx [a Ha]]. rewrite held_hold in Ha. case_decide; [lia|].
        split; [split; [done|by exists a]|]. intros ->. apply H, N; congruence.
    + rewrite O. unfold stored. split; intros [Hx [a Ha]]; (split; [done|]); exists a;
        rewrite held_hold in *; case_decide; subst; try done; bsolve.
  - destruct (held (dsc σ) h >=? 0); cbn [fst snd dsc dwd]; rewrite held_hold; by case_decide.
  - intros h' Hh'. destruct (held (dsc σ) h >=? 0); cbn [fst snd dsc dwd]; rewrite held_hold; by case_decide.
  - done.
Qed.

(** ** The calls *)

(** Read the object, knowing the signs of its descriptors. *)
Lemma hoare_dget {B} l q r (k : Discovery -> M DSys B) Q :
  (forall d, opens l q r d -> hoare (state l q r) (k d) Q) -> hoare (state l q r) (bind dget k) Q.
Proof. intros H σ Hσ. rewrite eval_bind, exec_bind. apply (H (dsc σ)); [apply Hσ|done]. Qed.

(** Open a socket and store it. *)
Lemma hoare_open {B} h l q r (k : Z -> M DSys B) Q :
  sign_at h l q r = false ->
  (forall fd, hoare (state_at h (0 <=? fd) l q r) (k fd) Q) ->
  hoare (state l q r) (let* fd := udp in dupd (hold h fd) ;; k fd) Q.
Proof.
  intros Hh Hk. eapply hoare_bind; [apply udp_spec|intros fd].
  eapply hoare_bind; [by apply hold_spec|intros ?]. apply Hk.
Qed.

Lemma hoare_result {A} l q r (a : A) Q :
  (forall σ, state l q r σ -> Q a σ) -> hoare (state l q r) (ret a) Q.
Proof. apply hoare_ret. Qed.

#[local] Hint Resolve join_groups_socks send_queries_socks advertise_loop_socks publish_socks : keeps.

(** Step over an operation that opens and closes nothing. *)
Ltac kept := eapply hoare_bind; [apply hoare_keeps; unfold dupd, dget; auto with keeps|intros ?]; cbv beta.

(** Step over the closing of a socket. *)
Ltac closed := eapply hoare_bind; [apply closeSocket_spec|intros ?]; cbv beta; cbn [state_at].

Lemma listen_responder_spec error a q :
  hoare (state true q false) (listen_responder error a) (fun r => state (fst r) q (fst r)).
Proof.
  unfold listen_responder. apply (hoare_open Responder); [done|intros fd]. cbn [state_at].
  apply (hoare_bind _ (fun bound σ => state true q (0 <=? fd) σ /\ (bound = true -> 0 <= fd))).
  - destruct (Z.ltb_spec fd 0); [by intros σ Hσ|]. intros σ Hσ. split; [|done].
    by apply (hoare_keeps _ _ _ _ syscall_socks).
  - intros [|]; cbn [negb].
    + intros σ [Hσ Hfd]. rewrite (proj2 (Z.leb_le 0 fd)) in Hσ by auto. done.
    + apply (hoare_pre _ (state true q (0 <=? fd))); [|by intros σ []].
      kept. closed. closed. by apply hoare_result.
Qed.

(** Listening succeeds exactly when both host sockets are open afterwards. *)
Lemma listen_spec error a b q :
  hoare (state b q b) (listen error a) (fun r => state (fst r) q (fst r)).
Proof.
  unfold listen. apply hoare_dget. intros d Hd. specialize (Hd Listener). cbn in Hd. rewrite Z.geb_leb, Hd.
  destruct b; [by apply hoare_result|].
  do 4 kept. apply (hoare_open Listener); [done|intros fd]. cbn [state_at].
  destruct (Z.ltb_spec fd 0) as [Hf|Hf].
  { rewrite (proj2 (Z.leb_gt 0 fd) Hf). kept. by apply hoare_result. }
  rewrite (proj2 (Z.leb_le 0 fd) Hf). do 2 kept.
  eapply hoare_bind; [apply hoare_keeps; auto with keeps|intros [|]]; cbn [negb].
  2:{ kept. closed. by apply hoare_result. }
  eapply hoare_bind; [apply hoare_keeps; auto with keeps|intros [|]]; cbn [negb].
  2:{ closed. by apply hoare_result. }
  apply listen_responder_spec.
Qed.

Lemma retry_spec l q r : hoare (state l q r) retry (fun _ => state false false false).
Proof. unfold retry. closed. closed. closed. kept. apply hoare_keeps. unfold dupd. auto with keeps. Qed.

Lemma scan_open_spec now b q :
  hoare (state b q b) (scan_open now) (fun ready σ => exists q', state b q' b σ).
Proof.
  unfold scan_open. apply hoare_dget. intros d Hd. specialize (Hd Query). cbn in Hd.
  destruct (_ && _); [apply hoare_result; by eauto|].
  replace (d_query d <? 0) with (negb q) by (destruct q; simpl; breflect; lia).
  destruct q; cbn [negb]; [apply hoare_result; by eauto|].
  do 2 kept. apply (hoare_open Query); [done|intros fd]. cbn [state_at]. do 2 kept.
  destruct (fd <? 0); [kept; apply hoare_result; by eauto|].
  eapply hoare_bind; [apply hoare_keeps; auto with keeps|intros [|]]; cbn [negb].
  2:{ kept. closed. apply hoare_result. by eauto. }
  case_if; [kept; closed; apply hoare_result; by eauto|].
  eapply hoare_bind; [apply hoare_keeps; auto with keeps|intros [|]].
  - eapply hoare_bind; [apply hoare_keeps; auto with keeps|intros [|]]; cbn [negb].
    + kept. apply hoare_result. by eauto.
    + kept. closed. apply hoare_result. by eauto.
  - eapply hoare_bind; [apply hoare_keeps; auto with keeps|intros [|]]; cbn [negb].
    + kept. apply hoare_result. by eauto.
    + kept. closed. apply hoare_result. by eauto.
Qed.

Lemma scan_query_spec now warning b q :
  hoare (state b q b) (scan_query now warning) (fun _ σ => exists q', state b q' b σ).
Proof.
  unfold scan_query. kept. case_if; [apply hoare_result; by eauto|]. do 2 kept.
  eapply hoare_bind; [apply hoare_keeps; auto with keeps|intros sent]. do 2 kept.
  destruct sent; cbn [negb when].
  - do 2 kept. apply hoare_result. by eauto.
  - closed. kept. apply hoare_result. by eauto.
Qed.

Lemma scan_loop_spec now n : forall rooms b q,
  hoare (state b q b) (scan_loop n now rooms) (fun _ σ => exists q', state b q' b σ).
Proof.
  induction n as [|n IH]; intros rooms b q; cbn [scan_loop]; [apply hoare_result; by eauto|].
  kept. eapply hoare_bind; [apply hoare_keeps; auto with keeps|intros [[data src]|]].
  - destruct (parse_reply _ _ _ _); [kept|]; apply IH.
  - kept. destruct (_ && _); cbn [when].
    + eapply hoare_bind; [kept; apply closeSocket_spec|intros ?]. apply hoare_result. by eauto.
    + kept. apply hoare_result. by eauto.
Qed.

Lemma scan_spec rooms warning b q :
  hoare (state b q b) (scan rooms warning) (fun _ σ => exists q', state b q' b σ).
Proof.
  assert (forall A (m : M DSys A), (forall q, hoare (state b q b) m (fun _ σ => exists q', state b q' b σ)) ->
    hoare (fun σ => exists q', state b q' b σ) m (fun _ σ => exists q', state b q' b σ)) as X.
  { intros A m Hm σ [q' Hσ]. by apply (Hm q'). }
  unfold scan. kept. eapply hoare_bind; [apply hoare_keeps|intros ?].
  { unfold dupd. apply keeps_modify. intros σ. by destruct (_ =? 0). }
  eapply hoare_bind; [apply scan_open_spec|intros ready]. apply X. clear q. intros q.
  destruct ready; cbn [negb]; [|apply hoare_result; by eauto].
  eapply hoare_bind; [apply scan_query_spec|intros w]. apply X. clear q. intros q.
  eapply hoare_bind; [apply scan_loop_spec|intros l]. apply X. clear q. intros q.
  apply hoare_result. by eauto.
Qed.

(** ** Any sequence of calls *)

(** The calls the session makes on its [Discovery]. *)
Inductive dcall :=
| Retry
| Listen (error bindAddress : string)
| Advertise (status : fz_server_status) (host : HostOptions)
| Scan (rooms : list Discovery.Room) (warning : string)
| Publish (browsing : bool) (rooms : list Discovery.Room)
| StopHosting
| StopBrowsing.

Definition run_dcall (c : dcall) : M DSys unit :=
  match c with
  | Retry => retry
  | Listen error a => listen error a ;; skip
  | Advertise status host => advertise status host
  | Scan rooms warning => scan rooms warning ;; skip
  | Publish browsing rooms => publish browsing rooms
  | StopHosting => closeSocket Listener ;; closeSocket Responder
  | StopBrowsing => closeSocket Query ;; dupd (fun d => {| d with d_browseStarted := 0 |})
  end.

(** [~Discovery] *)
Definition destroy : M DSys unit := closeSocket Listener ;; closeSocket Query ;; closeSocket Responder.

Lemma tidy_call c σ : tidy σ -> tidy (exec (run_dcall c) σ).
Proof.
  intros [O (b & q & S)]. assert (state b q b σ) as Hσ by done.
  assert (exists b q, state b q b (exec (run_dcall c) σ)) as (b' & q' & [? ?]); [|by split; eauto].
  destruct c; cbn [run_dcall]; rewrite ?exec_bind, ?exec_skip.
  - by eexists _, _; apply (retry_spec b q b).
  - by eexists _, _; apply (listen_spec _ _ b q).
  - exists b, q. apply (hoare_keeps b q b); [|done]. unfold advertise, dget. auto with keeps.
  - destruct (scan_spec rooms warning b q σ Hσ) as [q' H]. by eauto.
  - exists b, q. by apply (hoare_keeps b q b); [apply publish_socks|].
  - exists false, q. by apply (closeSocket_spec Responder false q b), (closeSocket_spec Listener b q b).
  - exists b, false. apply (hoare_keeps b false b); [unfold dupd; auto with keeps|].
    by apply (closeSocket_spec Query b q b).
Qed.

Lemma tidy_calls l : forall σ, tidy σ -> tidy (exec (for_each l run_dcall) σ).
Proof.
  induction l as [|c l IH]; intros σ Hσ; [done|]. cbn [for_each]. rewrite exec_bind. by apply IH, tidy_call.
Qed.

Lemma tidy_fresh networks w : dw_open w = ∅ -> tidy (mk_dsys (discovery0 networks) w).
Proof.
  intros Hw. split; [split|].
  - intros [] [] H; cbn in H; lia.
  - intros fd. cbn [dwd dsc]. rewrite Hw. split; [set_solver|]. intros [H [h <-]]. by destruct h.
  - exists false, false. by intros [].
Qed.

(** C22. Discovery owns its sockets. Whatever sequence of calls the session
    makes and whichever system calls fail in between, the descriptors open
    afterwards are exactly the ones the object holds, the query listener is
    open exactly when the reply socket is, and destroying the object leaves
    nothing open. *)
Theorem discovery_owns_sockets networks w calls :
  dw_open w = ∅ ->
  let σ := exec (for_each calls run_dcall) (mk_dsys (discovery0 networks) w) in
  let d := dsc σ in
  (forall fd, fd ∈ dw_open (dwd σ) <->
     0 <= fd /\ (fd = d_listener d \/ fd = d_query d \/ fd = d_responder d)) /\
  (0 <= d_listener d <-> 0 <= d_responder d) /\
  dw_open (dwd (exec destroy σ)) = ∅.
Proof.
  intros Hw σ d. destruct (tidy_calls calls _ (tidy_fresh networks w Hw)) as [[N O] (b & q & S)].
  fold σ in N, O, S. fold d in N, S. split_and!.
  - intros fd. rewrite O. fold d. split; intros [H1 H2]; (split; [done|]).
    + destruct H2 as [h <-]. destruct h; cbn; auto.
    + destruct H2 as [-> | [-> | ->]]; [by exists Listener|by exists Query|by exists Responder].
  - pose proof (S Listener). pose proof (S Responder). cbn in *. destruct b; breflect; lia.
  - assert (state false false false (exec destroy σ)) as [[_ O'] S'].
    { unfold destroy. rewrite !exec_bind. apply (closeSocket_spec Responder false false b).
      apply (closeSocket_spec Query false q b). by apply (closeSocket_spec Listener b q b). }
    apply set_eq. intros fd. rewrite O'. split; [|by intros ?%elem_of_empty].
    intros [H [h <-]]. specialize (S' h). destruct h; breflect; lia.
Qed.

End Sockets.

(** ** A host that also browses *)

Definition lan_calls : list dcall :=
  [Listen "" "0.0.0.0"; Advertise (eval fz_server_get_status owned_joined) mario_host; Scan [] "";
   StopHosting; Publish true []].

Lemma discovery_owns_sockets_witness :
  let σ := exec (for_each lan_calls run_dcall) lan in
  d_listener (dsc σ) = -1 /\ d_query (dsc σ) = 5 /\ dw_open (dwd (exec destroy σ)) = ∅.
Proof.
  intros σ. split_and!; [by vm_compute..|]. apply (discovery_owns_sockets [] lan_world lan_calls). done.
Defined.
