(* ===== verification/Address.v ===== *)
(** * The address a user types ([resolve] in [src/client/fzvs_session.cpp])

    [resolve] trims the text, adds the default port, splits host and port at
    the last colon and checks the port before any name lookup is started. The
    theorems say which texts are accepted and what they mean. *)

From Stdlib Require Import Ascii.
From S2P Require Import Prelude Text.

Local Open Scope string_scope.
Local Open Scope list_scope.
Local Open Scope Z_scope.

(** ** Characters *)

Definition is_blank (c : ascii) : bool :=
  Ascii.eqb c " " || Ascii.eqb c "009" || Ascii.eqb c "013" || Ascii.eqb c "010".

Definition is_digit (c : ascii) : bool :=
  ((48 <=? nat_of_ascii c) && (nat_of_ascii c <=? 57))%nat.

Definition chars : string -> list ascii := String.list_ascii_of_string.

Definition text : list ascii -> string := String.string_of_list_ascii.

(** ** Parsing *)

Fixpoint drop_blanks (l : list ascii) : list ascii :=
  match l with
  | c :: r => if is_blank c then drop_blanks r else l
  | [] => []
  end.

(** From [find_first_not_of] to [find_last_not_of]. *)
Definition trim (l : list ascii) : list ascii := rev (drop_blanks (rev (drop_blanks l))).

(** [rfind(':')]: what is before and after the last colon. *)
Fixpoint split_last_colon (l : list ascii) : option (list ascii * list ascii) :=
  match l with
  | [] => None
  | c :: r =>
      match split_last_colon r with
      | Some (a, b) => Some (c :: a, b)
      | None => if Ascii.eqb c ":" then Some ([], r) else None
      end
  end.

(** [std::stoul] of a text of digits. *)
Definition stoul (l : list ascii) : Z :=
  fold_left (fun n c => n * 10 + (Z.of_nat (nat_of_ascii c) - 48)) l 0.

(** The checks of [resolve]: [inl] is the error it reports. *)
Definition parse_address (address : string) : string + (string * string) :=
  match trim (chars address) with
  | [] => inl "Enter a host address"
  | trimmed =>
      let full := if existsb (Ascii.eqb ":") trimmed then trimmed else trimmed ++ chars ":12000" in
      match split_last_colon full with
      | None => inl "Enter a hostname or IPv4 address followed by :port"
      | Some (host, port) =>
          if bool_decide (length host = 0%nat) || bool_decide (length port = 0%nat)
          then inl "Enter a hostname or IPv4 address followed by :port"
          else if (5 <? length port)%nat || negb (forallb is_digit port) || (stoul port =? 0)
                  || (stoul port >? 65535) || (stoul port =? 12001)
          then inl "Invalid game port (12001 is reserved for discovery)"
          else inr (text host, text port)
      end
  end.

Example parse_address_samples :
  parse_address " localhost " = inr ("localhost", "12000") /\
  parse_address "10.0.0.7:4000" = inr ("10.0.0.7", "4000") /\
  parse_address "host:12001" = inl "Invalid game port (12001 is reserved for discovery)" /\
  parse_address ":80" = inl "Enter a hostname or IPv4 address followed by :port".
Proof. by vm_compute. Qed.

(** ** Lemmas *)

Lemma split_last_colon_inv l a b :
  split_last_colon l = Some (a, b) -> l = a ++ (":"%char :: b) /\ ":"%char ∉ b.
Proof.
  revert a b. induction l as [|c l IH]; intros a b H; cbn [split_last_colon] in H; [done|].
  destruct (split_last_colon l) as [[a' b']|] eqn:Hs.
  - injection H as <- <-. destruct (IH _ _ eq_refl) as [-> Hb]. done.
  - destruct (Ascii.eqb_spec c ":") as [->|]; [|done]. injection H as <- <-. split; [done|].
    clear IH. induction l as [|d l IHl]; [set_solver|]. cbn [split_last_colon] in Hs.
    destruct (split_last_colon l) as [[? ?]|] eqn:Hl; [done|].
    destruct (Ascii.eqb_spec d ":"); [done|]. intros [Ed|H]%elem_of_cons; [congruence|]. by apply IHl.
Qed.

Lemma split_last_colon_none l : ":"%char ∉ l -> split_last_colon l = None.
Proof.
  induction l as [|c l IH]; intros H; [done|]. cbn [split_last_colon]. rewrite IH by set_solver.
  destruct (Ascii.eqb_spec c ":"); [set_solver|done].
Qed.

Lemma split_last_colon_app a b :
  ":"%char ∉ b -> split_last_colon (a ++ ":"%char :: b) = Some (a, b).
Proof.
  intros Hb. induction a as [|c a IH]; cbn [split_last_colon app]; [|by rewrite IH]. by rewrite split_last_colon_none.
Qed.

Lemma drop_blanks_inv l : exists k, drop_blanks l = drop k l.
Proof.
  induction l as [|c l [k IH]]; [by exists 0%nat|]. cbn [drop_blanks].
  destruct (is_blank c); [by exists (S k)|by exists 0%nat].
Qed.

(** A text that starts and ends with something else than blanks. *)
Definition unpadded (l : list ascii) : Prop :=
  (forall c, head l = Some c -> is_blank c = false) /\ (forall c, last l = Some c -> is_blank c = false).

Lemma drop_blanks_id l : (forall c, head l = Some c -> is_blank c = false) -> drop_blanks l = l.
Proof. destruct l as [|c l]; [done|]. intros H. cbn. by rewrite (H c eq_refl). Qed.

Lemma trim_unpadded l : unpadded l -> trim l = l.
Proof.
  intros [H1 H2]. unfold trim. rewrite (drop_blanks_id l H1), drop_blanks_id; [apply rev_involutive|].
  intros c Hc. apply H2. rewrite <- Hc, rev_alt. symmetry. apply head_reverse.
Qed.

Lemma drop_blanks_app a l : forallb is_blank a = true -> drop_blanks (a ++ l) = drop_blanks l.
Proof. induction a as [|c a IH]; [done|]. cbn. intros [-> H]%andb_true_iff. by apply IH. Qed.

Lemma trim_padded a l b :
  forallb is_blank a = true -> forallb is_blank b = true -> l <> [] -> unpadded l -> trim (a ++ l ++ b) = l.
Proof.
  intros Ha Hb Hl [H1 H2]. unfold trim. rewrite drop_blanks_app by done.
  rewrite (drop_blanks_id (l ++ b)) by (by destruct l).
  rewrite rev_app_distr, drop_blanks_app by (rewrite forallb_forall in *; intros c; rewrite <- in_rev; auto).
  fold (trim l). pose proof (trim_unpadded l (conj H1 H2)) as T. unfold trim in T.
  by rewrite (drop_blanks_id l H1) in T.
Qed.

Lemma existsb_colon l : existsb (Ascii.eqb ":") l = true <-> ":"%char ∈ l.
Proof.
  rewrite existsb_exists. setoid_rewrite <- list_elem_of_In. split.
  - intros (c & Hc & He). apply Ascii.eqb_eq in He as <-. done.
  - intros H. exists ":"%char. split; [done|apply Ascii.eqb_refl].
Qed.

Lemma chars_text l : chars (text l) = l.
Proof. apply String.list_ascii_of_string_of_list_ascii. Qed.

Lemma text_chars s : text (chars s) = s.
Proof. apply String.string_of_list_ascii_of_string. Qed.

(** Whether a text is a port as [resolve] accepts it. *)
Definition port_text (l : list ascii) : bool :=
  (length l <=? 5)%nat && negb (length l =? 0)%nat && forallb is_digit l
  && negb (stoul l =? 0) && (stoul l <=? 65535).

Lemma stoul_snoc l c : stoul (l ++ [c]) = stoul l * 10 + (Z.of_nat (nat_of_ascii c) - 48).
Proof. unfold stoul. by rewrite fold_left_app. Qed.

Lemma digit_char x :
  (x < 10)%N -> is_digit (pretty_N_char x) = true /\ Z.of_nat (nat_of_ascii (pretty_N_char x)) - 48 = Z.of_N x.
Proof.
  intros Hx. assert (x = 0 \/ x = 1 \/ x = 2 \/ x = 3 \/ x = 4 \/ x = 5 \/ x = 6 \/ x = 7 \/ x = 8 \/ x = 9)%N
    as H by lia. by repeat destruct H as [->|H]; [..|subst x].
Qed.

Lemma stoul_nonneg l : forallb is_digit l = true -> 0 <= stoul l.
Proof.
  induction l as [|c l IH] using rev_ind; [done|]. rewrite forallb_app, stoul_snoc. cbn [forallb].
  rewrite andb_true_r. intros [H1 H2]%andb_true_iff. specialize (IH H1). unfold is_digit in H2.
  apply andb_true_iff in H2 as [H2 _]. apply Nat.leb_le in H2. lia.
Qed.

(** The digits of a positive number. *)
Lemma pretty_go_digits x : forall s, (0 < x)%N ->
  exists d, chars (pretty_N_go x s) = d ++ chars s /\ forallb is_digit d = true /\ stoul d = Z.of_N x /\
    (1 <= length d)%nat /\ 10 ^ (Z.of_nat (length d) - 1) <= Z.of_N x.
Proof.
  induction (N.lt_wf_0 x) as [x _ IH]. intros s Hx. rewrite pretty_N_go_step by done.
  destruct (digit_char (x `mod` 10)%N) as [Hd Hv]; [apply N.mod_lt; lia|].
  destruct (decide (x < 10)%N) as [Hs|Hs].
  - rewrite N.div_small, pretty_N_go_0 by done. rewrite N.mod_small in * by done.
    exists [pretty_N_char x]. cbn. rewrite Hd. split_and!; try done; unfold stoul; cbn [fold_left]; lia.
  - destruct (IH (x / 10)%N) with (s := String (pretty_N_char (x mod 10)) s) as (d & E1 & E2 & E3 & E4 & E5);
      [by apply N.div_lt|apply N.div_str_pos; lia|].
    exists (d ++ [pretty_N_char (x mod 10)]). rewrite E1, forallb_app, E2, stoul_snoc, E3, length_app, Hv.
    assert (Z.of_N x = 10 * Z.of_N (x / 10) + Z.of_N (x mod 10)) by (pose proof (N.div_mod' x 10); lia).
    split_and!; [by rewrite <- app_assoc|cbn; by rewrite Hd|lia|simpl; lia|].
    replace (Z.of_nat (length d + length [pretty_N_char (x mod 10)]) - 1)
      with (Z.succ (Z.of_nat (length d) - 1)) by (simpl; lia).
    rewrite Z.pow_succ_r by lia. pose proof (N2Z.is_nonneg (x mod 10)).
    etransitivity; [apply Z.mul_le_mono_nonneg_l; [lia|exact E5]|]. lia.
Qed.

(** The decimal text of every port is one, and denotes that port. *)
Lemma port_dec n : 1 <= n <= 65535 -> port_text (chars (dec n)) = true /\ stoul (chars (dec n)) = n.
Proof.
  intros Hn. destruct n as [|n|]; try lia.
  destruct (pretty_go_digits (N.pos n) "" ltac:(lia)) as (d & E1 & E2 & E3 & E4 & E5).
  rewrite app_nil_r in E1. assert (chars (dec (Z.pos n)) = d) as -> by exact E1. split; [|done].
  assert (length d <= 5)%nat.
  { destruct (le_gt_dec (length d) 5) as [|Hg]; [done|].
    pose proof (Z.pow_le_mono_r 10 5 (Z.of_nat (length d) - 1) ltac:(lia) ltac:(lia)). lia. }
  unfold port_text. rewrite E2, E3, (proj2 (Nat.leb_le _ _)), (proj2 (Nat.eqb_neq _ _)) by lia.
  change (Z.of_N (N.pos n)) with (Z.pos n). cbn [andb negb Z.eqb]. lia.
Qed.

Lemma digits_no_colon l : forallb is_digit l = true -> ":"%char ∉ l.
Proof.
  rewrite forallb_forall. intros H Hin%list_elem_of_In. by specialize (H _ Hin).
Qed.

Lemma port_text_inv l :
  port_text l = true ->
  (length l <= 5)%nat /\ l <> [] /\ forallb is_digit l = true /\ stoul l <> 0 /\ stoul l <= 65535.
Proof.
  unfold port_text. intros [[[[H1 H2]%andb_true_iff H3]%andb_true_iff H4]%andb_true_iff H5]%andb_true_iff.
  breflect. apply Nat.leb_le in H1. apply Nat.eqb_neq in H2. split_and!; try done. by intros ->.
Qed.

Lemma digit_not_blank c : is_digit c = true -> is_blank c = false.
Proof.
  unfold is_digit, is_blank. intros [H _]%andb_true_iff. apply Nat.leb_le in H.
  repeat (apply orb_false_iff; split); apply Ascii.eqb_neq; intros ->; vm_compute in H; lia.
Qed.

Lemma unpadded_port host port :
  unpadded host -> host <> [] -> port_text port = true -> unpadded (host ++ ":"%char :: port).
Proof.
  intros [H1 H2] Hh Hp. apply port_text_inv in Hp as (_ & Hne & Hd & _). split.
  - destruct host as [|c l]; [done|]. exact H1.
  - intros c Hc. rewrite last_app_cons in Hc. destruct port as [|d port]; [done|].
    rewrite last_cons_cons in Hc. apply last_Some_elem_of in Hc. apply digit_not_blank.
    rewrite forallb_forall in Hd. by apply Hd, list_elem_of_In.
Qed.

(** The checks on a split text. *)
Lemma parse_split address host port :
  trim (chars address) <> [] ->
  (if existsb (Ascii.eqb ":") (trim (chars address)) then trim (chars address)
   else trim (chars address) ++ chars ":12000") = host ++ ":"%char :: port ->
  host <> [] -> port_text port = true -> stoul port <> 12001 ->
  parse_address address = inr (text host, text port).
Proof.
  intros Ht Hf Hh Hp Hn. apply port_text_inv in Hp as (H1 & H2 & H3 & H4 & H5). unfold parse_address.
  destruct (trim (chars address)) as [|c l] eqn:E; [done|]. cbv zeta. rewrite Hf.
  rewrite split_last_colon_app by (by apply digits_no_colon).
  rewrite (bool_decide_eq_false_2 (length host = 0%nat)) by (by destruct host).
  rewrite (bool_decide_eq_false_2 (length port = 0%nat)) by (by destruct port). cbn [orb].
  rewrite (proj2 (Nat.ltb_ge 5 (length port))), H3 by done. cbn [orb negb].
  replace (stoul port =? 0) with false by lia. replace (stoul port >? 65535) with false by lia.
  by replace (stoul port =? 12001) with false by lia.
Qed.

Lemma chars_app a b : chars (a +:+ b) = chars a ++ chars b.
Proof. induction a as [|c a IH]; [done|]. change (c :: chars (a +:+ b) = c :: chars a ++ chars b). by rewrite IH. Qed.

(** C23. What the user may type. A host name or address followed by a colon and
    a port between 1 and 65535 other than the discovery port is accepted as
    it is, blanks around it are ignored, and a host without a colon gets port
    12000. *)
Theorem parse_address_accepts before host port after :
  forallb is_blank (chars before) = true -> forallb is_blank (chars after) = true ->
  unpadded (chars host) -> host <> "" -> 1 <= port <= 65535 -> port <> 12001 ->
  parse_address (before +:+ (host +:+ ":" +:+ dec port) +:+ after) = inr (host, dec port) /\
  (":"%char ∉ chars host -> parse_address (before +:+ host +:+ after) = inr (host, "12000")).
Proof.
  intros Hb Ha Hu Hh Hp Hn. destruct (port_dec port Hp) as [P1 P2].
  assert (chars host <> []) as Hh' by (by destruct host). rewrite <- P2 in Hn.
  set (full := chars host ++ ":"%char :: chars (dec port)).
  assert (trim (chars (before +:+ (host +:+ ":" +:+ dec port) +:+ after)) = full) as T.
  { rewrite !chars_app. apply trim_padded; try done; [by destruct (chars host)|by apply unpadded_port]. }
  split.
  - rewrite (parse_split _ (chars host) (chars (dec port))); rewrite ?T, ?text_chars; try done;
      [by unfold full; destruct (chars host)|].
    rewrite (proj2 (existsb_colon full)); [done|]. unfold full. set_solver.
  - intros Hc. assert (trim (chars (before +:+ host +:+ after)) = chars host) as T'.
    { rewrite !chars_app. by apply trim_padded. }
    rewrite (parse_split _ (chars host) (chars "12000")); rewrite ?T', ?text_chars; try done.
    destruct (existsb _ _) eqn:He; [|done]. by apply existsb_colon in He.
Qed.

(** C24. What is never looked up. An accepted text yields a host and a port such
    that the port is a decimal number of at most five digits between 1 and
    65535, not the discovery port, and the host is not empty. *)
Theorem parse_address_sound address host port :
  parse_address address = inr (host, port) ->
  host <> "" /\ forallb is_digit (chars port) = true /\ (1 <= length (chars port) <= 5)%nat /\
  1 <= stoul (chars port) <= 65535 /\ stoul (chars port) <> 12001.
Proof.
  unfold parse_address. destruct (trim (chars address)) as [|c l]; [done|]. cbv zeta.
  destruct (split_last_colon _) as [[h p]|]; [|done].
  case_cond H1; [done|]. case_cond H2; [done|]. intros [= <- <-]. rewrite chars_text. breflect.
  destruct h; [done|]. destruct p as [|d p]; [done|].
  assert (0 <= stoul (d :: p)) by (by apply stoul_nonneg).
  match goal with H : (5 <? _)%nat = false |- _ => apply Nat.ltb_ge in H end.
  split_and!; try done; try lia.
Qed.

Lemma parse_address_accepts_witness :
  parse_address (" " +:+ ("my.host" +:+ ":" +:+ dec 4000) +:+ "  ") = inr ("my.host", dec 4000) /\
  parse_address (" " +:+ "my.host" +:+ "  ") = inr ("my.host", "12000").
Proof.
  assert (unpadded (chars "my.host")) as Hu by (split; intros c [= <-]; reflexivity).
  assert (":"%char ∉ chars "my.host") as Hc by (apply (bool_decide_unpack _); vm_compute; exact I).
  pose proof (parse_address_accepts " " "my.host" 4000 "  " eq_refl eq_refl Hu ltac:(discriminate)
    ltac:(lia) ltac:(lia)) as [H1 H2].
  exact (conj H1 (H2 Hc)).
Defined.

Lemma parse_address_sound_witness :
  parse_address "my.host:4000" = inr ("my.host", "4000") /\ 1 <= stoul (chars "4000") <= 65535.
Proof. split; [done|]. by apply (parse_address_sound "my.host:4000" "my.host" "4000"). Defined.
