(* ===== verification/Session.v ===== *)
(** * The session ([Session] in [src/client/fzvs_session.cpp])

    The session's worker thread owns the hosted server and the discovery
    sockets; the user interface talks to it through a mutex-protected queue of
    commands, a slot for the connection to make and a published view; resolver
    threads look up host names. A step of this model is what one thread does
    between two accesses to what the threads share: the worker's loop is cut at
    its critical sections, so that every interleaving of the threads is a
    sequence of steps. Files are modelled by whether they are open and, for the
    readiness file, by whether it exists. Text on the standard streams and in
    the log file is not recorded. *)

From stdpp Require Export gmap.
From Stdlib Require Import Ascii.
From S2P Require Import Prelude State Text Protocol Server Discovery Address.

Local Open Scope string_scope.
Local Open Scope list_scope.
Local Open Scope Z_scope.
Local Open Scope fz_scope.

(** ** Data *)

Record Connection := mk_connection {
  cn_address : string; cn_key : bytes; cn_ownerNonce : Z; cn_generation : Z
}.

Record SessionView := mk_session_view {
  sv_state : string; sv_message : string; sv_discoveryWarning : string; sv_addresses : string;
  sv_discovery : DiscoveryStatus;
  sv_hosting : bool;
  sv_generation : Z;
  sv_server : fz_server_status;
  sv_rooms : list Room;
  sv_events : list fz_server_event
}.

Definition status0 : fz_server_status :=
  {| o_session := 0; o_rx := 0; o_tx := 0; o_rejected := 0; o_stale := 0; o_dropped_events := 0;
     o_race := 0; o_port := 0; o_phase := 0; o_players := 0; o_occupied := 0; o_host := 0;
     o_track := 0; o_league := 0; o_owner_joined := false; o_closed := false;
     o_peers := replicate 4 (mk_peer_status 0 0 Double.d0 Double.d0 0 0 0) |}.

Definition session_view0 : SessionView :=
  mk_session_view "idle" "" "" "" dstatus0 false 0 status0 [] [].

Record Command := mk_command {
  k_type : Z; k_host : HostOptions; k_address : string; k_joinKey : bytes; k_generation : Z
}.

Record Resolution := mk_resolution { rs_done : bool; rs_address : string; rs_error : string }.

(** Where the worker is in [run]. *)
Inductive place :=
| Starting
| Looping
| Retrying (pending : list Command)
| Commanding (pending : list Command)
| Resolving
| Serving
| Browsing
| Reporting
| Publishing
| Exited.

(** The local variables of [run]. *)
Record Worker := mk_worker {
  wk_server : option Server;
  wk_options : HostOptions;
  wk_state : SessionView;
  wk_discovery : Discovery;
  wk_resolution : option nat;
  wk_joinKey : bytes;
  wk_operation : Z; wk_started : Z; wk_lastPublish : Z;
  wk_ready : bool; wk_ownsReadyFile : bool; wk_logFile : bool;
  wk_lastFailure : string; wk_lastDiscoveryReport : string
}.

Definition worker0 (networks : list Z) : Worker :=
  mk_worker None host0 session_view0 (discovery0 networks) None [] 0 0 0 false false false "" "".

(** Everything the threads share, the worker's locals and the systems below. *)
Record SSys := mk_ssys {
  ss_commands : list Command;
  ss_connection : option Connection;
  ss_published : SessionView;
  ss_generation : Z;
  ss_quitting : bool; ss_browsing : bool; ss_discoveryRetry : bool;
  ss_running : bool;
  ss_resolutions : list Resolution;
  ss_lookups : list (nat * string * string);
  ss_resolvers : Z;
  ss_place : place;
  ss_worker : Worker;
  ss_world : World;
  ss_dworld : DWorld;
  ss_files : nat;
  ss_threads : nat;
  ss_readyFiles : gset string
}.

(** Threads and files: the [n]-th thread starts unless it has an error; the
    [n]-th file operation succeeds; a name lookup fails with a message or gives
    an address. *)
Class SEnv := {
  thread_error : nat -> option string;
  file_ok : nat -> bool;
  getaddrinfo : string -> string -> string + Z
}.

Section Model.
Context {E : Env} {D : DEnv} {F : SEnv}.

Definition sget : M SSys SSys := gets id.

Definition supd (f : SSys -> SSys) : M SSys unit := modify f.

Definition wget : M SSys Worker := gets ss_worker.

Definition wkupd (f : Worker -> Worker) : M SSys unit :=
  supd (fun σ => {| σ with ss_worker := f (ss_worker σ) |}).

Definition vupd (f : SessionView -> SessionView) : M SSys unit :=
  wkupd (fun k => {| k with wk_state := f (wk_state k) |}).

Definition goto (p : place) : M SSys unit := supd (fun σ => {| σ with ss_place := p |}).

(** A call on the worker's discovery object. *)
Definition on_discovery {A} (m : M DSys A) : M SSys A := fun σ =>
  let k := ss_worker σ in
  let r := m (mk_dsys (wk_discovery k) (ss_dworld σ)) in
  (fst r, {| σ with ss_worker := {| k with wk_discovery := dsc (snd r) |}; ss_dworld := dwd (snd r) |}).

(** A call on the hosted server [s]. *)
Definition on_server {A} (s : Server) (m : M Sys A) : M SSys A := fun σ =>
  let k := ss_worker σ in
  let r := m (mk_sys s (ss_world σ)) in
  (fst r, {| σ with ss_worker := {| k with wk_server := Some (srv (snd r)) |}; ss_world := wld (snd r) |}).

Definition clock : M SSys Z := on_discovery clockMs.

Definition file_op : M SSys bool :=
  let* n := gets ss_files in
  supd (fun σ => {| σ with ss_files := S (ss_files σ) |}) ;;
  ret (file_ok n).

(** [if(size==512)pop_front();push_back(event);] *)
Definition push_event (e : fz_server_event) (l : list fz_server_event) : list fz_server_event :=
  (if (length l =? 512)%nat then tail l else l) ++ [e].

Definition record_event (e : fz_server_event) : M SSys unit :=
  vupd (fun v => {| v with sv_events := push_event e (sv_events v) |}).

(** ** Name lookup *)

Definition finished (address error : string) : Resolution := mk_resolution true address error.

(** [resolve(address)]: the index of the shared result. *)
Definition resolve (address : string) : M SSys nat :=
  let* σ := sget in
  let here := length (ss_resolutions σ) in
  match parse_address address with
  | inl error =>
      supd (fun σ => {| σ with ss_resolutions := ss_resolutions σ ++ [finished "" error] |}) ;;
      ret here
  | inr (host, port) =>
      if ss_resolvers σ >=? 4
      then
        supd (fun σ => {| σ with ss_resolutions := ss_resolutions σ ++
          [finished "" "Previous DNS requests are still finishing; retry shortly"] |}) ;;
        ret here
      else
        supd (fun σ => {| σ with ss_threads := S (ss_threads σ) |}) ;;
        match thread_error (ss_threads σ) with
        | Some what =>
            supd (fun σ => {| σ with ss_resolutions := ss_resolutions σ ++
                                [finished "" ("Cannot start DNS resolver: " +:+ what)] |}) ;;
            ret here
        | None =>
            supd (fun σ => {| σ with ss_resolvers := ss_resolvers σ + 1;
                                     ss_resolutions := ss_resolutions σ ++ [mk_resolution false "" ""];
                                     ss_lookups := ss_lookups σ ++ [(here, host, port)] |}) ;;
            ret here
        end
  end.

(** The body of a resolver thread, once [getaddrinfo] returned: the [i]-th
    pending lookup ends. *)
Definition resolver_step (i : nat) : M SSys unit :=
  let* σ := sget in
  match ss_lookups σ !! i with
  | None => skip
  | Some (r, host, port) =>
      let result := match getaddrinfo host port with
                    | inl error => finished "" ("Cannot resolve server: " +:+ error)
                    | inr a => finished (inet_ntoa a +:+ ":" +:+ port) ""
                    end in
      supd (fun σ => {| σ with ss_resolutions := <[r := result]> (ss_resolutions σ);
                               ss_lookups := delete i (ss_lookups σ);
                               ss_resolvers := ss_resolvers σ - 1 |})
  end.

(** ** The worker: the hosted server *)

(** [while(server && fz_server_next_event(...))] *)
Fixpoint drain_loop (fuel : nat) : M SSys unit :=
  match fuel with
  | O => skip
  | S fuel =>
      let* k := wget in
      match wk_server k with
      | None => skip
      | Some s =>
          let* e := on_server s fz_server_next_event in
          match e with
          | None => skip
          | Some e => record_event e ;; drain_loop fuel
          end
      end
  end.

(** The ring of the server holds at most 256 events. *)
Definition drain : M SSys unit := drain_loop 257.

Definition stopServer : M SSys unit :=
  let* k := wget in
  match wk_server k with
  | None => skip
  | Some s =>
      on_server s fz_server_close ;;
      drain ;;
      let* k := wget in
      match wk_server k with
      | None => skip
      | Some s => on_server s fz_server_destroy
      end ;;
      wkupd (fun k => {| k with wk_server := None |})
  end ;;
  wkupd (fun k => {| k with wk_logFile := false |}) ;;
  let* k := wget in
  when (wk_ownsReadyFile k)
    (supd (fun σ => {| σ with ss_readyFiles := ss_readyFiles σ ∖ {[h_readyFile (wk_options k)]} |})) ;;
  wkupd (fun k => {| k with wk_ownsReadyFile := false |}) ;;
  on_discovery (closeSocket Listener) ;;
  on_discovery (closeSocket Responder) ;;
  wkupd (fun k => {| k with wk_resolution := None; wk_ready := false |}) ;;
  vupd (fun v => {| v with sv_hosting := false; sv_server := status0 |}).

(** [state.state=...;state.message=...;] *)
Definition report (state message : string) : M SSys unit :=
  vupd (fun v => {| v with sv_state := state; sv_message := message |}).

(** [std::string::c_str()] given to a C function: up to the first zero byte. *)
Fixpoint c_str (l : bytes) : bytes :=
  match l with
  | [] => []
  | c :: r => if c =? 0 then [] else c :: c_str r
  end.

Definition any_address (bind : string) : bool := String.eqb bind "0.0.0.0".

Definition newline : string := String "010"%char "".

(** The addresses shown to the host. *)
Definition host_addresses (networks : list Z) (o : HostOptions) : string :=
  let listed := foldl (fun acc ip =>
      if negb (ntohl ip =? 2130706433) && (any_address (h_bind o) || String.eqb (h_bind o) (inet_ntoa ip))
      then acc +:+ inet_ntoa ip +:+ ":" +:+ dec (h_port o) +:+ newline else acc) "" networks in
  if any_address (h_bind o) then listed +:+ "127.0.0.1:" +:+ dec (h_port o)
  else if String.eqb listed "" then h_bind o +:+ ":" +:+ dec (h_port o)
  else listed.

(** [if(operation==generation)connection=...;] under the mutex. *)
Definition offer (address : string) (key : bytes) (nonce : Z) : M SSys unit :=
  supd (fun σ => let op := wk_operation (ss_worker σ) in
                 if op =? ss_generation σ
                 then {| σ with ss_connection := Some (mk_connection address key nonce op) |} else σ).

Definition host_config (o : HostOptions) (nonce : Z) : fz_server_config :=
  mk_config (Some (h_bind o)) (Some (c_str (h_key o))) (h_port o) (h_players o) (h_track o) (h_league o)
    3 (-1) nonce.

Definition host_name (o : HostOptions) : bytes :=
  if bool_decide (length (h_name o) = 0%nat) then [70; 45; 90; 101; 114; 111; 32; 86; 83] else h_name o.

(** [fz_server_create] on the session's system. *)
Definition create_server (config : fz_server_config) : M SSys (option string) := fun σ =>
  let k := ss_worker σ in
  match fz_server_create (Some config) (ss_world σ) with
  | (inl error, w) => (Some error, {| σ with ss_world := w |})
  | (inr s, w) => (None, {| σ with ss_world := w; ss_worker := {| k with wk_server := Some s |} |})
  end.

(** The host command, after [stopServer]. *)
Definition start_hosting (o : HostOptions) : M SSys unit :=
  wkupd (fun k => {| k with wk_options := o |}) ;;
  vupd (fun v => {| v with sv_state := "starting" |}) ;;
  let* nonce := on_discovery randomNonce in
  if nonce =? 0 then report "error" "Cannot create host identity"
  else
    wkupd (fun k => {| k with wk_options := {| o with h_name := host_name o |} |}) ;;
    if (63 <? length (host_name o))%nat then report "error" "Room name must be at most 63 bytes"
    else
      let* failed := create_server (host_config o nonce) in
      match failed with
      | Some error => report "error" error
      | None =>
          let* opened := (if String.eqb (h_logPath o) "" then ret true else file_op) in
          if negb opened
          then
            vupd (fun v => {| v with sv_message := "Cannot open host log file" |}) ;;
            stopServer ;;
            vupd (fun v => {| v with sv_state := "error" |})
          else
            wkupd (fun k => {| k with wk_logFile := negb (String.eqb (h_logPath o) "") |}) ;;
            vupd (fun v => {| v with sv_hosting := true |}) ;;
            let* t := clock in
            wkupd (fun k => {| k with wk_started := t |}) ;;
            let* k := wget in
            vupd (fun v => {| v with sv_addresses := host_addresses (d_networks (wk_discovery k)) o |}) ;;
            offer ((if any_address (h_bind o) then "127.0.0.1" else h_bind o) +:+ ":" +:+ dec (h_port o))
              (h_key o) nonce
      end.

(** One command of the loop. *)
Definition run_command (c : Command) : M SSys unit :=
  stopServer ;;
  wkupd (fun k => {| k with wk_operation := k_generation c |}) ;;
  vupd (fun v => {| v with sv_generation := k_generation c; sv_message := ""; sv_state := "idle" |}) ;;
  if k_type c =? 1 then start_hosting (k_host c)
  else if k_type c =? 2
  then
    vupd (fun v => {| v with sv_state := "resolving" |}) ;;
    let* r := resolve (k_address c) in
    wkupd (fun k => {| k with wk_joinKey := k_joinKey c; wk_resolution := Some r |})
  else skip.

(** The resolver's result, when there is one. *)
Definition check_resolution : M SSys unit :=
  let* σ := sget in
  let k := ss_worker σ in
  match wk_resolution k with
  | None => skip
  | Some i =>
      let r := default (finished "" "") (ss_resolutions σ !! i) in
      when (rs_done r)
        (wkupd (fun k => {| k with wk_resolution := None |}) ;;
         if negb (String.eqb (rs_error r) "") then report "error" (rs_error r)
         else
           vupd (fun v => {| v with sv_state := "connecting" |}) ;;
           offer (rs_address r) (wk_joinKey k) 0)
  end.

(** The readiness file: whether writing it failed. *)
Definition write_ready_file (path : string) : M SSys bool :=
  let* opened := file_op in
  if negb opened then ret true
  else
    supd (fun σ => {| σ with ss_readyFiles := ss_readyFiles σ ∪ {[path]} |}) ;;
    wkupd (fun k => {| k with wk_ownsReadyFile := true |}) ;;
    let* written := file_op in
    let* closed := file_op in
    ret (negb written || negb closed).

Definition start_listening : M SSys unit :=
  let* k := wget in
  let* r := on_discovery (listen (sv_discoveryWarning (wk_state k)) (h_bind (wk_options k))) in
  vupd (fun v => {| v with sv_discoveryWarning := snd r |}).

(** [message], then [stopServer], then [state]. *)
Definition stop_with (state message : string) : M SSys unit :=
  vupd (fun v => {| v with sv_message := message |}) ;;
  stopServer ;;
  vupd (fun v => {| v with sv_state := state |}).

(** The owner has joined: announce the room. *)
Definition become_ready : M SSys unit :=
  let* k := wget in
  let path := h_readyFile (wk_options k) in
  let* failed := (if String.eqb path "" then ret false else write_ready_file path) in
  if failed : bool then stop_with "error" "Cannot write host readiness file"
  else
    wkupd (fun k => {| k with wk_ready := true |}) ;;
    vupd (fun v => {| v with sv_state := "hosting" |}) ;;
    start_listening.

(** The hosted server's turn. *)
Definition serve : M SSys unit :=
  let* k := wget in
  match wk_server k with
  | None => skip
  | Some s =>
      let* result := on_server s (fz_server_poll 4) in
      drain ;;
      let* k := wget in
      match wk_server k with
      | None => skip
      | Some s =>
          let* status := on_server s fz_server_get_status in
          vupd (fun v => {| v with sv_server := status |})
      end ;;
      let* k := wget in
      (if result <=? 0
       then stop_with (if result <? 0 then "error" else "idle")
              (if result <? 0 then "Server socket failed" else "Host left; room ended")
       else if negb (wk_ready k) && o_owner_joined (sv_server (wk_state k)) then become_ready
       else if negb (wk_ready k) then
         let* t := clock in
         when (u64 (t - wk_started k) >? 10000)
           (stop_with "error" "Local host failed to join reserved P1 slot")
       else skip) ;;
      let* k := wget in
      when (bool_decide (is_Some (wk_server k)) && wk_ready k)
        (when (d_listener (wk_discovery k) <? 0)
           (let* t := clock in
            when (u64 (t - d_lastListen (wk_discovery k)) >=? 2000) start_listening) ;;
         let* k := wget in
         on_discovery (advertise (sv_server (wk_state k)) (wk_options k)))
  end.

(** ** The worker: reporting *)

(** A new error is recorded once. *)
Definition record_failure : M SSys unit :=
  let* k := wget in
  let v := wk_state k in
  when (String.eqb (sv_state v) "error")
    (let key := dec (wk_operation k) +:+ sv_message v in
     when (negb (String.eqb key (wk_lastFailure k)))
       (wkupd (fun k => {| k with wk_lastFailure := key |}) ;;
        let* t := clock in
        record_event (mk_event (u64 (t * 1000)) 0 0 0 (-1) (snprintf 512 (sv_message v))))).

(** [std::erase_if] with a clock reading per room. *)
Fixpoint expire_rooms (rooms : list Room) : M SSys (list Room) :=
  match rooms with
  | [] => ret []
  | r :: rooms =>
      let* t := clock in
      let* rest := expire_rooms rooms in
      ret (if u64 (t - rm_seen r) >? 6000 then rest else r :: rest)
  end.

Definition browse_step : M SSys unit :=
  let* σ := sget in
  let v := wk_state (ss_worker σ) in
  (if ss_browsing σ
   then
     let* r := on_discovery (scan (sv_rooms v) (sv_discoveryWarning v)) in
     vupd (fun v => {| v with sv_rooms := fst r; sv_discoveryWarning := snd r |})
   else
     on_discovery (closeSocket Query) ;;
     on_discovery (dupd (fun d => {| d with d_browseStarted := 0 |})) ;;
     vupd (fun v => {| v with sv_rooms := [] |})) ;;
  let* k := wget in
  let* rooms := expire_rooms (sv_rooms (wk_state k)) in
  vupd (fun v => {| v with sv_rooms := rooms |}).

(** The text of the discovery failures. *)
Definition failure_report (l : list DiscoveryFailure) : string :=
  foldl (fun acc f => acc +:+ df_operation f +:+ " [" +:+ df_interface f +:+ "]: " +:+ df_message f
                      +:+ " (" +:+ dec (df_code f) +:+ ")" +:+ newline) "" l.

Definition report_discovery : M SSys unit :=
  let* σ := sget in
  on_discovery (Discovery.publish (ss_browsing σ) (sv_rooms (wk_state (ss_worker σ)))) ;;
  let* k := wget in
  vupd (fun v => {| v with sv_discovery := d_status (wk_discovery k) |}) ;;
  when (negb (bool_decide (ds_phase (d_status (wk_discovery k)) = Unavailable)))
    (vupd (fun v => {| v with sv_discoveryWarning := "" |})) ;;
  let text := failure_report (ds_failures (d_status (wk_discovery k))) in
  when (negb (String.eqb text (wk_lastDiscoveryReport k)))
    (let* t := clock in
     record_event (mk_event (u64 (t * 1000)) 0 0 (if String.eqb text "" then 1 else 0) (-1)
       (snprintf 512 ("Discovery: " +:+ (if String.eqb text "" then "recovered" else text)))) ;;
     wkupd (fun k => {| k with wk_lastDiscoveryReport := text |})).

(** The locked end of an iteration. *)
Definition publish_view : M SSys unit :=
  let* t := clock in
  let* k := wget in
  when (u64 (t - wk_lastPublish k) >=? 50)
    (let* σ := sget in
     let p := ss_published σ in
     when (String.eqb (sv_state p) "connected" && String.eqb (sv_state (wk_state k)) "connecting"
           && (sv_generation p =? wk_operation k))
       (vupd (fun v => {| v with sv_state := "connected" |})) ;;
     supd (fun σ => if wk_operation (ss_worker σ) =? ss_generation σ
                    then {| σ with ss_published := wk_state (ss_worker σ) |} else σ) ;;
     let* t := clock in
     wkupd (fun k => {| k with wk_lastPublish := t |})).

(** The end of [run], and the destructor of its [Discovery]. *)
Definition leave : M SSys unit :=
  stopServer ;;
  vupd (fun v => {| v with sv_state := "idle" |}) ;;
  supd (fun σ => {| σ with ss_published := wk_state (ss_worker σ); ss_connection := None;
                           ss_commands := [] |}) ;;
  on_discovery (closeSocket Listener ;; closeSocket Query ;; closeSocket Responder).

(** One step of the worker. *)
Definition worker_step : M SSys unit :=
  let* σ := sget in
  if negb (ss_running σ) then skip
  else
    match ss_place σ with
    | Starting =>
        let* networks := on_discovery interfaces in
        supd (fun σ => let k := worker0 networks in
                       let v := wk_state k in
                       {| σ with ss_worker := {| k with wk_state :=
                            {| v with sv_events := sv_events (ss_published σ) |} |} |}) ;;
        goto Looping
    | Looping =>
        if ss_quitting σ then leave ;; goto Exited
        else supd (fun σ => {| σ with ss_commands := [] |}) ;; goto (Retrying (ss_commands σ))
    | Retrying pending =>
        when (ss_discoveryRetry σ)
          (supd (fun σ => {| σ with ss_discoveryRetry := false |}) ;;
           on_discovery retry ;;
           vupd (fun v => {| v with sv_discoveryWarning := ""; sv_rooms := [] |})) ;;
        goto (Commanding pending)
    | Commanding [] => goto Resolving
    | Commanding (c :: pending) => run_command c ;; goto (Commanding pending)
    | Resolving => check_resolution ;; goto Serving
    | Serving => serve ;; record_failure ;; goto Browsing
    | Browsing => browse_step ;; goto Reporting
    | Reporting => report_discovery ;; goto Publishing
    | Publishing => publish_view ;; goto Looping
    | Exited => skip
    end.

(** ** The user interface *)

Definition start : M SSys unit :=
  let* σ := sget in
  when (negb (ss_running σ))
    (supd (fun σ => {| σ with ss_quitting := false; ss_threads := S (ss_threads σ) |}) ;;
     match thread_error (ss_threads σ) with
     | None => supd (fun σ => {| σ with ss_running := true; ss_place := Starting |})
     | Some what =>
         supd (fun σ => let v := ss_published σ in
           {| σ with ss_published := {| v with sv_state := "error";
                sv_message := "Cannot start session worker: " +:+ what |} |})
     end).

(** [enqueue], after its call of [start]. *)
Definition enqueue (c : Command) : M SSys bool :=
  let* σ := sget in
  if negb (ss_running σ) then ret false
  else if negb (k_type c =? 0) && (8 <=? length (ss_commands σ))%nat then ret false
  else
    let g := u64 (ss_generation σ + 1) in
    let c := {| c with k_generation := g |} in
    let kept := if k_type c =? 0 then [] else ss_commands σ in
    supd (fun σ => let v := ss_published σ in
      {| σ with ss_generation := g; ss_commands := kept ++ [c]; ss_connection := None;
                ss_published := {| v with sv_state := if k_type c =? 0 then "stopping" else "starting";
                                          sv_message := ""; sv_generation := g |} |}) ;;
    ret true.

Definition host (h : HostOptions) : M SSys bool := enqueue (mk_command 1 h "" [] 0).

Definition join (address : string) (key : bytes) : M SSys bool :=
  enqueue (mk_command 2 host0 address key 0).

Definition stop : M SSys bool := enqueue (mk_command 0 host0 "" [] 0).

Definition browse (enabled : bool) : M SSys unit := supd (fun σ => {| σ with ss_browsing := enabled |}).

Definition retryDiscovery : M SSys unit := supd (fun σ => {| σ with ss_discoveryRetry := true |}).

Definition connected : M SSys unit :=
  supd (fun σ => let v := ss_published σ in
    if String.eqb (sv_state v) "connecting"
    then {| σ with ss_published := {| v with sv_state := "connected" |} |} else σ).

Definition session_view : M SSys SessionView := gets ss_published.

Definition takeConnection : M SSys (option Connection) :=
  let* σ := sget in
  supd (fun σ => {| σ with ss_connection := None |}) ;;
  ret match ss_connection σ with
      | Some c => if cn_generation c =? ss_generation σ then Some c else None
      | None => None
      end.

(** [shutdown]: ask the worker to leave, then wait for it. *)
Definition quit : M SSys unit := supd (fun σ => {| σ with ss_quitting := true |}).

Definition join_worker : M SSys unit :=
  supd (fun σ => match ss_place σ with
                 | Exited => {| σ with ss_running := false |}
                 | _ => σ
                 end).

End Model.
