(* ===== verification/SessionQueue.v ===== *)
(** * Commands and connections of a session

    Whatever the threads of a session do and in whatever order: the command
    queue is bounded, commands are processed in the order of their generation,
    and a connection offered to the emulator always belongs to the last command
    of the user. *)

From Stdlib Require Import Sorted.
From S2P Require Import Prelude State Text Protocol Server Room ServerCore ServerRefine Scenario ServerRun Events ServerProps Discovery DiscoveryProps Address Session.

Local Open Scope list_scope.
Local Open Scope Z_scope.
Local Open Scope fz_scope.

(** ** Threads as sequences of actions *)

(** One thread of the session does one thing: a call of the user interface, the
    end of a name lookup, or a step of the worker. *)
Inductive action :=
| UiStart
| UiHost (h : HostOptions)
| UiJoin (address : string) (key : bytes)
| UiStop
| UiBrowse (enabled : bool)
| UiRetry
| UiConnected
| UiTake
| UiQuit
| UiWait
| LookupDone (i : nat)
| Work.

Section Run.
Context {E : Env} {D : DEnv} {F : SEnv}.

Definition act (a : action) : M SSys unit :=
  match a with
  | UiStart => start
  | UiHost h => host h ;; skip
  | UiJoin address key => join address key ;; skip
  | UiStop => stop ;; skip
  | UiBrowse enabled => browse enabled
  | UiRetry => retryDiscovery
  | UiConnected => connected
  | UiTake => takeConnection ;; skip
  | UiQuit => quit
  | UiWait => join_worker
  | LookupDone i => resolver_step i
  | Work => worker_step
  end.

Definition interleaving (l : list action) (σ : SSys) : SSys := exec (for_each l act) σ.

End Run.

(** The session before anything was started. *)
Definition session0 (w : World) (dw : DWorld) : SSys :=
  {| ss_commands := []; ss_connection := None; ss_published := session_view0; ss_generation := 0;
     ss_quitting := false; ss_browsing := false; ss_discoveryRetry := false; ss_running := false;
     ss_resolutions := []; ss_lookups := []; ss_resolvers := 0; ss_place := Exited;
     ss_worker := worker0 []; ss_world := w; ss_dworld := dw; ss_files := 0; ss_threads := 0;
     ss_readyFiles := ∅ |}.

(** ** The queue *)

(** The commands the worker has taken and not yet run. *)
Definition taken (p : place) : list Command :=
  match p with
  | Retrying l => l
  | Commanding l => l
  | _ => []
  end.

(** The part of the state the queue is made of. *)
Definition queue_part (σ : SSys) : list Command * option Connection * Z * Z :=
  (ss_commands σ, ss_connection σ, ss_generation σ, wk_operation (ss_worker σ)).

(** The worker is between [Starting] and [Exited]. *)
Definition working (p : place) : bool :=
  match p with Starting | Exited => false | _ => true end.

(** The queue after at most [n] commands were given: the worker's place, the
    commands not yet taken, the connection on offer, the generation of the last
    command and that of the worker's operation. *)
Record queue_inv (n : Z) (p : place) (commands : list Command) (connection : option Connection)
    (generation operation : Z) : Prop := {
  qi_generation : 0 <= operation <= generation /\ generation <= n;
  qi_bound : (length commands <= 8)%nat /\ (length (taken p) <= 8)%nat;
  qi_order : StronglySorted Z.lt (0 :: map k_generation (taken p ++ commands));
  qi_after : working p = true -> forall c, c ∈ taken p ++ commands -> operation < k_generation c;
  qi_last : forall c, last (taken p ++ commands) = Some c -> k_generation c = generation;
  qi_connection : forall c, connection = Some c ->
    working p = true /\ taken p ++ commands = [] /\ cn_generation c = generation /\ operation = generation
}.

(** The same of a state, for a worker at [p]. *)
Definition queue_at (n : Z) (p : place) (σ : SSys) : Prop :=
  queue_inv n p (ss_commands σ) (ss_connection σ) (ss_generation σ) (wk_operation (ss_worker σ)).

Definition queue_ok (n : Z) (σ : SSys) : Prop := queue_at n (ss_place σ) σ.

(** ** The moves of the queue *)

Lemma sorted_last l x y :
  StronglySorted Z.lt (map k_generation l) -> last l = Some y -> x ∈ l -> k_generation x <= k_generation y.
Proof.
  induction l as [|c l IH]; intros Hs Hl Hx; [set_solver|]. apply StronglySorted_inv in Hs as [Hs Hc].
  rewrite last_cons in Hl. destruct (last l) as [z|] eqn:Hz.
  - injection Hl as ->. apply elem_of_cons in Hx as [->|Hx]; [|by apply IH].
    rewrite List.Forall_forall in Hc. apply Z.lt_le_incl, Hc, in_map, list_elem_of_In.
    by apply last_Some_elem_of.
  - injection Hl as ->. apply last_None in Hz as ->. apply list_elem_of_singleton in Hx as ->. lia.
Qed.

Lemma sorted_prefix (a b : list Z) : StronglySorted Z.lt (a ++ b) -> StronglySorted Z.lt a.
Proof.
  induction a as [|x a IH]; [constructor|]. simpl. intros [H1 H2]%StronglySorted_inv.
  constructor; [by apply IH|]. by apply List.Forall_app in H2 as [H2 _].
Qed.

Lemma sorted_snoc l g :
  StronglySorted Z.lt l -> (forall x, x ∈ l -> x < g) -> StronglySorted Z.lt (l ++ [g]).
Proof.
  induction l as [|x l IH]; intros Hs Hg; [by repeat constructor|]. apply StronglySorted_inv in Hs as [Hs Hx].
  simpl. constructor; [apply IH; set_solver|]. apply List.Forall_app. split; [done|].
  constructor; [|done]. apply Hg. left.
Qed.

Section Moves.
Context (n : Z) (p : place) (commands : list Command) (connection : option Connection) (generation operation : Z).
Context (I : queue_inv n p commands connection generation operation).

Lemma qi_mono n' : n <= n' -> queue_inv n' p commands connection generation operation.
Proof. intros Hn. destruct I. split; try done. lia. Qed.

Lemma qi_goto p' :
  taken p' = taken p -> working p' = working p -> queue_inv n p' commands connection generation operation.
Proof. intros Ht Hw. destruct I. split; rewrite ?Ht, ?Hw; done. Qed.

Lemma qi_withdraw : queue_inv n p commands None generation operation.
Proof. destruct I. by split. Qed.

(** A worker starts, with no operation yet. *)
Lemma qi_begin p' :
  working p = false -> taken p' = taken p -> queue_inv n p' commands connection generation 0.
Proof.
  intros Hw Ht. destruct I as [H1 H2 H3 H4 H5 H6]. split; rewrite ?Ht; try done; try lia.
  - intros _ c Hc. apply StronglySorted_inv in H3 as [_ H3]. rewrite List.Forall_forall in H3.
    by apply H3, in_map, list_elem_of_In.
  - intros c Hc. destruct (H6 c Hc) as [Hw' _]. congruence.
Qed.

(** The worker ends. *)
Lemma qi_end p' : taken p' = [] -> queue_inv n p' [] None generation operation.
Proof.
  intros Ht. destruct I as [H1 H2 H3 H4 H5 H6]. split; rewrite ?Ht; try done.
  - simpl. lia.
  - by repeat constructor.
  - set_solver.
Qed.

(** The worker takes the commands. *)
Lemma qi_take p' :
  taken p = [] -> taken p' = commands -> working p' = working p ->
  queue_inv n p' [] connection generation operation.
Proof.
  intros Ht Ht' Hw. destruct I as [H1 H2 H3 H4 H5 H6]. rewrite Ht in *.
  split; rewrite ?Ht', ?Hw, ?app_nil_r; try done. split; [simpl; lia|apply H2].
Qed.

(** The worker starts the first command it has taken. *)
Lemma qi_run c l p' :
  taken p = c :: l -> taken p' = l -> working p = true -> working p' = true ->
  queue_inv n p' commands connection generation (k_generation c) /\ connection = None.
Proof.
  intros Ht Ht' Hw Hw'. destruct I as [H1 H2 H3 H4 H5 H6]. rewrite Ht in *. simpl in *.
  apply StronglySorted_inv in H3 as [H3 H3']. apply StronglySorted_inv in H3 as [H3 H3''].
  assert (connection = None) as Hn
    by (destruct connection as [x|] eqn:Hx; [destruct (H6 x eq_refl) as (_ & H & _); discriminate H|done]).
  assert (forall x, x ∈ l ++ commands -> k_generation c < k_generation x) as Ha.
  { intros x Hx. rewrite List.Forall_forall in H3''. by apply H3'', in_map, list_elem_of_In. }
  split; [|done]. split; rewrite ?Ht'.
  - apply List.Forall_inv in H3'. assert (k_generation c <= generation); [|lia].
    destruct (last (c :: l ++ commands)) as [y|] eqn:Hy; [|by apply last_None in Hy].
    rewrite <- (H5 y eq_refl). apply (sorted_last (c :: l ++ commands)); [by constructor|done|left].
  - simpl in H2. lia.
  - constructor; [done|]. by apply Forall_inv_tail in H3'.
  - done.
  - intros x Hx. apply H5. rewrite last_cons. by rewrite Hx.
  - intros x Hx. rewrite Hn in Hx. done.
Qed.

(** A connection is offered for the last command only. *)
Lemma qi_offer c :
  working p = true -> cn_generation c = operation -> operation = generation ->
  queue_inv n p commands (Some c) generation operation.
Proof.
  intros Hw Hc Ho. destruct I as [H1 H2 H3 H4 H5 H6]. split; try done.
  intros x [= <-]. split_and!; try done; [|congruence].
  destruct (last (taken p ++ commands)) as [y|] eqn:Hl; [|by apply last_None in Hl].
  pose proof (H5 y eq_refl). pose proof (H4 Hw y (last_Some_elem_of _ _ Hl)). lia.
Qed.

(** The user interface gives a command; [kept] are the commands that stay. *)
Lemma qi_enqueue c kept :
  (kept = [] \/ (kept = commands /\ (length commands < 8)%nat)) -> k_generation c = generation + 1 ->
  queue_inv (n + 1) p (kept ++ [c]) None (generation + 1) operation.
Proof.
  intros Hk Hc. destruct I as [H1 H2 H3 H4 H5 H6].
  apply StronglySorted_inv in H3 as [H3 H3'].
  assert (forall x, x ∈ taken p ++ commands -> 0 < k_generation x <= generation) as Hle.
  { intros x Hx. split; [rewrite List.Forall_forall in H3'; by apply H3', in_map, list_elem_of_In|].
    destruct (last (taken p ++ commands)) as [y|] eqn:Hl; [|apply last_None in Hl; rewrite Hl in Hx; set_solver].
    rewrite <- (H5 y eq_refl). by apply (sorted_last (taken p ++ commands)). }
  assert (forall x, x ∈ taken p ++ kept -> x ∈ taken p ++ commands) as Hin
    by (intros x; destruct Hk as [->|[-> _]]; set_solver).
  assert (StronglySorted Z.lt (map k_generation (taken p ++ kept))) as Hs.
  { destruct Hk as [->|[-> _]]; [|done]. rewrite app_nil_r. rewrite map_app in H3. by apply sorted_prefix in H3. }
  split; rewrite ?app_assoc.
  - lia.
  - rewrite length_app. simpl. destruct Hk as [->|[-> ?]]; simpl; lia.
  - rewrite map_app. cbn [map]. rewrite Hc. change (0 :: ?a ++ [?g]) with ((0 :: a) ++ [g]). apply sorted_snoc.
    + constructor; [done|]. rewrite List.Forall_forall. intros g (x & <- & Hx%list_elem_of_In)%in_map_iff.
      by apply Hle, Hin.
    + intros g [-> | Hg]%elem_of_cons; [lia|]. apply list_elem_of_fmap in Hg as (x & -> & Hx).
      specialize (Hle x (Hin x Hx)). lia.
  - intros Hw x [Hx|Hx]%elem_of_app; [by apply (H4 Hw), Hin|].
    apply list_elem_of_singleton in Hx as ->. lia.
  - intros x. rewrite last_snoc. by intros [= <-].
  - done.
Qed.

End Moves.

(** ** Operations that do not touch the queue *)

(** Walk through an operation; [named] closes the goals about operations that
    have a lemma of their own. *)
Ltac walk named :=
  lazymatch goal with
  | |- keeps _ (bind _ _) => apply keeps_bind; [|intros ?]; walk named
  | |- keeps _ (when _ _) => apply keeps_when; walk named
  | |- keeps _ (if _ then _ else _) => apply keeps_if; walk named
  | |- keeps _ (match ?x with _ => _ end) => destruct x; walk named
  | |- keeps _ (ret _) => apply keeps_ret
  | |- keeps _ skip => apply keeps_skip
  | |- keeps _ sget => intros ?; reflexivity
  | |- keeps _ wget => intros ?; reflexivity
  | |- keeps _ (gets _) => intros ?; reflexivity
  | |- keeps _ (supd _) => intros ?; first [reflexivity|cbv [supd exec modify snd]; case_match; reflexivity]
  | |- keeps _ (wkupd _) => intros ?; reflexivity
  | |- keeps _ (vupd _) => intros ?; reflexivity
  | |- keeps _ (on_discovery _) => intros ?; reflexivity
  | |- keeps _ (on_server _ _) => intros ?; reflexivity
  | |- _ => named
  end.

Section Queue.
Context {E : Env} {D : DEnv} {F : SEnv}.

(** The queue's part, the place of the worker, whether there is one and whether
    it was asked to end. *)
Definition qσ (σ : SSys) := (queue_part σ, ss_place σ, ss_running σ, ss_quitting σ).

Lemma drain_loop_q n : keeps qσ (drain_loop n).
Proof. induction n as [|n IH]; cbn [drain_loop]; unfold record_event; walk ltac:(exact IH). Qed.

Lemma stopServer_q : keeps qσ stopServer.
Proof. unfold stopServer, drain. walk ltac:(apply drain_loop_q). Qed.

Lemma file_op_q : keeps qσ file_op.
Proof. unfold file_op. walk fail. Qed.

Lemma clock_q : keeps qσ clock.
Proof. unfold clock. walk fail. Qed.

Lemma resolve_q a : keeps qσ (resolve a).
Proof. unfold resolve. walk fail. Qed.

Lemma resolver_step_q i : keeps qσ (resolver_step i).
Proof. unfold resolver_step. walk fail. Qed.

Lemma stop_with_q a b : keeps qσ (stop_with a b).
Proof. unfold stop_with. walk ltac:(apply stopServer_q). Qed.

Lemma start_listening_q : keeps qσ start_listening.
Proof. unfold start_listening. walk fail. Qed.

Lemma become_ready_q : keeps qσ become_ready.
Proof.
  unfold become_ready, write_ready_file.
  walk ltac:(first [apply file_op_q|apply stop_with_q|apply start_listening_q]).
Qed.

Lemma serve_q : keeps qσ serve.
Proof.
  unfold serve, drain.
  walk ltac:(first [apply clock_q|apply drain_loop_q|apply become_ready_q|apply stop_with_q|apply start_listening_q]).
Qed.

Lemma record_failure_q : keeps qσ record_failure.
Proof. unfold record_failure, record_event. walk ltac:(apply clock_q). Qed.

Lemma expire_rooms_q l : keeps qσ (expire_rooms l).
Proof. induction l; cbn [expire_rooms]; walk ltac:(first [apply clock_q|done]). Qed.

Lemma browse_step_q : keeps qσ browse_step.
Proof. unfold browse_step. walk ltac:(apply expire_rooms_q). Qed.

Lemma report_discovery_q : keeps qσ report_discovery.
Proof. unfold report_discovery, record_event. walk ltac:(apply clock_q). Qed.

Lemma publish_view_q : keeps qσ publish_view.
Proof.
  unfold publish_view.
  walk ltac:(first [apply clock_q|done]).
Qed.

Lemma create_server_q c : keeps qσ (create_server c).
Proof. intros σ. unfold create_server, exec. by destruct (fz_server_create _ _) as [[error|s] w]. Qed.

(** ** Every action keeps the queue in order *)

Lemma keeps_queue_at {A} n p (m : M SSys A) : keeps qσ m -> pres (queue_at n p) m.
Proof.
  intros K σ H. unfold queue_at in *. specialize (K σ). injection K as K1 K2 K3 K4 _ _ _.
  by rewrite K1, K2, K3, K4.
Qed.

Lemma offer_queue_at n p a k nonce : working p = true -> pres (queue_at n p) (offer a k nonce).
Proof.
  intros Hw σ H. unfold offer, exec, supd, modify. cbn [snd].
  destruct (Z.eqb_spec (wk_operation (ss_worker σ)) (ss_generation σ)) as [He|]; [|done].
  by apply (qi_offer _ _ _ _ _ _ H).
Qed.

Lemma goto_queue_ok n p σ : queue_at n p σ -> queue_ok n (exec (goto p) σ).
Proof. done. Qed.

(** The same walk for an invariant of the queue at a fixed place. *)
Ltac walk_at named :=
  lazymatch goal with
  | |- pres _ (bind _ _) => apply pres_bind; [|intros ?]; walk_at named
  | |- pres _ (when _ _) => apply pres_when; walk_at named
  | |- pres _ (if _ then _ else _) => apply pres_if; walk_at named
  | |- pres _ (match ?x with _ => _ end) => destruct x; walk_at named
  | |- pres _ (offer _ _ _) => by apply offer_queue_at
  | |- _ => apply keeps_queue_at; walk named
  end.

Lemma start_hosting_queue_at n p o : working p = true -> pres (queue_at n p) (start_hosting o).
Proof.
  intros Hw. unfold start_hosting, report.
  walk_at ltac:(first [apply file_op_q|apply clock_q|apply stopServer_q|apply create_server_q]).
Qed.

Lemma check_resolution_queue_at n p : working p = true -> pres (queue_at n p) check_resolution.
Proof. intros Hw. unfold check_resolution, report. walk_at fail. Qed.

Lemma run_command_queue_at n c l σ :
  queue_at n (Commanding (c :: l)) σ -> queue_at n (Commanding l) (exec (run_command c) σ).
Proof.
  intros H. unfold run_command. rewrite exec_bind.
  apply (keeps_queue_at n (Commanding (c :: l)) _ stopServer_q) in H.
  revert H. generalize (exec stopServer σ). intros τ H. rewrite exec_bind.
  assert (queue_at n (Commanding l) (exec (wkupd (fun k => {| k with wk_operation := k_generation c |})) τ)) as H'
    by (by apply (qi_run _ _ _ _ _ _ H c l)).
  revert H'. generalize (exec (wkupd (fun k => {| k with wk_operation := k_generation c |})) τ). intros τ' H'.
  assert (pres (queue_at n (Commanding l)) (vupd (fun v => {| v with sv_generation := k_generation c;
      sv_message := ""; sv_state := "idle" |}) ;;
    if k_type c =? 1 then start_hosting (k_host c)
    else if k_type c =? 2
    then vupd (fun v => {| v with sv_state := "resolving" |}) ;;
         let* r := resolve (k_address c) in
         wkupd (fun k => {| k with wk_joinKey := k_joinKey c; wk_resolution := Some r |})
    else skip)) as P; [|by apply P].
  apply pres_bind; [walk_at fail|intros ?]. apply pres_if; [by apply start_hosting_queue_at|].
  walk_at ltac:(apply resolve_q).
Qed.

(** A stopped session has no worker, and the worker's place says so. *)
Definition idle_ok (σ : SSys) : Prop := ss_running σ = false -> ss_place σ = Exited.

(** A step of the worker that leaves the queue alone and goes on to [p']. *)
Lemma pass_queue n p p' (m : M SSys unit) σ :
  keeps qσ m -> queue_at n p σ -> taken p' = taken p -> working p' = working p ->
  queue_ok n (exec (m ;; goto p') σ).
Proof.
  intros K H Ht Hw. rewrite exec_bind. apply goto_queue_ok.
  apply (qi_goto _ p _ _ _ _ (keeps_queue_at n p m K σ H)); done.
Qed.

Lemma withdraw_all n p σ :
  queue_at n p σ ->
  queue_at n Exited (exec (supd (fun σ => {| σ with ss_published := wk_state (ss_worker σ);
                                                   ss_connection := None; ss_commands := [] |})) σ).
Proof. intros H. by apply (qi_end _ _ _ _ _ _ H). Qed.

Lemma leave_queue n p σ : queue_at n p σ -> queue_ok n (exec (leave ;; goto Exited) σ).
Proof.
  intros H. unfold leave. rewrite !exec_bind. apply goto_queue_ok.
  apply keeps_queue_at; [walk fail|]. apply (withdraw_all n p).
  apply keeps_queue_at; [walk fail|]. by apply (keeps_queue_at n p _ stopServer_q).
Qed.

Lemma worker_step_queue n σ : queue_ok n σ -> queue_ok n (exec worker_step σ).
Proof.
  intros H. unfold worker_step. rewrite exec_bind. change (eval sget σ) with σ. change (exec sget σ) with σ.
  destruct (ss_running σ); cbn [negb]; [|done]. unfold queue_ok in H.
  destruct (ss_place σ) as [| |l|[|c l]| | | | | |] eqn:Hp.
  - rewrite !exec_bind. apply goto_queue_ok. by apply (qi_begin _ _ _ _ _ _ H).
  - destruct (ss_quitting σ); [by apply (leave_queue n Looping)|].
    rewrite exec_bind. apply goto_queue_ok. by apply (qi_take _ _ _ _ _ _ H).
  - apply (pass_queue n (Retrying l)); try done. walk fail.
  - by apply goto_queue_ok, (qi_goto _ _ _ _ _ _ H).
  - rewrite exec_bind. by apply goto_queue_ok, run_command_queue_at.
  - rewrite exec_bind. apply goto_queue_ok, (qi_goto _ Resolving); [|done..].
    by apply check_resolution_queue_at.
  - rewrite exec_bind. apply (keeps_queue_at n Serving _ serve_q) in H. revert H. generalize (exec serve σ).
    intros τ H. apply (pass_queue n Serving); try done. apply record_failure_q.
  - apply (pass_queue n Browsing); try done. apply browse_step_q.
  - apply (pass_queue n Reporting); try done. apply report_discovery_q.
  - apply (pass_queue n Publishing); try done. apply publish_view_q.
  - unfold queue_ok. rewrite exec_skip, Hp. exact H.
Qed.

(** The user interface gives a command, while there are fewer than [2^64]. *)
Lemma enqueue_queue n c σ : n + 1 < 2 ^ 64 -> queue_ok n σ -> queue_ok (n + 1) (exec (enqueue c) σ).
Proof.
  intros Hn H. pose proof (qi_generation _ _ _ _ _ _ H) as Hg.
  assert (queue_ok (n + 1) σ) as Hm by (apply (qi_mono _ _ _ _ _ _ H); lia).
  unfold enqueue. rewrite exec_bind. change (eval sget σ) with σ. change (exec sget σ) with σ.
  destruct (ss_running σ); cbn [negb]; [|done]. case_cond Hb; [done|].
  rewrite exec_bind, exec_ret. rewrite u64_small by (unfold fits; lia).
  apply (qi_enqueue _ _ _ _ _ _ H); [|done]. cbn [k_type].
  destruct (k_type c =? 0); [by left|]. right. split; [done|]. cbn [negb andb] in Hb. by apply Nat.leb_gt in Hb.
Qed.

(** ** The worker is there until it was waited for *)

Lemma q_running {A} (m : M SSys A) : keeps qσ m -> keeps ss_running m.
Proof. intros K σ. specialize (K σ). by injection K. Qed.

Lemma offer_running a k n : keeps ss_running (offer a k n).
Proof. unfold offer. walk fail. Qed.

Lemma worker_step_running : keeps ss_running worker_step.
Proof.
  unfold worker_step, goto, run_command, start_hosting, check_resolution, leave, report.
  walk ltac:(first [apply offer_running|apply q_running; first
    [apply stopServer_q|apply resolve_q|apply create_server_q|apply file_op_q|apply clock_q|apply serve_q
    |apply record_failure_q|apply browse_step_q|apply report_discovery_q|apply publish_view_q]]).
Qed.

(** The invariant after at most [n] actions. *)
Definition session_ok (n : Z) (σ : SSys) : Prop := queue_ok n σ /\ idle_ok σ.

Lemma keeps_session_ok {A} n (m : M SSys A) : keeps qσ m -> pres (session_ok n) m.
Proof.
  intros K σ [Hq Hi]. specialize (K σ) as Kσ. injection Kσ as _ _ _ _ K5 K6 _.
  split; [unfold queue_ok; rewrite K5; by apply keeps_queue_at|]. unfold idle_ok. by rewrite K5, K6.
Qed.

Lemma session_ok_mono n n' σ : n <= n' -> session_ok n σ -> session_ok n' σ.
Proof. intros Hn [Hq Hi]. split; [|done]. by apply (qi_mono _ _ _ _ _ _ Hq). Qed.

Lemma enqueue_idle c : pres idle_ok (enqueue c).
Proof.
  intros σ Hi. unfold enqueue. rewrite exec_bind. change (eval sget σ) with σ. change (exec sget σ) with σ.
  destruct (ss_running σ) eqn:Hr; cbn [negb]; [|by rewrite exec_ret].
  case_if; [by rewrite exec_ret|]. intros H. rewrite exec_bind, exec_ret in H.
  assert (ss_running σ = false) by exact H. congruence.
Qed.

Lemma start_ok n : pres (session_ok n) start.
Proof.
  intros σ H. unfold start. rewrite exec_bind, exec_when. change (eval sget σ) with σ.
  change (exec sget σ) with σ. destruct (ss_running σ) eqn:Hr; cbn [negb]; [done|].
  rewrite exec_bind. match goal with |- session_ok n (exec _ (exec ?x σ)) => set (m := x) end.
  assert (session_ok n (exec m σ)) as Hm by (by split; apply H).
  assert (ss_running (exec m σ) = false) as Hr' by exact Hr.
  revert Hm Hr'. generalize (exec m σ). intros τ Hm Hr'. destruct (thread_error _).
  - apply keeps_session_ok; [walk fail|done].
  - destruct Hm as [Hq Hi]. unfold queue_ok in Hq. rewrite (Hi Hr') in Hq. split; [|done].
    by apply (qi_goto _ _ _ _ _ _ Hq Starting).
Qed.

Lemma act_ok n a σ : n + 1 < 2 ^ 64 -> session_ok n σ -> session_ok (n + 1) (exec (act a) σ).
Proof.
  intros Hn H.
  assert (session_ok (n + 1) σ) as H' by (apply (session_ok_mono n); [lia|done]).
  assert (forall c, session_ok (n + 1) (exec (enqueue c ;; skip) σ)) as Henq.
  { intros c. rewrite exec_bind, exec_skip. split; [by apply enqueue_queue, H|by apply enqueue_idle, H]. }
  destruct a; cbn [act]; try apply Henq.
  - by apply start_ok.
  - apply keeps_session_ok; [unfold browse; walk fail|done].
  - apply keeps_session_ok; [unfold retryDiscovery; walk fail|done].
  - apply keeps_session_ok; [unfold connected; walk fail|done].
  - rewrite exec_bind, exec_skip. destruct H' as [Hq Hi]. split; [|exact Hi].
    by apply (qi_withdraw _ _ _ _ _ _ Hq).
  - by split; apply H'.
  - destruct H' as [Hq Hi]. unfold session_ok, queue_ok, idle_ok, join_worker, exec, supd, modify in *. cbn [snd].
    destruct (ss_place σ) eqn:Hp; rewrite ?Hp; done.
  - apply keeps_session_ok; [apply resolver_step_q|done].
  - destruct H' as [Hq Hi]. split; [by apply worker_step_queue|].
    intros Hr. pose proof (worker_step_running σ) as Hk. rewrite Hk in Hr.
    unfold worker_step. rewrite exec_bind. change (eval sget σ) with σ. rewrite Hr. by apply Hi.
Qed.

Lemma interleaving_ok l : forall n σ,
  n + Z.of_nat (length l) < 2 ^ 64 -> session_ok n σ -> session_ok (n + Z.of_nat (length l)) (interleaving l σ).
Proof.
  unfold interleaving. induction l as [|a l IH]; intros n σ Hn H; [by rewrite Z.add_0_r|].
  cbn [for_each]. rewrite exec_bind. cbn [length] in Hn |- *.
  replace (n + Z.of_nat (S (length l))) with (n + 1 + Z.of_nat (length l)) by lia.
  apply IH; [lia|]. apply act_ok; [lia|done].
Qed.

Lemma session0_ok w dw : session_ok 0 (session0 w dw).
Proof. split; [|done]. split; simpl; try done; try lia. by repeat constructor. Qed.

(** C25. In every interleaving of the user interface, the resolver threads and
    the worker: at most eight commands wait to be taken, the commands that
    wait are in the order they were given and after the worker's operation;
    and a connection on offer belongs to the user's last command, nothing
    having been asked since. So [takeConnection] never hands out a superseded
    connection, and never has to withhold one. *)
Theorem session_connection_current w dw l :
  Z.of_nat (length l) < 2 ^ 64 ->
  let σ := interleaving l (session0 w dw) in
  let waiting := taken (ss_place σ) ++ ss_commands σ in
  (length (ss_commands σ) <= 8)%nat /\
  StronglySorted Z.lt (map k_generation waiting) /\
  (working (ss_place σ) = true -> forall c, c ∈ waiting -> wk_operation (ss_worker σ) < k_generation c) /\
  eval takeConnection σ = ss_connection σ /\
  forall c, ss_connection σ = Some c ->
    waiting = [] /\ cn_generation c = ss_generation σ /\ wk_operation (ss_worker σ) = cn_generation c.
Proof.
  intros Hl σ waiting. destruct (interleaving_ok l 0 (session0 w dw) Hl (session0_ok w dw)) as [[H1 H2 H3 H4 H5 H6] _].
  fold σ in H1, H2, H3, H4, H5, H6. fold waiting in H3, H4, H5, H6.
  apply StronglySorted_inv in H3 as [H3 _]. split_and!; try done; [apply H2| |].
  - unfold takeConnection. rewrite !eval_bind, eval_ret. change (eval sget σ) with σ.
    destruct (ss_connection σ) as [c|]; [|done]. destruct (H6 c eq_refl) as (_ & _ & Hc & _).
    by rewrite Hc, Z.eqb_refl.
  - intros c Hc. destruct (H6 c Hc) as (_ & Hw & Hg & Ho). split_and!; congruence.
Qed.

End Queue.

(** ** A guest joins *)

#[export] Instance quiet_env : SEnv := {|
  thread_error n := None;
  file_ok n := true;
  getaddrinfo h p := inr 16777343
|}.

(** The user asks to join and the name is found. *)
Definition joining : list action :=
  [UiStart; UiJoin "localhost:4000" [107]; Work; Work; Work; Work; LookupDone 0; Work; Work].

Definition joined_session : SSys := interleaving joining (session0 world0 lan_world).

Lemma session_connection_current_witness :
  ss_connection joined_session = Some (mk_connection "127.0.0.1:4000" [107] 0 1) /\
  eval takeConnection joined_session = ss_connection joined_session.
Proof.
  split; [by vm_compute|]. apply (session_connection_current world0 lan_world joining). by vm_compute.
Defined.
