(* ===== verification/SessionHost.v ===== *)
(** * Hosting: what the worker owns

    In every interleaving of a session's threads the worker has at most one
    server and that server is in a state the race server's theorems speak of;
    the room is announced and the readiness file exists only while the server
    runs; nothing is left behind when the worker exits. *)

From S2P Require Import Prelude State Text Protocol Server Room ServerCore ServerRefine Scenario ServerRun Events ServerProps Discovery DiscoveryProps DiscoverySockets Address Session SessionQueue.

Local Open Scope list_scope.
Local Open Scope Z_scope.
Local Open Scope fz_scope.

(** ** A hosted server *)

(** The room rules never change the owner. *)
Lemma step_owner r r' : step r r' -> r_owner r' = r_owner r.
Proof. destruct 1; try done. unfold Room.leave. by repeat case_match. Qed.

Lemma steps_owner r r' : steps r r' -> r_owner r' = r_owner r.
Proof. induction 1 as [|x y z Hxy _ IH]; [done|]. by rewrite IH, (step_owner _ _ Hxy). Qed.

(** A server created for the owner [nonce]. *)
Record hosted (nonce : Z) (s : Server) : Prop := {
  ho_good : good (core s);
  ho_ring : ring_ok s;
  ho_owner : s_owner_nonce s = nonce
}.

Section Hosted.
Context {E : Env} {L : EnvLaws E}.

Lemma hosted_call c nonce s w :
  hosted nonce s -> hosted nonce (srv (exec (run_call c) (mk_sys s w))).
Proof.
  intros [G R O]. pose proof (run_call_moves c (mk_sys s w)) as Hm. split.
  - by apply (moves_good _ _ Hm).
  - by apply (run_call_ringσ c (mk_sys s w)).
  - destruct (Hm G) as [_ S]. etransitivity; [exact (steps_owner _ _ S)|exact O].
Qed.

Lemma hosted_create c w s w' :
  wf_config c -> fz_server_create (Some c) w = (inr s, w') -> hosted (c_owner_nonce c) s.
Proof.
  intros Hc H. destruct (fz_server_create_inv _ _ _ _ H Hc) as [G A]. split; [done| |].
  - by eapply fz_server_create_ring.
  - exact (f_equal r_owner A).
Qed.

End Hosted.

(** ** The invariant of the worker *)

(** Discovery is tidy; [listening] says whether the room is announced. *)
Definition disc (listening : bool) (σ : SSys) : Prop :=
  exists q, state listening q listening (mk_dsys (wk_discovery (ss_worker σ)) (ss_dworld σ)).

(** [strict]: the view says that the session hosts whenever a server runs. *)
Record res (strict listening : bool) (σ : SSys) : Prop := {
  re_disc : disc listening σ;
  re_ready : listening = true -> wk_ready (ss_worker σ) = true;
  re_none : wk_server (ss_worker σ) = None ->
    wk_ready (ss_worker σ) = false /\ wk_ownsReadyFile (ss_worker σ) = false /\
    wk_logFile (ss_worker σ) = false /\ sv_hosting (wk_state (ss_worker σ)) = false;
  re_some : forall s, wk_server (ss_worker σ) = Some s ->
    wk_resolution (ss_worker σ) = None /\
    (strict = true -> sv_hosting (wk_state (ss_worker σ)) = true) /\
    exists nonce, nonce <> 0 /\ hosted nonce s /\
      forall c, ss_connection σ = Some c -> cn_ownerNonce c = nonce;
  re_file : ss_readyFiles σ =
    if wk_ownsReadyFile (ss_worker σ) then {[h_readyFile (wk_options (ss_worker σ))]} else ∅
}.

Definition res_ok (strict : bool) (σ : SSys) : Prop := exists listening, res strict listening σ.

(** What the invariant speaks of. *)
Definition hσ (σ : SSys) :=
  (wk_server (ss_worker σ), wk_resolution (ss_worker σ), wk_ready (ss_worker σ),
   wk_ownsReadyFile (ss_worker σ), wk_logFile (ss_worker σ), wk_options (ss_worker σ),
   sv_hosting (wk_state (ss_worker σ)), ss_readyFiles σ, ss_connection σ,
   wk_discovery (ss_worker σ), ss_dworld σ).

Section Worker.
Context {E : Env} {L : EnvLaws E} {D : DEnv} {DL : DEnvLaws D} {F : SEnv}.

Lemma keeps_res {A} b (m : M SSys A) : keeps hσ m -> pres (res_ok b) m.
Proof.
  intros K σ [l [H1 H2 H3 H4 H5]]. specialize (K σ). injection K as K1 K2 K3 K4 K5 K6 K7 K8 K9 K10 K11.
  exists l. split; unfold disc; rewrite ?K1, ?K2, ?K3, ?K4, ?K5, ?K6, ?K7, ?K8, ?K9, ?K10, ?K11; done.
Qed.

(** Everything but the discovery object and its system. *)
Lemma on_discovery_res {A} b (m : M DSys A) :
  (forall l q, hoare (state l q l) m (fun _ τ => exists q', state l q' l τ)) -> pres (res_ok b) (on_discovery m).
Proof.
  intros Hm σ [l [[q H1] H2 H3 H4 H5]]. exists l. split; try done.
  by apply (Hm l q (mk_dsys (wk_discovery (ss_worker σ)) (ss_dworld σ))).
Qed.

Lemma on_discovery_keeps {A} b (m : M DSys A) : keeps socks m -> pres (res_ok b) (on_discovery m).
Proof.
  intros K. apply on_discovery_res. intros l q τ Hτ. exists q. by apply (hoare_keeps l q l).
Qed.

Lemma eval_wget (σ : SSys) : eval wget σ = ss_worker σ.
Proof. done. Qed.

Lemma exec_wget (σ : SSys) : exec wget σ = σ.
Proof. done. Qed.

(** ** Calls on the server *)

(** The call leaves a hosted server hosted. *)
Definition server_safe {A} (m : M Sys A) : Prop :=
  forall nonce s w, hosted nonce s -> hosted nonce (srv (exec m (mk_sys s w))).

Lemma next_event_safe : server_safe fz_server_next_event.
Proof. intros nonce s w H. exact (hosted_call NextEvent nonce s w H). Qed.

Lemma poll_safe wait : server_safe (fz_server_poll wait).
Proof. intros nonce s w H. exact (hosted_call (Poll wait) nonce s w H). Qed.

Lemma get_status_safe : server_safe fz_server_get_status.
Proof. intros nonce s w H. exact (hosted_call GetStatus nonce s w H). Qed.

Lemma close_safe : server_safe fz_server_close.
Proof. intros nonce s w H. exact (hosted_call Close nonce s w H). Qed.

Lemma on_server_res {A} b (m : M Sys A) s σ :
  server_safe m -> wk_server (ss_worker σ) = Some s -> res_ok b σ -> res_ok b (exec (on_server s m) σ).
Proof.
  intros Hm Hs [l [H1 H2 H3 H4 H5]]. exists l. split; try done.
  intros s' [= <-]. destruct (H4 s Hs) as (R & S & nonce & N0 & Hh & Hc). split_and!; try done.
  exists nonce. split_and!; try done. by apply Hm.
Qed.

(** [if(server) { ... = m(server); k }] *)
Lemma with_server_res {A} b (m : M Sys A) (k : A -> M SSys unit) (none : M SSys unit) :
  server_safe m -> (forall a, pres (res_ok b) (k a)) -> pres (res_ok b) none ->
  pres (res_ok b) (let* w := wget in
                   match wk_server w with None => none | Some s => let* a := on_server s m in k a end).
Proof.
  intros Hm Hk Hn σ Hσ. rewrite exec_bind. change (eval wget σ) with (ss_worker σ). change (exec wget σ) with σ.
  destruct (wk_server (ss_worker σ)) as [s|] eqn:Hs; [|by apply Hn].
  rewrite exec_bind. by apply Hk, on_server_res.
Qed.

Lemma record_event_res b e : pres (res_ok b) (record_event e).
Proof. apply keeps_res. unfold record_event. walk fail. Qed.

Lemma drain_loop_res b n : pres (res_ok b) (drain_loop n).
Proof.
  induction n as [|n IH]; cbn [drain_loop]; [apply pres_skip|].
  apply with_server_res; [apply next_event_safe| |apply pres_skip].
  intros [e|]; [|apply pres_skip]. apply pres_bind; [apply record_event_res|done].
Qed.

(** ** Stopping *)

(** Nothing is hosted or looked up. *)
Record stopped (σ : SSys) : Prop := {
  st_server : wk_server (ss_worker σ) = None;
  st_resolution : wk_resolution (ss_worker σ) = None;
  st_ready : wk_ready (ss_worker σ) = false;
  st_files : wk_ownsReadyFile (ss_worker σ) = false /\ wk_logFile (ss_worker σ) = false /\ ss_readyFiles σ = ∅;
  st_hosting : sv_hosting (wk_state (ss_worker σ)) = false;
  st_disc : disc false σ
}.

Lemma stopped_res b σ : stopped σ -> res_ok b σ.
Proof. intros [H1 H2 H3 [H4 [H5 H6]] H7 H8]. exists false. split; try done; [congruence|by rewrite H4]. Qed.

Lemma keeps_stopped {A} (m : M SSys A) : keeps hσ m -> pres stopped m.
Proof.
  intros K σ [H1 H2 H3 H4 H5 H6]. specialize (K σ). injection K as K1 K2 K3 K4 K5 K6 K7 K8 K9 K10 K11.
  split; unfold disc; rewrite ?K1, ?K2, ?K3, ?K4, ?K5, ?K6, ?K7, ?K8, ?K9, ?K10, ?K11; done.
Qed.

(** The first half of [stopServer]: the server is gone. *)
Record half (σ : SSys) : Prop := {
  ha_server : wk_server (ss_worker σ) = None;
  ha_disc : exists l, disc l σ;
  ha_file : ss_readyFiles σ =
    if wk_ownsReadyFile (ss_worker σ) then {[h_readyFile (wk_options (ss_worker σ))]} else ∅
}.

Lemma free_half σ : res_ok false σ -> half (exec (wkupd (fun k => {| k with wk_server := None |})) σ).
Proof. intros [l [H1 H2 H3 H4 H5]]. split; try done. by exists l. Qed.

Lemma stop_rest_1 σ :
  half σ ->
  let τ := exec (wkupd (fun k => {| k with wk_logFile := false |}) ;;
    let* k := wget in
    when (wk_ownsReadyFile k)
      (supd (fun σ => {| σ with ss_readyFiles := ss_readyFiles σ ∖ {[h_readyFile (wk_options k)]} |})) ;;
    wkupd (fun k => {| k with wk_ownsReadyFile := false |})) σ in
  wk_server (ss_worker τ) = None /\ wk_ownsReadyFile (ss_worker τ) = false /\
  wk_logFile (ss_worker τ) = false /\ ss_readyFiles τ = ∅ /\ exists l, disc l τ.
Proof.
  intros [H1 [l H2] H3] τ. unfold τ. rewrite !exec_bind, exec_when.
  repeat match goal with |- context [eval wget ?x] => change (eval wget x) with (ss_worker x) end.
  change (wk_ownsReadyFile (ss_worker (exec _ σ))) with (wk_ownsReadyFile (ss_worker σ)).
  destruct (wk_ownsReadyFile (ss_worker σ)); split_and!; try done; try (by exists l).
  change (ss_readyFiles σ ∖ {[h_readyFile (wk_options (ss_worker σ))]} = ∅). rewrite H3. apply difference_diag_L.
Qed.

Lemma on_discovery_close h σ l q r :
  state l q r (mk_dsys (wk_discovery (ss_worker σ)) (ss_dworld σ)) ->
  let τ := exec (on_discovery (closeSocket h)) σ in
  state_at h false l q r (mk_dsys (wk_discovery (ss_worker τ)) (ss_dworld τ)).
Proof.
  intros H τ. pose proof (closeSocket_spec h l q r _ H) as C.
  set (d := mk_dsys (wk_discovery (ss_worker σ)) (ss_dworld σ)) in *.
  change (state_at h false l q r (mk_dsys (dsc (exec (closeSocket h) d)) (dwd (exec (closeSocket h) d)))).
  by destruct (exec (closeSocket h) d).
Qed.

(** What is left of [stopServer] once the files are gone. *)
Lemma stop_rest_2 σ :
  wk_server (ss_worker σ) = None -> wk_ownsReadyFile (ss_worker σ) = false ->
  wk_logFile (ss_worker σ) = false -> ss_readyFiles σ = ∅ -> (exists l, disc l σ) ->
  stopped (exec (on_discovery (closeSocket Listener) ;;
    on_discovery (closeSocket Responder) ;;
    wkupd (fun k => {| k with wk_resolution := None; wk_ready := false |}) ;;
    vupd (fun v => {| v with sv_hosting := false; sv_server := status0 |})) σ).
Proof.
  intros H1 H2 H3 H4 [l [q H5]]. rewrite !exec_bind.
  apply (on_discovery_close Listener) in H5. cbn [state_at] in H5.
  set (σ1 := exec (on_discovery (closeSocket Listener)) σ) in *.
  assert (wk_server (ss_worker σ1) = None /\ wk_ownsReadyFile (ss_worker σ1) = false /\
    wk_logFile (ss_worker σ1) = false /\ ss_readyFiles σ1 = ∅) as (K1 & K2 & K3 & K4) by done.
  clearbody σ1. apply (on_discovery_close Responder) in H5. cbn [state_at] in H5.
  set (σ2 := exec (on_discovery (closeSocket Responder)) σ1) in *.
  assert (wk_server (ss_worker σ2) = None /\ wk_ownsReadyFile (ss_worker σ2) = false /\
    wk_logFile (ss_worker σ2) = false /\ ss_readyFiles σ2 = ∅) as (J1 & J2 & J3 & J4) by done.
  clearbody σ2. split; try done. by exists q.
Qed.

(** The server is closed, drained and freed. *)
Definition retire : M SSys unit :=
  let* k := wget in
  match wk_server k with
  | None => skip
  | Some s =>
      on_server s fz_server_close ;;
      drain ;;
      let* k := wget in
      match wk_server k with
      | None => skip
      | Some s => on_server s fz_server_destroy
      end ;;
      wkupd (fun k => {| k with wk_server := None |})
  end.

Lemma retire_half σ : res_ok false σ -> half (exec retire σ).
Proof.
  intros H. unfold retire. rewrite exec_bind, eval_wget, exec_wget.
  destruct (wk_server (ss_worker σ)) as [s|] eqn:Hs.
  - rewrite exec_bind. apply (on_server_res false _ s σ close_safe Hs) in H.
    revert H. generalize (exec (on_server s fz_server_close) σ). intros τ H. rewrite exec_bind.
    apply (drain_loop_res false 257) in H. fold drain in H. revert H. generalize (exec drain τ). intros τ' H.
    rewrite exec_bind, eval_wget, exec_wget, exec_bind. apply free_half.
    destruct (wk_server (ss_worker τ')) as [s'|] eqn:Hs'; [|done].
    by apply (on_server_res false _ s' τ' close_safe Hs').
  - rewrite exec_skip. destruct H as [l [H1 H2 H3 H4 H5]]. split; try done. by exists l.
Qed.

Lemma stopServer_stopped σ : res_ok false σ -> stopped (exec stopServer σ).
Proof.
  intros H. apply retire_half in H.
  assert (exec stopServer σ = exec (on_discovery (closeSocket Listener) ;;
    on_discovery (closeSocket Responder) ;;
    wkupd (fun k => {| k with wk_resolution := None; wk_ready := false |}) ;;
    vupd (fun v => {| v with sv_hosting := false; sv_server := status0 |}))
    (exec (wkupd (fun k => {| k with wk_logFile := false |}) ;;
      let* k := wget in
      when (wk_ownsReadyFile k)
        (supd (fun σ => {| σ with ss_readyFiles := ss_readyFiles σ ∖ {[h_readyFile (wk_options k)]} |})) ;;
      wkupd (fun k => {| k with wk_ownsReadyFile := false |})) (exec retire σ))) as ->.
  { unfold stopServer, retire. rewrite !exec_bind. reflexivity. }
  destruct (stop_rest_1 _ H) as (J1 & J2 & J3 & J4 & J5). by apply stop_rest_2.
Qed.

(** ** Being ready *)

(** The invariant while a server runs. *)
Definition serving (σ : SSys) : Prop := res_ok true σ /\ is_Some (wk_server (ss_worker σ)).

Lemma keeps_serving {A} (m : M SSys A) : keeps hσ m -> pres serving m.
Proof.
  intros K σ [H1 H2]. split; [by apply (keeps_res true m K)|]. specialize (K σ). injection K as K1 _ _ _ _ _ _ _ _ _ _.
  by rewrite K1.
Qed.

Lemma res_weaken σ : res_ok true σ -> res_ok false σ.
Proof.
  intros [l [H1 H2 H3 H4 H5]]. exists l. split; try done. intros s Hs. destruct (H4 s Hs) as (J1 & J2 & J3). auto.
Qed.

Lemma stopServer_res : pres (res_ok true) stopServer.
Proof. intros σ H. by apply stopped_res, stopServer_stopped, res_weaken. Qed.

Lemma stop_with_stopped a b σ : res_ok false σ -> stopped (exec (stop_with a b) σ).
Proof.
  intros H. unfold stop_with. rewrite !exec_bind. apply keeps_stopped; [walk fail|].
  apply stopServer_stopped. apply keeps_res; [walk fail|done].
Qed.

Lemma stop_with_res a b : pres (res_ok true) (stop_with a b).
Proof. intros σ H. by apply stopped_res, stop_with_stopped, res_weaken. Qed.

Lemma start_listening_res σ :
  serving σ -> wk_ready (ss_worker σ) = true -> serving (exec start_listening σ).
Proof.
  intros [[l [[q H1] H2 H3 H4 H5]] Hs] Hr. unfold start_listening. rewrite exec_bind, eval_wget, exec_wget, exec_bind.
  apply keeps_serving; [walk fail|].
  set (m := listen _ _). pose proof (listen_spec (sv_discoveryWarning (wk_state (ss_worker σ)))
    (h_bind (wk_options (ss_worker σ))) l q _ H1) as Hm. fold m in Hm.
  set (d := mk_dsys (wk_discovery (ss_worker σ)) (ss_dworld σ)) in *. clearbody m.
  split; [|exact Hs]. exists (fst (eval m d)). split; try done. exists q.
  change (state (fst (eval m d)) q (fst (eval m d)) (mk_dsys (dsc (exec m d)) (dwd (exec m d)))).
  by destruct (exec m d).
Qed.

(** Create the readiness file and note that it is ours. *)
Lemma own_ready_file path σ :
  serving σ -> h_readyFile (wk_options (ss_worker σ)) = path ->
  serving (exec (supd (fun σ => {| σ with ss_readyFiles := ss_readyFiles σ ∪ {[path]} |}) ;;
                 wkupd (fun k => {| k with wk_ownsReadyFile := true |})) σ).
Proof.
  intros [[l [H1 H2 H3 H4 H5]] [s Hs]] Hp. rewrite exec_bind. split; [|by exists s]. exists l. split; try done.
  - intros Hn. exfalso. assert (wk_server (ss_worker σ) = None) by exact Hn. congruence.
  - change (ss_readyFiles σ ∪ {[path]} = {[h_readyFile (wk_options (ss_worker σ))]}). rewrite H5, Hp.
    destruct (wk_ownsReadyFile (ss_worker σ)); set_solver.
Qed.

Lemma write_ready_file_serving path σ :
  serving σ -> h_readyFile (wk_options (ss_worker σ)) = path -> serving (exec (write_ready_file path) σ).
Proof.
  intros H Hp. unfold write_ready_file. rewrite exec_bind.
  assert (keeps hσ file_op) as K by (unfold file_op; walk fail).
  assert (h_readyFile (wk_options (ss_worker (exec file_op σ))) = path) as Hp' by exact Hp.
  apply (keeps_serving _ K) in H. revert H Hp'. generalize (exec file_op σ). intros τ H Hp'.
  destruct (negb _); [done|]. pose proof (own_ready_file path τ H Hp') as S. rewrite exec_bind in S.
  rewrite !exec_bind, exec_ret. by apply (keeps_serving _ K), (keeps_serving _ K).
Qed.

Lemma set_ready σ : serving σ -> serving (exec (wkupd (fun k => {| k with wk_ready := true |})) σ).
Proof.
  intros [[l [H1 H2 H3 H4 H5]] [s Hs]]. split; [|by exists s]. exists l. split; try done.
  intros Hn. exfalso. assert (wk_server (ss_worker σ) = None) by exact Hn. congruence.
Qed.

Lemma become_ready_res σ : serving σ -> res_ok true (exec become_ready σ).
Proof.
  intros H. unfold become_ready. rewrite exec_bind, eval_wget, exec_wget, exec_bind.
  match goal with |- context [exec (if ?c then ret false else ?m) σ] =>
    assert (serving (exec (if c then ret false else m) σ)) as H'
      by (destruct c; [done|by apply write_ready_file_serving]);
    generalize (eval (if c then ret false else m) σ);
    revert H'; generalize (exec (if c then ret false else m) σ) end.
  intros τ Hτ [|]; [by apply stop_with_res, Hτ|]. rewrite !exec_bind.
  apply start_listening_res; [|done]. apply keeps_serving; [walk fail|]. by apply set_ready.
Qed.

(** ** One turn of the server *)

Lemma drain_loop_serving n : pres serving (drain_loop n).
Proof.
  intros σ [H Hs]. split; [by apply drain_loop_res|]. clear H. revert σ Hs.
  induction n as [|n IH]; intros σ Hs; cbn [drain_loop]; [done|].
  rewrite exec_bind. change (eval wget σ) with (ss_worker σ). change (exec wget σ) with σ. destruct (wk_server (ss_worker σ)) as [s|] eqn:E1; [|done].
  rewrite exec_bind. destruct (eval (on_server s fz_server_next_event) σ); [|by rewrite exec_skip; eexists].
  rewrite exec_bind. apply IH. by eexists.
Qed.

Lemma on_server_serving {A} (m : M Sys A) s σ :
  server_safe m -> wk_server (ss_worker σ) = Some s -> res_ok true σ -> serving (exec (on_server s m) σ).
Proof. intros Hm Hs H. split; [by apply on_server_res|]. by eexists. Qed.

Lemma clock_serving : pres serving clock.
Proof.
  intros σ [H Hs]. split; [|exact Hs]. apply on_discovery_keeps; [apply clockMs_socks|done].
Qed.

Lemma advertise_res b status h : pres (res_ok b) (on_discovery (advertise status h)).
Proof. apply on_discovery_keeps. unfold advertise, dget. apply keeps_bind; [done|intros d].
  apply keeps_if; [apply keeps_skip|apply advertise_loop_socks]. Qed.

(** The end of a turn: announce the room and answer queries. *)
Lemma serve_end σ :
  res_ok true σ ->
  res_ok true (exec (let* k := wget in
      when (bool_decide (is_Some (wk_server k)) && wk_ready k)
        (when (d_listener (wk_discovery k) <? 0)
           (let* t := clock in
            when (u64 (t - d_lastListen (wk_discovery k)) >=? 2000) start_listening) ;;
         let* k := wget in
         on_discovery (advertise (sv_server (wk_state k)) (wk_options k)))) σ).
Proof.
  intros H. rewrite exec_bind, eval_wget, exec_wget, exec_when.
  destruct (bool_decide _ && _) eqn:Hb; [|done]. apply andb_true_iff in Hb as [Hs%bool_decide_eq_true Hr].
  rewrite exec_bind. match goal with |- res_ok true (exec _ ?x) => assert (serving x) as Hx end.
  - rewrite exec_when. case_if; [|done]. rewrite exec_bind.
    assert (serving (exec clock σ)) as Hc by (by apply clock_serving).
    assert (wk_ready (ss_worker (exec clock σ)) = true) as Hr' by exact Hr.
    rewrite exec_when. case_if; [by apply start_listening_res|done].
  - revert Hx. generalize (exec (when (d_listener (wk_discovery (ss_worker σ)) <? 0)
      (let* t := clock in
       when (u64 (t - d_lastListen (wk_discovery (ss_worker σ))) >=? 2000) start_listening)) σ).
    intros τ Hτ. rewrite exec_bind. by apply advertise_res, Hτ.
Qed.

Lemma serve_res : pres (res_ok true) serve.
Proof.
  intros σ H. unfold serve. rewrite exec_bind, eval_wget, exec_wget.
  destruct (wk_server (ss_worker σ)) as [s|] eqn:Hs; [|done]. rewrite exec_bind.
  apply (on_server_serving _ s σ (poll_safe 4) Hs) in H.
  generalize (eval (on_server s (fz_server_poll 4)) σ). intros result.
  revert H. generalize (exec (on_server s (fz_server_poll 4)) σ). intros σ1 H. rewrite exec_bind.
  apply (drain_loop_serving 257) in H. fold drain in H. revert H. generalize (exec drain σ1). intros σ2 H.
  rewrite exec_bind, eval_wget, exec_wget, exec_bind.
  match goal with |- res_ok true (exec _ ?x) => assert (serving x) as Hx; [|revert Hx; generalize x] end.
  { destruct (wk_server (ss_worker σ2)) as [s2|] eqn:Hs2; [|done]. rewrite exec_bind.
    apply keeps_serving; [walk fail|]. apply on_server_serving; [apply get_status_safe|done|apply H]. }
  clear H. intros σ3 H. rewrite exec_bind, eval_wget, exec_wget, exec_bind. apply serve_end.
  case_if; [by apply stop_with_res, H|]. case_if; [by apply become_ready_res|]. case_if; [|apply H].
  rewrite exec_bind, exec_when. apply clock_serving in H. case_if; [by apply stop_with_res, H|apply H].
Qed.

(** ** Commands *)

(** Options whose fields are in the range of their C types. *)
Definition wf_host (h : HostOptions) : Prop :=
  fits 32 (h_port h) /\ fits 32 (h_players h) /\ fits 32 (h_track h) /\ fits 32 (h_league h) /\ all_bytes (h_key h).

Lemma c_str_bytes l : all_bytes l -> all_bytes (c_str l).
Proof. induction 1 as [|c l Hc _ IH]; simpl; [constructor|]. case_if; [constructor|by constructor]. Qed.

Lemma host_config_wf h nonce : wf_host h -> fits 64 nonce -> wf_config (host_config h nonce).
Proof. intros (H1 & H2 & H3 & H4 & H5) Hn. repeat split; try apply H1; try apply H2; try apply H3; try apply H4;
  try apply Hn. by apply c_str_bytes. Qed.

Lemma offer_res b a k nonce σ :
  res_ok b σ -> (forall s, wk_server (ss_worker σ) = Some s -> hosted nonce s) ->
  res_ok b (exec (offer a k nonce) σ).
Proof.
  intros [l [H1 H2 H3 H4 H5]] Hn. unfold offer, exec, supd, modify. cbn [snd].
  case_if; [|by exists l]. exists l. split; try done. intros s Hs.
  destruct (H4 s Hs) as (J1 & J2 & nn & J3 & J4 & J5). split_and!; try done.
  exists nn. split_and!; try done. intros c [= <-]. cbn. destruct J4 as [_ _ O]. destruct (Hn s Hs) as [_ _ O']. congruence.
Qed.

Lemma check_resolution_res : pres (res_ok true) check_resolution.
Proof.
  intros σ H. unfold check_resolution. rewrite exec_bind. change (eval sget σ) with σ. change (exec sget σ) with σ.
  cbv zeta. destruct (wk_resolution (ss_worker σ)) as [i|] eqn:Hr; [|done].
  assert (wk_server (ss_worker σ) = None) as Hn.
  { destruct H as [l [_ _ _ H4 _]]. destruct (wk_server (ss_worker σ)) as [s|]; [|done].
    destruct (H4 s eq_refl) as [Hr' _]. congruence. }
  rewrite exec_when. case_if; [|done]. rewrite exec_bind.
  match goal with |- res_ok true (exec _ ?x) =>
    assert (res_ok true x /\ wk_server (ss_worker x) = None) as [Hx Hx']; [|revert Hx Hx'; generalize x] end.
  { split; [|exact Hn]. destruct H as [l [H1 H2 H3 H4 H5]]. exists l. split; try done.
    intros s Hs. assert (wk_server (ss_worker σ) = Some s) by exact Hs. congruence. }
  intros τ Hτ Hτn. case_if; [by apply keeps_res; [unfold report; walk fail|]|].
  rewrite exec_bind. apply offer_res; [by apply keeps_res; [walk fail|]|].
  intros s Hs. assert (wk_server (ss_worker τ) = Some s) by exact Hs. congruence.
Qed.

(** Nothing is hosted and no connection is on offer. *)
Definition fresh (σ : SSys) : Prop := stopped σ /\ ss_connection σ = None.

Lemma keeps_fresh {A} (m : M SSys A) : keeps hσ m -> pres fresh m.
Proof.
  intros K σ [H1 H2]. split; [by apply (keeps_stopped m K)|]. specialize (K σ). injection K as _ _ _ _ _ _ _ _ K _ _.
  by rewrite K.
Qed.

Lemma set_options_fresh f : pres fresh (wkupd (fun k => {| k with wk_options := f k |})).
Proof. intros σ [[H1 H2 H3 H4 H5 H6] H7]. split; [|exact H7]. by split. Qed.

Lemma randomNonce_fresh : pres fresh (on_discovery randomNonce).
Proof.
  intros σ [[H1 H2 H3 H4 H5 [q H6]] H7]. split; [|exact H7]. split; try done. exists q.
  set (d := mk_dsys (wk_discovery (ss_worker σ)) (ss_dworld σ)) in *.
  change (state false q false (mk_dsys (dsc (exec randomNonce d)) (dwd (exec randomNonce d)))).
  pose proof (hoare_keeps false q false randomNonce randomNonce_socks d H6) as C. by destruct (exec randomNonce d).
Qed.

(** A server was just created for the owner [nonce]. *)
Definition created (nonce : Z) (strict : bool) (σ : SSys) : Prop :=
  res_ok strict σ /\ exists s, wk_server (ss_worker σ) = Some s /\ hosted nonce s.

Lemma keeps_created {A} nonce b (m : M SSys A) : keeps hσ m -> pres (created nonce b) m.
Proof.
  intros K σ [H1 H2]. split; [by apply (keeps_res b m K)|]. specialize (K σ). injection K as K1 _ _ _ _ _ _ _ _ _ _.
  by rewrite K1.
Qed.

Lemma create_server_spec c σ :
  wf_config c -> c_owner_nonce c <> 0 -> fresh σ ->
  match eval (create_server c) σ with
  | Some _ => fresh (exec (create_server c) σ)
  | None => created (c_owner_nonce c) false (exec (create_server c) σ)
  end.
Proof.
  intros Hc Hn [[H1 H2 H3 [H4 [H5 H6]] H7 H8] H9]. unfold create_server, eval, exec.
  destruct (fz_server_create (Some c) (ss_world σ)) as [[error|s] w] eqn:E1; cbn [fst snd].
  - split; [|exact H9]. by split.
  - pose proof (hosted_create c _ s w Hc E1) as Hh. split; [|by exists s].
    exists false. split; try done.
    + intros s' [= <-]. split_and!; try done. exists (c_owner_nonce c). split_and!; try done.
      intros x Hx. assert (ss_connection σ = Some x) by exact Hx. congruence.
    + change (ss_readyFiles σ = if wk_ownsReadyFile (ss_worker σ)
        then {[h_readyFile (wk_options (ss_worker σ))]} else ∅). by rewrite H4.
Qed.

(** The end of a successful host command. *)
Lemma hosting_begins nonce o σ :
  created nonce false σ ->
  res_ok true (exec (wkupd (fun k => {| k with wk_logFile := negb (String.eqb (h_logPath o) "") |}) ;;
    vupd (fun v => {| v with sv_hosting := true |}) ;;
    let* t := clock in
    wkupd (fun k => {| k with wk_started := t |}) ;;
    let* k := wget in
    vupd (fun v => {| v with sv_addresses := host_addresses (d_networks (wk_discovery k)) o |}) ;;
    offer ((if any_address (h_bind o) then "127.0.0.1" else h_bind o) +:+ ":" +:+ dec (h_port o))
      (h_key o) nonce) σ).
Proof.
  intros [[l [H1 H2 H3 H4 H5]] [s [Hs Hh]]]. rewrite exec_bind, exec_bind.
  match goal with |- res_ok true (exec _ ?x) => assert (created nonce true x) as Hx; [|revert Hx; generalize x] end.
  { split; [|by exists s]. exists l. split; try done.
    - intros Hn. exfalso. assert (wk_server (ss_worker σ) = None) by exact Hn. congruence.
    - intros s' Hs'. assert (wk_server (ss_worker σ) = Some s') as Hs2 by exact Hs'.
      destruct (H4 s' Hs2) as (J1 & _ & J3). done. }
  intros τ [Hτ Hτs]. rewrite exec_bind.
  assert (created nonce true (exec clock τ)) as Hc
    by (split; [by apply on_discovery_keeps; [apply clockMs_socks|]|exact Hτs]).
  revert Hc. generalize (exec clock τ). intros τ' Hc. rewrite exec_bind.
  apply (keeps_created nonce true (wkupd (fun k => {| k with wk_started := eval clock τ |}))) in Hc; [|walk fail].
  revert Hc. generalize (exec (wkupd (fun k => {| k with wk_started := eval clock τ |})) τ'). intros τ2 Hc.
  rewrite exec_bind, eval_wget, exec_wget, exec_bind.
  match goal with |- res_ok true (exec _ (exec ?m τ2)) =>
    assert (created nonce true (exec m τ2)) as Hd by (apply keeps_created; [walk fail|done]) end.
  apply offer_res; [apply Hd|]. destruct Hd as [_ [s2 [E2 Hh2]]]. intros s3 E3. congruence.
Qed.

Lemma start_hosting_res o σ : wf_host o -> fresh σ -> res_ok true (exec (start_hosting o) σ).
Proof.
  intros Ho H. unfold start_hosting. rewrite exec_bind, exec_bind, exec_bind.
  match goal with |- res_ok true (exec _ (exec (on_discovery randomNonce) ?x)) =>
    assert (fresh x) as Hx; [|revert Hx; generalize x] end.
  { apply keeps_fresh; [walk fail|]. by apply set_options_fresh. }
  intros σ1 H1. assert (fits 64 (eval (on_discovery randomNonce) σ1)) as Hf.
  { unfold on_discovery, eval, randomNonce, bind, gets, wupd, modify, ret. cbn. destruct (random_device _); [apply fits_u64|done]. }
  apply randomNonce_fresh in H1. revert H1 Hf. generalize (exec (on_discovery randomNonce) σ1).
  generalize (eval (on_discovery randomNonce) σ1). intros nonce τ H1 Hf.
  destruct (Z.eqb_spec nonce 0) as [|Hn]; [apply stopped_res; apply keeps_stopped; [unfold report; walk fail|apply H1]|].
  rewrite exec_bind. match goal with |- res_ok true (exec _ ?x) =>
    assert (fresh x) as Hx by (by apply (set_options_fresh (fun _ => {| o with h_name := host_name o |})));
    revert Hx; generalize x end.
  intros τ2 H2. case_if; [apply stopped_res, keeps_stopped; [unfold report; walk fail|apply H2]|].
  rewrite exec_bind. pose proof (create_server_spec (host_config o nonce) τ2 (host_config_wf o nonce Ho Hf) Hn H2) as Hc.
  destruct (eval (create_server _) τ2); [apply stopped_res, keeps_stopped; [unfold report; walk fail|apply Hc]|].
  change (c_owner_nonce (host_config o nonce)) with nonce in Hc. revert Hc.
  generalize (exec (create_server (host_config o nonce)) τ2). intros τ3 Hc. rewrite exec_bind.
  match goal with |- res_ok true (exec _ ?x) => assert (created nonce false x) as Hx; [|revert Hx; generalize x] end.
  { apply keeps_created; [|done]. unfold file_op. walk fail. }
  intros τ4 H4. case_if; [|by apply hosting_begins]. rewrite !exec_bind. apply stopped_res.
  apply keeps_stopped; [walk fail|]. apply stopServer_stopped. apply keeps_res; [walk fail|apply H4].
Qed.

End Worker.
