(* ===== verification/SessionOwner.v ===== *)
(** * Hosting: the owner and the announcement

    A hosted room is announced from the moment its owner has joined. The room
    closes when the owner leaves, and the worker stops a closed server in the
    turn in which it closed, so that in every state between two steps of the
    worker an announced room is open and its owner sits in the first slot. *)

From S2P Require Import Prelude State Text Protocol Server Room ServerCore ServerRefine Scenario ServerRun Events ServerProps Poll Discovery DiscoveryProps DiscoverySockets Address Session SessionQueue SessionHost.

Local Open Scope list_scope.
Local Open Scope Z_scope.
Local Open Scope fz_scope.

(** ** The rules of the room *)

(** The owner is there, or the room has ended. *)
Definition attended (r : room) : Prop := r_closed r = true \/ exists st, seated r 0 st.

Lemma step_closed r r' : step r r' -> r_closed r = true -> r_closed r' = true.
Proof. destruct 1; intros Hc; try done; try congruence. unfold Room.leave. by case_match. Qed.

Lemma seated_map f r i st : seated r i st -> seated (map_seats f r) i (f st).
Proof. unfold seated, map_seats. cbn. intros H. by rewrite list_lookup_fmap, H. Qed.

Lemma seated_set r i o j st :
  seated r j st -> (i = j -> is_Some o) -> exists st', seated (set_seat i o r) j st'.
Proof.
  unfold seated, set_seat. cbn. intros H Ho. destruct (decide (i = j)) as [->|Hn].
  - destruct (Ho eq_refl) as [st' ->]. exists st'. apply list_lookup_insert_eq. by eapply lookup_lt_Some.
  - exists st. by rewrite list_lookup_insert_ne.
Qed.

(** The owner of an owned room leaves only by closing it. *)
Lemma step_attended r r' : step r r' -> r_owner r <> 0 -> attended r -> attended r'.
Proof.
  intros S Ho [Hc|[st0 H0]]; [left; by eapply step_closed|]. unfold attended. destruct S; auto; try (right; by exists st0).
  - right. by apply (seated_set r i (Some (mk_seat a t n Joined 0 0)) 0 st0).
  - right. destruct H1 as [|Hi]; [done|]. destruct (seated_set r i None 0 st0 H0) as [st' H']; [done|].
    unfold Room.leave. case_if; [|by exists st'].
    exists (set_armed 0 (set_rank Joined st')).
    exact (seated_map (fun st => set_armed 0 (set_rank Joined st)) (set_seat i None r) 0 st' H').
  - right. by apply (seated_set r i (Some _) 0 st0).
  - right. by apply (seated_set r i (Some _) 0 st0).
  - right. by apply (seated_set r i (Some _) 0 st0).
  - right. by apply (seated_set r i (Some _) 0 st0).
  - right. eexists. exact (seated_map (fun st => set_armed 0 (set_rank Joined st)) r 0 st0 H0).
  - right. eexists. exact (seated_map (set_armed 0) r 0 st0 H0).
  - right. eexists. exact (seated_map (set_rank Racer) r 0 st0 H0).
Qed.

Lemma steps_attended r r' : steps r r' -> r_owner r <> 0 -> attended r -> attended r'.
Proof.
  induction 1 as [|x y z Hxy _ IH]; intros Ho Ha; [done|]. apply IH; [by rewrite (step_owner _ _ Hxy)|].
  by eapply step_attended.
Qed.

(** ** The server *)

(** The owner's seat, in the server's own fields. *)
Lemma attended_core c :
  length (k_players c) = 4%nat ->
  attended (abs c) <-> k_closed c = true \/ occupied (pl_at (k_players c) 0) = true.
Proof.
  intros Hl. unfold attended. change (r_closed (abs c)) with (k_closed c).
  assert (k_players c !! 0%nat = Some (pl_at (k_players c) 0)) as Hp by (apply pl_at_lookup; [done|lia]).
  split; (intros [H|H]; [by left|right]).
  - destruct H as [st Hs]. apply seated_inv in Hs as (p & H1 & H2 & _). congruence.
  - eexists. by apply (seated_sit c 0 _ Hp).
Qed.

Section Server.
Context {E : Env} {L : EnvLaws E}.

(** A poll that says the room goes on has not closed it. *)
Lemma poll_open wait σ :
  0 < eval (fz_server_poll wait) σ -> s_closed (srv (exec (fz_server_poll wait) σ)) = false.
Proof.
  unfold fz_server_poll. rewrite exec_bind, eval_bind. change (eval get σ) with (srv σ). change (exec get σ) with σ.
  destruct (s_closed (srv σ)); [done|]. rewrite exec_bind, eval_bind. generalize (eval now_us σ) (exec now_us σ).
  intros before σ1. rewrite exec_bind, eval_bind. set (timeout := poll_timeout _ _ _).
  generalize (eval (poll_socket timeout) σ1) (exec (poll_socket timeout) σ1). intros r σ2.
  destruct (_ && _); [done|]. rewrite exec_bind, eval_bind.
  generalize (eval (receive_loop 128) σ2) (exec (receive_loop 128) σ2). intros [|] σ3; [done|].
  rewrite poll_end_result. by destruct (s_closed _).
Qed.

(** While the room goes on its owner stays. *)
Lemma poll_owner wait nonce s w :
  nonce <> 0 -> hosted nonce s -> occupied (player_at s 0) = true ->
  let τ := exec (fz_server_poll wait) (mk_sys s w) in
  s_closed (srv τ) = false -> occupied (player_at (srv τ) 0) = true.
Proof.
  intros Hn [G _ O] Ho τ Hc.
  destruct (fz_server_poll_moves wait (mk_sys s w) G) as [W S]. fold τ in W, S.
  assert (attended (abs (coreσ τ))) as A.
  { apply (steps_attended _ _ S); [by rewrite <- O in Hn|]. apply attended_core; [apply G|]. right.
    by rewrite player_at_pl in Ho. }
  apply attended_core in A as [A|A]; [exact (False_rect _ (eq_true_false_abs _ A Hc))|by rewrite player_at_pl|apply W].
Qed.

End Server.

(** ** The worker *)

(** Between two steps: a server is open, and once the room is announced its
    owner is there. *)
Definition owner_inv (σ : SSys) : Prop :=
  forall s, wk_server (ss_worker σ) = Some s ->
    s_closed s = false /\ (wk_ready (ss_worker σ) = true -> occupied (player_at s 0) = true).

(** The room of the server, and whether it is announced. *)
Definition cσ (σ : SSys) : option Core * bool := (core <$> wk_server (ss_worker σ), wk_ready (ss_worker σ)).

(** A server may have been created, and nothing is announced. *)
Definition quiet (σ : SSys) : Prop := wk_ready (ss_worker σ) = false /\ owner_inv σ.

Lemma owner_none σ : wk_server (ss_worker σ) = None -> owner_inv σ.
Proof. intros H s Hs. congruence. Qed.

Lemma core_fields s s' :
  core s = core s' -> s_closed s = s_closed s' /\ forall i, player_at s i = player_at s' i.
Proof. intros H. split; [exact (f_equal k_closed H)|]. intros i. by rewrite !player_at_pl, H. Qed.

Lemma owner_cσ σ τ : cσ τ = cσ σ -> owner_inv σ -> owner_inv τ.
Proof.
  unfold cσ. intros Hc H s Hs. apply pair_equal_spec in Hc as [H1 H2]. rewrite Hs in H1.
  destruct (wk_server (ss_worker σ)) as [s0|] eqn:Hs0; [|done]. apply (inj Some), core_fields in H1 as [E1 E2].
  rewrite E1, E2, H2. by apply H.
Qed.

Section Worker.
Context {E : Env} {L : EnvLaws E} {D : DEnv} {DL : DEnvLaws D} {F : SEnv}.

Lemma keeps_owner {A} (m : M SSys A) : keeps cσ m -> pres owner_inv m.
Proof. intros K σ H. by apply (owner_cσ σ). Qed.

Lemma h_cσ {A} (m : M SSys A) : keeps hσ m -> keeps cσ m.
Proof. intros K σ. specialize (K σ). injection K as K1 _ K3 _ _ _ _ _ _ _ _. unfold cσ. by rewrite K1, K3. Qed.

Lemma keeps_quiet {A} (m : M SSys A) : keeps cσ m -> pres quiet m.
Proof.
  intros K σ [H1 H2]. split; [|by apply (keeps_owner m)]. specialize (K σ). injection K as _ K. by rewrite K.
Qed.

Lemma stopServer_none σ :
  wk_server (ss_worker (exec stopServer σ)) = None /\ wk_ready (ss_worker (exec stopServer σ)) = false.
Proof.
  unfold stopServer. rewrite exec_bind. change (eval wget σ) with (ss_worker σ). change (exec wget σ) with σ.
  rewrite exec_bind. set (τ := exec (match wk_server (ss_worker σ) with None => skip | Some _ => _ end) σ).
  assert (wk_server (ss_worker τ) = None) as Hτ.
  { unfold τ. destruct (wk_server (ss_worker σ)) as [s|] eqn:Hs; [|exact Hs]. rewrite exec_bind.
    generalize (exec (on_server s fz_server_close) σ). intros σ1. rewrite exec_bind. generalize (exec drain σ1). intros σ2.
    rewrite exec_bind. change (exec wget σ2) with σ2. rewrite exec_bind.
    match goal with |- context [exec (wkupd _) ?x] => generalize x end. by intros σ3. }
  clearbody τ. rewrite exec_bind. set (τ1 := exec (wkupd _) τ).
  assert (wk_server (ss_worker τ1) = None) as H1 by exact Hτ. clearbody τ1. rewrite exec_bind.
  change (eval wget τ1) with (ss_worker τ1). change (exec wget τ1) with τ1. rewrite exec_bind, exec_when.
  match goal with |- context [exec _ (if ?b then ?x else τ1)] => set (τ2 := if b then x else τ1) end.
  assert (wk_server (ss_worker τ2) = None) as H2 by (unfold τ2; by case_if). clearbody τ2.
  rewrite !exec_bind. by split.
Qed.

(** No server is left, and no announcement of one. *)
Definition released (σ : SSys) : Prop := wk_server (ss_worker σ) = None /\ wk_ready (ss_worker σ) = false.

Lemma released_owner σ : released σ -> owner_inv σ.
Proof. intros [H _]. by apply owner_none. Qed.

Lemma stopServer_released σ : released (exec stopServer σ).
Proof. exact (stopServer_none σ). Qed.

Lemma stop_with_released a b σ : released (exec (stop_with a b) σ).
Proof.
  unfold stop_with. rewrite exec_bind, exec_bind.
  match goal with |- released (exec _ (exec stopServer ?x)) => pose proof (stopServer_released x) as H end.
  revert H. generalize (exec stopServer (exec (vupd (fun v => {| v with sv_message := b |})) σ)). by intros τ [H1 H2].
Qed.

Lemma stop_with_owner a b σ : owner_inv (exec (stop_with a b) σ).
Proof. apply released_owner, stop_with_released. Qed.

Lemma record_event_c e : keeps cσ (record_event e).
Proof. apply h_cσ. unfold record_event. walk fail. Qed.

(** A call that does not touch the room. *)
Lemma on_server_c {A} (m : M Sys A) s σ :
  keeps coreσ m -> wk_server (ss_worker σ) = Some s -> cσ (exec (on_server s m) σ) = cσ σ.
Proof.
  intros K Hs. unfold cσ. rewrite Hs. specialize (K (mk_sys s (ss_world σ))).
  change (core (srv (exec m (mk_sys s (ss_world σ)))) = core s) in K.
  change ((Some (core (srv (exec m (mk_sys s (ss_world σ))))), wk_ready (ss_worker σ)) =
          (Some (core s), wk_ready (ss_worker σ))). by rewrite K.
Qed.

Lemma drain_loop_c n : keeps cσ (drain_loop n).
Proof.
  induction n as [|n IH]; intros σ; cbn [drain_loop]; [done|]. rewrite exec_bind.
  change (eval wget σ) with (ss_worker σ). change (exec wget σ) with σ.
  destruct (wk_server (ss_worker σ)) as [s|] eqn:Hs; [|done]. rewrite exec_bind.
  pose proof (on_server_c _ s σ fz_server_next_event_keeps Hs) as H1.
  generalize (eval (on_server s fz_server_next_event) σ). revert H1.
  generalize (exec (on_server s fz_server_next_event) σ). intros τ H1 [e|]; [|by rewrite exec_skip].
  by rewrite exec_bind, IH, record_event_c.
Qed.

(** ** One turn of the server *)

Lemma poll_turn s σ :
  res_ok true σ -> owner_inv σ -> wk_server (ss_worker σ) = Some s ->
  0 < eval (on_server s (fz_server_poll 4)) σ -> owner_inv (exec (on_server s (fz_server_poll 4)) σ).
Proof.
  intros [l [_ _ _ R4 _]] H Hs Hr. destruct (R4 s Hs) as (_ & _ & nonce & Hn & Hh & _). destruct (H s Hs) as [_ H2].
  pose proof (poll_open 4 (mk_sys s (ss_world σ)) Hr) as Hc. intros s' [= <-]. split; [exact Hc|].
  intros Hy. exact (poll_owner 4 nonce s (ss_world σ) Hn Hh (H2 Hy) Hc).
Qed.

(** The owner the status speaks of is in the first slot. *)
Definition joined_inv (σ : SSys) : Prop :=
  o_owner_joined (sv_server (wk_state (ss_worker σ))) = true ->
  forall s, wk_server (ss_worker σ) = Some s -> occupied (player_at s 0) = true.

Lemma status_turn σ :
  owner_inv σ -> is_Some (wk_server (ss_worker σ)) ->
  let τ := exec (match wk_server (ss_worker σ) with
                 | None => skip
                 | Some s => let* status := on_server s fz_server_get_status in
                             vupd (fun v => {| v with sv_server := status |})
                 end) σ in
  owner_inv τ /\ joined_inv τ.
Proof.
  intros H [s Hs] τ. unfold τ. rewrite Hs, exec_bind.
  pose proof (on_server_c _ s σ fz_server_get_status_keeps Hs) as Hc.
  set (status := eval (on_server s fz_server_get_status) σ).
  assert (o_owner_joined status = negb (s_owner_nonce s =? 0) && occupied (player_at s 0)) as Ho by done.
  clearbody status. set (σ1 := exec (on_server s fz_server_get_status) σ) in *. clearbody σ1. split.
  - apply (owner_cσ σ); [by rewrite <- Hc|done].
  - intros Hj s1 Hs1. assert (wk_server (ss_worker σ1) = Some s1) as Hs1' by exact Hs1.
    assert (o_owner_joined status = true) as Hj' by exact Hj. rewrite Ho in Hj'. apply andb_true_iff in Hj' as [_ Hj'].
    unfold cσ in Hc. rewrite Hs, Hs1' in Hc. apply pair_equal_spec in Hc as [Hc _].
    apply (inj Some), core_fields in Hc as [_ Hc]. by rewrite Hc.
Qed.

Lemma start_listening_c : keeps cσ start_listening.
Proof. unfold start_listening. walk fail. Qed.

Lemma become_ready_owner σ :
  owner_inv σ -> (forall s, wk_server (ss_worker σ) = Some s -> occupied (player_at s 0) = true) ->
  owner_inv (exec become_ready σ).
Proof.
  intros H Ho. unfold become_ready. rewrite exec_bind. change (eval wget σ) with (ss_worker σ).
  change (exec wget σ) with σ. cbv zeta. rewrite exec_bind. set (m := if String.eqb _ _ then _ else _).
  assert (keeps (fun σ => wk_server (ss_worker σ)) m) as K
    by (unfold m, write_ready_file, file_op; walk fail).
  specialize (K σ). cbv beta in K. revert K. generalize (eval m σ) (exec m σ). intros failed τ K.
  destruct failed; [apply stop_with_owner|]. rewrite exec_bind, exec_bind.
  apply (keeps_owner _ start_listening_c). intros s Hs. assert (wk_server (ss_worker τ) = Some s) as Hs' by exact Hs.
  rewrite K in Hs'. split; [by apply H|]. intros _. by apply Ho.
Qed.

Lemma serve_owner σ : res_ok true σ -> owner_inv σ -> owner_inv (exec serve σ).
Proof.
  intros R H. unfold serve. rewrite exec_bind. change (eval wget σ) with (ss_worker σ). change (exec wget σ) with σ.
  destruct (wk_server (ss_worker σ)) as [s|] eqn:Hs; [|done]. rewrite exec_bind.
  pose proof (poll_turn s σ R H Hs) as H1. set (result := eval (on_server s (fz_server_poll 4)) σ) in *.
  set (σ1 := exec (on_server s (fz_server_poll 4)) σ) in *.
  assert (is_Some (wk_server (ss_worker σ1))) as S1 by (by eexists). clearbody result σ1.
  rewrite exec_bind. pose proof (drain_loop_c 257 σ1) as K2. fold drain in K2. set (σ2 := exec drain σ1) in *. clearbody σ2.
  assert (0 < result -> owner_inv σ2) as H2 by (intros Hr; by apply (owner_cσ σ1); [|apply H1]).
  assert (is_Some (wk_server (ss_worker σ2))) as S2.
  { injection K2 as K2 _. destruct S1 as [s1 S1]. rewrite S1 in K2. by destruct (wk_server (ss_worker σ2)). }
  rewrite exec_bind. change (eval wget σ2) with (ss_worker σ2). change (exec wget σ2) with σ2. rewrite exec_bind.
  pose proof (fun Hr => status_turn σ2 (H2 Hr) S2) as H3. cbv zeta in H3.
  match type of H3 with _ -> owner_inv ?x /\ _ => set (σ3 := x) in * end. clearbody σ3.
  rewrite exec_bind. change (eval wget σ3) with (ss_worker σ3). change (exec wget σ3) with σ3. rewrite exec_bind.
  match goal with |- owner_inv (exec _ ?x) => assert (owner_inv x) as H4; [|revert H4; generalize x] end.
  { destruct (Z.leb_spec result 0) as [Hr|Hr]; [apply stop_with_owner|]. destruct (H3 Hr) as [H4 H5].
    destruct (wk_ready (ss_worker σ3)); cbn [negb andb]; [done|].
    destruct (o_owner_joined (sv_server (wk_state (ss_worker σ3)))) eqn:Hj; [by apply become_ready_owner; [|apply H5]|].
    rewrite exec_bind, exec_when. case_if; [apply stop_with_owner|]. exact H4. }
  clear. intros σ4 H4. apply keeps_owner; [|done]. unfold clock, start_listening. walk fail.
Qed.

(** ** Commands *)

Lemma create_server_quiet c : wf_config c -> pres quiet (create_server c).
Proof.
  intros Hc σ [H1 H2]. unfold create_server, exec.
  destruct (fz_server_create (Some c) (ss_world σ)) as [[error|s] w] eqn:E1; cbn [snd]; [by split|].
  destruct (fz_server_create_inv c _ s w E1 Hc) as [_ A]. split; [exact H1|]. intros s' [= <-].
  split; [exact (f_equal r_closed A)|]. intros Hr. exfalso. assert (wk_ready (ss_worker σ) = true) as Hr' by exact Hr. congruence.
Qed.

Lemma stopServer_quiet : pres quiet stopServer.
Proof. intros σ _. pose proof (stopServer_released σ) as H. split; [apply H|by apply released_owner]. Qed.

Lemma offer_c a k n : keeps cσ (offer a k n).
Proof. intros σ. unfold offer, supd, exec, modify. cbn [snd]. by case_if. Qed.

Lemma start_hosting_quiet o : wf_host o -> pres quiet (start_hosting o).
Proof.
  intros Ho. unfold start_hosting, report.
  do 2 (apply pres_bind; [by apply keeps_quiet|intros _]).
  intros σ H. rewrite exec_bind.
  assert (fits 64 (eval (on_discovery randomNonce) σ)) as Hf.
  { unfold on_discovery, eval, randomNonce, bind, gets, wupd, modify, ret. cbn. destruct (random_device _); [apply fits_u64|done]. }
  apply (keeps_quiet (on_discovery randomNonce)) in H; [|by intros ?]. revert H Hf.
  generalize (exec (on_discovery randomNonce) σ) (eval (on_discovery randomNonce) σ). intros τ nonce H Hf. revert τ H.
  match goal with |- forall τ, quiet τ -> quiet (exec ?m τ) => change (pres quiet m) end.
  apply pres_if; [by apply keeps_quiet|]. apply pres_bind; [by apply keeps_quiet|intros _].
  apply pres_if; [by apply keeps_quiet|].
  apply pres_bind; [by apply create_server_quiet, host_config_wf|intros [error|]; [by apply keeps_quiet|]].
  apply pres_bind; [apply keeps_quiet; unfold file_op; walk fail|intros opened]. apply pres_if.
  - apply pres_bind; [by apply keeps_quiet|intros _].
    apply pres_bind; [apply stopServer_quiet|intros _; by apply keeps_quiet].
  - apply keeps_quiet. unfold clock. walk ltac:(apply offer_c).
Qed.

(** After a command nothing is announced yet. *)
Lemma run_command_owner c σ : wf_host (k_host c) -> owner_inv (exec (run_command c) σ).
Proof.
  intros Hc. unfold run_command. rewrite exec_bind.
  assert (quiet (exec stopServer σ)) as H
    by (pose proof (stopServer_released σ) as H; split; [apply H|by apply released_owner]).
  revert H. generalize (exec stopServer σ). clear σ. intros σ H.
  match goal with |- owner_inv (exec ?m σ) => enough (pres quiet m) as P by (apply (P σ H)) end.
  do 2 (apply pres_bind; [by apply keeps_quiet|intros _]). apply pres_if; [by apply start_hosting_quiet|].
  apply keeps_quiet. unfold resolve. walk fail.
Qed.

Lemma check_resolution_c : keeps cσ check_resolution.
Proof. unfold check_resolution, report. walk ltac:(apply offer_c). Qed.

End Worker.
