(* ===== verification/SessionRun.v ===== *)
(** * The session over its whole life

    The invariant of [SessionHost] through every action of the threads: what a
    session hosts and owns in every interleaving, and what is left of it once
    its worker has ended. *)

From S2P Require Import Prelude State Text Protocol Server Room ServerCore ServerRefine Scenario ServerRun Events ServerProps Discovery DiscoveryProps DiscoverySockets Address Session SessionQueue SessionHost SessionOwner.

Local Open Scope list_scope.
Local Open Scope Z_scope.
Local Open Scope fz_scope.

(** The options of a command are in the range of their C types. *)
Definition wf_command (c : Command) : Prop := wf_host (k_host c).

Definition wf_action (a : action) : Prop :=
  match a with UiHost h => wf_host h | _ => True end.

(** Nothing is left of a worker. *)
Definition gone (σ : SSys) : Prop := stopped σ /\ dw_open (ss_dworld σ) = ∅.

(** The session's resources, for a worker at [p]. *)
Definition own_at (p : place) (σ : SSys) : Prop :=
  if working p then res_ok true σ else gone σ.

(** The commands that wait. *)
Definition given (σ : SSys) : Prop := Forall wf_command (taken (ss_place σ) ++ ss_commands σ).

Definition own_ok (σ : SSys) : Prop := own_at (ss_place σ) σ /\ given σ.

Lemma keeps_gone {A} (m : M SSys A) : keeps hσ m -> pres gone m.
Proof.
  intros K σ [H1 H2]. split; [by apply (keeps_stopped m K)|]. specialize (K σ). injection K as _ _ _ _ _ _ _ _ _ _ K.
  by rewrite K.
Qed.

Lemma keeps_own_at {A} p (m : M SSys A) : keeps hσ m -> pres (own_at p) m.
Proof. intros K. unfold own_at. destruct (working p); [by apply keeps_res|by apply keeps_gone]. Qed.

(** A connection is withdrawn. *)
Lemma withdraw_res b σ τ :
  res_ok b σ -> ss_worker τ = ss_worker σ -> ss_dworld τ = ss_dworld σ -> ss_readyFiles τ = ss_readyFiles σ ->
  ss_connection τ = None -> res_ok b τ.
Proof.
  intros [l [H1 H2 H3 H4 H5]] E1 E2 E3 E4. exists l. split; unfold disc; rewrite ?E1, ?E2, ?E3; try done.
  intros s Hs. destruct (H4 s Hs) as (J1 & J2 & n & J3 & J4 & _). split_and!; try done.
  exists n. split_and!; try done. by rewrite E4.
Qed.

Lemma withdraw_gone σ τ :
  gone σ -> ss_worker τ = ss_worker σ -> ss_dworld τ = ss_dworld σ -> ss_readyFiles τ = ss_readyFiles σ -> gone τ.
Proof.
  intros [[H1 H2 H3 H4 H5 H6] H7] E1 E2 E3. split; [|by rewrite E2].
  split; unfold disc; rewrite ?E1, ?E2, ?E3; done.
Qed.

Lemma withdraw_own_at p σ τ :
  own_at p σ -> ss_worker τ = ss_worker σ -> ss_dworld τ = ss_dworld σ -> ss_readyFiles τ = ss_readyFiles σ ->
  ss_connection τ = None -> own_at p τ.
Proof.
  unfold own_at. destruct (working p); intros; [by eapply withdraw_res|by eapply withdraw_gone].
Qed.

Section Life.
Context {E : Env} {L : EnvLaws E} {D : DEnv} {DL : DEnvLaws D} {F : SEnv}.

(** ** The steps of the worker *)

Lemma look_up_res c r σ :
  stopped σ ->
  res_ok true (exec (wkupd (fun k => {| k with wk_joinKey := k_joinKey c; wk_resolution := Some r |})) σ).
Proof.
  intros [H1 H2 H3 [H4 [H5 H6]] H7 H8]. exists false. split; try done.
  - intros s Hs. assert (wk_server (ss_worker σ) = Some s) by exact Hs. congruence.
  - change (ss_readyFiles σ = if wk_ownsReadyFile (ss_worker σ)
      then {[h_readyFile (wk_options (ss_worker σ))]} else ∅). by rewrite H4.
Qed.

Lemma q_connection {A} (m : M SSys A) : keeps qσ m -> keeps ss_connection m.
Proof. intros K σ. specialize (K σ). by injection K. Qed.

Lemma resolve_h a : keeps hσ (resolve a).
Proof. unfold resolve. walk fail. Qed.

Lemma run_command_res c σ :
  wf_command c -> ss_connection σ = None -> res_ok true σ -> res_ok true (exec (run_command c) σ).
Proof.
  intros Hc Hn H. unfold run_command. rewrite exec_bind.
  apply res_weaken, stopServer_stopped in H.
  assert (ss_connection (exec stopServer σ) = None) as Hn'.
  { by rewrite (q_connection _ stopServer_q σ). }
  revert H Hn'. generalize (exec stopServer σ). intros τ H Hn'. rewrite exec_bind, exec_bind.
  match goal with |- res_ok true (exec _ ?x) => assert (fresh x) as Hx; [|revert Hx; generalize x] end.
  { apply keeps_fresh; [walk fail|]. apply keeps_fresh; [walk fail|]. done. }
  intros τ' Hτ. case_if; [by apply start_hosting_res|]. case_if; [|apply stopped_res, Hτ].
  rewrite exec_bind, exec_bind. apply look_up_res.
  apply keeps_stopped; [apply resolve_h|]. apply keeps_stopped; [walk fail|apply Hτ].
Qed.

(** Discovery is retried: the room is not announced until it is listened again. *)
Lemma retry_res : pres (res_ok true) (on_discovery retry).
Proof.
  intros σ [l [[q H1] H2 H3 H4 H5]]. exists false. split; try done. exists false.
  apply (retry_spec l q l (mk_dsys (wk_discovery (ss_worker σ)) (ss_dworld σ)) H1).
Qed.

Lemma clock_res b : pres (res_ok b) clock.
Proof. apply on_discovery_keeps, clockMs_socks. Qed.

Lemma record_failure_res b : pres (res_ok b) record_failure.
Proof.
  unfold record_failure. apply pres_bind; [by apply keeps_res; walk fail|intros k]. apply pres_when.
  cbv zeta. apply pres_when. apply pres_bind; [by apply keeps_res; walk fail|intros _].
  apply pres_bind; [apply clock_res|intros t]. apply record_event_res.
Qed.

Lemma expire_rooms_res b l : pres (res_ok b) (expire_rooms l).
Proof.
  induction l as [|r l IH]; cbn [expire_rooms]; [by intros σ Hσ|].
  apply pres_bind; [apply clock_res|intros t]. apply pres_bind; [done|intros rest]. by intros σ Hσ.
Qed.

Lemma browse_step_res b : pres (res_ok b) browse_step.
Proof.
  unfold browse_step. apply pres_bind; [by intros σ Hσ|intros σ]. cbv zeta. apply pres_bind.
  - apply pres_if.
    + apply pres_bind; [apply on_discovery_res; intros l q; apply scan_spec|intros r].
      apply keeps_res. walk fail.
    + apply pres_bind; [|intros _; apply pres_bind; [|intros _; apply keeps_res; walk fail]].
      * apply on_discovery_res. intros l q τ Hτ. exists false. by apply (closeSocket_spec Query l q l).
      * apply on_discovery_keeps. by apply keeps_modify.
  - intros _. apply pres_bind; [by intros τ Hτ|intros k].
    apply pres_bind; [apply expire_rooms_res|intros rooms]. apply keeps_res. walk fail.
Qed.

Lemma report_discovery_res b : pres (res_ok b) report_discovery.
Proof.
  unfold report_discovery. apply pres_bind; [by intros σ Hσ|intros σ].
  apply pres_bind; [apply on_discovery_keeps, publish_socks|intros _].
  apply pres_bind; [by intros τ Hτ|intros k]. apply pres_bind; [apply keeps_res; walk fail|intros _].
  apply pres_bind; [apply keeps_res; walk fail|intros _]. cbv zeta. apply pres_when.
  apply pres_bind; [apply clock_res|intros t]. apply pres_bind; [apply record_event_res|intros _].
  apply keeps_res. walk fail.
Qed.

Lemma publish_view_res b : pres (res_ok b) publish_view.
Proof.
  unfold publish_view. apply pres_bind; [apply clock_res|intros t]. apply pres_bind; [by intros τ Hτ|intros k].
  apply pres_when. apply pres_bind; [by intros τ Hτ|intros σ]. cbv zeta.
  apply pres_bind; [apply keeps_res; walk fail|intros _].
  apply pres_bind; [apply keeps_res; walk fail|intros _].
  apply pres_bind; [apply clock_res|intros t']. apply keeps_res. walk fail.
Qed.

(** [~Discovery] closes every descriptor. *)
Lemma destroy_gone σ : stopped σ -> gone (exec (on_discovery destroy) σ).
Proof.
  intros [H1 H2 H3 H4 H5 [q H6]]. set (d := mk_dsys (wk_discovery (ss_worker σ)) (ss_dworld σ)) in *.
  assert (state false false false (exec destroy d)) as S.
  { unfold destroy. rewrite !exec_bind. apply (closeSocket_spec Responder false false false).
    apply (closeSocket_spec Query false q false). by apply (closeSocket_spec Listener false q false). }
  assert (dw_open (dwd (exec destroy d)) = ∅) as Ho.
  { apply set_eq. intros fd. destruct S as [[_ O] S]. rewrite O. split; [|by intros ?%elem_of_empty].
    intros [Hp [h <-]]. specialize (S h). destruct h; breflect; lia. }
  split; [|exact Ho]. split; try done. exists false.
  change (state false false false (mk_dsys (dsc (exec destroy d)) (dwd (exec destroy d)))). by destruct (exec destroy d).
Qed.

Lemma leave_gone σ : res_ok true σ -> gone (exec leave σ) /\ ss_commands (exec leave σ) = [].
Proof.
  intros H. unfold leave. rewrite !exec_bind. split; [|done]. apply destroy_gone.
  apply res_weaken, stopServer_stopped in H. revert H. generalize (exec stopServer σ). intros τ [H1 H2 H3 H4 H5 H6].
  by split.
Qed.

(** A new worker starts with nothing. *)
Lemma begin_res networks v σ :
  gone σ -> ss_connection σ = None ->
  res_ok true {| σ with ss_worker := {| (worker0 networks) with wk_state := {| session_view0 with sv_events := v |} |} |}.
Proof.
  intros [[H1 H2 H3 [H4 [H5 H6]] H7 H8] H9] Hn. exists false. split; try done.
  destruct (tidy_fresh networks (ss_dworld σ) H9) as [O (b & q & S)]. exists q. split; [exact O|].
  pose proof (S Listener) as Sl. cbn in Sl. subst b. exact S.
Qed.

(** ** The commands that wait *)

Lemma q_commands {A} (m : M SSys A) : keeps qσ m -> keeps ss_commands m.
Proof. intros K σ. specialize (K σ). by injection K. Qed.

Lemma offer_commands a k n : keeps ss_commands (offer a k n).
Proof. unfold offer. walk fail. Qed.

Lemma run_command_commands c : keeps ss_commands (run_command c).
Proof.
  unfold run_command, start_hosting, report.
  walk ltac:(first [apply offer_commands|apply q_commands; first
    [apply stopServer_q|apply resolve_q|apply create_server_q|apply file_op_q|apply clock_q]]).
Qed.

Lemma check_resolution_commands : keeps ss_commands check_resolution.
Proof. unfold check_resolution, report. walk ltac:(apply offer_commands). Qed.

(** A step that ends at [p]. *)
Lemma arrive p (m : M SSys unit) σ :
  working p = true -> keeps ss_commands m -> res_ok true (exec m σ) ->
  Forall wf_command (taken p ++ ss_commands σ) -> own_ok (exec (m ;; goto p) σ).
Proof.
  intros Hw K H G. rewrite exec_bind. rewrite <- (K σ) in G. revert H G. generalize (exec m σ). intros τ H G.
  split; [|exact G]. unfold own_at. change (ss_place (exec (goto p) τ)) with p. rewrite Hw.
  apply keeps_res; [by intros ?|done].
Qed.

Lemma retry_step_res b :
  pres (res_ok true) (when b (supd (fun σ => {| σ with ss_discoveryRetry := false |}) ;;
    on_discovery retry ;; vupd (fun v => {| v with sv_discoveryWarning := ""; sv_rooms := [] |}))).
Proof.
  apply pres_when. apply pres_bind; [apply keeps_res; walk fail|intros _].
  apply pres_bind; [apply retry_res|intros _]. apply keeps_res. walk fail.
Qed.

Lemma on_discovery_gone {A} (m : M DSys A) : keeps socks m -> pres gone (on_discovery m).
Proof.
  intros K σ [[H1 H2 H3 H4 H5 [q H6]] H7]. set (d := mk_dsys (wk_discovery (ss_worker σ)) (ss_dworld σ)) in *.
  pose proof (hoare_keeps false q false m K d H6) as C. pose proof (K d) as Kd. injection Kd as _ _ _ Kd. split.
  - split; try done. exists q.
    change (state false q false (mk_dsys (dsc (exec m d)) (dwd (exec m d)))). by destruct (exec m d).
  - etransitivity; [exact Kd|exact H7].
Qed.

(** A session without a worker offers no connection. *)
Lemma no_connection n p σ : queue_at n p σ -> working p = false -> ss_connection σ = None.
Proof.
  intros H Hw. destruct (ss_connection σ) as [c|] eqn:Hc; [|done]. exfalso.
  destruct (qi_connection _ _ _ _ _ _ H c Hc) as [Hw' _]. congruence.
Qed.

Lemma worker_step_own n σ : session_ok n σ -> own_ok σ -> own_ok (exec worker_step σ).
Proof.
  intros [Q _] [H G]. unfold worker_step. rewrite exec_bind. change (eval sget σ) with σ. change (exec sget σ) with σ.
  destruct (ss_running σ); cbn [negb]; [|done]. unfold queue_ok, given, own_at in *.
  destruct (ss_place σ) as [| |l|[|c l]| | | | | |] eqn:Hp; cbn [working taken] in H, G.
  - rewrite exec_bind. generalize (eval (on_discovery interfaces) σ). intros networks.
    apply (on_discovery_gone _ interfaces_socks) in H. apply no_connection in Q; [|done].
    assert (Forall wf_command (ss_commands (exec (on_discovery interfaces) σ))) as G' by exact G.
    assert (ss_connection (exec (on_discovery interfaces) σ) = None) as Q' by exact Q.
    revert H G' Q'. generalize (exec (on_discovery interfaces) σ). intros τ H G' Q'.
    apply arrive; [done|by intros ?| |exact G']. by apply begin_res.
  - destruct (ss_quitting σ).
    + rewrite exec_bind. destruct (leave_gone σ H) as [Hg Hc]. revert Hg Hc. generalize (exec leave σ). intros τ Hg Hc.
      split; [apply (keeps_gone (goto Exited)); [by intros ?|done]|].
      unfold given. change (Forall wf_command (ss_commands τ)). by rewrite Hc.
    + rewrite exec_bind. split; [|change (Forall wf_command (ss_commands σ ++ [])); by rewrite app_nil_r].
      by apply (keeps_res true (goto (Retrying (ss_commands σ)))), keeps_res.
  - apply arrive; try done; [walk fail|by apply retry_step_res].
  - split; [|exact G]. by apply (keeps_res true (goto Resolving)).
  - apply Forall_cons in G as [G1 G2]. apply arrive; try done; [apply run_command_commands|].
    apply run_command_res; try done. by apply (qi_run _ _ _ _ _ _ Q c l (Commanding l)).
  - apply arrive; try done; [apply check_resolution_commands|by apply check_resolution_res].
  - change (own_ok (exec ((serve ;; record_failure) ;; goto Browsing) σ)).
    apply arrive; try done.
    + apply keeps_bind; [apply q_commands, serve_q|intros _]. apply q_commands, record_failure_q.
    + rewrite exec_bind. by apply record_failure_res, serve_res.
  - apply arrive; try done; [apply q_commands, browse_step_q|by apply browse_step_res].
  - apply arrive; try done; [apply q_commands, report_discovery_q|by apply report_discovery_res].
  - apply arrive; try done; [apply q_commands, publish_view_q|by apply publish_view_res].
  - split; unfold given; rewrite exec_skip, Hp; done.
Qed.

(** ** The other threads *)

Lemma enqueue_own c : wf_command c -> pres own_ok (enqueue c).
Proof.
  intros Hc σ [H G]. unfold enqueue. rewrite exec_bind. change (eval sget σ) with σ. change (exec sget σ) with σ.
  destruct (ss_running σ); cbn [negb]; [|done]. case_if; [done|]. cbv zeta. rewrite exec_bind, exec_ret. split.
  - by apply (withdraw_own_at _ σ).
  - unfold given in *. apply Forall_app in G as [G1 G2]. apply Forall_app. split; [exact G1|].
    apply Forall_app. split; [|by constructor]. cbn [k_type]. case_if; [constructor|done].
Qed.

(** What the resources and the waiting commands are made of. *)
Lemma keeps_own {A} (m : M SSys A) : keeps hσ m -> keeps ss_place m -> keeps ss_commands m -> pres own_ok m.
Proof.
  intros K1 K2 K3 σ [H G]. split; [|unfold given; by rewrite K2, K3]. rewrite K2. by apply keeps_own_at.
Qed.

Lemma start_own n σ : session_ok n σ -> own_ok σ -> own_ok (exec start σ).
Proof.
  intros [_ I] H. unfold start. rewrite exec_bind, exec_when. change (eval sget σ) with σ.
  change (exec sget σ) with σ. destruct (ss_running σ) eqn:Hr; cbn [negb]; [done|].
  rewrite exec_bind. match goal with |- own_ok (exec _ (exec ?x σ)) => set (m := x) end.
  assert (own_ok (exec m σ)) as Hm by (apply keeps_own; [unfold m; walk fail..|done]).
  assert (ss_place (exec m σ) = Exited) as Hp by exact (I Hr).
  revert Hm Hp. generalize (exec m σ). intros τ Hm Hp. destruct (thread_error _).
  - apply keeps_own; [walk fail..|done].
  - destruct Hm as [O G]. unfold given in G. rewrite Hp in O, G. split; [|exact G].
    apply (keeps_gone (supd (fun σ => {| σ with ss_running := true; ss_place := Starting |}))); [by intros ?|exact O].
Qed.

Lemma act_own n a σ : wf_action a -> session_ok n σ -> own_ok σ -> own_ok (exec (act a) σ).
Proof.
  intros Ha S H. assert (wf_host host0) as H0 by (repeat split; try done; constructor).
  destruct a; cbn [act]; try (rewrite exec_bind, exec_skip).
  - by apply (start_own n).
  - by apply enqueue_own.
  - by apply enqueue_own.
  - by apply enqueue_own.
  - apply keeps_own; [unfold browse; walk fail..|done].
  - apply keeps_own; [unfold retryDiscovery; walk fail..|done].
  - apply keeps_own; [unfold connected; walk fail..|done].
  - destruct H as [O G]. split; [|exact G]. by apply (withdraw_own_at _ σ).
  - apply keeps_own; [unfold quit; walk fail..|done].
  - apply keeps_own; [intros τ; unfold join_worker, supd, exec, modify; cbn [snd]; by destruct (ss_place τ) eqn:Hp..|done].
  - apply keeps_own; [unfold resolver_step; walk fail..|done].
  - by apply (worker_step_own n).
Qed.

Lemma interleaving_own l : forall n σ,
  n + Z.of_nat (length l) < 2 ^ 64 -> Forall wf_action l -> session_ok n σ -> own_ok σ -> own_ok (interleaving l σ).
Proof.
  unfold interleaving. induction l as [|a l IH]; intros n σ Hn Hl S H; [done|].
  cbn [for_each]. rewrite exec_bind. cbn [length] in Hn. apply Forall_cons in Hl as [Ha Hl].
  apply (IH (n + 1)); [lia|done|by apply act_ok; [lia|]|by apply (act_own n)].
Qed.

Lemma session0_own w dw : dw_open dw = ∅ -> own_ok (session0 w dw).
Proof.
  intros Hd. split; [|constructor]. split; [|exact Hd]. split; try done.
  destruct (tidy_fresh [] dw Hd) as [O (b & q & S)]. exists q. split; [exact O|].
  pose proof (S Listener) as Sl. cbn in Sl. subst b. exact S.
Qed.

(** ** The owner *)

Lemma arrive_owner p (m : M SSys unit) σ : owner_inv (exec m σ) -> owner_inv (exec (m ;; goto p) σ).
Proof. intros H. rewrite exec_bind. revert H. generalize (exec m σ). intros τ. by apply (keeps_owner (goto p)). Qed.

Lemma clock_c : keeps cσ clock.
Proof. by intros σ. Qed.

Lemma expire_rooms_c l : keeps cσ (expire_rooms l).
Proof.
  induction l as [|r l IH]; cbn [expire_rooms]; [apply keeps_ret|]. apply keeps_bind; [apply clock_c|intros t].
  apply keeps_bind; [exact IH|intros rest]. apply keeps_ret.
Qed.

Lemma worker_step_owner σ : own_ok σ -> owner_inv σ -> owner_inv (exec worker_step σ).
Proof.
  intros [H G] O. unfold worker_step. rewrite exec_bind. change (eval sget σ) with σ. change (exec sget σ) with σ.
  destruct (ss_running σ); cbn [negb]; [|done]. unfold given, own_at in *.
  destruct (ss_place σ) as [| |l|[|c l]| | | | | |] eqn:Hp; cbn [working taken] in H, G.
  - rewrite exec_bind. generalize (eval (on_discovery interfaces) σ) (exec (on_discovery interfaces) σ).
    intros networks τ. apply arrive_owner. by apply owner_none.
  - destruct (ss_quitting σ).
    + apply arrive_owner. destruct (leave_gone σ H) as [[Hg _] _]. apply owner_none, Hg.
    + apply arrive_owner. by apply keeps_owner; [walk fail|].
  - apply arrive_owner. apply keeps_owner; [walk fail|done].
  - by apply (keeps_owner (goto Resolving)).
  - apply arrive_owner. apply Forall_cons in G as [G1 G2]. by apply run_command_owner.
  - apply arrive_owner. by apply (keeps_owner _ check_resolution_c).
  - change (owner_inv (exec ((serve ;; record_failure) ;; goto Browsing) σ)). apply arrive_owner. rewrite exec_bind.
    apply (keeps_owner record_failure); [unfold record_failure; walk ltac:(first [apply clock_c|apply record_event_c])|].
    by apply serve_owner.
  - apply arrive_owner. apply keeps_owner; [unfold browse_step; walk ltac:(apply expire_rooms_c)|done].
  - apply arrive_owner.
    apply keeps_owner; [unfold report_discovery; walk ltac:(first [apply clock_c|apply record_event_c])|done].
  - apply arrive_owner. apply keeps_owner; [unfold publish_view; walk ltac:(apply clock_c)|done].
  - done.
Qed.

Lemma act_owner a σ : own_ok σ -> owner_inv σ -> owner_inv (exec (act a) σ).
Proof.
  intros H O. destruct a; cbn [act]; try (rewrite exec_bind, exec_skip); try (by apply worker_step_owner).
  all: apply keeps_owner; [|done].
  all: unfold start, host, join, stop, enqueue, browse, retryDiscovery, connected, takeConnection, quit,
    join_worker, resolver_step.
  all: cbv zeta; walk fail.
Qed.

Lemma interleaving_owner l : forall n σ,
  n + Z.of_nat (length l) < 2 ^ 64 -> Forall wf_action l -> session_ok n σ -> own_ok σ -> owner_inv σ ->
  owner_inv (interleaving l σ).
Proof.
  unfold interleaving. induction l as [|a l IH]; intros n σ Hn Hl S H O; [done|].
  cbn [for_each]. rewrite exec_bind. cbn [length] in Hn. apply Forall_cons in Hl as [Ha Hl].
  apply (IH (n + 1)); [lia|done|by apply act_ok; [lia|]|by apply (act_own n)|by apply act_owner].
Qed.

Lemma occupied_count s : occupied (player_at s 0) = true -> count s <> 0.
Proof.
  intros H. unfold count, all4. cbn [foldr]. rewrite H.
  repeat match goal with |- context [occupied ?p] => destruct (occupied p) end; cbn; lia.
Qed.

(** C26. Hosting, in every interleaving of the user interface, the resolver
    threads and the worker. A server the worker runs is consistent, open, owned
    by the one participant whose nonce the offered connection carries, shown as
    hosting, and nothing is looked up meanwhile. Without a server the session
    is not shown as hosting, and nothing of it is left: no log or readiness
    file, no socket that announces the room. The room is announced only while
    the worker holds it ready, and then its owner, recognized by the nonce, is
    in the first slot of the open room; the readiness file exists exactly while
    the worker owns it; and once the worker has ended no server, no file, no
    connection and no descriptor of discovery is left. *)
Theorem session_hosting_ok w dw l :
  dw_open dw = ∅ -> Z.of_nat (length l) < 2 ^ 64 -> Forall wf_action l ->
  let σ := interleaving l (session0 w dw) in
  let k := ss_worker σ in
  (forall s, wk_server k = Some s ->
     server_ok s /\ ring_ok s /\ s_closed s = false /\ s_owner_nonce s <> 0 /\ wk_resolution k = None /\
     sv_hosting (wk_state k) = true /\
     forall c, ss_connection σ = Some c -> cn_ownerNonce c = s_owner_nonce s) /\
  (wk_server k = None ->
     sv_hosting (wk_state k) = false /\ wk_logFile k = false /\ ss_readyFiles σ = ∅ /\
     d_listener (wk_discovery k) < 0 /\ d_responder (wk_discovery k) < 0) /\
  (0 <= d_listener (wk_discovery k) -> wk_ready k = true) /\
  (wk_ready k = true -> exists s, wk_server k = Some s /\ s_closed s = false /\
     occupied (player_at s 0) = true /\ p_nonce (player_at s 0) = s_owner_nonce s) /\
  ss_readyFiles σ = (if wk_ownsReadyFile k then {[h_readyFile (wk_options k)]} else ∅) /\
  (working (ss_place σ) = false ->
     wk_server k = None /\ ss_connection σ = None /\ dw_open (ss_dworld σ) = ∅).
Proof.
  intros Hd Hl Ha σ k.
  pose proof (interleaving_ok l 0 (session0 w dw) Hl (session0_ok w dw)) as [Q _].
  pose proof (interleaving_own l 0 (session0 w dw) Hl Ha (session0_ok w dw) (session0_own w dw Hd)) as [O _].
  pose proof (interleaving_owner l 0 (session0 w dw) Hl Ha (session0_ok w dw) (session0_own w dw Hd)
    (owner_none (session0 w dw) eq_refl)) as W.
  fold σ in Q, O, W. assert (res_ok true σ) as [b [[q R1] R2 R3 R4 R5]].
  { unfold own_at in O. destruct (working (ss_place σ)); [exact O|apply stopped_res, O]. }
  unfold owner_inv in W. fold k in R1, R2, R3, R4, R5, W. destruct R1 as [_ S].
  pose proof (S Listener) as Sl. pose proof (S Responder) as Sr. cbn [held dsc] in Sl, Sr. split_and!.
  - intros s Hs. destruct (R4 s Hs) as (J1 & J2 & nonce & J3 & [J4 J5 <-] & J6).
    split_and!; try done; [by apply good_server_ok|by apply W|by apply J2].
  - intros Hn. destruct (R3 Hn) as (J1 & J2 & J3 & J4).
    assert (b = false) as -> by (destruct b; [by rewrite (R2 eq_refl) in J1|done]).
    split_and!; try done; [by rewrite R5, J2|by breflect..].
  - intros Hb. apply R2. rewrite <- Sl. breflect. lia.
  - intros Hr. destruct (wk_server k) as [s|] eqn:Hs; [|by rewrite (proj1 (R3 eq_refl)) in Hr].
    destruct (W s eq_refl) as [W1 W2]. destruct (R4 s eq_refl) as (_ & _ & nonce & J3 & [J4 _ <-] & _).
    exists s. split; [done|]. split; [done|].
    destruct (good_server_ok _ J4) as [_ _ _ _ _ _ _ _ Ho]. apply Ho; [done|done|]. by apply occupied_count, W2.
  - exact R5.
  - intros Hw. pose proof (no_connection _ _ _ Q Hw). unfold own_at in O. rewrite Hw in O.
    destruct O as [[J _ _ _ _ _] J']. done.
Qed.

End Life.

(** ** A host session *)

Definition alice_host : HostOptions :=
  {| host0 with h_key := demo_key; h_name := [109; 97; 114; 105; 111]; h_readyFile := "/tmp/ready" |}.

(** The user hosts a room; the worker makes the server and serves it. *)
Definition hosting : list action :=
  [UiStart; UiHost alice_host; Work; Work; Work; Work; Work; Work; Work].

Abbreviation hosting_session := (interleaving hosting (session0 world0 lan_world)).

Lemma alice_host_wf : wf_host alice_host.
Proof. unfold wf_host, fits, all_bytes. split_and!; cbn; try lia. by repeat constructor. Qed.

(** The owner's HELLO is the first datagram that arrives. *)
Definition owner_env : Env :=
  {| demo_env with recvfrom_result n :=
       match n with 0%nat => Received (datagram (hello_packet 77 demo_key)) alice | _ => RecvError EAGAIN end |}.

Lemma owner_laws : EnvLaws owner_env.
Proof. split. intros [|n] data from; cbn; intros [= <- <-]. apply (bool_decide_unpack _). by vm_compute. Qed.

Abbreviation owner_session := (@interleaving owner_env _ _ hosting (session0 world0 lan_world)).

(** The room is announced, with its owner, of nonce 77, in the first slot. *)
Lemma session_hosting_ok_witness :
  exists s c, wk_server (ss_worker owner_session) = Some s /\ ss_connection owner_session = Some c /\
    cn_ownerNonce c = 77 /\ server_ok s /\ cn_ownerNonce c = s_owner_nonce s /\
    wk_ready (ss_worker owner_session) = true /\ occupied (player_at s 0) = true /\ p_nonce (player_at s 0) = 77.
Proof.
  assert (exists s c, wk_server (ss_worker owner_session) = Some s /\ ss_connection owner_session = Some c /\
    cn_ownerNonce c = 77 /\ wk_ready (ss_worker owner_session) = true) as (s & c & Hs & Hc & Hn & Hr)
    by (vm_compute; by eexists _, _).
  assert (Forall wf_action hosting) as Hw by (repeat (apply Forall_cons_2; [first [exact I|exact alice_host_wf]|]); apply Forall_nil_2).
  destruct (@session_hosting_ok owner_env owner_laws _ _ _ world0 lan_world hosting eq_refl eq_refl Hw) as (P & _ & _ & R & _).
  destruct (P s Hs) as (P1 & _ & _ & _ & _ & _ & P2). destruct (R Hr) as (s' & R1 & _ & R2 & R3).
  rewrite Hs in R1. injection R1 as <-. rewrite <- (P2 c Hc), Hn in R3. exists s, c.
  exact (conj Hs (conj Hc (conj Hn (conj P1 (conj (P2 c Hc) (conj Hr (conj R2 R3))))))).
Defined.
