(* ===== verification/SessionLive.v ===== *)
(** * Progress of the session's worker

    The loops of the worker end: [drain] empties the server's ring, a stop is
    carried out and a shutdown ends the worker after a bounded number of its
    steps, whatever the other threads do in between. *)

From S2P Require Import Prelude State Text Protocol Server Room ServerCore ServerRefine Scenario ServerRun Events ServerProps Discovery DiscoveryProps DiscoverySockets Address Session SessionQueue SessionHost SessionRun.

Local Open Scope list_scope.
Local Open Scope Z_scope.
Local Open Scope fz_scope.

Section Drain.
Context {E : Env} {D : DEnv} {F : SEnv}.

(** The events [l] recorded one after the other. *)
Definition push_events (l events : list fz_server_event) : list fz_server_event :=
  foldl (fun events e => push_event e events) events l.

Lemma drain_loop_all n : forall σ s,
  wk_server (ss_worker σ) = Some s -> ring_ok s -> (length (event_queue s) < n)%nat ->
  exists s', wk_server (ss_worker (exec (drain_loop n) σ)) = Some s' /\ ring_ok s' /\ event_queue s' = [] /\
    sv_events (wk_state (ss_worker (exec (drain_loop n) σ))) =
      push_events (event_queue s) (sv_events (wk_state (ss_worker σ))).
Proof.
  induction n as [|n IH]; intros σ s Hs R Hn; [lia|].
  assert (exec (drain_loop (S n)) σ =
    exec match eval (on_server s fz_server_next_event) σ with None => skip | Some e => record_event e ;; drain_loop n end
      (exec (on_server s fz_server_next_event) σ)) as ->.
  { cbn [drain_loop]. rewrite exec_bind, eval_wget. by rewrite Hs. }
  destruct (fz_server_next_event_queue (mk_sys s (ss_world σ)) R) as (R' & He & Hq). cbn [srv] in He, Hq.
  change (eval (on_server s fz_server_next_event) σ) with (eval fz_server_next_event (mk_sys s (ss_world σ))).
  rewrite He. set (τ := exec (on_server s fz_server_next_event) σ).
  assert (wk_server (ss_worker τ) = Some (srv (exec fz_server_next_event (mk_sys s (ss_world σ))))) as Ht by done.
  assert (sv_events (wk_state (ss_worker τ)) = sv_events (wk_state (ss_worker σ))) as Hv by done.
  clearbody τ. destruct (event_queue s) as [|e l] eqn:El; cbn [hd_error].
  - rewrite exec_skip. eexists. split_and!; [exact Ht|exact R'|exact Hq|exact Hv].
  - cbn [tail] in Hq. rewrite exec_bind. set (τ' := exec (record_event e) τ).
    assert (wk_server (ss_worker τ') = wk_server (ss_worker τ)) as Ht' by done.
    assert (sv_events (wk_state (ss_worker τ')) = push_event e (sv_events (wk_state (ss_worker τ)))) as Hv' by done.
    clearbody τ'. rewrite Ht in Ht'. destruct (IH τ' _ Ht' R') as (s' & I1 & I2 & I3 & I4).
    { rewrite Hq. cbn [length] in Hn. lia. }
    exists s'. split_and!; try done. rewrite I4, Hv', Hv, Hq. done.
Qed.

(** C29. [drain] ends with the server's ring empty, and moves every event the
    ring held into the session's view: in order, each once, none dropped but
    for the oldest of the view when it holds 512 already. *)
Theorem drain_empties_ring σ s :
  wk_server (ss_worker σ) = Some s -> ring_ok s ->
  exists s', wk_server (ss_worker (exec drain σ)) = Some s' /\ event_queue s' = [] /\
    sv_events (wk_state (ss_worker (exec drain σ))) =
      push_events (event_queue s) (sv_events (wk_state (ss_worker σ))).
Proof.
  intros Hs R. destruct (drain_loop_all 257 σ s Hs R) as (s' & H1 & _ & H3 & H4).
  - rewrite event_queue_length. destruct R as (_ & _ & R). lia.
  - by exists s'.
Qed.

End Drain.

(** ** One step of the worker *)

Section Place.
Context {E : Env} {D : DEnv} {F : SEnv}.

(** Where a step of a running worker leads. *)
Definition next (p : place) (quitting : bool) (commands : list Command) : place :=
  match p with
  | Starting => Looping
  | Looping => if quitting then Exited else Retrying commands
  | Retrying l => Commanding l
  | Commanding [] => Resolving
  | Commanding (_ :: l) => Commanding l
  | Resolving => Serving
  | Serving => Browsing
  | Browsing => Reporting
  | Reporting => Publishing
  | Publishing => Looping
  | Exited => Exited
  end.

Lemma goto_place {A} p (m : M SSys A) σ : ss_place (exec (m ;; goto p) σ) = p.
Proof. by rewrite exec_bind. Qed.

Lemma worker_step_place σ :
  ss_running σ = true -> ss_place (exec worker_step σ) = next (ss_place σ) (ss_quitting σ) (ss_commands σ).
Proof.
  intros Hr. unfold worker_step. rewrite exec_bind. change (eval sget σ) with σ. change (exec sget σ) with σ.
  rewrite Hr. cbn [negb]. destruct (ss_place σ) as [| |l|[|c l]| | | | | |] eqn:Hp; cbn [next];
    first [exact Hp|reflexivity|apply goto_place|destruct (ss_quitting σ); apply goto_place].
Qed.

Lemma q_quitting {A} (m : M SSys A) : keeps qσ m -> keeps ss_quitting m.
Proof. intros K σ. specialize (K σ). by injection K. Qed.

Lemma offer_quitting a k n : keeps ss_quitting (offer a k n).
Proof. unfold offer. walk fail. Qed.

Lemma worker_step_quitting : keeps ss_quitting worker_step.
Proof.
  unfold worker_step, goto, run_command, start_hosting, check_resolution, leave, report.
  walk ltac:(first [apply offer_quitting|apply q_quitting; first
    [apply stopServer_q|apply resolve_q|apply create_server_q|apply file_op_q|apply clock_q|apply serve_q
    |apply record_failure_q|apply browse_step_q|apply report_discovery_q|apply publish_view_q]]).
Qed.

(** The steps of the worker that take nothing from the queue. *)
Lemma step_commands {A} p (m : M SSys A) σ :
  keeps ss_commands m -> ss_commands (exec (m ;; goto p) σ) = ss_commands σ.
Proof. intros K. rewrite exec_bind. exact (K σ). Qed.

Lemma worker_step_commands σ :
  ss_running σ = true -> ss_quitting σ = false ->
  ss_commands (exec worker_step σ) = match ss_place σ with Looping => [] | _ => ss_commands σ end.
Proof.
  intros Hr Hq. unfold worker_step. rewrite exec_bind. change (eval sget σ) with σ. change (exec sget σ) with σ.
  rewrite Hr, Hq. cbn [negb]. destruct (ss_place σ) as [| |l|[|c l]| | | | | |] eqn:Hp; try reflexivity.
  - apply step_commands. walk fail.
  - apply step_commands, run_command_commands.
  - apply step_commands, check_resolution_commands.
  - change (ss_commands (exec ((serve ;; record_failure) ;; goto Browsing) σ) = ss_commands σ). apply step_commands.
    apply keeps_bind; [apply q_commands, serve_q|intros _; apply q_commands, record_failure_q].
  - apply step_commands, q_commands, browse_step_q.
  - apply step_commands, q_commands, report_discovery_q.
  - apply step_commands, q_commands, publish_view_q.
Qed.

(** ** Shutdown *)

(** The steps of the worker in a schedule. *)
Fixpoint works (l : list action) : nat :=
  match l with
  | [] => 0
  | Work :: l => S (works l)
  | _ :: l => works l
  end.

(** The steps to [Exited] once the worker was asked to end. *)
Definition to_exit (p : place) : nat :=
  match p with
  | Exited => 0 | Looping => 1 | Publishing => 2 | Reporting => 3 | Browsing => 4 | Serving => 5 | Resolving => 6
  | Commanding l => 7 + length l
  | Retrying l => 8 + length l
  | Starting => 2
  end.

(** The worker ends within [k] of its steps. *)
Definition ending (k : nat) (σ : SSys) : Prop :=
  idle_ok σ /\ ss_quitting σ = true /\ (to_exit (ss_place σ) <= k)%nat.

Lemma work_ending k σ : ending k σ -> ending (pred k) (exec worker_step σ).
Proof.
  intros (Hi & Hq & Hk). split_and!.
  - intros Hr. rewrite (worker_step_running σ) in Hr. unfold worker_step. rewrite exec_bind.
    change (eval sget σ) with σ. rewrite Hr. by apply Hi.
  - by rewrite (worker_step_quitting σ).
  - destruct (ss_running σ) eqn:Hr.
    + rewrite (worker_step_place σ Hr), Hq. destruct (ss_place σ) as [| |l|[|c l]| | | | | |]; cbn in *; lia.
    + unfold worker_step. rewrite exec_bind. change (eval sget σ) with σ. rewrite Hr.
      cbn [negb]. rewrite exec_skip. change (exec sget σ) with σ. rewrite (Hi Hr). cbn. lia.
Qed.

Lemma enqueue_place c : keeps (fun σ => (ss_place σ, ss_running σ, ss_quitting σ)) (enqueue c).
Proof. unfold enqueue. cbv zeta. walk fail. Qed.

Lemma other_ending k a σ : a <> UiStart -> a <> Work -> ending k σ -> ending k (exec (act a) σ).
Proof.
  intros Hs Hw (Hi & Hq & Hk).
  assert (forall m : M SSys unit, keeps (fun σ => (ss_place σ, ss_running σ, ss_quitting σ)) m ->
    ending k (exec m σ)) as X.
  { intros m K. specialize (K σ). injection K as K1 K2 K3. unfold ending, idle_ok. by rewrite K1, K2, K3. }
  assert (forall c, ending k (exec (enqueue c ;; skip) σ)) as Y
    by (intros c; apply X, keeps_bind; [apply enqueue_place|intros _; apply keeps_skip]).
  destruct a; cbn [act]; try apply Y.
  - done.
  - apply X. unfold browse. walk fail.
  - apply X. unfold retryDiscovery. walk fail.
  - apply X. unfold connected. walk fail.
  - apply X. unfold takeConnection. walk fail.
  - done.
  - clear X Y. unfold ending, join_worker, exec, supd, modify, idle_ok in *. cbn [snd].
    destruct (ss_place σ) eqn:Hp; cbn in *; by rewrite ?Hp.
  - apply X. unfold resolver_step. walk fail.
  - done.
Qed.

Lemma interleaving_ending l : forall k σ,
  UiStart ∉ l -> ending k σ -> ending (k - works l) (interleaving l σ).
Proof.
  unfold interleaving. induction l as [|a l IH]; intros k σ Hl H; [by rewrite Nat.sub_0_r|].
  apply not_elem_of_cons in Hl as [Ha Hl]. cbn [for_each]. rewrite exec_bind.
  assert (a = Work \/ a <> Work) as [-> | Hw] by (destruct a; auto).
  - cbn [works act]. replace (k - S (works l))%nat with (pred k - works l)%nat by lia. by apply IH, work_ending.
  - replace (works (a :: l)) with (works l) by (by destruct a). apply IH; [done|]. by apply other_ending.
Qed.

(** ** Stopping *)

(** A worker ends only when asked to. *)
Definition alive_ok (σ : SSys) : Prop :=
  ss_running σ = true -> ss_quitting σ = false -> ss_place σ <> Exited.

Lemma next_alive p l : p <> Exited -> next p false l <> Exited.
Proof. by destruct p as [| |c|[|c1 c2]| | | | | |]. Qed.

Lemma act_alive a σ : alive_ok σ -> alive_ok (exec (act a) σ).
Proof.
  intros H.
  assert (forall m : M SSys unit, keeps (fun σ => (ss_place σ, ss_running σ, ss_quitting σ)) m ->
    alive_ok (exec m σ)) as X.
  { intros m K. specialize (K σ). injection K as K1 K2 K3. unfold alive_ok. by rewrite K1, K2, K3. }
  assert (forall c, alive_ok (exec (enqueue c ;; skip) σ)) as Y
    by (intros c; apply X, keeps_bind; [apply enqueue_place|intros _; apply keeps_skip]).
  destruct a; cbn [act]; try apply Y.
  - unfold start. rewrite exec_bind, exec_when. change (eval sget σ) with σ. change (exec sget σ) with σ.
    destruct (ss_running σ) eqn:Hr; cbn [negb]; [done|]. rewrite exec_bind.
    destruct (thread_error _); [|by intros _ _]. intros Hr'.
    assert (ss_running σ = true) by exact Hr'. congruence.
  - apply X. unfold browse. walk fail.
  - apply X. unfold retryDiscovery. walk fail.
  - apply X. unfold connected. walk fail.
  - apply X. unfold takeConnection. walk fail.
  - by intros _ ?.
  - clear X Y. unfold alive_ok, join_worker, exec, supd, modify in *. cbn [snd].
    by destruct (ss_place σ) eqn:Hp; rewrite ?Hp.
  - apply X. unfold resolver_step. walk fail.
  - intros Hr Hq. rewrite (worker_step_running σ) in Hr. rewrite (worker_step_quitting σ) in Hq.
    rewrite (worker_step_place σ Hr), Hq. by apply next_alive, H.
Qed.

(** The worker's steps until the commands given have been run. *)
Definition to_run (p : place) (commands : list Command) : nat :=
  match commands with
  | [] => length (taken p) + match p with Retrying _ => 1 | _ => 0 end
  | _ => S (to_exit p) + length commands
  end.

(** The last command is a stop and is run within [k] steps of the worker, or
    it has been run. *)
Definition stopping (k : nat) (σ : SSys) : Prop :=
  let waiting := taken (ss_place σ) ++ ss_commands σ in
  (ss_running σ = true /\ ss_quitting σ = false /\ ss_place σ <> Exited) /\
  ((exists c, last waiting = Some c /\ k_type c = 0 /\ (to_run (ss_place σ) (ss_commands σ) <= k)%nat) \/
   (waiting = [] /\ working (ss_place σ) = true /\ wk_operation (ss_worker σ) = ss_generation σ /\
    wk_server (ss_worker σ) = None /\ wk_resolution (ss_worker σ) = None)).

(** Actions other than a command or a shutdown. *)
Definition calm (a : action) : bool :=
  match a with UiHost _ | UiJoin _ _ | UiStop | UiQuit => false | _ => true end.

(** What [stopping] speaks of. *)
Definition pσ (σ : SSys) :=
  (ss_place σ, ss_commands σ, ss_running σ, ss_quitting σ, ss_generation σ, wk_operation (ss_worker σ),
   wk_server (ss_worker σ), wk_resolution (ss_worker σ)).

Lemma keeps_stopping {A} k (m : M SSys A) σ : pσ (exec m σ) = pσ σ -> stopping k σ -> stopping k (exec m σ).
Proof.
  unfold pσ, stopping. intros [= -> -> -> -> -> -> -> ->]. done.
Qed.

Lemma other_stopping k a σ : calm a = true -> a <> Work -> stopping k σ -> stopping k (exec (act a) σ).
Proof.
  intros Ha Hw H. destruct a; try discriminate Ha; cbn [act].
  - destruct H as [(Hr & Hq & Hp) H]. unfold start. rewrite exec_bind, exec_when. change (eval sget σ) with σ.
    change (exec sget σ) with σ. rewrite Hr. by split.
  - by apply keeps_stopping.
  - by apply keeps_stopping.
  - apply keeps_stopping; [|done]. unfold connected, exec, supd, modify. cbn [snd]. by case_if.
  - by apply keeps_stopping.
  - apply keeps_stopping; [|done]. unfold join_worker, exec, supd, modify. cbn [snd].
    destruct H as [(_ & _ & Hp) _]. by destruct (ss_place σ).
  - apply keeps_stopping; [|done]. unfold resolver_step. rewrite exec_bind. change (eval sget σ) with σ.
    by destruct (ss_lookups σ !! i) as [[[r host] port]|].
  - done.
Qed.

End Place.

(** ** The steps after the stop *)

Section Stop.
Context {E : Env} {L : EnvLaws E} {D : DEnv} {DL : DEnvLaws D} {F : SEnv}.

(** What a stop has settled. *)
Definition rσ (σ : SSys) :=
  (ss_generation σ, wk_operation (ss_worker σ), wk_server (ss_worker σ), wk_resolution (ss_worker σ)).

Lemma clock_r : keeps rσ clock.
Proof. unfold clock. walk fail. Qed.

Lemma record_failure_r : keeps rσ record_failure.
Proof. unfold record_failure, record_event. walk ltac:(apply clock_r). Qed.

Lemma expire_rooms_r l : keeps rσ (expire_rooms l).
Proof. induction l; cbn [expire_rooms]; walk ltac:(first [apply clock_r|done]). Qed.

Lemma browse_step_r : keeps rσ browse_step.
Proof. unfold browse_step. walk ltac:(apply expire_rooms_r). Qed.

Lemma report_discovery_r : keeps rσ report_discovery.
Proof. unfold report_discovery, record_event. walk ltac:(apply clock_r). Qed.

Lemma publish_view_r : keeps rσ publish_view.
Proof. unfold publish_view. walk ltac:(apply clock_r). Qed.

(** A worker with nothing to do leaves it so. *)
Lemma idle_step σ :
  ss_running σ = true -> ss_quitting σ = false -> working (ss_place σ) = true ->
  taken (ss_place σ) ++ ss_commands σ = [] ->
  wk_server (ss_worker σ) = None -> wk_resolution (ss_worker σ) = None ->
  rσ (exec worker_step σ) = rσ σ.
Proof.
  intros Hr Hq Hw [Ht Hc]%app_eq_nil Hs Hn. unfold worker_step. rewrite exec_bind.
  change (eval sget σ) with σ. change (exec sget σ) with σ. rewrite Hr, Hq. cbn [negb].
  destruct (ss_place σ) as [| |l|[|c l]| | | | | |] eqn:Hp; try discriminate; rewrite ?exec_bind; try reflexivity.
  - assert (keeps rσ (when (ss_discoveryRetry σ)
      (supd (fun σ => {| σ with ss_discoveryRetry := false |}) ;; on_discovery retry ;;
       vupd (fun v => {| v with sv_discoveryWarning := ""; sv_rooms := [] |})))) as K by (walk fail). exact (K σ).
  - unfold check_resolution. rewrite exec_bind. change (eval sget σ) with σ. cbv zeta. by rewrite Hn.
  - unfold serve. rewrite exec_bind, eval_wget, Hs. exact (record_failure_r σ).
  - exact (browse_step_r σ).
  - exact (report_discovery_r σ).
  - exact (publish_view_r σ).
Qed.

(** The stop is run. *)
Lemma run_stop c σ :
  k_type c = 0 -> res_ok true σ ->
  rσ (exec (run_command c) σ) = (ss_generation σ, k_generation c, None, None).
Proof.
  intros Hc H. unfold run_command. rewrite Hc. rewrite exec_bind.
  apply res_weaken, stopServer_stopped in H. destruct H as [H1 H2 _ _ _ _].
  assert (ss_generation (exec stopServer σ) = ss_generation σ) as Hg.
  { assert (keeps ss_generation stopServer) as K; [|apply K]. intros τ. pose proof (stopServer_q τ) as K.
    unfold qσ, queue_part in K. congruence. }
  revert H1 H2 Hg. generalize (exec stopServer σ). intros τ H1 H2 Hg. rewrite !exec_bind.
  change ((ss_generation τ, k_generation c, wk_server (ss_worker τ), wk_resolution (ss_worker τ)) =
          (ss_generation σ, k_generation c, None, None)). by rewrite H1, H2, Hg.
Qed.

(** The commands that wait after a step. *)
Lemma next_waiting p l :
  taken (next p false l) ++ match p with Looping => [] | _ => l end =
  match p with Commanding (_ :: l') => l' ++ l | _ => taken p ++ l end.
Proof. by destruct p as [| |c|[|c1 c2]| | | | | |]; simpl; rewrite ?app_nil_r. Qed.

Lemma next_to_run p l :
  p <> Exited -> taken p ++ l <> [] ->
  (to_run (next p false l) match p with Looping => [] | _ => l end <= pred (to_run p l))%nat.
Proof.
  intros Hp Hn. destruct p as [| |c|[|c1 c2]| | | | | |], l as [|x l]; cbn in *; try done; lia.
Qed.

Lemma next_working p l : working p = true -> working (next p false l) = true.
Proof. by destruct p as [| |c|[|c1 c2]| | | | | |]. Qed.

Lemma work_stopping n k σ : session_ok n σ -> own_ok σ -> stopping k σ -> stopping (pred k) (exec worker_step σ).
Proof.
  intros [Q _] [O _] [(Hr & Hq & Hp) H]. unfold stopping.
  rewrite (worker_step_place σ Hr), (worker_step_commands σ Hr Hq), (worker_step_running σ), (worker_step_quitting σ),
    Hq, next_waiting. split; [by split_and!; [| |apply next_alive]|].
  destruct H as [(c & Hl & Hc & Hk) | (Hw & Hg & Ho & Hs & Hn)].
  - assert (taken (ss_place σ) ++ ss_commands σ <> []) as Hne by (intros He; by rewrite He in Hl).
    pose proof (next_to_run (ss_place σ) (ss_commands σ) Hp Hne) as Hle.
    destruct (ss_place σ) as [| |l|[|c0 l]| | | | | |] eqn:Ep; try (left; exists c; split_and!; [done|done|lia]).
    destruct (l ++ ss_commands σ) as [|x r] eqn:El.
    + right. apply app_eq_nil in El as [-> El]. rewrite El in Hl. injection Hl as <-.
      assert (rσ (exec worker_step σ) = (ss_generation σ, k_generation c0, None, None)) as R.
      { unfold worker_step. rewrite exec_bind. change (eval sget σ) with σ. change (exec sget σ) with σ.
        rewrite Hr, Ep. cbn [negb]. rewrite exec_bind. etransitivity; [|exact (run_stop c0 σ Hc O)]. done. }
      injection R as -> -> -> ->. split_and!; try done.
      unfold queue_ok in Q. rewrite Ep in Q. apply (qi_last _ _ _ _ _ _ Q c0). cbn [taken]. by rewrite El.
    + left. exists c. split_and!; [|done|lia]. cbn [taken] in Hl. rewrite <- app_comm_cons, El in Hl. exact Hl.
  - right. pose proof (idle_step σ Hr Hq Hg Hw Hs Hn) as R. injection R as -> -> -> ->. split_and!; try done.
    + destruct (ss_place σ) as [| |l|[|c0 l]| | | | | |]; done.
    + by apply next_working.
Qed.

Lemma interleaving_stopping l : forall n k σ,
  n + Z.of_nat (length l) < 2 ^ 64 -> Forall (fun a => calm a = true) l -> session_ok n σ -> own_ok σ ->
  stopping k σ -> stopping (k - works l) (interleaving l σ).
Proof.
  unfold interleaving. induction l as [|a l IH]; intros n k σ Hn Hl Q O H; [by rewrite Nat.sub_0_r|].
  apply Forall_cons in Hl as [Ha Hl]. cbn [for_each length] in *. rewrite exec_bind.
  assert (session_ok (n + 1) (exec (act a) σ)) as Q' by (apply act_ok; [lia|done]).
  assert (own_ok (exec (act a) σ)) as O' by (apply (act_own n); [by destruct a|done|done]).
  assert (a = Work \/ a <> Work) as [-> | Hw] by (destruct a; auto).
  - cbn [works]. replace (k - S (works l))%nat with (pred k - works l)%nat by lia.
    apply (IH (n + 1)); try done; [lia|]. by apply (work_stopping n).
  - replace (works (a :: l)) with (works l) by (by destruct a).
    apply (IH (n + 1)); try done; [lia|]. by apply other_stopping.
Qed.

(** ** Any life of a session *)

Lemma interleaving_app l l' σ : interleaving (l ++ l') σ = interleaving l' (interleaving l σ).
Proof.
  unfold interleaving. revert σ. induction l as [|a l IH]; intros σ; [done|]. cbn [app for_each]. by rewrite !exec_bind, IH.
Qed.

Lemma interleaving_alive l : forall σ, alive_ok σ -> alive_ok (interleaving l σ).
Proof.
  unfold interleaving. induction l as [|a l IH]; intros σ H; [done|]. cbn [for_each]. rewrite exec_bind.
  by apply IH, act_alive.
Qed.

(** The invariants of a session, after [l]. *)
Lemma session_reached w dw l :
  dw_open dw = ∅ -> Z.of_nat (length l) < 2 ^ 64 -> Forall wf_action l ->
  let σ := interleaving l (session0 w dw) in
  session_ok (Z.of_nat (length l)) σ /\ own_ok σ /\ alive_ok σ.
Proof.
  intros Hd Hl Ha σ. split_and!.
  - exact (interleaving_ok l 0 (session0 w dw) Hl (session0_ok w dw)).
  - exact (interleaving_own l 0 (session0 w dw) Hl Ha (session0_ok w dw) (session0_own w dw Hd)).
  - by apply interleaving_alive.
Qed.

(** C27. Shutdown ends. Once the user interface has asked the worker to end,
    whatever the user interface and the resolver threads do in between short
    of starting the session again, sixteen steps of the worker reach its end,
    after which waiting for the thread returns; no server, no readiness file,
    no connection on offer and no descriptor of discovery is left. *)
Theorem shutdown_ends w dw before after :
  dw_open dw = ∅ -> Z.of_nat (length (before ++ UiQuit :: after)) < 2 ^ 64 ->
  Forall wf_action (before ++ UiQuit :: after) -> UiStart ∉ after -> (16 <= works after)%nat ->
  let σ := interleaving (before ++ UiQuit :: after) (session0 w dw) in
  ss_place σ = Exited /\ ss_running (exec join_worker σ) = false /\
  wk_server (ss_worker σ) = None /\ ss_readyFiles σ = ∅ /\ ss_connection σ = None /\ dw_open (ss_dworld σ) = ∅.
Proof.
  intros Hd Hl Ha Hs Hw σ. destruct (session_reached w dw _ Hd Hl Ha) as ([Q _] & [O _] & _). fold σ in Q, O.
  assert (ss_place σ = Exited) as Hp.
  { rewrite length_app in Hl. cbn [length] in Hl. apply Forall_app in Ha as [Ha _].
    destruct (session_reached w dw before Hd ltac:(lia) Ha) as (S0 & _ & _).
    set (σ0 := interleaving before (session0 w dw)) in *.
    assert (ending 16 (exec (act UiQuit) σ0)) as He.
    { destruct S0 as [Q0 I0]. split_and!; [exact I0|done|].
      change (ss_place (exec (act UiQuit) σ0)) with (ss_place σ0).
      destruct (qi_bound _ _ _ _ _ _ Q0) as [_ B]. destruct (ss_place σ0); cbn in *; lia. }
    apply (interleaving_ending after) in He as (_ & _ & He); [|done].
    unfold σ. rewrite interleaving_app. fold σ0. unfold interleaving at 1. cbn [for_each]. rewrite exec_bind.
    fold (interleaving after (exec (act UiQuit) σ0)).
    replace (16 - works after)%nat with 0%nat in He by lia.
    by destruct (ss_place (interleaving after (exec (act UiQuit) σ0))) as [| |l|l| | | | | |]; cbn in He; try lia. }
  split_and!; [done| | | | |].
  - unfold join_worker, exec, supd, modify. cbn [snd]. by rewrite Hp.
  - rewrite Hp in O. apply O.
  - rewrite Hp in O. apply O.
  - by apply (no_connection _ _ _ Q); rewrite Hp.
  - rewrite Hp in O. apply O.
Qed.

(** The user's stop. *)
Lemma stop_begins n σ :
  session_ok n σ -> alive_ok σ -> ss_running σ = true -> ss_quitting σ = false ->
  stopping 18 (exec (act UiStop) σ).
Proof.
  intros [Q _] A Hr Hq. cbn [act]. rewrite exec_bind, exec_skip. unfold stop, enqueue. rewrite exec_bind.
  change (eval sget σ) with σ. change (exec sget σ) with σ. rewrite Hr. cbn [negb k_type andb Z.eqb].
  rewrite exec_bind, exec_ret. split; [split_and!; [exact Hr|exact Hq|exact (A Hr Hq)]|]. left.
  eexists. split_and!; [apply last_snoc|done|]. destruct (qi_bound _ _ _ _ _ _ Q) as [_ B].
  change (to_run (ss_place σ) [mk_command 0 host0 "" [] (u64 (ss_generation σ + 1))] <= 18)%nat.
  destruct (ss_place σ); cbn in *; lia.
Qed.

(** C28. A stop takes effect. While the session runs, whatever came before:
    after the user's stop, and as long as the user gives no other command and
    does not shut the session down, eighteen steps of the worker end what was
    hosted or looked up, whatever the other threads do in between; the
    worker's operation is then the user's last command and nothing waits. *)
Theorem stop_takes_effect w dw before after :
  dw_open dw = ∅ -> Z.of_nat (length (before ++ UiStop :: after)) < 2 ^ 64 ->
  Forall wf_action before -> Forall (fun a => calm a = true) after -> (18 <= works after)%nat ->
  ss_running (interleaving before (session0 w dw)) = true ->
  ss_quitting (interleaving before (session0 w dw)) = false ->
  let σ := interleaving (before ++ UiStop :: after) (session0 w dw) in
  wk_server (ss_worker σ) = None /\ wk_resolution (ss_worker σ) = None /\
  sv_hosting (wk_state (ss_worker σ)) = false /\ ss_readyFiles σ = ∅ /\
  wk_operation (ss_worker σ) = ss_generation σ /\ taken (ss_place σ) ++ ss_commands σ = [].
Proof.
  intros Hd Hl Ha Hc Hw Hr Hq σ.
  assert (Forall wf_action (before ++ UiStop :: after)) as Hwf.
  { apply Forall_app. split; [done|]. constructor; [done|]. eapply Forall_impl; [exact Hc|]. by intros []. }
  destruct (session_reached w dw _ Hd Hl Hwf) as (_ & [O _] & _). fold σ in O.
  rewrite length_app in Hl. cbn [length] in Hl.
  destruct (session_reached w dw before Hd ltac:(lia) Ha) as (S0 & O0 & A0).
  set (σ0 := interleaving before (session0 w dw)) in *.
  pose proof (stop_begins _ σ0 S0 A0 Hr Hq) as H.
  apply (interleaving_stopping after (Z.of_nat (length before) + 1)) in H; [|lia|done|by apply act_ok; [lia|]|].
  2:{ by apply (act_own (Z.of_nat (length before))). }
  assert (σ = interleaving after (exec (act UiStop) σ0)) as Hσ.
  { unfold σ. rewrite interleaving_app. unfold interleaving at 1. cbn [for_each]. by rewrite exec_bind. }
  rewrite <- Hσ in H. replace (18 - works after)%nat with 0%nat in H by lia.
  destruct H as [_ [(c & Hc' & _ & Hk) | (H1 & H2 & H3 & H4 & H5)]].
  - exfalso. destruct (ss_commands σ) as [|x r]; [|cbn in Hk; lia].
    destruct (ss_place σ); cbn in *; try lia; try done; destruct pending; cbn in *; try lia; done.
  - assert (res_ok true σ) as [b [_ _ R3 _ R5]] by (unfold own_at in O; by rewrite H2 in O).
    destruct (R3 H4) as (_ & J2 & _ & J4). split_and!; try done. by rewrite R5, J2.
Qed.

End Stop.

(** ** A host session stopped, and shut down *)

Definition eighteen_steps : list action := UiBrowse true :: replicate 9 Work ++ UiTake :: replicate 9 Work.

Abbreviation stopped_session := (interleaving (hosting ++ UiStop :: eighteen_steps) (session0 world0 lan_world)).

Lemma hosting_wf : Forall wf_action hosting.
Proof. repeat (apply Forall_cons_2; [first [exact I|exact alice_host_wf]|]). apply Forall_nil_2. Qed.

Lemma stop_takes_effect_witness :
  is_Some (wk_server (ss_worker (interleaving hosting (session0 world0 lan_world)))) /\
  wk_server (ss_worker stopped_session) = None.
Proof.
  split; [vm_compute; by eexists|]. apply (stop_takes_effect world0 lan_world hosting eighteen_steps).
  - reflexivity.
  - vm_compute. reflexivity.
  - exact hosting_wf.
  - repeat constructor.
  - vm_compute. lia.
  - vm_compute. reflexivity.
  - vm_compute. reflexivity.
Defined.

Abbreviation ended_session := (interleaving (hosting ++ UiQuit :: replicate 16 Work) (session0 world0 lan_world)).

Lemma shutdown_ends_witness :
  ss_place ended_session = Exited /\ dw_open (ss_dworld ended_session) = ∅.
Proof.
  assert (Forall wf_action (hosting ++ UiQuit :: replicate 16 Work)) as Hw.
  { apply Forall_app. split; [exact hosting_wf|repeat constructor]. }
  assert (UiStart ∉ replicate 16 Work) as Hn by (intros [? _]%elem_of_replicate; discriminate).
  destruct (shutdown_ends world0 lan_world hosting (replicate 16 Work) eq_refl eq_refl Hw Hn (le_n 16))
    as (H1 & _ & _ & _ & _ & H2). exact (conj H1 H2).
Defined.

(** The server was made and has one event to report. *)
Abbreviation made_session := (interleaving (take 6 hosting) (session0 world0 lan_world)).

Lemma drain_empties_ring_witness :
  exists s s', wk_server (ss_worker made_session) = Some s /\ length (event_queue s) = 1%nat /\
    wk_server (ss_worker (exec drain made_session)) = Some s' /\ event_queue s' = [].
Proof.
  assert (exists s, wk_server (ss_worker made_session) = Some s /\ ring_ok s /\ length (event_queue s) = 1%nat)
    as (s & Hs & R & Hl).
  { vm_compute. eexists. split; [reflexivity|]. repeat split; discriminate. }
  destruct (drain_empties_ring _ s Hs R) as (s' & H1 & H2 & _). exists s, s'. exact (conj Hs (conj Hl (conj H1 H2))).
Defined.
