(* ===== verification/Main.v ===== *)
(** * The dedicated server ([src/server/src/main.c])

    The command line, the loop that serves one room until a signal arrives or
    the room ends, and the log: one line of text per event on the standard
    output and, when asked for, one JSON object per line in a file. Files are
    modelled by what was written to them and by whether they exist; the
    [n]-th test of the flag set by the signal handler is [interrupted n]. *)

From Stdlib Require Import Ascii.
From S2P Require Import Prelude State Text Protocol Server Address.

Local Open Scope string_scope.
Local Open Scope list_scope.
Local Open Scope Z_scope.
Local Open Scope fz_scope.

(** ** Numbers *)

(** [isspace] *)
Definition is_space (c : ascii) : bool :=
  Ascii.eqb c " " || ((9 <=? nat_of_ascii c)%nat && (nat_of_ascii c <=? 13)%nat).

Fixpoint drop_spaces (l : list ascii) : list ascii :=
  match l with
  | c :: r => if is_space c then drop_spaces r else l
  | [] => []
  end.

(** An optional sign: whether the number is negative, and the rest. *)
Definition read_sign (l : list ascii) : bool * list ascii :=
  match l with
  | c :: r => if Ascii.eqb c "-" then (true, r) else if Ascii.eqb c "+" then (false, r) else (false, l)
  | [] => (false, l)
  end.

(** The digits at the front, and the rest. *)
Fixpoint read_digits (l : list ascii) : list ascii * list ascii :=
  match l with
  | c :: r => if is_digit c then let d := read_digits r in (c :: fst d, snd d) else ([], l)
  | [] => ([], [])
  end.

Definition LONG_MIN : Z := - 2 ^ 63.
Definition LONG_MAX : Z := 2 ^ 63 - 1.

(** [strtol(text,&end,10)]: the value, [end], and whether [errno] is set. *)
Definition strtol (l : list ascii) : Z * list ascii * bool :=
  let s := read_sign (drop_spaces l) in
  let d := read_digits (snd s) in
  match fst d with
  | [] => (0, l, false)
  | digits =>
      let n := if fst s then - stoul digits else stoul digits in
      if n <? LONG_MIN then (LONG_MIN, snd d, true)
      else if n >? LONG_MAX then (LONG_MAX, snd d, true)
      else (n, snd d, false)
  end.

(** [number]: [None] is [exit(2)]. *)
Definition number (value : string) (low high : Z) : option Z :=
  let '(n, stop, failed) := strtol (chars value) in
  if failed || String.eqb value "" || negb (bool_decide (length stop = 0%nat)) || (n <? low) || (n >? high)
  then None else Some n.

(** ** The command line *)

Record Options := mk_options {
  op_config : fz_server_config;
  op_bind_address : string;
  op_port : Z;
  op_ready : option string;
  op_json_path : option string
}.

Definition options0 : Options :=
  mk_options (mk_config (Some "127.0.0.1") (Some []) 12000 2 0 0 1 (-1) 0) "127.0.0.1" 12000 None None.

Definition char_code (c : ascii) : Z := Z.of_nat (nat_of_ascii c).

(** A C string as bytes. *)
Definition string_bytes (s : string) : bytes := map char_code (chars s).

(** One option with its value: [None] is a return of 2. *)
Definition set_option (flag value : string) (o : Options) : option Options :=
  let c := op_config o in
  let set f := Some {| o with op_config := f |} in
  if String.eqb flag "--bind" then Some {| o with op_bind_address := value |}
  else if String.eqb flag "--port" then
    n ← number value 1 65535; Some {| o with op_port := n |}
  else if String.eqb flag "--players" then
    n ← number value 2 4; set {| c with c_players := u8 n |}
  else if String.eqb flag "--track" then
    n ← number value 0 4; set {| c with c_track := u8 n |}
  else if String.eqb flag "--league" then
    n ← number value 0 2; set {| c with c_league := u8 n |}
  else if String.eqb flag "--room-key" then
    if Z.of_nat (length (string_bytes value)) >? FZ_KEY_MAX then None
    else set {| c with c_room_key := Some (string_bytes value) |}
  else if String.eqb flag "--ready-file" then Some {| o with op_ready := Some value |}
  else if String.eqb flag "--json-log" then Some {| o with op_json_path := Some value |}
  else if String.eqb flag "--trace-player" then
    n ← number value 1 4; set {| c with c_trace_player := n - 1 |}
  else if String.eqb flag "--log-level" then
    if String.eqb value "info" then set {| c with c_log_level := 1 |}
    else if String.eqb value "debug" then set {| c with c_log_level := 2 |}
    else if String.eqb value "trace" then set {| c with c_log_level := 3 |}
    else None
  else None.

(** The loop over the arguments: [inl] is the exit code. *)
Fixpoint parse_options (args : list string) (o : Options) : Z + Options :=
  match args with
  | [] => inr o
  | flag :: rest =>
      if String.eqb flag "--help" then inl 0
      else match rest with
           | [] => inl 2
           | value :: rest =>
               match set_option flag value o with
               | None => inl 2
               | Some o => parse_options rest o
               end
           end
  end.

(** The configuration given to [fz_server_create]. *)
Definition main_config (o : Options) : fz_server_config :=
  let c := op_config o in
  {| c with c_bind_address := Some (op_bind_address o); c_port := op_port o |}.

(** ** The log *)

Definition hex_digit (n : Z) : ascii :=
  ascii_of_nat (Z.to_nat (if n <? 10 then 48 + n else 87 + n)).

(** [%0<n>x] *)
Fixpoint hex (n : nat) (z : Z) : list ascii :=
  match n with
  | O => []
  | S n => hex n (Z.shiftr z 4) ++ [hex_digit (Z.land z 15)]
  end.

Definition levels (level : Z) : string :=
  default "" (["WARN"; "INFO"; "DEBUG"; "TRACE"] !! Z.to_nat level).

Definition quote : ascii := "034".
Definition backslash : ascii := "092".

(** What a C function sees of a text: up to the first zero byte. *)
Fixpoint c_text (l : list ascii) : list ascii :=
  match l with
  | [] => []
  | c :: r => if (nat_of_ascii c =? 0)%nat then [] else c :: c_text r
  end.

(** The loop that writes the message into the JSON log. *)
Fixpoint json_escape (l : list ascii) : list ascii :=
  match l with
  | [] => []
  | c :: r =>
      if (nat_of_ascii c =? 0)%nat then []
      else
        (if Ascii.eqb c quote || Ascii.eqb c backslash then [backslash] else []) ++
        (if (32 <=? nat_of_ascii c)%nat then [c] else backslash :: chars "u" ++ hex 4 (char_code c)) ++
        json_escape r
  end.

(** A string in double quotes. *)
Definition quoted (l : list ascii) : list ascii := quote :: l ++ [quote].

(** The line of the JSON log. *)
Definition json_line (e : fz_server_event) : list ascii :=
  chars "{" ++ quoted (chars "monotonic_us") ++ chars ":" ++ chars (dec (e_time_us e)) ++ chars "," ++
  quoted (chars "level") ++ chars ":" ++ quoted (chars (levels (e_level e))) ++ chars "," ++
  quoted (chars "session") ++ chars ":" ++ quoted (hex 16 (e_session e)) ++ chars "," ++
  quoted (chars "race") ++ chars ":" ++ chars (dec (e_race e)) ++ chars "," ++
  quoted (chars "player") ++ chars ":" ++ chars (dec (e_player e + 1)) ++ chars "," ++
  quoted (chars "message") ++ chars ":" ++ quoted (json_escape (chars (e_message e))) ++ chars "}" ++
  ["010"%char].

(** The line of the text log. *)
Definition text_line (e : fz_server_event) : string :=
  dec (e_time_us e) +:+ " " +:+ levels (e_level e) +:+ " session=" +:+ text (hex 16 (e_session e)) +:+
  " race=" +:+ dec (e_race e) +:+ " player=" +:+ dec (e_player e + 1) +:+ " " +:+ text (c_text (chars (e_message e))).

(** ** The program *)

(** The [n]-th operation on a file succeeds; the flag of the signal handler is
    set at its [n]-th test. *)
Class MEnv := {
  main_file_ok : nat -> bool;
  interrupted : nat -> bool
}.

Record MSys := mk_msys {
  ms_server : Server;
  ms_world : World;
  ms_stdout : list string;
  ms_json : list (list ascii);
  ms_json_open : bool;
  ms_ready : bool;
  ms_files : nat;
  ms_tests : nat
}.

Section Program.
Context {E : Env} {X : MEnv}.

Definition mupd (f : MSys -> MSys) : M MSys unit := modify f.

(** A call on the server. *)
Definition on_room {A} (m : M Sys A) : M MSys A := fun σ =>
  let r := m (mk_sys (ms_server σ) (ms_world σ)) in
  (fst r, {| σ with ms_server := srv (snd r); ms_world := wld (snd r) |}).

Definition main_file : M MSys bool :=
  let* n := gets ms_files in
  mupd (fun σ => {| σ with ms_files := S (ms_files σ) |}) ;;
  ret (main_file_ok n).

Definition stopping_flag : M MSys bool :=
  let* n := gets ms_tests in
  mupd (fun σ => {| σ with ms_tests := S (ms_tests σ) |}) ;;
  ret (interrupted n).

(** [drain]: the events are written, oldest first. *)
Definition write_event (e : fz_server_event) : M MSys unit :=
  mupd (fun σ => {| σ with ms_stdout := ms_stdout σ ++ [text_line e];
                           ms_json := if ms_json_open σ then ms_json σ ++ [json_line e] else ms_json σ |}).

Fixpoint main_drain_loop (fuel : nat) : M MSys unit :=
  match fuel with
  | O => skip
  | S fuel =>
      let* e := on_room fz_server_next_event in
      match e with
      | None => skip
      | Some e => write_event e ;; main_drain_loop fuel
      end
  end.

(** The ring of the server holds at most 256 events. *)
Definition drain : M MSys unit := main_drain_loop 257.

(** The readiness file: whether writing it failed. *)
Definition main_ready (ready : option string) : M MSys bool :=
  match ready with
  | None => ret false
  | Some _ =>
      let* opened := main_file in
      if negb opened then ret true
      else
        mupd (fun σ => {| σ with ms_ready := true |}) ;;
        let* written := main_file in
        let* closed := main_file in
        ret (negb written || negb closed)
  end.

(** [while(!stopping && result>0)]: [None] when the fuel ran out. *)
Fixpoint main_loop (fuel : nat) (result : Z) : M MSys (option Z) :=
  match fuel with
  | O => ret None
  | S fuel =>
      let* stop := stopping_flag in
      if stop || (result <=? 0) then ret (Some result)
      else
        let* result := on_room (fz_server_poll 16) in
        drain ;;
        main_loop fuel result
  end.

Definition close_json : M MSys unit := mupd (fun σ => {| σ with ms_json_open := false |}).

(** [main] once the server was created: the exit code. *)
Definition serve_main (fuel : nat) (ready : option string) : M MSys (option Z) :=
  let* failed := main_ready ready in
  if failed : bool then
    on_room fz_server_destroy ;; close_json ;; ret (Some 1)
  else
    let* result := main_loop fuel 1 in
    match result with
    | None => ret None
    | Some result =>
        on_room fz_server_close ;;
        drain ;;
        on_room fz_server_destroy ;;
        mupd (fun σ => {| σ with ms_ready := if ready is Some _ then false else ms_ready σ |}) ;;
        close_json ;;
        ret (Some (if result <? 0 then 1 else 0))
    end.

Definition main_start (w : World) : MSys := mk_msys server0 w [] [] false false 0 0.

(** [main]: the exit code and the state it leaves, [None] while it still runs. *)
Definition main (fuel : nat) (args : list string) (w : World) : option Z * MSys :=
  match parse_options args options0 with
  | inl code => (Some code, main_start w)
  | inr o =>
      let '(opened, σ) :=
        match op_json_path o with
        | None => (true, main_start w)
        | Some _ => let r := main_file (main_start w) in (fst r, {| (snd r) with ms_json_open := fst r |})
        end in
      if negb opened then (Some 1, σ)
      else
        match fz_server_create (Some (main_config o)) (ms_world σ) with
        | (inl error, w) => (Some 1, {| σ with ms_world := w; ms_json_open := false |})
        | (inr s, w) => serve_main fuel (op_ready o) {| σ with ms_server := s; ms_world := w |}
        end
  end.

End Program.
