(* ===== verification/MainProps.v ===== *)
(** * The dedicated server: its command line, its log and its end

    Which numbers and configurations the command line accepts and why a server
    cannot be created from them, that the JSON log can be read back, and that a
    signal ends the program with the server closed, its files in order and its
    log written. *)

From Stdlib Require Import Ascii.
From S2P Require Import Prelude State Text Protocol Server Room ServerCore ServerRefine Scenario ServerRun Events Address Main.

Local Open Scope string_scope.
Local Open Scope list_scope.
Local Open Scope Z_scope.
Local Open Scope fz_scope.

(** ** Numbers *)

(** [n] as a user may write it. *)
Definition numeral (l : list ascii) (n : Z) : Prop :=
  exists spaces sign digits, l = spaces ++ sign ++ digits /\ forallb is_space spaces = true /\
    digits <> [] /\ forallb is_digit digits = true /\
    ((sign = [] \/ sign = ["+"%char]) /\ n = stoul digits \/ sign = ["-"%char] /\ n = - stoul digits).

Lemma drop_spaces_split l :
  exists spaces, l = spaces ++ drop_spaces l /\ forallb is_space spaces = true /\
    forall c, head (drop_spaces l) = Some c -> is_space c = false.
Proof.
  induction l as [|c l (s & H1 & H2 & H3)]; [by exists []|]. cbn [drop_spaces]. destruct (is_space c) eqn:Hc.
  - exists (c :: s). split_and!; [cbn; by rewrite <- H1|cbn; by rewrite Hc|done].
  - exists []. split_and!; try done. by intros x [= <-].
Qed.

Lemma drop_spaces_app spaces l :
  forallb is_space spaces = true -> (forall c, head l = Some c -> is_space c = false) ->
  drop_spaces (spaces ++ l) = l.
Proof.
  intros Hs Hl. induction spaces as [|c s IH]; cbn in *.
  - destruct l as [|c l]; [done|]. cbn. by rewrite (Hl c eq_refl).
  - apply andb_true_iff in Hs as [-> Hs]. by apply IH.
Qed.

Lemma read_digits_split l :
  l = fst (read_digits l) ++ snd (read_digits l) /\ forallb is_digit (fst (read_digits l)) = true.
Proof.
  induction l as [|c l [H1 H2]]; [done|]. cbn [read_digits]. destruct (is_digit c) eqn:Hc; [|done].
  cbn. rewrite Hc, H2. split; [by rewrite <- H1|done].
Qed.

Lemma read_digits_all l : forallb is_digit l = true -> read_digits l = (l, []).
Proof.
  induction l as [|c l IH]; [done|]. cbn. intros [Hc Hl]%andb_true_iff. by rewrite Hc, (IH Hl).
Qed.

Lemma digit_class c : is_digit c = true -> is_space c = false /\ Ascii.eqb c "-" = false /\ Ascii.eqb c "+" = false.
Proof. revert c. by intros [[] [] [] [] [] [] [] []]. Qed.

Lemma strtol_numeral spaces sign digits :
  forallb is_space spaces = true -> digits <> [] -> forallb is_digit digits = true ->
  (sign = [] \/ sign = ["+"%char] \/ sign = ["-"%char]) ->
  read_sign (drop_spaces (spaces ++ sign ++ digits)) =
    (if decide (sign = ["-"%char]) then true else false, digits).
Proof.
  intros Hs Hd Hall Hsign. destruct digits as [|d digits]; [done|].
  pose proof Hall as [Hd0 _]%andb_true_iff. apply digit_class in Hd0 as (D1 & D2 & D3).
  rewrite drop_spaces_app; [|done|].
  - destruct Hsign as [-> | [-> | ->]]; cbn; rewrite ?D2, ?D3; by case_decide.
  - intros c. destruct Hsign as [-> | [-> | ->]]; cbn; intros [= <-]; done.
Qed.

Lemma number_sound value low high n :
  number value low high = Some n -> numeral (chars value) n /\ low <= n <= high.
Proof.
  unfold number, strtol. set (l := chars value).
  destruct (drop_spaces_split l) as (spaces & E1 & E2 & _).
  set (s := read_sign (drop_spaces l)).
  assert (exists sign, drop_spaces l = sign ++ snd s /\
    ((sign = [] \/ sign = ["+"%char]) /\ fst s = false \/ sign = ["-"%char] /\ fst s = true)) as (sign & E3 & E4).
  { unfold s, read_sign. destruct (drop_spaces l) as [|c r]; [exists []; auto|].
    destruct (Ascii.eqb_spec c "-") as [->|]; [exists ["-"%char]; auto|].
    destruct (Ascii.eqb_spec c "+") as [->|]; [exists ["+"%char]; auto|]. exists []. auto. }
  destruct (read_digits_split (snd s)) as [E5 E6]. destruct (fst (read_digits (snd s))) as [|d digits] eqn:Ed.
  + cbn. intros H. exfalso. repeat case_match; try done. breflect. unfold l in *.
    destruct value as [|c v]; [by destruct (String.eqb_spec "" "")|]. done.
  + rewrite <- Ed in *. set (digits' := fst (read_digits (snd s))) in *. set (v := if fst s then _ else _).
    destruct (v <? LONG_MIN); [by cbn|]. destruct (v >? LONG_MAX); [by cbn|]. cbn [orb].
    intros H. destruct (String.eqb value ""); [done|]. cbn [orb] in H.
    destruct (snd (read_digits (snd s))) as [|x y] eqn:Er; [|by cbn in H]. cbn [length bool_decide] in H.
    repeat case_match; try done. injection H as <-. breflect. split; [|lia].
    exists spaces, sign, digits'. rewrite app_nil_r in E5. split_and!; try done.
    * by rewrite <- E5, <- E3.
    * by rewrite Ed.
    * unfold v. destruct E4 as [[Hs Hf] | [Hs Hf]]; rewrite Hf; auto.
Qed.

Lemma number_complete value low high n :
  LONG_MIN <= low -> high <= LONG_MAX -> numeral (chars value) n -> low <= n <= high ->
  number value low high = Some n.
Proof.
  intros Hlow Hhigh. unfold number, strtol. set (l := chars value).
  intros (spaces & sign & digits & E1 & E2 & E3 & E4 & E5) Hn.
  assert (sign = [] \/ sign = ["+"%char] \/ sign = ["-"%char]) as Hs by (destruct E5 as [[[->| ->] _] | [-> _]]; auto).
  rewrite E1, (strtol_numeral spaces sign digits E2 E3 E4 Hs). cbn [fst snd]. rewrite (read_digits_all digits E4).
  cbn [fst snd]. destruct digits as [|d digits]; [done|].
  match goal with |- context [if ?b then - stoul ?x else stoul ?x] =>
    assert ((if b then - stoul x else stoul x) = n) as -> end.
  { destruct E5 as [[[->| ->] ->] | [-> ->]]; done. }
  replace (n <? LONG_MIN) with false by lia. replace (n >? LONG_MAX) with false by lia. cbn [orb].
  destruct (String.eqb_spec value "") as [->|]; [|].
  { exfalso. unfold l in E1. cbn in E1. destruct spaces; [|done]. destruct sign; done. }
  cbn. replace (n <? low) with false by lia. by replace (n >? high) with false by lia.
Qed.

(** C33. [number] accepts exactly the decimal numerals in range: blanks, an
    optional sign and digits, up to the end of the argument; it returns their
    value. Everything else, a numeral that does not fit a [long] included,
    ends the program. *)
Theorem number_accepts value low high n :
  LONG_MIN <= low -> high <= LONG_MAX ->
  number value low high = Some n <-> numeral (chars value) n /\ low <= n <= high.
Proof. intros Hl Hh. split; [apply number_sound|intros []; by apply number_complete]. Qed.

Lemma number_accepts_witness :
  number " +4095" 1 65535 = Some 4095 /\ (numeral (chars " +4095") 4095 /\ 1 <= 4095 <= 65535) /\
  number "12x" 1 65535 = None /\ number "99999999999999999999" 1 65535 = None /\ number "" 0 4 = None.
Proof.
  assert (number " +4095" 1 65535 = Some 4095) as H by (by vm_compute).
  split; [exact H|]. split; [|by vm_compute].
  apply (number_accepts " +4095" 1 65535 4095); [by vm_compute..|exact H].
Defined.

(** ** The configuration *)

(** The ranges the command line keeps. *)
Record options_ok (o : Options) : Prop := {
  oo_port : 1 <= op_port o <= 65535;
  oo_players : 2 <= c_players (op_config o) <= 4;
  oo_track : 0 <= c_track (op_config o) <= 4;
  oo_league : 0 <= c_league (op_config o) <= 2;
  oo_level : 1 <= c_log_level (op_config o) <= 3;
  oo_trace : -1 <= c_trace_player (op_config o) <= 3;
  oo_owner : c_owner_nonce (op_config o) = 0;
  oo_key : exists key, c_room_key (op_config o) = Some key /\ all_bytes key /\ Z.of_nat (length key) <= FZ_KEY_MAX
}.

Lemma string_bytes_bytes s : all_bytes (string_bytes s).
Proof.
  apply Forall_forall. intros b (c & -> & _)%list_elem_of_fmap. unfold char_code, fits.
  pose proof (nat_ascii_bounded c). lia.
Qed.

Lemma set_option_ok flag value o o' : options_ok o -> set_option flag value o = Some o' -> options_ok o'.
Proof.
  intros [H1 H2 H3 H4 H5 H6 H7 H8]. unfold set_option.
  repeat match goal with
  | |- (if String.eqb flag ?x then _ else _) = _ -> _ => destruct (String.eqb flag x)
  | |- (number ?v ?a ?b ≫= _) = _ -> _ =>
      let Hn := fresh "Hn" in destruct (number v a b) as [n|] eqn:Hn; [apply number_sound in Hn as [_ Hn]|by intros [=]]
  | |- (if String.eqb value ?x then _ else _) = _ -> _ => destruct (String.eqb value x)
  | |- (if ?x >? ?y then _ else _) = _ -> _ => destruct (x >? y) eqn:Hk; [by intros [=]|]
  end; intros [= <-]; split; cbn; try done; rewrite ?u8_small by (unfold fits; lia); try lia.
  eexists. split_and!; [done|apply string_bytes_bytes|lia].
Qed.

Lemma parse_options_ok args : forall o o', options_ok o -> parse_options args o = inr o' -> options_ok o'.
Proof.
  induction args as [args IH] using (induction_ltof1 _ (@length string)). unfold ltof in IH.
  intros o o' Ho. destruct args as [|flag [|value rest]]; cbn; [by intros [= <-]|by case_if|].
  case_if; [done|]. destruct (set_option flag value o) as [o1|] eqn:Hs; [|done].
  apply IH; [cbn; lia|by eapply set_option_ok].
Qed.

Lemma parse_options_code args : forall o code, parse_options args o = inl code -> 0 <= code <= 2.
Proof.
  induction args as [args IH] using (induction_ltof1 _ (@length string)). unfold ltof in IH.
  intros o code. destruct args as [|flag [|value rest]]; cbn; [done|case_if; intros [= <-]; lia|].
  case_if; [intros [= <-]; lia|]. destruct (set_option flag value o) as [o1|]; [|intros [= <-]; lia].
  apply IH. cbn. lia.
Qed.

Lemma options0_ok : options_ok options0.
Proof. split; cbn; try lia. exists []. split_and!; [done|constructor|by vm_compute]. Qed.

(** The message of a configuration that is refused. *)
Definition invalid_configuration : string :=
  "Invalid server configuration (port 12001 is reserved for discovery)".

(** Why the system refuses to open a room at [address], in the order of the
    calls: [None] when it does not. *)
Definition system_refusal {E : Env} (w : World) (address : string) (port : Z) : option string :=
  if negb calloc_result then Some "Cannot allocate server"
  else if bool_decide (urandom (w_random w) = None) then Some "Cannot read secure random source"
  else match inet_pton_result address with
       | None => Some "Bind address must be IPv4"
       | Some a =>
           if (0 <=? socket_result) && (bind_result (mk_sockaddr (ntohs (u16 port)) a) =? 0) && (fcntl_result =? 0)
           then None
           else Some ("Cannot listen on " +:+ address +:+ ":" +:+ dec port +:+ ": " +:+ strerror open_errno)
       end.

Lemma server_open_refusal {E : Env} c a k σ :
  calloc_result = true -> eval (server_open c a k) σ = system_refusal (wld σ) a (c_port c).
Proof.
  intros Hc. unfold server_open, system_refusal. rewrite Hc, eval_bind. cbn [negb].
  set (τ := exec (upd _) σ). assert (wld τ = wld σ) as <- by done. clearbody τ. rewrite eval_bind.
  change (eval random_id τ) with (match urandom (w_random (wld τ)) with
    | None => 0 | Some id => if u64 id =? 0 then 1 else u64 id end). rewrite eval_bind.
  generalize (exec random_id τ). intros τ1. destruct (urandom (w_random (wld τ))) as [id|]; [|done].
  rewrite bool_decide_eq_false_2 by done.
  assert (((if u64 id =? 0 then 1 else u64 id) =? 0) = false) as -> by (destruct (u64 id =? 0) eqn:H; [done|exact H]).
  destruct (inet_pton_result a) as [addr|]; [|done]. cbv zeta. rewrite eval_bind.
  set (bound := bind_result _ =? 0). assert ((socket_result <? 0) = negb (0 <=? socket_result)) as -> by lia.
  rewrite <- !negb_andb. by destruct (_ && _ && _).
Qed.

(** [fz_server_create] on a configuration that is in range. *)
Lemma fz_server_create_valid {E : Env} c address key w :
  c_bind_address c = Some address -> c_room_key c = Some key -> 1 <= c_port c <= 65535 ->
  2 <= c_players c <= 4 -> c_track c <= 4 -> c_league c <= 2 -> Z.of_nat (length key) <= FZ_KEY_MAX ->
  fst (fz_server_create (Some c) w) =
    match (if c_port c =? 12001 then Some invalid_configuration else system_refusal w address (c_port c)) with
    | Some error => inl error
    | None => inr (srv (exec (server_open c address key) (mk_sys server0 w)))
    end.
Proof.
  intros Hb Hk Hp Hn Ht Hl Hx.
  assert (fz_server_create (Some c) w =
    if c_port c =? 12001 then (inl invalid_configuration, w)
    else if negb calloc_result then (inl "Cannot allocate server", w)
    else match eval (server_open c address key) (mk_sys server0 w) with
         | Some error => (inl error, wld (exec (server_open c address key) (mk_sys server0 w)))
         | None => (inr (srv (exec (server_open c address key) (mk_sys server0 w))),
                    wld (exec (server_open c address key) (mk_sys server0 w)))
         end) as ->.
  { destruct c as [b k port players track league level trace owner]. cbn in *. subst.
    cbn [fz_server_create c_port c_players c_track c_league].
    replace (port <? 1) with false by lia. replace (port >? 65535) with false by lia.
    replace (players <? 2) with false by lia. replace (players >? 4) with false by lia.
    replace (track >? 4) with false by lia. replace (league >? 2) with false by lia.
    replace (Z.of_nat (length key) >? FZ_KEY_MAX) with false by lia. rewrite !orb_false_r, !orb_false_l. done. }
  destruct (c_port c =? 12001); [done|]. destruct calloc_result eqn:Hc; cbn [negb].
  - rewrite (server_open_refusal c address key (mk_sys server0 w) Hc). by destruct (system_refusal _ _ _).
  - unfold system_refusal. by rewrite Hc.
Qed.

(** C32. A command line that is accepted gives a configuration whose fields are
    all in range, with a dedicated room. With such a configuration
    [fz_server_create] fails exactly for one of these reasons, tested in this
    order, and says which: the port is the one kept for discovery, there is no
    memory, no random source, the bind address (which the command line does not
    check) is no IPv4 address, or the socket cannot be opened, bound or made
    non-blocking. Otherwise there is a server, and its room is the empty room
    the configuration describes. *)
Theorem command_line_valid {E : Env} args o w :
  parse_options args options0 = inr o ->
  let c := main_config o in
  wf_config c /\ 1 <= c_port c <= 65535 /\ 2 <= c_players c <= 4 /\ c_track c <= 4 /\ c_league c <= 2 /\
  1 <= c_log_level c <= 3 /\ -1 <= c_trace_player c <= 3 /\ c_owner_nonce c = 0 /\
  match (if c_port c =? 12001 then Some invalid_configuration
         else system_refusal w (op_bind_address o) (c_port c)) with
  | Some error => fst (fz_server_create (Some c) w) = inl error
  | None => exists s, fst (fz_server_create (Some c) w) = inr s /\ good (core s) /\ abs (core s) = opening c
  end.
Proof.
  intros H c. destruct (parse_options_ok args _ _ options0_ok H) as [H1 H2 H3 H4 H5 H6 H7 (key & H8 & H9 & H10)].
  assert (c_room_key c = Some key) as Hk by exact H8.
  assert (c_port c = op_port o /\ c_players c = c_players (op_config o) /\ c_track c = c_track (op_config o) /\
    c_league c = c_league (op_config o) /\ c_owner_nonce c = 0 /\ c_log_level c = c_log_level (op_config o) /\
    c_trace_player c = c_trace_player (op_config o)) as (P1 & P2 & P3 & P4 & P5 & P6 & P7) by done.
  assert (c_bind_address c = Some (op_bind_address o)) as Hb by done.
  assert (wf_config c) as Hw
    by (unfold wf_config, fits; rewrite P1, P2, P3, P4, P5, Hk; cbn [default]; split_and!; try lia; done).
  split; [done|]. do 7 (split; [done || lia|]).
  pose proof (fz_server_create_valid c (op_bind_address o) key w Hb Hk) as Hr.
  rewrite P1, P2, P3, P4 in Hr. specialize (Hr ltac:(lia) ltac:(lia) ltac:(lia) ltac:(lia) H10). rewrite P1.
  destruct (if op_port o =? 12001 then _ else _); [exact Hr|]. rewrite Hr. eexists. split; [done|].
  destruct (fz_server_create (Some c) w) as [[error|s] w'] eqn:Hcr; cbn [fst] in Hr; [done|]. injection Hr as <-.
  exact (fz_server_create_inv _ _ _ _ Hcr Hw).
Qed.

Definition demo_args : list string :=
  ["--port"; "4000"; "--players"; "4"; "--room-key"; "secret"; "--log-level"; "trace"; "--trace-player"; "2"].

Lemma command_line_valid_witness :
  exists o s, parse_options demo_args options0 = inr o /\ c_port (main_config o) = 4000 /\
    c_trace_player (main_config o) = 1 /\ wf_config (main_config o) /\
    fst (fz_server_create (Some (main_config o)) world0) = inr s /\ abs (core s) = opening (main_config o).
Proof.
  assert (exists o, parse_options demo_args options0 = inr o /\ c_port (main_config o) = 4000 /\
    c_trace_player (main_config o) = 1 /\ system_refusal world0 (op_bind_address o) 4000 = None)
    as (o & H1 & H2 & H3 & H4) by (eexists; by vm_compute).
  destruct (command_line_valid demo_args o world0 H1) as (W & _ & _ & _ & _ & _ & _ & _ & H5).
  rewrite H2 in H5. change (4000 =? 12001) with false in H5. rewrite H4 in H5. destruct H5 as (s & H5 & _ & H6).
  exists o, s. by split_and!.
Defined.

(** ** Reading the JSON log *)

Definition hex_value (c : ascii) : option Z :=
  let n := char_code c in
  if (48 <=? n) && (n <=? 57) then Some (n - 48)
  else if (97 <=? n) && (n <=? 102) then Some (n - 87)
  else if (65 <=? n) && (n <=? 70) then Some (n - 55)
  else None.

(** The characters of the escapes of one character. *)
Definition short_escape (c : ascii) : option ascii :=
  if Ascii.eqb c quote || Ascii.eqb c backslash || Ascii.eqb c "/" then Some c
  else if Ascii.eqb c "b" then Some "008"%char
  else if Ascii.eqb c "f" then Some "012"%char
  else if Ascii.eqb c "n" then Some "010"%char
  else if Ascii.eqb c "r" then Some "013"%char
  else if Ascii.eqb c "t" then Some "009"%char
  else None.

Definition unicode_escape (a b c d : ascii) : option ascii :=
  a ← hex_value a; b ← hex_value b; c ← hex_value c; d ← hex_value d;
  let n := ((a * 16 + b) * 16 + c) * 16 + d in
  if n <? 128 then Some (ascii_of_nat (Z.to_nat n)) else None.

(** A reader of JSON strings: the text up to the closing quote, and what
    follows it. Escapes above 127 are not needed here. *)
Fixpoint read_json (l : list ascii) : option (list ascii * list ascii) :=
  match l with
  | [] => None
  | x :: r =>
      if Ascii.eqb x quote then Some ([], r)
      else if Ascii.eqb x backslash then
        match r with
        | u :: r =>
            if Ascii.eqb u "u" then
              match r with
              | a :: b :: c :: d :: r =>
                  y ← unicode_escape a b c d; t ← read_json r; Some (y :: fst t, snd t)
              | _ => None
              end
            else y ← short_escape u; t ← read_json r; Some (y :: fst t, snd t)
        | [] => None
        end
      else if (nat_of_ascii x <? 32)%nat then None
      else t ← read_json r; Some (x :: fst t, snd t)
  end.

(** What [json_escape] writes for one character. *)
Definition json_char (c : ascii) : list ascii :=
  (if Ascii.eqb c quote || Ascii.eqb c backslash then [backslash] else []) ++
  (if (32 <=? nat_of_ascii c)%nat then [c] else backslash :: chars "u" ++ hex 4 (char_code c)).

(** Not a control character. *)
Definition visible (c : ascii) : bool := (32 <=? nat_of_ascii c)%nat.

Lemma control_char c :
  visible c = false ->
  match json_char c with
  | [b; u; x; y; z; t] => b = backslash /\ u = "u"%char /\ unicode_escape x y z t = Some c
  | _ => False
  end.
Proof. destruct c as [[] [] [] [] [] [] [] []]; first [discriminate|intros _; by vm_compute]. Qed.

(** The shapes of what is written, over all characters. *)
Lemma json_char_cases c :
  (visible c = true /\ Ascii.eqb c quote = false /\ Ascii.eqb c backslash = false /\ json_char c = [c]) \/
  (short_escape c = Some c /\ Ascii.eqb c "u" = false /\ json_char c = [backslash; c]) \/
  (exists x y z t, json_char c = [backslash; "u"%char; x; y; z; t] /\ unicode_escape x y z t = Some c).
Proof.
  destruct (visible c) eqn:Hv.
  - destruct (Ascii.eqb_spec c quote) as [->|H1]; [right; left; by vm_compute|].
    destruct (Ascii.eqb_spec c backslash) as [->|H2]; [right; left; by vm_compute|].
    left. unfold visible in Hv. unfold json_char. rewrite Hv.
    destruct (Ascii.eqb_spec c quote) as [->|_]; [done|]. by destruct (Ascii.eqb_spec c backslash).
  - right. right. pose proof (control_char c Hv) as Hc.
    destruct (json_char c) as [|b [|u [|x [|y [|z [|t [|]]]]]]]; try done.
    destruct Hc as (-> & -> & Hc). by exists x, y, z, t.
Qed.

Lemma read_json_char c l : read_json (json_char c ++ l) = t ← read_json l; Some (c :: fst t, snd t).
Proof.
  destruct (json_char_cases c) as [(Hv & H1 & H2 & ->) | [(H1 & H2 & ->) | (x & y & z & t & -> & H)]].
  - cbn [app read_json]. rewrite H1, H2. unfold visible in Hv. apply Nat.leb_le in Hv.
    by replace (nat_of_ascii c <? 32)%nat with false by (symmetry; apply Nat.ltb_ge; lia).
  - change (read_json ([backslash; c] ++ l)) with
      (if Ascii.eqb c "u" then
         match l with
         | a :: b :: c :: d :: r => y ← unicode_escape a b c d; t ← read_json r; Some (y :: fst t, snd t)
         | _ => None
         end
       else y ← short_escape c; t ← read_json l; Some (y :: fst t, snd t)). by rewrite H2, H1.
  - change (read_json ([backslash; "u"%char; x; y; z; t] ++ l)) with
      (c ← unicode_escape x y z t; t ← read_json l; Some (c :: fst t, snd t)). by rewrite H.
Qed.

Lemma json_escape_cons c l :
  json_escape (c :: l) = if (nat_of_ascii c =? 0)%nat then [] else json_char c ++ json_escape l.
Proof. cbn [json_escape]. case_if; [done|]. unfold json_char. by rewrite <- app_assoc. Qed.

(** What was written is read back. *)
Lemma read_json_escape l rest : read_json (json_escape l ++ quote :: rest) = Some (c_text l, rest).
Proof.
  induction l as [|c l IH]; [done|]. rewrite json_escape_cons. cbn [c_text]. case_if; [done|].
  by rewrite <- app_assoc, read_json_char, IH.
Qed.

Lemma json_char_visible c : forallb visible (json_char c) = true.
Proof. by destruct c as [[] [] [] [] [] [] [] []]. Qed.

Lemma json_escape_visible l : forallb visible (json_escape l) = true.
Proof.
  induction l as [|c l IH]; [done|]. rewrite json_escape_cons. case_if; [done|].
  by rewrite forallb_app, json_char_visible, IH.
Qed.

Lemma hex_visible n : forall z, forallb visible (hex n z) = true.
Proof.
  induction n as [|n IH]; intros z; [done|]. cbn [hex]. rewrite forallb_app, IH. cbn. rewrite andb_true_r.
  pose proof (Z.land_nonneg z 15). rewrite Z.land_ones with (n := 4) by lia.
  pose proof (Z.mod_pos_bound z (2 ^ 4)). set (m := z mod 2 ^ 4) in *.
  assert (m = 0 \/ m = 1 \/ m = 2 \/ m = 3 \/ m = 4 \/ m = 5 \/ m = 6 \/ m = 7 \/ m = 8 \/ m = 9 \/ m = 10 \/
    m = 11 \/ m = 12 \/ m = 13 \/ m = 14 \/ m = 15) as Hm by lia.
  clearbody m. by repeat destruct Hm as [-> | Hm]; subst.
Qed.

Lemma digits_visible l : forallb is_digit l = true -> forallb visible l = true.
Proof.
  intros H. apply forallb_forall. intros c Hc. rewrite forallb_forall in H. specialize (H c Hc).
  unfold is_digit in H. unfold visible. apply andb_true_iff in H as [H _]. apply Nat.leb_le in H.
  apply Nat.leb_le. lia.
Qed.

Lemma dec_visible z : forallb visible (chars (dec z)) = true.
Proof.
  destruct z as [|n|n]; [done| |].
  - destruct (pretty_go_digits (N.pos n) "" ltac:(lia)) as (d & E1 & E2 & _). rewrite app_nil_r in E1.
    assert (chars (dec (Z.pos n)) = d) as -> by exact E1. by apply digits_visible.
  - destruct (pretty_go_digits (N.pos n) "" ltac:(lia)) as (d & E1 & E2 & _). rewrite app_nil_r in E1.
    assert (chars (dec (Z.neg n)) = "-"%char :: d) as -> by (cbn; by rewrite <- E1). cbn. by apply digits_visible.
Qed.

Lemma levels_visible z : forallb visible (chars (levels z)) = true.
Proof. unfold levels. by destruct (Z.to_nat z) as [|[|[|[|n]]]]. Qed.

Lemma quoted_visible l : forallb visible l = true -> forallb visible (quoted l) = true.
Proof. intros H. unfold quoted. cbn. by rewrite forallb_app, H. Qed.

Lemma visible_app a b : forallb visible a = true -> forallb visible b = true -> forallb visible (a ++ b) = true.
Proof. intros Ha Hb. by rewrite forallb_app, Ha, Hb. Qed.

(** C31. The JSON log has one object per line, and its messages can be read
    back: a line holds no control character before the line feed that ends it,
    and a JSON reader that has come to the value of the last field gets the
    event's message, as a C string, exactly, with the closing brace after it. *)
Theorem json_log_roundtrip e :
  exists front rest, json_line e = front ++ quote :: rest ++ ["010"%char] /\
    forallb visible (front ++ quote :: rest) = true /\
    (exists before, front = before ++ quoted (chars "message") ++ chars ":") /\
    read_json rest = Some (c_text (chars (e_message e)), chars "}").
Proof.
  set (message := json_escape (chars (e_message e))).
  set (before := chars "{" ++ quoted (chars "monotonic_us") ++ chars ":" ++ chars (dec (e_time_us e)) ++ chars "," ++
    quoted (chars "level") ++ chars ":" ++ quoted (chars (levels (e_level e))) ++ chars "," ++
    quoted (chars "session") ++ chars ":" ++ quoted (hex 16 (e_session e)) ++ chars "," ++
    quoted (chars "race") ++ chars ":" ++ chars (dec (e_race e)) ++ chars "," ++
    quoted (chars "player") ++ chars ":" ++ chars (dec (e_player e + 1)) ++ chars ",").
  exists (before ++ quoted (chars "message") ++ chars ":"), (message ++ quote :: chars "}"). split_and!.
  - assert (json_line e = before ++ quoted (chars "message") ++ chars ":" ++ quoted message ++ chars "}" ++ ["010"%char])
      as -> by (unfold before; by rewrite <- !app_assoc).
    rewrite <- !app_assoc. do 3 f_equal. unfold quoted. rewrite <- app_comm_cons, <- !app_assoc. done.
  - repeat apply visible_app; try reflexivity; try apply quoted_visible;
      auto using dec_visible, levels_visible, hex_visible.
    change (quote :: message ++ quote :: chars "}") with ([quote] ++ message ++ quote :: chars "}").
    repeat apply visible_app; try reflexivity. apply json_escape_visible.
  - by exists before.
  - apply read_json_escape.
Qed.

(** ** The end of the program *)

Section End.
Context {E : Env} {X : MEnv}.

Definition room_ring (σ : MSys) : Prop := ring_ok (ms_server σ).

Lemma on_room_call c : pres room_ring (on_room (run_call c)).
Proof. intros σ H. exact (run_call_ringσ c (mk_sys (ms_server σ) (ms_world σ)) H). Qed.

(** What the calls on the server leave alone. *)
Definition restσ (σ : MSys) := (ms_json_open σ, ms_ready σ, ms_files σ, ms_tests σ).

(** The room and the system, without the program around them. *)
Definition roomσ (σ : MSys) : Sys := mk_sys (ms_server σ) (ms_world σ).

Lemma on_room_roomσ {A} (m : M Sys A) σ : roomσ (exec (on_room m) σ) = exec m (roomσ σ).
Proof. unfold roomσ, on_room, exec. cbn. by destruct (snd _). Qed.

(** The server once [n] events were taken from its ring, or all of them. *)
Definition popped (n : nat) (σ : Sys) : Sys := exec (for_each (replicate n tt) (fun _ => run_call NextEvent)) σ.

Definition emptied : Sys -> Sys := popped 257.

(** [k] polls, each followed by the removal of the logged events: these events,
    and the server afterwards. *)
Fixpoint served (k : nat) (σ : Sys) : list fz_server_event * Sys :=
  match k with
  | O => ([], σ)
  | S k =>
      let σ1 := exec (fz_server_poll 16) σ in
      let r := served k (emptied σ1) in
      (event_queue (srv σ1) ++ fst r, snd r)
  end.

Lemma served_S k σ :
  served (S k) σ =
    (event_queue (srv (exec (fz_server_poll 16) σ)) ++ fst (served k (emptied (exec (fz_server_poll 16) σ))),
     snd (served k (emptied (exec (fz_server_poll 16) σ)))).
Proof. reflexivity. Qed.

(** The events of a server that is polled [k] times and then closed. *)
Definition main_log (k : nat) (σ : Sys) : list fz_server_event :=
  let r := served k σ in
  fst r ++ event_queue (srv (exec fz_server_close (snd r))).

Lemma popped_none n σ : ringσ σ -> event_queue (srv σ) = [] -> popped n σ = σ.
Proof.
  intros R Hq. unfold popped. induction n as [|n IH]; [done|]. cbn [replicate for_each]. rewrite exec_bind.
  assert (exec (run_call NextEvent) σ = σ) as ->; [|exact IH]. cbn [run_call]. rewrite exec_bind, exec_skip.
  unfold fz_server_next_event. rewrite exec_bind, exec_get, eval_get.
  pose proof (event_queue_length (srv σ)) as Hl. rewrite Hq in Hl. destruct R as (_ & _ & R). cbn in Hl.
  by replace (s_event_count (srv σ) =? 0) with true by lia.
Qed.

Lemma popped_socket n : forall σ, s_socket (srv (popped n σ)) = s_socket (srv σ).
Proof.
  unfold popped. induction n as [|n IH]; intros σ; [done|]. cbn [replicate for_each run_call].
  rewrite exec_bind, IH, exec_bind, exec_skip. unfold fz_server_next_event. rewrite exec_bind.
  change (eval get σ) with (srv σ). change (exec get σ) with σ. by case_if.
Qed.

(** What was written so far, and what [drain] adds. *)
Definition writes (events : list fz_server_event) (σ τ : MSys) : Prop :=
  ms_stdout τ = ms_stdout σ ++ map text_line events /\
  ms_json τ = ms_json σ ++ (if ms_json_open σ then map json_line events else []).

Lemma writes_app l1 l2 σ1 σ2 σ3 :
  ms_json_open σ2 = ms_json_open σ1 -> writes l1 σ1 σ2 -> writes l2 σ2 σ3 -> writes (l1 ++ l2) σ1 σ3.
Proof.
  intros Ho [A1 A2] [B1 B2]. unfold writes. rewrite B1, A1, B2, A2, Ho, !map_app, <- !app_assoc.
  split; [done|]. by destruct (ms_json_open σ1).
Qed.

Lemma writes_nil σ τ : ms_stdout τ = ms_stdout σ -> ms_json τ = ms_json σ -> writes [] σ τ.
Proof. unfold writes. intros -> ->. split; [by rewrite app_nil_r|]. destruct (ms_json_open σ); by rewrite app_nil_r. Qed.

Lemma main_drain_loop_all n : forall σ,
  room_ring σ -> (length (event_queue (ms_server σ)) < n)%nat ->
  let τ := exec (main_drain_loop n) σ in
  room_ring τ /\ event_queue (ms_server τ) = [] /\ restσ τ = restσ σ /\
  roomσ τ = popped n (roomσ σ) /\ writes (event_queue (ms_server σ)) σ τ.
Proof.
  induction n as [|n IH]; intros σ R Hn; [lia|]. cbn [main_drain_loop]. cbv zeta. rewrite exec_bind.
  destruct (fz_server_next_event_queue (roomσ σ) R) as (R' & He & Hq). cbn [srv roomσ] in He, Hq.
  change (eval (on_room fz_server_next_event) σ) with (eval fz_server_next_event (roomσ σ)). rewrite He.
  set (τ := exec (on_room fz_server_next_event) σ).
  assert (room_ring τ) as Rt by exact R'.
  assert (event_queue (ms_server τ) = tail (event_queue (ms_server σ))) as Qt by exact Hq.
  assert (restσ τ = restσ σ /\ ms_stdout τ = ms_stdout σ /\ ms_json τ = ms_json σ /\ ms_json_open τ = ms_json_open σ)
    as (Kr & Ks & Kj & Ko) by done.
  assert (popped (S n) (roomσ σ) = popped n (roomσ τ)) as Kp.
  { unfold popped, τ. cbn [replicate for_each run_call]. by rewrite exec_bind, on_room_roomσ, exec_bind, exec_skip. }
  rewrite Kp. clearbody τ. destruct (event_queue (ms_server σ)) as [|e l]; cbn [hd_error].
  - rewrite exec_skip. split_and!; try done; [|by apply writes_nil]. symmetry. by apply popped_none.
  - cbn [tail] in Qt. rewrite exec_bind. set (τ' := exec (write_event e) τ).
    assert (room_ring τ' /\ ms_server τ' = ms_server τ /\ restσ τ' = restσ τ /\ ms_json_open τ' = ms_json_open τ /\
      roomσ τ' = roomσ τ /\ ms_stdout τ' = ms_stdout τ ++ [text_line e] /\
      ms_json τ' = (if ms_json_open τ then ms_json τ ++ [json_line e] else ms_json τ))
      as (L1 & L2 & L3 & L4 & L5 & L6 & L7) by done.
    clearbody τ'. destruct (IH τ' L1) as (I1 & I2 & I3 & I4 & I5); [rewrite L2, Qt; cbn in Hn; lia|].
    rewrite L2, Qt in I5. split_and!; try done; try congruence.
    apply (writes_app [e] l σ τ'); [congruence| |exact I5]. split; [by rewrite L6, Ks|].
    rewrite L7, Ko, Kj. destruct (ms_json_open σ); [done|by rewrite app_nil_r].
Qed.

Lemma drain_all σ :
  room_ring σ ->
  let τ := exec drain σ in
  room_ring τ /\ event_queue (ms_server τ) = [] /\ restσ τ = restσ σ /\
  roomσ τ = emptied (roomσ σ) /\ writes (event_queue (ms_server σ)) σ τ.
Proof.
  intros R. apply main_drain_loop_all; [done|].
  rewrite event_queue_length. destruct R as (_ & _ & R). lia.
Qed.

(** The loop ends at the test that sees the signal, if not before, and writes
    what the server logged. *)
Lemma main_loop_ends n fuel : forall σ result,
  interrupted n = true -> room_ring σ -> (ms_tests σ <= n < ms_tests σ + fuel)%nat ->
  let τ := exec (main_loop fuel result) σ in
  is_Some (eval (main_loop fuel result) σ) /\ room_ring τ /\ ms_json_open τ = ms_json_open σ /\
  ms_ready τ = ms_ready σ /\
  exists k, (ms_tests σ + k <= n)%nat /\ roomσ τ = snd (served k (roomσ σ)) /\ writes (fst (served k (roomσ σ))) σ τ.
Proof.
  induction fuel as [|fuel IH]; intros σ result Hi R Hn; [lia|]. cbn [main_loop]. cbv zeta.
  rewrite exec_bind, eval_bind. change (eval stopping_flag σ) with (interrupted (ms_tests σ)).
  set (τ := exec stopping_flag σ).
  assert (room_ring τ /\ ms_tests τ = S (ms_tests σ) /\ ms_json_open τ = ms_json_open σ /\ ms_ready τ = ms_ready σ /\
    roomσ τ = roomσ σ /\ writes [] σ τ)
    as (T1 & T2 & T3 & T4 & T5 & T6) by (split_and!; try done; by apply writes_nil).
  clearbody τ. destruct (interrupted (ms_tests σ) || (result <=? 0)) eqn:Hb.
  { split_and!; try done. exists 0%nat. split_and!; [lia|done|done]. }
  apply orb_false_iff in Hb as [Hb _].
  assert (ms_tests σ <> n) as Hne by (intros He; by rewrite He, Hi in Hb).
  rewrite exec_bind, eval_bind. generalize (eval (on_room (fz_server_poll 16)) τ). intros result'.
  pose proof (on_room_call (Poll 16) τ T1) as P1. set (τ1 := exec (on_room (fz_server_poll 16)) τ).
  assert (room_ring τ1 /\ restσ τ1 = restσ τ /\ roomσ τ1 = exec (fz_server_poll 16) (roomσ τ) /\ writes [] τ τ1)
    as (P2 & P3 & P4 & P5).
  { split_and!; [exact P1|done|apply on_room_roomσ|by apply writes_nil]. }
  clearbody τ1.
  rewrite exec_bind, eval_bind. destruct (drain_all τ1 P2) as (D1 & _ & D3 & DR & DW).
  set (τ2 := exec drain τ1) in *. clearbody τ2. rewrite P3 in D3. injection D3 as D3 D4 D5 D6. injection P3 as P6 _ _ _.
  destruct (IH τ2 result' Hi D1) as (I1 & I2 & I3 & I4 & k & I5 & I6 & I7); [rewrite D6; lia|].
  split; [exact I1|]. split; [exact I2|]. split; [congruence|]. split; [congruence|]. exists (S k).
  rewrite served_S, <- T5, <- P4, <- DR. cbn [fst snd]. split; [lia|]. split; [exact I6|].
  apply (writes_app [] _ σ τ); [done|done|]. apply (writes_app [] _ τ τ1); [congruence|done|].
  apply (writes_app _ _ τ1 τ2); [congruence|exact DW|exact I7].
Qed.

Lemma close_socket σ : s_socket (ms_server (exec (on_room fz_server_close) σ)) < 0.
Proof.
  unfold on_room, exec. cbn [snd ms_server]. fold (exec fz_server_close (mk_sys (ms_server σ) (ms_world σ))).
  unfold fz_server_close. rewrite exec_bind. change (eval get (mk_sys (ms_server σ) (ms_world σ))) with (ms_server σ).
  destruct (Z.ltb_spec (s_socket (ms_server σ)) 0); [done|]. by rewrite !exec_bind.
Qed.

Lemma close_again σ :
  s_socket (ms_server σ) < 0 -> exec (on_room fz_server_destroy) σ = σ.
Proof.
  intros H. unfold on_room, exec, fz_server_destroy, fz_server_close, bind, get, gets. cbn.
  rewrite (proj2 (Z.ltb_lt _ _) H). by destruct σ.
Qed.

(** The end of [main]: on success what the server logged was written. *)
Lemma serve_main_ends n ready σ :
  interrupted n = true -> room_ring σ -> ms_tests σ = 0%nat -> ms_ready σ = false ->
  exists code τ, serve_main (S n) ready σ = (Some code, τ) /\ 0 <= code <= 1 /\ ms_json_open τ = false /\
    s_socket (ms_server τ) < 0 /\ (ms_ready τ = true -> code = 1) /\
    (code = 0 -> event_queue (ms_server τ) = [] /\
       exists k, (k <= n)%nat /\ writes (main_log k (roomσ σ)) σ τ).
Proof.
  intros Hi R Ht Hf. exists (default 0 (eval (serve_main (S n) ready) σ)), (exec (serve_main (S n) ready) σ).
  enough (is_Some (eval (serve_main (S n) ready) σ) /\ 0 <= default 0 (eval (serve_main (S n) ready) σ) <= 1 /\
    let τ := exec (serve_main (S n) ready) σ in ms_json_open τ = false /\ s_socket (ms_server τ) < 0 /\
    (ms_ready τ = true -> default 0 (eval (serve_main (S n) ready) σ) = 1) /\
    (default 0 (eval (serve_main (S n) ready) σ) = 0 -> event_queue (ms_server τ) = [] /\
       exists k, (k <= n)%nat /\ writes (main_log k (roomσ σ)) σ τ)) as ([r Hr] & H1 & H2).
  { split; [|by split]. rewrite (surjective_pairing (serve_main (S n) ready σ)). fold (exec (serve_main (S n) ready) σ).
    fold (eval (serve_main (S n) ready) σ). by rewrite Hr. }
  unfold serve_main. rewrite eval_bind, exec_bind. cbv zeta.
  assert (let τ := exec (main_ready ready) σ in room_ring τ /\ ms_tests τ = 0%nat /\
    (ready = None -> ms_ready τ = false) /\ roomσ τ = roomσ σ /\ ms_json_open τ = ms_json_open σ /\ writes [] σ τ)
    as (R1 & R2 & R3 & R4 & R5 & R6).
  { assert (writes [] σ σ) as W0 by (by apply writes_nil).
    unfold main_ready. destruct ready as [path|]; [|done]. rewrite exec_bind. destruct (negb _); done. }
  revert R1 R2 R3 R4 R5 R6. generalize (exec (main_ready ready) σ) (eval (main_ready ready) σ). clear Ht Hf.
  intros τ [|] R1 R2 R3 R4 R5 R6.
  { rewrite !eval_bind, !exec_bind, eval_ret, exec_ret. split_and!; try done. exact (close_socket τ). }
  rewrite eval_bind, exec_bind.
  destruct (main_loop_ends n (S n) τ 1 Hi R1) as ([r Hr] & L1 & L2 & L3 & k & L4 & L5 & L6); [lia|].
  rewrite Hr. revert L1 L2 L3 L5 L6. generalize (exec (main_loop (S n) 1) τ). intros τ1 L1 L2 L3 L5 L6.
  rewrite !eval_bind, !exec_bind, eval_ret, exec_ret. cbn [default].
  pose proof (close_socket τ1) as C1. pose proof (on_room_call Close τ1 L1) as C2.
  assert (room_ring (exec (on_room fz_server_close) τ1)) as C3 by exact C2. clear C2.
  pose proof (on_room_roomσ fz_server_close τ1) as C4.
  assert (restσ (exec (on_room fz_server_close) τ1) = restσ τ1 /\ writes [] τ1 (exec (on_room fz_server_close) τ1)) as [C5 C6]
    by (split; [done|by apply writes_nil]).
  revert C1 C3 C4 C5 C6. generalize (exec (on_room fz_server_close) τ1). intros τ2 C1 C3 C4 C5 C6.
  injection C5 as C5 C7 _ _. destruct (drain_all τ2 C3) as (D1 & D2 & D3 & D4 & D5). revert D1 D2 D3 D4 D5.
  generalize (exec drain τ2). intros τ3 D1 D2 D3 D4 D5. injection D3 as D6 D7 _ _.
  assert (s_socket (ms_server τ3) < 0) as D8.
  { change (s_socket (srv (roomσ τ3)) < 0). rewrite D4. unfold emptied. by rewrite popped_socket. }
  rewrite close_again by exact D8.
  split; [done|]. split; [destruct (r <? 0); cbn; lia|]. split; [done|]. split; [exact D8|]. split.
  - intros H. exfalso. assert ((if ready is Some _ then false else ms_ready τ3) = true) as H' by exact H. clear H.
    destruct ready; [done|]. rewrite D7, C7, L3, R3 in H'; done.
  - intros _. split; [exact D2|]. exists k. split; [lia|].
    assert (writes (main_log k (roomσ σ)) σ τ3) as W; [|exact W].
    rewrite <- R4. unfold main_log. rewrite <- L5, <- C4.
    apply (writes_app [] _ σ τ); [done|done|]. apply (writes_app _ _ τ τ1); [congruence|exact L6|].
    apply (writes_app [] _ τ1 τ2); [congruence|done|]. exact D5.
Qed.

(** C30. A signal ends the program. If the flag is set at its [n]-th test, the
    loop has ended by then, whatever the network and the system did before:
    [main] returns 0, 1 or 2; the JSON log is closed and so is the socket of
    the server, if one was made; the readiness file is gone unless the exit
    code says that it failed. With exit code 0 either only the help was asked
    for, or the server was created and polled [k <= n] times, and the lines on
    the standard output are, in order and once each, the events that were in
    its log after each of these polls and after it was closed, to which nothing
    is left to add; the JSON log has the same events, if there is one. (What
    the bounded log of the server dropped between two polls is not in it.) *)
Theorem main_ends args w n :
  interrupted n = true ->
  exists code σ, main (S n) args w = (Some code, σ) /\ 0 <= code <= 2 /\ ms_json_open σ = false /\
    (ms_server σ = server0 \/ s_socket (ms_server σ) < 0) /\
    (ms_ready σ = true -> code = 1) /\
    (code = 0 -> event_queue (ms_server σ) = [] /\
       (parse_options args options0 = inl 0 \/
        exists o s w' k, parse_options args options0 = inr o /\
          fz_server_create (Some (main_config o)) w = (inr s, w') /\ (k <= n)%nat /\
          let events := main_log k (mk_sys s w') in
          ms_stdout σ = map text_line events /\
          ms_json σ = if op_json_path o is Some _ then map json_line events else [])).
Proof.
  intros Hi. unfold main. destruct (parse_options args options0) as [code|o] eqn:Ho.
  { exists code, (main_start w). split; [done|]. split; [exact (parse_options_code args _ _ Ho)|].
    split; [done|]. split; [by left|]. split; [done|]. intros ->. split; [done|by left]. }
  set (start := match op_json_path o with None => (true, main_start w) | Some _ => _ end).
  assert (ms_server (snd start) = server0 /\ ms_world (snd start) = w /\ restσ (snd start) = restσ (snd start) /\
    ms_tests (snd start) = 0%nat /\ ms_ready (snd start) = false /\ ms_stdout (snd start) = [] /\ ms_json (snd start) = [] /\
    (fst start = false -> ms_json_open (snd start) = false) /\
    (fst start = true -> ms_json_open (snd start) = if op_json_path o is Some _ then true else false))
    as (H1 & H2 & _ & H3 & H4 & H5 & H6 & H7 & H8) by (unfold start; by destruct (op_json_path o)).
  clearbody start. destruct start as [opened σ]. cbn [fst snd] in *.
  destruct opened; cbn [negb]; [|exists 1, σ; by split_and!; auto].
  rewrite H2. destruct (fz_server_create _ _) as [[error|s] w'] eqn:Hc.
  - eexists _, _. split; [done|]. by split_and!; auto.
  - destruct (serve_main_ends n (op_ready o) {| σ with ms_server := s; ms_world := w' |} Hi)
      as (code & τ & J1 & J2 & J3 & J4 & J5 & J6); try done; [by eapply fz_server_create_ring|].
    exists code, τ. split; [exact J1|]. split; [lia|]. split; [done|]. split; [by right|]. split; [done|].
    intros Hz. destruct (J6 Hz) as (J7 & k & J8 & J9 & J10). split; [done|]. right. exists o, s, w', k.
    cbn [ms_stdout ms_json ms_json_open] in J9, J10. rewrite H5 in J9. rewrite H6, (H8 eq_refl) in J10.
    split_and!; try done. rewrite J10. by destruct (op_json_path o).
Qed.

End End.

(** ** One run of the program *)

(** The signal arrives before the second test; every file operation succeeds. *)
#[export] Instance brief_env : MEnv := {| main_file_ok n := true; interrupted n := (1 <=? n)%nat |}.

Definition brief_args : list string := ["--bind"; "127.0.0.1"; "--ready-file"; "/tmp/ready"; "--json-log"; "/tmp/log"].

Example brief_run :
  let r := main 2 brief_args world0 in
  fst r = Some 0 /\ length (ms_stdout (snd r)) = length (ms_json (snd r)) /\ last (ms_stdout (snd r)) <> None.
Proof. by vm_compute. Qed.

Lemma main_ends_witness :
  exists σ s w' k, main 2 brief_args world0 = (Some 0, σ) /\ ms_ready σ = false /\ ms_json_open σ = false /\
    ms_stdout σ = map text_line (main_log k (mk_sys s w')) /\
    ms_json σ = map json_line (main_log k (mk_sys s w')).
Proof.
  assert (interrupted 1 = true) as Hi by reflexivity.
  assert (fst (main 2 brief_args world0) = Some 0) as Hz by (by vm_compute).
  assert (parse_options brief_args options0 <> inl 0) as Hp by (by vm_compute).
  assert (forall o, parse_options brief_args options0 = inr o -> is_Some (op_json_path o)) as Hj
    by (intros o Ho; vm_compute in Ho; injection Ho as <-; by eexists).
  destruct (main_ends brief_args world0 1 Hi) as (code & σ & H1 & _ & H2 & _ & H3 & H4).
  rewrite H1 in Hz. injection Hz as ->. destruct (H4 eq_refl) as (_ & [H|(o & s & w' & k & H5 & _ & _ & H6 & H7)]); [done|].
  exists σ, s, w', k. destruct (Hj o H5) as [path Hpath]. rewrite Hpath in H7.
  split; [exact H1|]. split; [|by split_and!]. destruct (ms_ready σ); [by specialize (H3 eq_refl)|done].
Defined.
